(** * i915 GTT/PPGTT page tables and the DRM atomic modeset helpers

    A shallow embedding of
    - [drivers/gpu/drm/i915/i915_gem_gtt.c]: the per-generation PTE encoders,
      the gen6 and gen8 PPGTT page-table walkers ([clear_range],
      [insert_entries]), PPGTT initialisation and the VMA unbind hooks;
    - [drivers/gpu/drm/drm_atomic_helper.c]: connector routing, the check
      phase and the commit entry point,
    followed by the properties established for them.

    Conventions. C unsigned integers are [Z] with the wrap-around written
    out ([u32], [u64]); arrays are lists read with [!!] and written with
    [<[_:=_]>]; reading an array slot that does not exist, or dereferencing a
    NULL pointer, is a fault and is modelled by [None]. *)

From Stdlib Require Import ZArith Lia Bool List.
From stdpp Require Import base tactics option list numbers.

Local Open Scope Z_scope.

(** ** Machine integers *)

Definition u32 (x : Z) : Z := x mod 2 ^ 32.
Definition u64 (x : Z) : Z := x mod 2 ^ 64.

(** errno values returned (negated) by the code below *)
Definition EIO : Z := 5.
Definition ENOMEM : Z := 12.
Definition EBUSY : Z := 16.
Definition EINVAL : Z := 22.
Definition ENOSPC : Z := 28.
Definition EDEADLK : Z := 35.

Definition PAGE_SHIFT : Z := 12.
Definition PAGE_SIZE : Z := 4096.

(** ** PTE encoders *)

(** [enum i915_cache_level].  [I915_CACHE_unknown] stands for any value of the
    C enum type that is none of the four enumerators. *)
Inductive i915_cache_level :=
| I915_CACHE_NONE
| I915_CACHE_LLC
| I915_CACHE_L3_LLC
| I915_CACHE_WT
| I915_CACHE_unknown.

(** The bit constants and address macros the encoders use.  They are declared
    in [i915_gem_gtt.h] and the x86 page-table headers, which are not part of
    the sources at hand, so the encoders take them as a parameter. *)
Record pte_hw := {
  _PAGE_PRESENT : Z;
  _PAGE_RW : Z;
  PPAT_UNCACHED_INDEX : Z;
  PPAT_DISPLAY_ELLC_INDEX : Z;
  PPAT_CACHED_INDEX : Z;
  PPAT_CACHED_PDE_INDEX : Z;
  GEN6_PTE_VALID : Z;
  GEN6_PTE_UNCACHED : Z;
  GEN6_PTE_CACHE_LLC : Z;
  GEN7_PTE_CACHE_L3_LLC : Z;
  BYT_PTE_WRITEABLE : Z;
  BYT_PTE_SNOOPED_BY_CPU_CACHES : Z;
  HSW_WB_LLC_AGE3 : Z;
  HSW_WT_ELLC_LLC_AGE3 : Z;
  HSW_WB_ELLC_LLC_AGE3 : Z;
  PTE_READ_ONLY : Z;
  GEN6_PTE_ADDR_ENCODE : Z -> Z;
  HSW_PTE_ADDR_ENCODE : Z -> Z;
  GEN6_PDE_VALID : Z;
  GEN6_PDE_ADDR_ENCODE : Z -> Z;
}.

(** [HSW_CACHEABILITY_CONTROL(bits)]: the low three bits go to bits 3:1 of the
    PTE, the fourth one to bit 11. *)
Definition HSW_CACHEABILITY_CONTROL (bits : Z) : Z :=
  Z.lor (Z.shiftl (Z.land bits 7) 1) (Z.shiftl (Z.land bits 8) (11 - 3)).

(** The values the driver headers give these constants; used wherever a
    concrete bit pattern is evaluated. *)
Definition i915_hw : pte_hw := {|
  _PAGE_PRESENT := 1;
  _PAGE_RW := 2;
  PPAT_UNCACHED_INDEX := Z.lor 8 16;
  PPAT_DISPLAY_ELLC_INDEX := 16;
  PPAT_CACHED_INDEX := 128;
  PPAT_CACHED_PDE_INDEX := 0;
  GEN6_PTE_VALID := Z.shiftl 1 0;
  GEN6_PTE_UNCACHED := Z.shiftl 1 1;
  GEN6_PTE_CACHE_LLC := Z.shiftl 2 1;
  GEN7_PTE_CACHE_L3_LLC := Z.shiftl 3 1;
  BYT_PTE_WRITEABLE := Z.shiftl 1 1;
  BYT_PTE_SNOOPED_BY_CPU_CACHES := Z.shiftl 1 2;
  HSW_WB_LLC_AGE3 := HSW_CACHEABILITY_CONTROL 2;
  HSW_WT_ELLC_LLC_AGE3 := HSW_CACHEABILITY_CONTROL 7;
  HSW_WB_ELLC_LLC_AGE3 := HSW_CACHEABILITY_CONTROL 8;
  PTE_READ_ONLY := Z.shiftl 1 0;
  GEN6_PTE_ADDR_ENCODE := fun addr => Z.lor addr (Z.land (Z.shiftr addr 28) 4080);
  HSW_PTE_ADDR_ENCODE := fun addr => Z.lor addr (Z.land (Z.shiftr addr 28) 2032);
  GEN6_PDE_VALID := Z.shiftl 1 0;
  GEN6_PDE_ADDR_ENCODE := fun addr => Z.lor addr (Z.land (Z.shiftr addr 28) 4080);
|}.

(** The type of [vm->pte_encode]: the entry, and whether [WARN_ON] fired. *)
Definition pte_encode_fn : Type :=
  Z -> i915_cache_level -> bool -> Z -> Z * bool.

Section pte_encode.
Context (hw : pte_hw).

Definition gen8_pte_encode (addr : Z) (level : i915_cache_level)
    (valid : bool) : Z :=
  let pte := if valid then Z.lor (_PAGE_PRESENT hw) (_PAGE_RW hw) else 0 in
  let pte := u64 (Z.lor pte addr) in
  match level with
  | I915_CACHE_NONE => u64 (Z.lor pte (PPAT_UNCACHED_INDEX hw))
  | I915_CACHE_WT => u64 (Z.lor pte (PPAT_DISPLAY_ELLC_INDEX hw))
  | _ => u64 (Z.lor pte (PPAT_CACHED_INDEX hw))
  end.

Definition gen8_pde_encode (addr : Z) (level : i915_cache_level) : Z :=
  let pde := Z.lor (_PAGE_PRESENT hw) (_PAGE_RW hw) in
  let pde := u64 (Z.lor pde addr) in
  match level with
  | I915_CACHE_NONE => u64 (Z.lor pde (PPAT_UNCACHED_INDEX hw))
  | _ => u64 (Z.lor pde (PPAT_CACHED_PDE_INDEX hw))
  end.

Definition snb_pte_encode : pte_encode_fn := fun addr level valid unused =>
  let pte := if valid then GEN6_PTE_VALID hw else 0 in
  let pte := u32 (Z.lor pte (GEN6_PTE_ADDR_ENCODE hw addr)) in
  match level with
  | I915_CACHE_L3_LLC
  | I915_CACHE_LLC => (u32 (Z.lor pte (GEN6_PTE_CACHE_LLC hw)), false)
  | I915_CACHE_NONE => (u32 (Z.lor pte (GEN6_PTE_UNCACHED hw)), false)
  | _ => (pte, true)
  end.

Definition ivb_pte_encode : pte_encode_fn := fun addr level valid unused =>
  let pte := if valid then GEN6_PTE_VALID hw else 0 in
  let pte := u32 (Z.lor pte (GEN6_PTE_ADDR_ENCODE hw addr)) in
  match level with
  | I915_CACHE_L3_LLC => (u32 (Z.lor pte (GEN7_PTE_CACHE_L3_LLC hw)), false)
  | I915_CACHE_LLC => (u32 (Z.lor pte (GEN6_PTE_CACHE_LLC hw)), false)
  | I915_CACHE_NONE => (u32 (Z.lor pte (GEN6_PTE_UNCACHED hw)), false)
  | _ => (pte, true)
  end.

Definition byt_pte_encode : pte_encode_fn := fun addr level valid flags =>
  let pte := if valid then GEN6_PTE_VALID hw else 0 in
  let pte := u32 (Z.lor pte (GEN6_PTE_ADDR_ENCODE hw addr)) in
  let pte :=
    if Z.land flags (PTE_READ_ONLY hw) =? 0
    then u32 (Z.lor pte (BYT_PTE_WRITEABLE hw)) else pte in
  let pte :=
    match level with
    | I915_CACHE_NONE => pte
    | _ => u32 (Z.lor pte (BYT_PTE_SNOOPED_BY_CPU_CACHES hw))
    end in
  (pte, false).

Definition hsw_pte_encode : pte_encode_fn := fun addr level valid unused =>
  let pte := if valid then GEN6_PTE_VALID hw else 0 in
  let pte := u32 (Z.lor pte (HSW_PTE_ADDR_ENCODE hw addr)) in
  let pte :=
    match level with
    | I915_CACHE_NONE => pte
    | _ => u32 (Z.lor pte (HSW_WB_LLC_AGE3 hw))
    end in
  (pte, false).

Definition iris_pte_encode : pte_encode_fn := fun addr level valid unused =>
  let pte := if valid then GEN6_PTE_VALID hw else 0 in
  let pte := u32 (Z.lor pte (HSW_PTE_ADDR_ENCODE hw addr)) in
  let pte :=
    match level with
    | I915_CACHE_NONE => pte
    | I915_CACHE_WT => u32 (Z.lor pte (HSW_WT_ELLC_LLC_AGE3 hw))
    | _ => u32 (Z.lor pte (HSW_WB_ELLC_LLC_AGE3 hw))
    end in
  (pte, false).

(** The encoders a gen6/gen7 address space can be given as [pte_encode]. *)
Definition gen6_encoders : list pte_encode_fn :=
  [snb_pte_encode; ivb_pte_encode; byt_pte_encode; hsw_pte_encode;
   iris_pte_encode].

End pte_encode.

(** ** Page-table pages and the walkers over them *)

(** What a walker does to table pages besides writing entries:
    [kmap_atomic], [drm_clflush_virt_range] and [kunmap_atomic], in program
    order. *)
Inductive kevent := Kmap | Kclflush | Kunmap.

(** [if (!HAS_LLC(dev)) drm_clflush_virt_range(pt_vaddr, PAGE_SIZE)] *)
Definition clflush_unless (has_llc : bool) : list kevent :=
  if has_llc then [] else [Kclflush].

(** No [kmap_atomic] while a page is mapped, flushes and unmaps only of a
    mapped page, nothing left mapped at the end. *)
Fixpoint kmap_one_at_a_time (mapped : bool) (tr : list kevent) : bool :=
  match tr with
  | [] => negb mapped
  | Kmap :: tr => negb mapped && kmap_one_at_a_time true tr
  | Kclflush :: tr => mapped && kmap_one_at_a_time mapped tr
  | Kunmap :: tr => mapped && kmap_one_at_a_time false tr
  end.

(** [for (i = first; i < last; i++) pt_vaddr[i] = pte;] *)
Definition fill_page (pt_vaddr : list Z) (first last pte : Z) : list Z :=
  foldl (fun pg i => <[Z.to_nat i := pte]> pg) pt_vaddr
    (seqZ first (last - first)).

(** *** The walk over a store of table pages addressed by table number

    Both PPGTT layouts keep their entries in table pages of [P] entries each;
    entry [k] of the address space lives in table [k / P] at slot [k mod P].
    The two walks below are the common shape of the gen6 and gen8 loops, on
    unbounded integers; the loops of the source are given after them and
    related to them in the second part. *)
Section walk.
Context {St : Type}.
Context (pt_get : St -> Z -> option (list Z)).
Context (pt_set : St -> Z -> list Z -> St).
Context (P : Z) (has_llc : bool).

Fixpoint walk_clear (fuel : nat) (s : St) (act_pt first_pte num_entries : Z)
    (pte : Z) : option (St * list kevent) :=
  if num_entries =? 0 then Some (s, []) else
  match fuel with
  | O => None
  | S fuel' =>
    let last_pte := Z.min (first_pte + num_entries) P in
    pt_vaddr ← pt_get s act_pt;
    let s1 := pt_set s act_pt (fill_page pt_vaddr first_pte last_pte pte) in
    '(s', tr) ← walk_clear fuel' s1 (act_pt + 1) 0
                  (num_entries - (last_pte - first_pte)) pte;
    Some (s', Kmap :: clflush_unless has_llc ++ Kunmap :: tr)
  end.

(** The state of the insert loop between two pages of the list: the store,
    the table and slot to write next, and whether the table is mapped. *)
Definition walk_cursor : Type := Z * Z * bool.

Fixpoint walk_insert (ptes : list Z) (s : St) (act_pt act_pte : Z)
    (mapped : bool) : option (St * list kevent * walk_cursor) :=
  match ptes with
  | [] => Some (s, [], (act_pt, act_pte, mapped))
  | pte :: ptes' =>
    pt_vaddr ← pt_get s act_pt;
    let s1 := pt_set s act_pt (<[Z.to_nat act_pte := pte]> pt_vaddr) in
    let ev := if mapped then [] else [Kmap] in
    if act_pte + 1 =? P then
      '(s', tr, c) ← walk_insert ptes' s1 (act_pt + 1) 0 false;
      Some (s', ev ++ clflush_unless has_llc ++ Kunmap :: tr, c)
    else
      '(s', tr, c) ← walk_insert ptes' s1 act_pt (act_pte + 1) true;
      Some (s', ev ++ tr, c)
  end.

(** [if (pt_vaddr) kunmap_atomic(pt_vaddr);] after the loop *)
Definition walk_insert_finish (r : St * list kevent * walk_cursor)
    : St * list kevent :=
  let '(s, tr, (_, _, mapped)) := r in
  (s, tr ++ (if mapped then clflush_unless has_llc ++ [Kunmap] else [])).

(** Entry [k] of the address space. *)
Definition pte_at (s : St) (k : Z) : option Z :=
  pt_vaddr ← pt_get s (k / P); pt_vaddr !! Z.to_nat (k mod P).

End walk.

(** *** gen6: one array of table pages *)

(** [PAGE_SIZE / sizeof(gen6_gtt_pte_t)], a gen6 entry being 4 bytes *)
Definition I915_PPGTT_PT_ENTRIES : Z := PAGE_SIZE / 4.
(** "PPGTT PDEs reside in the GGTT and consists of 512 entries." *)
Definition GEN6_PPGTT_PD_ENTRIES : Z := 512.
Definition GEN6_PD_SIZE : Z := GEN6_PPGTT_PD_ENTRIES * PAGE_SIZE.
Definition GEN6_PD_ALIGN : Z := PAGE_SIZE * 16.

(** The functions [switch_mm] can point to. *)
Inductive mm_switch := gen6_mm_switch | hsw_mm_switch | gen7_mm_switch
                     | gen8_mm_switch.

(** [struct i915_hw_ppgtt], the members the gen6 code uses.  A table page is
    the list of its entries; [node] is the start and size of the node the
    page directory occupies in the global GTT. *)
Record gen6_ppgtt := {
  scratch_addr : Z;              (* base.scratch.addr *)
  pte_encode : pte_encode_fn;    (* base.pte_encode *)
  total : Z;                     (* base.total *)
  num_pd_entries : Z;
  pt_pages : list (list Z);
  pt_dma_addr : list Z;
  pd_offset : Z;
  node : Z * Z;
  switch_mm : mm_switch;
}.

Definition gen6_set_pt_pages (ppgtt : gen6_ppgtt) (pages : list (list Z))
    : gen6_ppgtt :=
  {| scratch_addr := scratch_addr ppgtt; pte_encode := pte_encode ppgtt;
     total := total ppgtt; num_pd_entries := num_pd_entries ppgtt;
     pt_pages := pages; pt_dma_addr := pt_dma_addr ppgtt;
     pd_offset := pd_offset ppgtt; node := node ppgtt;
     switch_mm := switch_mm ppgtt |}.

(** The [while (num_entries)] loop of [gen6_ppgtt_clear_range].  Every
    iteration consumes at least one entry, so [num_entries] iterations of
    fuel are enough. *)
Fixpoint gen6_clear_loop (fuel : nat) (pt_pages : list (list Z))
    (act_pt first_pte num_entries scratch_pte : Z)
    : option (list (list Z) * list kevent) :=
  if num_entries =? 0 then Some (pt_pages, []) else
  match fuel with
  | O => None
  | S fuel' =>
    let last_pte := u32 (first_pte + num_entries) in
    let last_pte :=
      if last_pte >? I915_PPGTT_PT_ENTRIES then I915_PPGTT_PT_ENTRIES
      else last_pte in
    pt_vaddr ← pt_pages !! Z.to_nat act_pt;
    let pt_vaddr := fill_page pt_vaddr first_pte last_pte scratch_pte in
    '(pages', tr) ← gen6_clear_loop fuel'
                      (<[Z.to_nat act_pt := pt_vaddr]> pt_pages)
                      (u32 (act_pt + 1)) 0
                      (u32 (num_entries - u32 (last_pte - first_pte)))
                      scratch_pte;
    Some (pages', Kmap :: Kunmap :: tr)
  end.

Definition gen6_ppgtt_clear_range (ppgtt : gen6_ppgtt) (start length : Z)
    (use_scratch : bool) : option (gen6_ppgtt * list kevent) :=
  let first_entry := u32 (Z.shiftr start PAGE_SHIFT) in
  let num_entries := u32 (Z.shiftr length PAGE_SHIFT) in
  let act_pt := first_entry / I915_PPGTT_PT_ENTRIES in
  let first_pte := first_entry mod I915_PPGTT_PT_ENTRIES in
  let scratch_pte :=
    fst (pte_encode ppgtt (scratch_addr ppgtt) I915_CACHE_LLC true 0) in
  '(pages, tr) ← gen6_clear_loop (Z.to_nat num_entries) (pt_pages ppgtt)
                   act_pt first_pte num_entries scratch_pte;
  Some (gen6_set_pt_pages ppgtt pages, tr).

(** The [for_each_sg_page] loop of [gen6_ppgtt_insert_entries] over the DMA
    addresses the iterator yields.  [pt_vaddr] is the number of the mapped
    table, if one is mapped. *)
Fixpoint gen6_insert_loop (encode : Z -> Z) (pages : list Z)
    (pt_pages : list (list Z)) (act_pt act_pte : Z) (pt_vaddr : option Z)
    : option (list (list Z) * list kevent * (Z * Z * option Z)) :=
  match pages with
  | [] => Some (pt_pages, [], (act_pt, act_pte, pt_vaddr))
  | addr :: pages' =>
    '(ev, t) ← match pt_vaddr with
               | Some t => Some ([], t)
               | None => _ ← pt_pages !! Z.to_nat act_pt; Some ([Kmap], act_pt)
               end;
    pg ← pt_pages !! Z.to_nat t;
    let pt_pages1 :=
      <[Z.to_nat t := <[Z.to_nat act_pte := encode addr]> pg]> pt_pages in
    let act_pte := u32 (act_pte + 1) in
    if act_pte =? I915_PPGTT_PT_ENTRIES then
      '(pages'', tr, c) ← gen6_insert_loop encode pages' pt_pages1
                            (u32 (act_pt + 1)) 0 None;
      Some (pages'', ev ++ Kunmap :: tr, c)
    else
      '(pages'', tr, c) ← gen6_insert_loop encode pages' pt_pages1
                            act_pt act_pte (Some t);
      Some (pages'', ev ++ tr, c)
  end.

Definition gen6_ppgtt_insert_entries (ppgtt : gen6_ppgtt) (pages : list Z)
    (start : Z) (cache_level : i915_cache_level) (flags : Z)
    : option (gen6_ppgtt * list kevent) :=
  let first_entry := u32 (Z.shiftr start PAGE_SHIFT) in
  let act_pt := first_entry / I915_PPGTT_PT_ENTRIES in
  let act_pte := first_entry mod I915_PPGTT_PT_ENTRIES in
  let encode addr := fst (pte_encode ppgtt addr cache_level true flags) in
  '(pt, tr, c) ← gen6_insert_loop encode pages (pt_pages ppgtt)
                   act_pt act_pte None;
  Some (gen6_set_pt_pages ppgtt pt,
        tr ++ match c.2 with Some _ => [Kunmap] | None => [] end).

(** *** gen8: up to four page directories of table pages

    "Each PDP represents 1GB of memory 4 * 512 * 512 * 4096 = 4GB legacy 32b
    address space": bits 31:30 of an address select the page directory,
    29:21 the table, 20:12 the entry. *)
Definition GEN8_PTES_PER_PAGE : Z := PAGE_SIZE / 8.
Definition GEN8_PDES_PER_PAGE : Z := PAGE_SIZE / 8.
Definition GEN8_LEGACY_PDPS : Z := 4.
Definition GEN8_PDPE_SHIFT : Z := 30.
Definition GEN8_PDPE_MASK : Z := 3.
Definition GEN8_PDE_SHIFT : Z := 21.
Definition GEN8_PDE_MASK : Z := 511.
Definition GEN8_PTE_SHIFT : Z := 12.
Definition GEN8_PTE_MASK : Z := 511.

(** [struct i915_hw_ppgtt], the members the gen8 code uses. *)
Record gen8_ppgtt := {
  g8_scratch_addr : Z;                       (* base.scratch.addr *)
  g8_has_llc : bool;                         (* HAS_LLC(base.dev) *)
  g8_total : Z;                              (* base.total *)
  g8_num_pd_entries : Z;
  g8_num_pd_pages : Z;
  gen8_pt_pages : list (list (list Z));
  pd_pages : list (list Z);
  pd_dma_addr : list Z;
  gen8_pt_dma_addr : list (list Z);
}.

Definition gen8_set_pt_pages (ppgtt : gen8_ppgtt)
    (pages : list (list (list Z))) : gen8_ppgtt :=
  {| g8_scratch_addr := g8_scratch_addr ppgtt;
     g8_has_llc := g8_has_llc ppgtt; g8_total := g8_total ppgtt;
     g8_num_pd_entries := g8_num_pd_entries ppgtt;
     g8_num_pd_pages := g8_num_pd_pages ppgtt;
     gen8_pt_pages := pages; pd_pages := pd_pages ppgtt;
     pd_dma_addr := pd_dma_addr ppgtt;
     gen8_pt_dma_addr := gen8_pt_dma_addr ppgtt |}.

(** [for (i = pte; i < last_pte; i++) { pt_vaddr[i] = scratch_pte;
    num_entries--; }] *)
Definition gen8_fill_page (pt_vaddr : list Z) (pte last_pte scratch_pte : Z)
    (num_entries : Z) : list Z * Z :=
  foldl (fun '(pg, n) i => (<[Z.to_nat i := scratch_pte]> pg, u32 (n - 1)))
    (pt_vaddr, num_entries) (seqZ pte (last_pte - pte)).

(** [if (++pde == GEN8_PDES_PER_PAGE) { pdpe++; pde = 0; }] *)
Definition gen8_next_pde (pdpe pde : Z) : Z * Z :=
  let pde := u32 (pde + 1) in
  if pde =? GEN8_PDES_PER_PAGE then (u32 (pdpe + 1), 0) else (pdpe, pde).

(** [gen8_pt_pages[pdpe][pde]] *)
Definition gen8_page_table (pt : list (list (list Z))) (pdpe pde : Z)
    : option (list Z) :=
  pd ← pt !! Z.to_nat pdpe; pd !! Z.to_nat pde.

(** storing the edited table page back in its slot *)
Definition gen8_set_page_table (pt : list (list (list Z))) (pdpe pde : Z)
    (pg : list Z) : list (list (list Z)) :=
  alter (fun pd => <[Z.to_nat pde := pg]> pd) (Z.to_nat pdpe) pt.

Fixpoint gen8_clear_loop (has_llc : bool) (fuel : nat)
    (pt : list (list (list Z))) (pdpe pde pte num_entries scratch_pte : Z)
    : option (list (list (list Z)) * list kevent) :=
  if num_entries =? 0 then Some (pt, []) else
  match fuel with
  | O => None
  | S fuel' =>
    page_table ← gen8_page_table pt pdpe pde;
    let last_pte := u32 (pte + num_entries) in
    let last_pte :=
      if last_pte >? GEN8_PTES_PER_PAGE then GEN8_PTES_PER_PAGE
      else last_pte in
    let '(pt_vaddr, num_entries) :=
      gen8_fill_page page_table pte last_pte scratch_pte num_entries in
    let '(pdpe', pde') := gen8_next_pde pdpe pde in
    '(pt', tr) ← gen8_clear_loop has_llc fuel'
                   (gen8_set_page_table pt pdpe pde pt_vaddr)
                   pdpe' pde' 0 num_entries scratch_pte;
    Some (pt', Kmap :: clflush_unless has_llc ++ Kunmap :: tr)
  end.

Definition gen8_ppgtt_clear_range (hw : pte_hw) (ppgtt : gen8_ppgtt)
    (start length : Z) (use_scratch : bool)
    : option (gen8_ppgtt * list kevent) :=
  let pdpe := u32 (Z.land (Z.shiftr start GEN8_PDPE_SHIFT) GEN8_PDPE_MASK) in
  let pde := u32 (Z.land (Z.shiftr start GEN8_PDE_SHIFT) GEN8_PDE_MASK) in
  let pte := u32 (Z.land (Z.shiftr start GEN8_PTE_SHIFT) GEN8_PTE_MASK) in
  let num_entries := u32 (Z.shiftr length PAGE_SHIFT) in
  let scratch_pte :=
    gen8_pte_encode hw (g8_scratch_addr ppgtt) I915_CACHE_LLC use_scratch in
  '(pt, tr) ← gen8_clear_loop (g8_has_llc ppgtt) (Z.to_nat num_entries)
                (gen8_pt_pages ppgtt) pdpe pde pte num_entries scratch_pte;
  Some (gen8_set_pt_pages ppgtt pt, tr).

(** The state of the gen8 insert loop: [pdpe], [pde], [pte], and the mapped
    table ([pt_vaddr]) if there is one. *)
Definition gen8_cursor : Type := Z * Z * Z * option (Z * Z).

Fixpoint gen8_insert_loop (has_llc : bool) (encode : Z -> Z)
    (pages : list Z) (pt : list (list (list Z))) (pdpe pde pte : Z)
    (pt_vaddr : option (Z * Z))
    : option (list (list (list Z)) * list kevent * gen8_cursor) :=
  match pages with
  | [] => Some (pt, [], (pdpe, pde, pte, pt_vaddr))
  | addr :: pages' =>
    if pdpe >=? GEN8_LEGACY_PDPS        (* WARN_ON(...) break *)
    then Some (pt, [], (pdpe, pde, pte, pt_vaddr))
    else
      '(ev, t) ← match pt_vaddr with
                 | Some t => Some ([], t)
                 | None =>
                   _ ← gen8_page_table pt pdpe pde; Some ([Kmap], (pdpe, pde))
                 end;
      pg ← gen8_page_table pt t.1 t.2;
      let pt1 :=
        gen8_set_page_table pt t.1 t.2 (<[Z.to_nat pte := encode addr]> pg) in
      let pte := u32 (pte + 1) in
      if pte =? GEN8_PTES_PER_PAGE then
        let '(pdpe', pde') := gen8_next_pde pdpe pde in
        '(pt', tr, c) ← gen8_insert_loop has_llc encode pages' pt1
                          pdpe' pde' 0 None;
        Some (pt', ev ++ clflush_unless has_llc ++ Kunmap :: tr, c)
      else
        '(pt', tr, c) ← gen8_insert_loop has_llc encode pages' pt1
                          pdpe pde pte (Some t);
        Some (pt', ev ++ tr, c)
  end.

Definition gen8_ppgtt_insert_entries (hw : pte_hw) (ppgtt : gen8_ppgtt)
    (pages : list Z) (start : Z) (cache_level : i915_cache_level)
    (unused : Z) : option (gen8_ppgtt * list kevent) :=
  let pdpe := u32 (Z.land (Z.shiftr start GEN8_PDPE_SHIFT) GEN8_PDPE_MASK) in
  let pde := u32 (Z.land (Z.shiftr start GEN8_PDE_SHIFT) GEN8_PDE_MASK) in
  let pte := u32 (Z.land (Z.shiftr start GEN8_PTE_SHIFT) GEN8_PTE_MASK) in
  let encode addr := gen8_pte_encode hw addr cache_level true in
  '(pt, tr, c) ← gen8_insert_loop (g8_has_llc ppgtt) encode pages
                   (gen8_pt_pages ppgtt) pdpe pde pte None;
  Some (gen8_set_pt_pages ppgtt pt,
        tr ++ match c.2 with
              | Some _ => clflush_unless (g8_has_llc ppgtt) ++ [Kunmap]
              | None => []
              end).

(** The stores of the two layouts, addressed by table number. *)
Definition gen6_pt_get (pt : list (list Z)) (t : Z) : option (list Z) :=
  if t <? 0 then None else pt !! Z.to_nat t.
Definition gen6_pt_set (pt : list (list Z)) (t : Z) (pg : list Z)
    : list (list Z) :=
  <[Z.to_nat t := pg]> pt.
Definition gen8_pt_get (pt : list (list (list Z))) (t : Z) : option (list Z) :=
  if t <? 0 then None
  else gen8_page_table pt (t / GEN8_PDES_PER_PAGE) (t mod GEN8_PDES_PER_PAGE).
Definition gen8_pt_set (pt : list (list (list Z))) (t : Z) (pg : list Z)
    : list (list (list Z)) :=
  gen8_set_page_table pt (t / GEN8_PDES_PER_PAGE) (t mod GEN8_PDES_PER_PAGE) pg.

(** Entry [k] (the page number of a virtual address) of a gen6 and of a gen8
    address space. *)
Definition gen6_pte_at (ppgtt : gen6_ppgtt) (k : Z) : option Z :=
  pte_at gen6_pt_get I915_PPGTT_PT_ENTRIES (pt_pages ppgtt) k.
Definition gen8_pte_at (ppgtt : gen8_ppgtt) (k : Z) : option Z :=
  pte_at gen8_pt_get GEN8_PTES_PER_PAGE (gen8_pt_pages ppgtt) k.

(** Every table page has its full complement of entries (a page is a page),
    and every gen8 page directory its 512 tables. *)
Definition gen6_pages_wf (pt : list (list Z)) : Prop :=
  Forall (fun pg => Z.of_nat (length pg) = I915_PPGTT_PT_ENTRIES) pt.
Definition gen8_pages_wf (pt : list (list (list Z))) : Prop :=
  Forall (fun pd => Z.of_nat (length pd) = GEN8_PDES_PER_PAGE /\
            Forall (fun pg => Z.of_nat (length pg) = GEN8_PTES_PER_PAGE) pd)
    pt.

(** The scratch entry [clear_range] writes. *)
Definition gen6_scratch_pte (ppgtt : gen6_ppgtt) : Z :=
  fst (pte_encode ppgtt (scratch_addr ppgtt) I915_CACHE_LLC true 0).
Definition gen8_scratch_pte (hw : pte_hw) (ppgtt : gen8_ppgtt) : Z :=
  gen8_pte_encode hw (g8_scratch_addr ppgtt) I915_CACHE_LLC true.

(** Number of tables of a store. *)
Definition gen6_size (pt : list (list Z)) : Z := Z.of_nat (length pt).
Definition gen8_size (pt : list (list (list Z))) : Z :=
  Z.of_nat (length pt) * GEN8_PDES_PER_PAGE.

(** What initialisation establishes and the walkers keep: the tables are
    there, in full, and [total] is the span they translate. *)
Definition gen6_ppgtt_ok (ppgtt : gen6_ppgtt) : Prop :=
  gen6_pages_wf (pt_pages ppgtt) /\
  Z.of_nat (length (pt_pages ppgtt)) = num_pd_entries ppgtt /\
  num_pd_entries ppgtt <= GEN6_PPGTT_PD_ENTRIES /\
  total ppgtt = num_pd_entries ppgtt * I915_PPGTT_PT_ENTRIES * PAGE_SIZE.

Definition gen8_ppgtt_ok (ppgtt : gen8_ppgtt) : Prop :=
  gen8_pages_wf (gen8_pt_pages ppgtt) /\
  Z.of_nat (length (gen8_pt_pages ppgtt)) * GEN8_PDES_PER_PAGE
  = g8_num_pd_entries ppgtt /\
  Z.of_nat (length (gen8_pt_pages ppgtt)) <= GEN8_LEGACY_PDPS /\
  g8_total ppgtt
  = g8_num_pd_entries ppgtt * GEN8_PTES_PER_PAGE * PAGE_SIZE.

(** ** The global GTT and the VMA unbind hooks *)

Inductive ggtt_gen := GGTT_GEN6 | GGTT_GEN8.

(** [struct i915_gtt]: the entries behind [gsm], and the members of [base]
    that [clear_range] reads.  [ggtt_gen] tells which [clear_range] was
    installed in [base]. *)
Record i915_gtt := {
  ggtt_gen_of : ggtt_gen;
  gsm : list Z;
  gtt_total : Z;                  (* base.total *)
  gtt_scratch_addr : Z;           (* base.scratch.addr *)
  gtt_pte_encode : pte_encode_fn; (* base.pte_encode *)
}.

Definition gtt_set_gsm (gtt : i915_gtt) (entries : list Z) : i915_gtt :=
  {| ggtt_gen_of := ggtt_gen_of gtt; gsm := entries;
     gtt_total := gtt_total gtt; gtt_scratch_addr := gtt_scratch_addr gtt;
     gtt_pte_encode := gtt_pte_encode gtt |}.

(** [gtt_total_entries(gtt)] *)
Definition gtt_total_entries (gtt : i915_gtt) : Z :=
  Z.shiftr (gtt_total gtt) PAGE_SHIFT.

(** The body shared by [gen6_ggtt_clear_range] and [gen8_ggtt_clear_range]:
    clamp [num_entries] to what is left of the table (the comparison of the
    unsigned [num_entries] with the [int] [max_entries] is unsigned), write
    the scratch entry to [gtt_base[0 .. num_entries)], then read
    [gtt_base[0]] back ([readl(gtt_base)], the posting read).  A write or a
    read outside [gsm] is a fault. *)
Definition ggtt_clear_entries (gtt : i915_gtt) (start length scratch_pte : Z)
    : option (i915_gtt * bool) :=
  let first_entry := u32 (Z.shiftr start PAGE_SHIFT) in
  let num_entries := u32 (Z.shiftr length PAGE_SHIFT) in
  let max_entries := u32 (gtt_total_entries gtt - first_entry) in
  let warned := num_entries >? max_entries in
  let num_entries := if warned then max_entries else num_entries in
  if first_entry + num_entries <=? Z.of_nat (List.length (gsm gtt))
  then
    let entries :=
      fill_page (gsm gtt) first_entry (first_entry + num_entries)
        scratch_pte in
    _ ← entries !! Z.to_nat first_entry;
    Some (gtt_set_gsm gtt entries, warned)
  else None.

Definition gen6_ggtt_clear_range (gtt : i915_gtt) (start length : Z)
    (use_scratch : bool) : option (i915_gtt * bool) :=
  ggtt_clear_entries gtt start length
    (fst (gtt_pte_encode gtt (gtt_scratch_addr gtt) I915_CACHE_LLC
            use_scratch 0)).

Definition gen8_ggtt_clear_range (hw : pte_hw) (gtt : i915_gtt)
    (start length : Z) (use_scratch : bool) : option (i915_gtt * bool) :=
  ggtt_clear_entries gtt start length
    (gen8_pte_encode hw (gtt_scratch_addr gtt) I915_CACHE_LLC use_scratch).

(** [struct drm_i915_gem_object] and [struct i915_vma], the members the bind
    and unbind hooks use. *)
Record drm_i915_gem_object := {
  obj_size : Z;                         (* base.size *)
  obj_pages : list Z;                   (* the DMA address of each page *)
  gt_ro : bool;
  has_global_gtt_mapping : bool;
  has_aliasing_ppgtt_mapping : bool;
}.

Record i915_vma := {
  node_start : Z;                       (* node.start *)
  obj : drm_i915_gem_object;
}.

Definition obj_set_mappings (o : drm_i915_gem_object) (global aliasing : bool)
    : drm_i915_gem_object :=
  {| obj_size := obj_size o; obj_pages := obj_pages o; gt_ro := gt_ro o;
     has_global_gtt_mapping := global;
     has_aliasing_ppgtt_mapping := aliasing |}.

(** A per-process address space: [vma->vm] with the gen6 or the gen8
    functions installed in its [base]. *)
Inductive ppgtt_vm :=
| Gen6Vm (ppgtt : gen6_ppgtt)
| Gen8Vm (ppgtt : gen8_ppgtt).

Section vma.
Context (hw : pte_hw).

(** [vm->clear_range(vm, start, length, use_scratch)] *)
Definition vm_clear_range (vm : ppgtt_vm) (start length : Z)
    (use_scratch : bool) : option (ppgtt_vm * list kevent) :=
  match vm with
  | Gen6Vm p =>
    '(p', tr) ← gen6_ppgtt_clear_range p start length use_scratch;
    Some (Gen6Vm p', tr)
  | Gen8Vm p =>
    '(p', tr) ← gen8_ppgtt_clear_range hw p start length use_scratch;
    Some (Gen8Vm p', tr)
  end.

(** [vm->insert_entries(vm, pages, start, cache_level, flags)] *)
Definition vm_insert_entries (vm : ppgtt_vm) (pages : list Z) (start : Z)
    (cache_level : i915_cache_level) (flags : Z)
    : option (ppgtt_vm * list kevent) :=
  match vm with
  | Gen6Vm p =>
    '(p', tr) ← gen6_ppgtt_insert_entries p pages start cache_level flags;
    Some (Gen6Vm p', tr)
  | Gen8Vm p =>
    '(p', tr) ← gen8_ppgtt_insert_entries hw p pages start cache_level flags;
    Some (Gen8Vm p', tr)
  end.

Definition ppgtt_bind_vma (vm : ppgtt_vm) (vma : i915_vma)
    (cache_level : i915_cache_level) (flags : Z)
    : option (ppgtt_vm * list kevent) :=
  let flags :=
    if gt_ro (obj vma) then Z.lor flags (PTE_READ_ONLY hw) else flags in
  vm_insert_entries vm (obj_pages (obj vma)) (node_start vma) cache_level
    flags.

Definition ppgtt_unbind_vma (vm : ppgtt_vm) (vma : i915_vma)
    : option (ppgtt_vm * list kevent) :=
  vm_clear_range vm (node_start vma) (obj_size (obj vma)) true.

(** What [ggtt_unbind_vma] reaches through [vma->vm->dev]: the global GTT and
    the aliasing PPGTT, if there is one. *)
Record ggtt_dev := {
  gtt : i915_gtt;
  aliasing_ppgtt : option ppgtt_vm;
}.

Definition ggtt_clear_range (g : i915_gtt) (start length : Z)
    (use_scratch : bool) : option (i915_gtt * bool) :=
  match ggtt_gen_of g with
  | GGTT_GEN6 => gen6_ggtt_clear_range g start length use_scratch
  | GGTT_GEN8 => gen8_ggtt_clear_range hw g start length use_scratch
  end.

Definition ggtt_unbind_vma (dev : ggtt_dev) (vma : i915_vma)
    : option (ggtt_dev * i915_vma) :=
  let o := obj vma in
  '(g, o) ←
    (if has_global_gtt_mapping o then
       '(g, _) ← ggtt_clear_range (gtt dev) (node_start vma) (obj_size o) true;
       Some (g, obj_set_mappings o false (has_aliasing_ppgtt_mapping o))
     else Some (gtt dev, o));
  '(appgtt, o) ←
    (if has_aliasing_ppgtt_mapping o then
       appgtt ← aliasing_ppgtt dev;
       '(appgtt, _) ← vm_clear_range appgtt (node_start vma) (obj_size o) true;
       Some (Some appgtt, obj_set_mappings o (has_global_gtt_mapping o) false)
     else Some (aliasing_ppgtt dev, o));
  Some ({| gtt := g; aliasing_ppgtt := appgtt |},
        {| node_start := node_start vma; obj := o |}).

End vma.

(** [pt_vaddr] of the insert loops, for table number [a] mapped or not, and
    the loop variables for a position of the walk. *)
Definition gen6_pt_vaddr (a : Z) (mapped : bool) : option Z :=
  if mapped then Some a else None.
Definition gen6_cursor_of (c : walk_cursor) : Z * Z * option Z :=
  (c.1.1, c.1.2, gen6_pt_vaddr c.1.1 c.2).
Definition gen8_pt_vaddr (a : Z) (mapped : bool) : option (Z * Z) :=
  if mapped
  then Some (a / GEN8_PDES_PER_PAGE, a mod GEN8_PDES_PER_PAGE) else None.
Definition gen8_cursor_of (c : walk_cursor) : gen8_cursor :=
  (c.1.1 / GEN8_PDES_PER_PAGE, c.1.1 mod GEN8_PDES_PER_PAGE, c.1.2,
   gen8_pt_vaddr c.1.1 c.2).

(** A PPGTT as initialisation leaves it, and a VMA placed inside it. *)
Definition vm_ok (vm : ppgtt_vm) : Prop :=
  match vm with
  | Gen6Vm p => gen6_ppgtt_ok p
  | Gen8Vm p => gen8_ppgtt_ok p
  end.

Definition vm_total (vm : ppgtt_vm) : Z :=
  match vm with
  | Gen6Vm p => total p
  | Gen8Vm p => g8_total p
  end.

Definition vma_in_vm (vm : ppgtt_vm) (vma : i915_vma) : Prop :=
  0 <= node_start vma /\ 0 < obj_size (obj vma) /\
  node_start vma + obj_size (obj vma) <= vm_total vm.

(** ** Small address spaces used in the examples *)

(** A gen6 address space of two tables filled with the scratch entry, with
    the Sandybridge encoder. *)
Definition demo_gen6 : gen6_ppgtt := {|
  scratch_addr := 28672;
  pte_encode := snb_pte_encode i915_hw;
  total := 2 * I915_PPGTT_PT_ENTRIES * PAGE_SIZE;
  num_pd_entries := 2;
  pt_pages :=
    replicate 2
      (replicate 1024
         (fst (snb_pte_encode i915_hw 28672 I915_CACHE_LLC true 0)));
  pt_dma_addr := [1048576; 1052672];
  pd_offset := 0;
  node := (0, GEN6_PD_SIZE);
  switch_mm := gen6_mm_switch;
|}.

(** A gen8 address space of one page directory (1GB) filled with the scratch
    entry, on a machine without LLC. *)
Definition demo_gen8 : gen8_ppgtt := {|
  g8_scratch_addr := 28672;
  g8_has_llc := false;
  g8_total := 512 * GEN8_PTES_PER_PAGE * PAGE_SIZE;
  g8_num_pd_entries := 512;
  g8_num_pd_pages := 1;
  gen8_pt_pages :=
    [replicate 512
       (replicate 512 (gen8_pte_encode i915_hw 28672 I915_CACHE_LLC true))];
  pd_pages := [replicate 512 0];
  pd_dma_addr := [2097152];
  gen8_pt_dma_addr := [replicate 512 0];
|}.

(** Four pages of an object, scattered in memory. *)
Definition demo_pages : list Z := [65536; 1114112; 131072; 2162688].

(** An object of four pages bound at the last two entries of the first table
    and the first two of the second. *)
Definition demo_vma : i915_vma := {|
  node_start := 1022 * PAGE_SIZE;
  obj := {| obj_size := 4 * PAGE_SIZE; obj_pages := demo_pages;
            gt_ro := false; has_global_gtt_mapping := false;
            has_aliasing_ppgtt_mapping := false |};
|}.

(** ** PPGTT initialisation *)

(** The kernel resources initialisation takes and gives back: the nodes
    reserved in the global GTT's range allocator (start and size), the pages
    and the [kcalloc] arrays that are allocated, the DMA mappings in place,
    the addresses [pci_unmap_page] was given without a mapping to undo, and
    the entries written to the global GTT. *)
Record kres := {
  mm_nodes : list (Z * Z);
  pages_live : Z;
  kmem_live : Z;
  dma_live : list Z;
  dma_stray : list Z;
  gsm_writes : list (Z * Z);
}.

Definition res_empty : kres :=
  {| mm_nodes := []; pages_live := 0; kmem_live := 0; dma_live := [];
     dma_stray := []; gsm_writes := [] |}.

Definition res_set_nodes (r : kres) (ns : list (Z * Z)) : kres :=
  {| mm_nodes := ns; pages_live := pages_live r; kmem_live := kmem_live r;
     dma_live := dma_live r; dma_stray := dma_stray r;
     gsm_writes := gsm_writes r |}.
Definition res_set_pages (r : kres) (n : Z) : kres :=
  {| mm_nodes := mm_nodes r; pages_live := n; kmem_live := kmem_live r;
     dma_live := dma_live r; dma_stray := dma_stray r;
     gsm_writes := gsm_writes r |}.
Definition res_set_kmem (r : kres) (n : Z) : kres :=
  {| mm_nodes := mm_nodes r; pages_live := pages_live r; kmem_live := n;
     dma_live := dma_live r; dma_stray := dma_stray r;
     gsm_writes := gsm_writes r |}.
Definition res_set_dma (r : kres) (live stray : list Z) : kres :=
  {| mm_nodes := mm_nodes r; pages_live := pages_live r;
     kmem_live := kmem_live r; dma_live := live; dma_stray := stray;
     gsm_writes := gsm_writes r |}.
Definition res_set_gsm (r : kres) (ws : list (Z * Z)) : kres :=
  {| mm_nodes := mm_nodes r; pages_live := pages_live r;
     kmem_live := kmem_live r; dma_live := dma_live r;
     dma_stray := dma_stray r; gsm_writes := ws |}.

(** What the initialisation asks the kernel for, and what the kernel may
    answer: these services are outside the file, their outcomes are the
    environment's choice. *)
Inductive alloc_site :=
| PD_PAGES                      (* the block of page-directory pages *)
| PT_ARRAY (pd : Z)             (* kcalloc of an array of page pointers *)
| PT_DMA_ARRAY (pd : Z)         (* kcalloc of an array of DMA addresses *)
| PT_PAGE (pd i : Z).           (* alloc_page of table i of directory pd *)

Inductive map_site := MAP_PD (pd : Z) | MAP_PT (pd i : Z).

Record kenv := {
  (* drm_mm_insert_node_in_range_generic: return code and node.start; the
     argument tells whether this is the retry after the eviction *)
  drm_mm_insert_node : bool -> Z * Z;
  i915_gem_evict_something : Z;         (* its return code *)
  alloc_ok : alloc_site -> bool;        (* false: NULL is returned *)
  page_garbage : Z -> Z -> Z -> Z;      (* what a fresh page holds *)
  pci_map_page : map_site -> option Z;  (* None: pci_dma_mapping_error *)
  pci_dma_mapping_error : Z;            (* its code for a failed mapping *)
  get_order : Z -> Z;                   (* log2 of the pages a size takes *)
}.

Fixpoint remove_one `{EqDecision A} (x : A) (l : list A) : list A :=
  match l with
  | [] => []
  | y :: l' => if decide (x = y) then l' else y :: remove_one x l'
  end.

Definition drm_mm_remove_node (n : Z * Z) (r : kres) : kres :=
  res_set_nodes r (remove_one n (mm_nodes r)).

Definition pci_unmap_page (addr : Z) (r : kres) : kres :=
  if bool_decide (addr ∈ dma_live r)
  then res_set_dma r (remove_one addr (dma_live r)) (dma_stray r)
  else res_set_dma r (dma_live r) (addr :: dma_stray r).

Definition kfree {A} (p : option A) (r : kres) : kres :=
  match p with
  | Some _ => res_set_kmem r (kmem_live r - 1)
  | None => r
  end.

(** [start], [start + 1], ... ([len] of them) *)
Fixpoint zrange (len : nat) (start : Z) : list Z :=
  match len with
  | O => []
  | S len' => start :: zrange len' (start + 1)
  end.

(** A page fresh from [alloc_page]: [n] entries of whatever was there. *)
Definition fresh_page (env : kenv) (pd i n : Z) : list Z :=
  page_garbage env pd i <$> zrange (Z.to_nat n) 0.

(** [for (i = 0; i < n; i++) body(i)], for a body that may fault. *)
Fixpoint for_each {I S : Type} (ixs : list I) (body : I -> S -> option S)
    (s : S) : option S :=
  match ixs with
  | [] => Some s
  | i :: ixs' => s' ← body i s; for_each ixs' body s'
  end.

(** *** gen6 *)

(** [struct i915_hw_ppgtt] while it is being set up: the pointers may still
    be NULL ([None]). *)
Record gen6_ppgtt_raw := {
  raw_node : Z * Z;
  raw_num_pd_entries : Z;
  raw_pt_pages : option (list (option (list Z)));
  raw_pt_dma_addr : option (list Z);
}.

Definition gen6_raw_zero : gen6_ppgtt_raw :=
  {| raw_node := (0, 0); raw_num_pd_entries := 0; raw_pt_pages := None;
     raw_pt_dma_addr := None |}.

Definition gen6_ppgtt_unmap_pages (p : gen6_ppgtt_raw) (r : kres)
    : option kres :=
  match raw_pt_dma_addr p with
  | Some addrs =>
    for_each (seqZ 0 (raw_num_pd_entries p))
      (fun i r => addr ← addrs !! Z.to_nat i; Some (pci_unmap_page addr r)) r
  | None => Some r
  end.

(** [__free_page] of a NULL page, like reading [pt_pages[i]] through a NULL
    [pt_pages], is a fault. *)
Definition gen6_ppgtt_free (p : gen6_ppgtt_raw) (r : kres) : option kres :=
  let r := kfree (raw_pt_dma_addr p) r in
  r ← for_each (seqZ 0 (raw_num_pd_entries p))
        (fun i r =>
           pages ← raw_pt_pages p;
           slot ← pages !! Z.to_nat i;
           _ ← slot;
           Some (res_set_pages r (pages_live r - 1))) r;
  Some (kfree (raw_pt_pages p) r).

Section gen6_init.
Context (hw : pte_hw) (env : kenv).

Definition gen6_ppgtt_allocate_page_directories (p : gen6_ppgtt_raw)
    (r : kres) : Z * gen6_ppgtt_raw * kres :=
  let attempt (retried : bool) (p : gen6_ppgtt_raw) (r : kres) :=
    let '(ret, start) := drm_mm_insert_node env retried in
    if ret =? 0
    then (ret,
          {| raw_node := (start, GEN6_PD_SIZE);
             raw_num_pd_entries := raw_num_pd_entries p;
             raw_pt_pages := raw_pt_pages p;
             raw_pt_dma_addr := raw_pt_dma_addr p |},
          res_set_nodes r ((start, GEN6_PD_SIZE) :: mm_nodes r))
    else (ret, p, r) in
  let finish (x : Z * gen6_ppgtt_raw * kres) :=
    let '(ret, p, r) := x in
    (ret,
     {| raw_node := raw_node p;
        raw_num_pd_entries := GEN6_PPGTT_PD_ENTRIES;
        raw_pt_pages := raw_pt_pages p;
        raw_pt_dma_addr := raw_pt_dma_addr p |}, r) in
  let '(ret, p1, r1) := attempt false p r in
  if ret =? - ENOSPC then
    let ret := i915_gem_evict_something env in
    if ret =? 0 then finish (attempt true p r) else (ret, p, r)
  else finish (ret, p1, r1).

(** The [alloc_page] loop: the array so far and whether every page came. *)
Fixpoint gen6_alloc_pages_loop (ixs : list Z)
    (pages : list (option (list Z))) (r : kres)
    : bool * list (option (list Z)) * kres :=
  match ixs with
  | [] => (true, pages, r)
  | i :: ixs' =>
    if alloc_ok env (PT_PAGE 0 i)
    then gen6_alloc_pages_loop ixs'
           (<[Z.to_nat i := Some (fresh_page env 0 i I915_PPGTT_PT_ENTRIES)]>
              pages)
           (res_set_pages r (pages_live r + 1))
    else (false, pages, r)
  end.

Definition gen6_ppgtt_allocate_page_tables (p : gen6_ppgtt_raw) (r : kres)
    : option (Z * gen6_ppgtt_raw * kres) :=
  if alloc_ok env (PT_ARRAY 0) then
    let r := res_set_kmem r (kmem_live r + 1) in
    let n := raw_num_pd_entries p in
    let '(ok, pages, r) :=
      gen6_alloc_pages_loop (seqZ 0 n) (replicate (Z.to_nat n) None) r in
    let p := {| raw_node := raw_node p; raw_num_pd_entries := n;
                raw_pt_pages := Some pages;
                raw_pt_dma_addr := raw_pt_dma_addr p |} in
    if ok then Some (0, p, r)
    else r ← gen6_ppgtt_free p r; Some (- ENOMEM, p, r)
  else Some (- ENOMEM, p, r).

Definition gen6_ppgtt_alloc (p : gen6_ppgtt_raw) (r : kres)
    : option (Z * gen6_ppgtt_raw * kres) :=
  let '(ret, p, r) := gen6_ppgtt_allocate_page_directories p r in
  if negb (ret =? 0) then Some (ret, p, r) else
  '(ret, p, r) ← gen6_ppgtt_allocate_page_tables p r;
  if negb (ret =? 0) then Some (ret, p, drm_mm_remove_node (raw_node p) r)
  else
    if alloc_ok env (PT_DMA_ARRAY 0) then
      Some (0,
            {| raw_node := raw_node p;
               raw_num_pd_entries := raw_num_pd_entries p;
               raw_pt_pages := raw_pt_pages p;
               raw_pt_dma_addr :=
                 Some (replicate (Z.to_nat (raw_num_pd_entries p)) 0) |},
            res_set_kmem r (kmem_live r + 1))
    else
      r ← gen6_ppgtt_free p (drm_mm_remove_node (raw_node p) r);
      Some (- ENOMEM, p, r).

(** The mapping loop of [gen6_ppgtt_setup_page_tables]: the addresses so far
    and whether every page was mapped. *)
Fixpoint gen6_map_pages_loop (ixs : list Z) (addrs : list Z) (r : kres)
    : bool * list Z * kres :=
  match ixs with
  | [] => (true, addrs, r)
  | i :: ixs' =>
    match pci_map_page env (MAP_PT 0 i) with
    | Some pt_addr =>
      gen6_map_pages_loop ixs' (<[Z.to_nat i := pt_addr]> addrs)
        (res_set_dma r (pt_addr :: dma_live r) (dma_stray r))
    | None => (false, addrs, r)
    end
  end.

Definition gen6_ppgtt_setup_page_tables (p : gen6_ppgtt_raw) (r : kres)
    : option (Z * gen6_ppgtt_raw * kres) :=
  addrs ← raw_pt_dma_addr p;
  let '(ok, addrs, r) :=
    gen6_map_pages_loop (seqZ 0 (raw_num_pd_entries p)) addrs r in
  let p := {| raw_node := raw_node p;
              raw_num_pd_entries := raw_num_pd_entries p;
              raw_pt_pages := raw_pt_pages p;
              raw_pt_dma_addr := Some addrs |} in
  if ok then Some (0, p, r)
  else r ← gen6_ppgtt_unmap_pages p r; Some (- EIO, p, r).

Definition gen6_write_pdes (ppgtt : gen6_ppgtt) (r : kres) : option kres :=
  for_each (seqZ 0 (num_pd_entries ppgtt))
    (fun i r =>
       pt_addr ← pt_dma_addr ppgtt !! Z.to_nat i;
       let pd_entry :=
         u32 (Z.lor (u32 (GEN6_PDE_ADDR_ENCODE hw pt_addr))
                (GEN6_PDE_VALID hw)) in
       Some (res_set_gsm r
               (gsm_writes r ++ [(pd_offset ppgtt / 4 + i, pd_entry)]))) r.

(** Which device [gen6_ppgtt_init] runs on: [IS_GEN6], [IS_HASWELL],
    [IS_GEN7], or none of them ([BUG()]). *)
Inductive gen6_device :=
| DEV_GEN6 | DEV_HASWELL | DEV_GEN7 | DEV_OTHER.

(** [gen6_ppgtt_init], with what [__hw_ppgtt_init] put in [base] before the
    call: the scratch page and, from the global GTT, the encoder.  The result
    is the return code, the address space if the code is 0, and the
    resources. *)
Definition gen6_ppgtt_init (dev : gen6_device) (gtt_scratch : Z)
    (gtt_encode : pte_encode_fn) (r : kres)
    : option (Z * option gen6_ppgtt * kres) :=
  sw ← match dev with
       | DEV_GEN6 => Some gen6_mm_switch
       | DEV_HASWELL => Some hsw_mm_switch
       | DEV_GEN7 => Some gen7_mm_switch
       | DEV_OTHER => None
       end;
  '(ret, p, r) ← gen6_ppgtt_alloc gen6_raw_zero r;
  if negb (ret =? 0) then Some (ret, None, r) else
  '(ret, p, r) ← gen6_ppgtt_setup_page_tables p r;
  if negb (ret =? 0) then
    r ← gen6_ppgtt_free p r; Some (ret, None, r)
  else
    slots ← raw_pt_pages p;
    pages ← mapM id slots;
    addrs ← raw_pt_dma_addr p;
    let ppgtt :=
      {| scratch_addr := gtt_scratch; pte_encode := gtt_encode;
         total := raw_num_pd_entries p * I915_PPGTT_PT_ENTRIES * PAGE_SIZE;
         num_pd_entries := raw_num_pd_entries p;
         pt_pages := pages; pt_dma_addr := addrs;
         pd_offset := u32 ((raw_node p).1 / PAGE_SIZE * 4);
         node := raw_node p; switch_mm := sw |} in
    '(ppgtt, _) ← gen6_ppgtt_clear_range ppgtt 0 (total ppgtt) true;
    r ← gen6_write_pdes ppgtt r;
    Some (0, Some ppgtt, r).

(** [gen6_ppgtt_cleanup] *)
Definition gen6_ppgtt_cleanup (ppgtt : gen6_ppgtt) (r : kres)
    : option kres :=
  let p := {| raw_node := node ppgtt;
              raw_num_pd_entries := num_pd_entries ppgtt;
              raw_pt_pages := Some (Some <$> pt_pages ppgtt);
              raw_pt_dma_addr := Some (pt_dma_addr ppgtt) |} in
  let r := drm_mm_remove_node (node ppgtt) r in
  r ← gen6_ppgtt_unmap_pages p r;
  gen6_ppgtt_free p r.

End gen6_init.

(** *** gen8 *)

(** [int] arithmetic: the low 32 bits, signed. *)
Definition s32 (x : Z) : Z := (x + 2 ^ 31) mod 2 ^ 32 - 2 ^ 31.

(** [struct i915_hw_ppgtt] while the gen8 code sets it up.  The structure
    holds [GEN8_LEGACY_PDPS] slots of each per-directory pointer; a NULL
    pointer is [None]. *)
Record gen8_ppgtt_raw := {
  raw8_num_pd_entries : Z;
  raw8_num_pd_pages : Z;
  raw8_pd_pages : option (list (list Z));
  raw8_pt_pages : list (option (list (option (list Z))));
  raw8_pd_dma_addr : list Z;
  raw8_pt_dma_addr : list (option (list Z));
}.

Definition gen8_raw_zero : gen8_ppgtt_raw :=
  {| raw8_num_pd_entries := 0; raw8_num_pd_pages := 0;
     raw8_pd_pages := None;
     raw8_pt_pages := replicate (Z.to_nat GEN8_LEGACY_PDPS) None;
     raw8_pd_dma_addr := replicate (Z.to_nat GEN8_LEGACY_PDPS) 0;
     raw8_pt_dma_addr := replicate (Z.to_nat GEN8_LEGACY_PDPS) None |}.

Definition raw8_set_counts (p : gen8_ppgtt_raw) (entries pages : Z)
    : gen8_ppgtt_raw :=
  {| raw8_num_pd_entries := entries; raw8_num_pd_pages := pages;
     raw8_pd_pages := raw8_pd_pages p; raw8_pt_pages := raw8_pt_pages p;
     raw8_pd_dma_addr := raw8_pd_dma_addr p;
     raw8_pt_dma_addr := raw8_pt_dma_addr p |}.
Definition raw8_set_pd_pages (p : gen8_ppgtt_raw)
    (pds : option (list (list Z))) : gen8_ppgtt_raw :=
  {| raw8_num_pd_entries := raw8_num_pd_entries p;
     raw8_num_pd_pages := raw8_num_pd_pages p;
     raw8_pd_pages := pds; raw8_pt_pages := raw8_pt_pages p;
     raw8_pd_dma_addr := raw8_pd_dma_addr p;
     raw8_pt_dma_addr := raw8_pt_dma_addr p |}.
Definition raw8_set_pt_pages (p : gen8_ppgtt_raw)
    (pts : list (option (list (option (list Z))))) : gen8_ppgtt_raw :=
  {| raw8_num_pd_entries := raw8_num_pd_entries p;
     raw8_num_pd_pages := raw8_num_pd_pages p;
     raw8_pd_pages := raw8_pd_pages p; raw8_pt_pages := pts;
     raw8_pd_dma_addr := raw8_pd_dma_addr p;
     raw8_pt_dma_addr := raw8_pt_dma_addr p |}.
Definition raw8_set_pd_dma (p : gen8_ppgtt_raw) (addrs : list Z)
    : gen8_ppgtt_raw :=
  {| raw8_num_pd_entries := raw8_num_pd_entries p;
     raw8_num_pd_pages := raw8_num_pd_pages p;
     raw8_pd_pages := raw8_pd_pages p; raw8_pt_pages := raw8_pt_pages p;
     raw8_pd_dma_addr := addrs;
     raw8_pt_dma_addr := raw8_pt_dma_addr p |}.
Definition raw8_set_pt_dma (p : gen8_ppgtt_raw)
    (addrs : list (option (list Z))) : gen8_ppgtt_raw :=
  {| raw8_num_pd_entries := raw8_num_pd_entries p;
     raw8_num_pd_pages := raw8_num_pd_pages p;
     raw8_pd_pages := raw8_pd_pages p; raw8_pt_pages := raw8_pt_pages p;
     raw8_pd_dma_addr := raw8_pd_dma_addr p;
     raw8_pt_dma_addr := addrs |}.

(** Storing through an index: outside the array it is a fault. *)
Definition store_at {A} (i : Z) (x : A) (l : list A) : option (list A) :=
  if bool_decide (0 <= i < Z.of_nat (length l))
  then Some (<[Z.to_nat i := x]> l) else None.

(** [for (i = 0; i < n; i++) { ret = body(i); if (ret) goto out; }] *)
Fixpoint for_each_ret {I S : Type} (ixs : list I)
    (body : I -> S -> option (Z * S)) (s : S) : option (Z * S) :=
  match ixs with
  | [] => Some (0, s)
  | i :: ixs' =>
    '(ret, s') ← body i s;
    if negb (ret =? 0) then Some (ret, s') else for_each_ret ixs' body s'
  end.

(** The pointers that are there, up to the first NULL. *)
Fixpoint present_prefix {A} (l : list (option A)) : list A :=
  match l with
  | Some x :: l' => x :: present_prefix l'
  | _ => []
  end.

(** One directory's worth of table pages, in full. *)
Definition gen8_dir_wf (pd : list (list Z)) : Prop :=
  Z.of_nat (length pd) = GEN8_PDES_PER_PAGE /\
  Forall (fun pg => Z.of_nat (length pg) = GEN8_PTES_PER_PAGE) pd.

(** The table pages behind one directory's array of page pointers, if the
    array and all its pages are there. *)
Definition gen8_table_pages (slot : option (list (option (list Z))))
    : option (list (list Z)) :=
  pages ← slot; mapM id pages.

(** [gen8_free_page_tables]: the array holds [GEN8_PDES_PER_PAGE] page
    pointers. *)
Definition gen8_free_page_tables (pt_pages : option (list (option (list Z))))
    (r : kres) : kres :=
  match pt_pages with
  | None => r
  | Some pages =>
    foldl (fun r pg => match pg with
                       | Some _ => res_set_pages r (pages_live r - 1)
                       | None => r
                       end) r pages
  end.

(** The address space a structure that is set up describes: the tables are
    those of the directories that are there.  [base.total] is an
    [unsigned long], of 64 bits. *)
Definition gen8_ppgtt_of_raw (has_llc : bool) (scratch : Z)
    (p : gen8_ppgtt_raw) (pds : list (list Z)) : gen8_ppgtt :=
  {| g8_scratch_addr := scratch; g8_has_llc := has_llc;
     g8_total :=
       u64 (raw8_num_pd_entries p * GEN8_PTES_PER_PAGE * PAGE_SIZE);
     g8_num_pd_entries := raw8_num_pd_entries p;
     g8_num_pd_pages := raw8_num_pd_pages p;
     gen8_pt_pages := present_prefix (gen8_table_pages <$> raw8_pt_pages p);
     pd_pages := pds; pd_dma_addr := raw8_pd_dma_addr p;
     gen8_pt_dma_addr := present_prefix (raw8_pt_dma_addr p) |}.

(** What [gen8_ppgtt_alloc] leaves for the steps that follow, for [m]
    directories: the page-directory block and, for each directory, its
    table pages and its array of DMA addresses. *)
Definition gen8_raw_ready (m : Z) (p : gen8_ppgtt_raw) : Prop :=
  Z.of_nat (length (raw8_pd_dma_addr p)) = GEN8_LEGACY_PDPS /\
  (exists pds,
     raw8_pd_pages p = Some pds /\ m <= Z.of_nat (length pds) /\
     Forall (fun pd => Z.of_nat (length pd) = GEN8_PDES_PER_PAGE) pds) /\
  (forall i, 0 <= i < m ->
     exists pages,
       raw8_pt_pages p !! Z.to_nat i = Some (Some (Some <$> pages)) /\
       Z.of_nat (length pages) = GEN8_PDES_PER_PAGE) /\
  (forall i, 0 <= i < m ->
     exists addrs,
       raw8_pt_dma_addr p !! Z.to_nat i = Some (Some addrs) /\
       Z.of_nat (length addrs) = GEN8_PDES_PER_PAGE).

Section gen8_init.
Context (hw : pte_hw) (env : kenv).

(** [1 << get_order(n << PAGE_SHIFT)] *)
Definition gen8_pd_block (n : Z) : Z :=
  u32 (Z.shiftl 1 (get_order env (s32 (Z.shiftl n PAGE_SHIFT)))).

Definition gen8_ppgtt_free (p : gen8_ppgtt_raw) (r : kres) : option kres :=
  r ← for_each (seqZ 0 (raw8_num_pd_pages p))
        (fun i r =>
           pages ← raw8_pt_pages p !! Z.to_nat i;
           addrs ← raw8_pt_dma_addr p !! Z.to_nat i;
           Some (kfree addrs (kfree pages (gen8_free_page_tables pages r))))
        r;
  _ ← raw8_pd_pages p;
  Some (res_set_pages r
          (pages_live r - gen8_pd_block (raw8_num_pd_pages p))).

Definition gen8_ppgtt_unmap_pages (p : gen8_ppgtt_raw) (r : kres)
    : option kres :=
  for_each (seqZ 0 (raw8_num_pd_pages p))
    (fun i r =>
       pd_addr ← raw8_pd_dma_addr p !! Z.to_nat i;
       if pd_addr =? 0 then Some r else
       for_each (seqZ 0 GEN8_PDES_PER_PAGE)
         (fun j r =>
            slot ← raw8_pt_dma_addr p !! Z.to_nat i;
            addrs ← slot;
            addr ← addrs !! Z.to_nat j;
            Some (if addr =? 0 then r else pci_unmap_page addr r))
         (pci_unmap_page pd_addr r)) r.

(** The [alloc_page] loop of [__gen8_alloc_page_tables]. *)
Fixpoint gen8_alloc_pages_loop (pd : Z) (ixs : list Z)
    (pages : list (option (list Z))) (r : kres)
    : bool * list (option (list Z)) * kres :=
  match ixs with
  | [] => (true, pages, r)
  | i :: ixs' =>
    if alloc_ok env (PT_PAGE pd i)
    then gen8_alloc_pages_loop pd ixs'
           (<[Z.to_nat i := Some (fresh_page env pd i GEN8_PTES_PER_PAGE)]>
              pages)
           (res_set_pages r (pages_live r + 1))
    else (false, pages, r)
  end.

(** [__gen8_alloc_page_tables]; [pd] only tells the environment which call
    this is.  [None] is [ERR_PTR(-ENOMEM)]. *)
Definition __gen8_alloc_page_tables (pd : Z) (r : kres)
    : option (list (option (list Z))) * kres :=
  if alloc_ok env (PT_ARRAY pd) then
    let r := res_set_kmem r (kmem_live r + 1) in
    let '(ok, pages, r) :=
      gen8_alloc_pages_loop pd (seqZ 0 GEN8_PDES_PER_PAGE)
        (replicate (Z.to_nat GEN8_PDES_PER_PAGE) None) r in
    if ok then (Some pages, r)
    else (None, kfree (Some pages) (gen8_free_page_tables (Some pages) r))
  else (None, r).

(** The first loop of [gen8_ppgtt_allocate_page_tables], over the local
    array [pt_pages]: the index that failed, if one did. *)
Fixpoint gen8_alloc_tables_loop (ixs : list Z)
    (pt_pages : list (option (list (option (list Z))))) (r : kres)
    : option (option Z * list (option (list (option (list Z)))) * kres) :=
  match ixs with
  | [] => Some (None, pt_pages, r)
  | i :: ixs' =>
    let '(pages, r) := __gen8_alloc_page_tables i r in
    match pages with
    | Some _ =>
      pt_pages ← store_at i pages pt_pages;
      gen8_alloc_tables_loop ixs' pt_pages r
    | None => Some (Some i, pt_pages, r)
    end
  end.

Definition gen8_ppgtt_allocate_page_tables (p : gen8_ppgtt_raw)
    (max_pdp : Z) (r : kres) : option (Z * gen8_ppgtt_raw * kres) :=
  '(failed, pt_pages, r) ←
    gen8_alloc_tables_loop (seqZ 0 max_pdp)
      (replicate (Z.to_nat GEN8_LEGACY_PDPS) None) r;
  match failed with
  | None =>
    pts ← for_each (seqZ 0 max_pdp)
            (fun i pts => pages ← pt_pages !! Z.to_nat i;
                          store_at i pages pts)
            (raw8_pt_pages p);
    Some (0, raw8_set_pt_pages p pts, r)
  | Some i =>
    r ← for_each (reverse (seqZ 0 i))
          (fun j r =>
             pages ← pt_pages !! Z.to_nat j;
             Some (kfree pages (gen8_free_page_tables pages r))) r;
    Some (- ENOMEM, p, r)
  end.

Fixpoint gen8_alloc_dma_loop (ixs : list Z) (p : gen8_ppgtt_raw) (r : kres)
    : option (Z * gen8_ppgtt_raw * kres) :=
  match ixs with
  | [] => Some (0, p, r)
  | i :: ixs' =>
    if alloc_ok env (PT_DMA_ARRAY i) then
      addrs ← store_at i
                (Some (replicate (Z.to_nat GEN8_PDES_PER_PAGE) 0))
                (raw8_pt_dma_addr p);
      gen8_alloc_dma_loop ixs' (raw8_set_pt_dma p addrs)
        (res_set_kmem r (kmem_live r + 1))
    else
      addrs ← store_at i None (raw8_pt_dma_addr p);
      Some (- ENOMEM, raw8_set_pt_dma p addrs, r)
  end.

Definition gen8_ppgtt_allocate_dma (p : gen8_ppgtt_raw) (r : kres)
    : option (Z * gen8_ppgtt_raw * kres) :=
  gen8_alloc_dma_loop (seqZ 0 (raw8_num_pd_pages p)) p r.

(** [BUG_ON(ppgtt->num_pd_pages > GEN8_LEGACY_PDPS)] is a fault.  The block
    is [1 << order] pages of whatever was there. *)
Definition gen8_ppgtt_allocate_page_directories (p : gen8_ppgtt_raw)
    (max_pdp : Z) (r : kres) : option (Z * gen8_ppgtt_raw * kres) :=
  let n := gen8_pd_block max_pdp in
  if alloc_ok env PD_PAGES then
    let block := (fun i => fresh_page env (-1) i GEN8_PDES_PER_PAGE)
                   <$> zrange (Z.to_nat n) 0 in
    let p := raw8_set_counts (raw8_set_pd_pages p (Some block))
               (raw8_num_pd_entries p) n in
    if GEN8_LEGACY_PDPS <? n then None
    else Some (0, p, res_set_pages r (pages_live r + n))
  else Some (- ENOMEM, p, r).

Definition gen8_ppgtt_alloc (p : gen8_ppgtt_raw) (max_pdp : Z) (r : kres)
    : option (Z * gen8_ppgtt_raw * kres) :=
  '(ret, p, r) ← gen8_ppgtt_allocate_page_directories p max_pdp r;
  if negb (ret =? 0) then Some (ret, p, r) else
  '(ret, p, r) ← gen8_ppgtt_allocate_page_tables p max_pdp r;
  if negb (ret =? 0) then
    Some (ret, p, res_set_pages r (pages_live r - gen8_pd_block max_pdp))
  else
    let p := raw8_set_counts p (u32 (max_pdp * GEN8_PDES_PER_PAGE))
               (raw8_num_pd_pages p) in
    '(ret, p, r) ← gen8_ppgtt_allocate_dma p r;
    if negb (ret =? 0) then r ← gen8_ppgtt_free p r; Some (ret, p, r)
    else Some (ret, p, r).

Definition gen8_ppgtt_setup_page_directories (p : gen8_ppgtt_raw) (pd : Z)
    (r : kres) : option (Z * (gen8_ppgtt_raw * kres)) :=
  match pci_map_page env (MAP_PD pd) with
  | None => Some (pci_dma_mapping_error env, (p, r))
  | Some pd_addr =>
    addrs ← store_at pd pd_addr (raw8_pd_dma_addr p);
    Some (0, (raw8_set_pd_dma p addrs,
              res_set_dma r (pd_addr :: dma_live r) (dma_stray r)))
  end.

Definition gen8_ppgtt_setup_page_tables (p : gen8_ppgtt_raw) (pd pt : Z)
    (r : kres) : option (Z * (gen8_ppgtt_raw * kres)) :=
  slot ← raw8_pt_pages p !! Z.to_nat pd;
  pages ← slot;
  page ← pages !! Z.to_nat pt;
  _ ← page;
  match pci_map_page env (MAP_PT pd pt) with
  | None => Some (pci_dma_mapping_error env, (p, r))
  | Some pt_addr =>
    dslot ← raw8_pt_dma_addr p !! Z.to_nat pd;
    addrs ← dslot;
    addrs ← store_at pt pt_addr addrs;
    Some (0, (raw8_set_pt_dma p
                (<[Z.to_nat pd := Some addrs]> (raw8_pt_dma_addr p)),
              res_set_dma r (pt_addr :: dma_live r) (dma_stray r)))
  end.

(** Step 3 of [gen8_ppgtt_init]: the entries of page directory [i]. *)
Definition gen8_write_pdes (p : gen8_ppgtt_raw) (i : Z)
    : option gen8_ppgtt_raw :=
  pds ← raw8_pd_pages p;
  pd_vaddr ← pds !! Z.to_nat i;
  pd_vaddr ← for_each (seqZ 0 GEN8_PDES_PER_PAGE)
               (fun j pd_vaddr =>
                  slot ← raw8_pt_dma_addr p !! Z.to_nat i;
                  addrs ← slot;
                  addr ← addrs !! Z.to_nat j;
                  store_at j (gen8_pde_encode hw addr I915_CACHE_LLC)
                    pd_vaddr)
               pd_vaddr;
  Some (raw8_set_pd_pages p (Some (<[Z.to_nat i := pd_vaddr]> pds))).

(** [gen8_ppgtt_init], with the scratch page and [HAS_LLC] the caller put in
    [base]. *)
Definition gen8_ppgtt_init (has_llc : bool) (scratch : Z) (size : Z)
    (r : kres) : option (Z * option gen8_ppgtt * kres) :=
  let max_pdp := s32 (u64 (size + (2 ^ 30 - 1)) / 2 ^ 30) in
  '(ret, p, r) ← gen8_ppgtt_alloc gen8_raw_zero max_pdp r;
  if negb (ret =? 0) then Some (ret, None, r) else
  '(ret, (p, r)) ←
    for_each_ret (seqZ 0 max_pdp)
      (fun i (s : gen8_ppgtt_raw * kres) =>
         '(ret, s) ← gen8_ppgtt_setup_page_directories s.1 i s.2;
         if negb (ret =? 0) then Some (ret, s) else
         for_each_ret (seqZ 0 GEN8_PDES_PER_PAGE)
           (fun j (s : gen8_ppgtt_raw * kres) =>
              gen8_ppgtt_setup_page_tables s.1 i j s.2) s)
      (p, r);
  if negb (ret =? 0) then
    r ← gen8_ppgtt_unmap_pages p r;
    r ← gen8_ppgtt_free p r;
    Some (ret, None, r)
  else
    p ← for_each (seqZ 0 max_pdp) (fun i p => gen8_write_pdes p i) p;
    pds ← raw8_pd_pages p;
    let ppgtt := gen8_ppgtt_of_raw has_llc scratch p pds in
    '(ppgtt, _) ← gen8_ppgtt_clear_range hw ppgtt 0 (g8_total ppgtt) true;
    Some (0, Some ppgtt, r).

End gen8_init.
(** An environment in which every request is granted, except that the DMA
    mapping of table page [bad] of directory 0 fails. *)
Definition env_dma_fails_at (bad : Z) : kenv := {|
  drm_mm_insert_node := fun _ => (0, 2145386496);
  i915_gem_evict_something := 0;
  alloc_ok := fun _ => true;
  page_garbage := fun pd i slot => 3735928559;
  pci_map_page := fun site =>
    match site with
    | MAP_PD pd => Some (16777216 + pd * PAGE_SIZE)
    | MAP_PT pd i =>
      if (pd =? 0) && (i =? bad) then None
      else Some (33554432 + (pd * 512 + i) * PAGE_SIZE)
    end;
  pci_dma_mapping_error := 1;
  get_order := fun size =>
    let n := (size - 1) / PAGE_SIZE in
    if n <=? 0 then 0 else Z.log2 n + 1;
|}.

(** An environment in which every request is granted. *)
Definition env_all_ok : kenv := {|
  drm_mm_insert_node := fun _ => (0, 2145386496);
  i915_gem_evict_something := 0;
  alloc_ok := fun _ => true;
  page_garbage := fun pd i slot => 3735928559;
  pci_map_page := fun site =>
    match site with
    | MAP_PD pd => Some (16777216 + pd * PAGE_SIZE)
    | MAP_PT pd i => Some (33554432 + (pd * 512 + i) * PAGE_SIZE)
    end;
  pci_dma_mapping_error := 1;
  get_order := fun size =>
    let n := (size - 1) / PAGE_SIZE in
    if n <=? 0 then 0 else Z.log2 n + 1;
|}.

(** What it takes for initialisation to go through at the first attempt. *)
Definition env_grants_all (env : kenv) : Prop :=
  (drm_mm_insert_node env false).1 = 0 /\
  (forall site, alloc_ok env site = true) /\
  (forall site, is_Some (pci_map_page env site)).

(** [r] with more taken from the kernel: nodes reserved, pages and arrays
    allocated, DMA mappings made. *)
Definition res_take (r : kres) (nodes : list (Z * Z)) (pages kmem : Z)
    (dma : list Z) : kres :=
  {| mm_nodes := nodes ++ mm_nodes r; pages_live := pages_live r + pages;
     kmem_live := kmem_live r + kmem; dma_live := dma ++ dma_live r;
     dma_stray := dma_stray r; gsm_writes := gsm_writes r |}.

(** The same resources held, whatever was written to the global GTT. *)
Definition res_same (r r' : kres) : Prop :=
  mm_nodes r' = mm_nodes r /\ pages_live r' = pages_live r /\
  kmem_live r' = kmem_live r /\ dma_live r' = dma_live r /\
  dma_stray r' = dma_stray r.

(** The DMA mappings in place less the [pci_unmap_page] calls that found
    no mapping to undo. *)
Definition dma_balance (r : kres) : Z :=
  Z.of_nat (length (dma_live r)) - Z.of_nat (length (dma_stray r)).

(** An array of [GEN8_LEGACY_PDPS] pointers of which the first are set and
    the others NULL. *)
Definition gen8_slots {A} (l : list A) : list (option A) :=
  (Some <$> l) ++ replicate (Z.to_nat GEN8_LEGACY_PDPS - length l) None.

(** The structure as the finished address space holds it: the slots past
    the directories that are there are NULL. *)
Definition gen8_raw_of (ppgtt : gen8_ppgtt) : gen8_ppgtt_raw :=
  {| raw8_num_pd_entries := g8_num_pd_entries ppgtt;
     raw8_num_pd_pages := g8_num_pd_pages ppgtt;
     raw8_pd_pages := Some (pd_pages ppgtt);
     raw8_pt_pages :=
       gen8_slots ((fun pd : list (list Z) => Some <$> pd)
                     <$> gen8_pt_pages ppgtt);
     raw8_pd_dma_addr := pd_dma_addr ppgtt;
     raw8_pt_dma_addr := gen8_slots (gen8_pt_dma_addr ppgtt) |}.

(** [gen8_ppgtt_cleanup] *)
Definition gen8_ppgtt_cleanup (env : kenv) (ppgtt : gen8_ppgtt) (r : kres)
    : option kres :=
  r ← gen8_ppgtt_unmap_pages (gen8_raw_of ppgtt) r;
  gen8_ppgtt_free env (gen8_raw_of ppgtt) r.

(** The pages the initialisation maps: directory [pd], or table [i] of
    directory [pd], counted from 0. *)
Definition map_site_valid (site : map_site) : Prop :=
  match site with
  | MAP_PD pd => 0 <= pd
  | MAP_PT pd i => 0 <= pd /\ 0 <= i
  end.

(** What a DMA mapping hands out is never the address 0, which
    [gen8_ppgtt_unmap_pages] takes for a slot that was not mapped. *)
Definition env_dma_nonzero (env : kenv) : Prop :=
  forall site a,
    map_site_valid site -> pci_map_page env site = Some a -> a <> 0.

(** ** Binding into the global GTT *)

#[global] Instance i915_cache_level_eq_dec : EqDecision i915_cache_level.
Proof. solve_decision. Defined.

(** The loop shared by [gen6_ggtt_insert_entries] and
    [gen8_ggtt_insert_entries]: [gtt_entries[i] = encode(addr); i++] for the
    pages of the object in turn.  The state is the table, [i], the last
    [addr] and whether an encoder warned.  A write outside [gsm] is a
    fault. *)
Fixpoint ggtt_insert_loop (encode : Z -> Z * bool) (first_entry : Z)
    (pages : list Z) (s : list Z * Z * Z * bool)
    : option (list Z * Z * Z * bool) :=
  match pages with
  | [] => Some s
  | addr :: pages' =>
    let '(entries, i, _, warned) := s in
    let '(pte, w) := encode addr in
    entries ← store_at (first_entry + i) pte entries;
    ggtt_insert_loop encode first_entry pages'
      (entries, i + 1, addr, warned || w)
  end.

(** The two functions but for the encoder: the loop, then the posting read
    of the last entry written, which warns if it is not the encoding of the
    last address.  The result says whether anything warned. *)
Definition ggtt_insert_pages (encode : Z -> Z * bool) (g : i915_gtt)
    (pages : list Z) (start : Z) : option (i915_gtt * bool) :=
  let first_entry := u32 (Z.shiftr start PAGE_SHIFT) in
  '(entries, i, addr, warned) ←
    ggtt_insert_loop encode first_entry pages (gsm g, 0, 0, false);
  warned ←
    (if negb (i =? 0) then
       last ← entries !! Z.to_nat (first_entry + i - 1);
       let '(pte, w) := encode addr in
       Some (warned || w || negb (last =? pte))
     else Some warned);
  Some (gtt_set_gsm g entries, warned).

Definition gen6_ggtt_insert_entries (g : i915_gtt) (pages : list Z)
    (start : Z) (level : i915_cache_level) (flags : Z)
    : option (i915_gtt * bool) :=
  ggtt_insert_pages (fun addr => gtt_pte_encode g addr level true flags)
    g pages start.

Definition gen8_ggtt_insert_entries (hw : pte_hw) (g : i915_gtt)
    (pages : list Z) (start : Z) (level : i915_cache_level) (unused : Z)
    : option (i915_gtt * bool) :=
  ggtt_insert_pages (fun addr => (gen8_pte_encode hw addr level true, false))
    g pages start.

Section ggtt_bind.
Context (hw : pte_hw).
(** [GLOBAL_BIND], a flag bit declared in [i915_gem_gtt.h]. *)
Context (GLOBAL_BIND : Z).

(** [vma->vm->insert_entries] of the global GTT *)
Definition ggtt_insert_entries (g : i915_gtt) (pages : list Z) (start : Z)
    (level : i915_cache_level) (flags : Z) : option (i915_gtt * bool) :=
  match ggtt_gen_of g with
  | GGTT_GEN6 => gen6_ggtt_insert_entries g pages start level flags
  | GGTT_GEN8 => gen8_ggtt_insert_entries hw g pages start level flags
  end.

(** [ggtt_bind_vma]; [obj_cache_level] is [obj->cache_level], which the
    function reads and leaves. *)
Definition ggtt_bind_vma (dev : ggtt_dev) (vma : i915_vma)
    (obj_cache_level cache_level : i915_cache_level) (flags : Z)
    : option (ggtt_dev * i915_vma) :=
  let o := obj vma in
  let flags :=
    if gt_ro o then Z.lor flags (PTE_READ_ONLY hw) else flags in
  let level_changed := negb (bool_decide (cache_level = obj_cache_level)) in
  '(g, o) ←
    (if negb (bool_decide (is_Some (aliasing_ppgtt dev)))
        || negb (Z.land flags GLOBAL_BIND =? 0) then
       if negb (has_global_gtt_mapping o) || level_changed then
         '(g, _) ← ggtt_insert_entries (gtt dev) (obj_pages o)
                     (node_start vma) cache_level flags;
         Some (g, obj_set_mappings o true (has_aliasing_ppgtt_mapping o))
       else Some (gtt dev, o)
     else Some (gtt dev, o));
  '(appgtt, o) ←
    match aliasing_ppgtt dev with
    | Some appgtt =>
      if negb (has_aliasing_ppgtt_mapping o) || level_changed then
        '(appgtt, _) ← vm_insert_entries hw appgtt (obj_pages o)
                         (node_start vma) cache_level flags;
        Some (Some appgtt,
              obj_set_mappings o (has_global_gtt_mapping o) true)
      else Some (Some appgtt, o)
    | None => Some (None, o)
    end;
  Some ({| gtt := g; aliasing_ppgtt := appgtt |},
        {| node_start := node_start vma; obj := o |}).

End ggtt_bind.

(** Entry [k] of a per-process address space, and the entry its
    [clear_range] writes. *)
Definition vm_pte_at (vm : ppgtt_vm) (k : Z) : option Z :=
  match vm with
  | Gen6Vm p => gen6_pte_at p k
  | Gen8Vm p => gen8_pte_at p k
  end.

Definition vm_scratch_pte (hw : pte_hw) (vm : ppgtt_vm) : Z :=
  match vm with
  | Gen6Vm p => gen6_scratch_pte p
  | Gen8Vm p => gen8_scratch_pte hw p
  end.

(** The entry [clear_range] of the global GTT writes. *)
Definition ggtt_scratch_pte (hw : pte_hw) (g : i915_gtt) (use_scratch : bool)
    : Z :=
  match ggtt_gen_of g with
  | GGTT_GEN6 =>
    fst (gtt_pte_encode g (gtt_scratch_addr g) I915_CACHE_LLC use_scratch 0)
  | GGTT_GEN8 =>
    gen8_pte_encode hw (gtt_scratch_addr g) I915_CACHE_LLC use_scratch
  end.

(** The encoding [insert_entries] of the global GTT writes for a page. *)
Definition ggtt_page_pte (hw : pte_hw) (g : i915_gtt)
    (level : i915_cache_level) (flags addr : Z) : Z :=
  match ggtt_gen_of g with
  | GGTT_GEN6 => fst (gtt_pte_encode g addr level true flags)
  | GGTT_GEN8 => gen8_pte_encode hw addr level true
  end.

(** A global GTT whose table has an entry for every page of [total], and a
    VMA placed inside it. *)
Definition ggtt_ok (g : i915_gtt) : Prop :=
  0 <= gtt_total g < 2 ^ 44 /\
  Z.of_nat (length (gsm g)) = gtt_total_entries g.

Definition vma_in_ggtt (g : i915_gtt) (vma : i915_vma) : Prop :=
  0 <= node_start vma /\ 0 <= obj_size (obj vma) /\
  node_start vma + obj_size (obj vma) <= gtt_total g.

(** A global GTT of sixteen entries holding the scratch encoding, with the
    Sandybridge encoder. *)
Definition demo_ggtt : i915_gtt := {|
  ggtt_gen_of := GGTT_GEN6;
  gsm := replicate 16 (fst (snb_pte_encode i915_hw 28672 I915_CACHE_LLC true 0));
  gtt_total := 16 * PAGE_SIZE;
  gtt_scratch_addr := 28672;
  gtt_pte_encode := snb_pte_encode i915_hw;
|}.

(** An object of four pages placed at entry 6, not bound yet. *)
Definition demo_ggtt_vma : i915_vma := {|
  node_start := 6 * PAGE_SIZE;
  obj := {| obj_size := 4 * PAGE_SIZE; obj_pages := demo_pages;
            gt_ro := false; has_global_gtt_mapping := false;
            has_aliasing_ppgtt_mapping := false |};
|}.

(** The device with that global GTT and the two-table gen6 space as its
    aliasing PPGTT. *)
Definition demo_ggtt_dev : ggtt_dev :=
  {| gtt := demo_ggtt; aliasing_ppgtt := Some (Gen6Vm demo_gen6) |}.

(** The same object, bound in the global GTT and in the aliasing PPGTT. *)
Definition demo_ggtt_vma_bound : i915_vma := {|
  node_start := 6 * PAGE_SIZE;
  obj := {| obj_size := 4 * PAGE_SIZE; obj_pages := demo_pages;
            gt_ro := false; has_global_gtt_mapping := true;
            has_aliasing_ppgtt_mapping := true |};
|}.

(** [get_pd_offset]: [BUG_ON(ppgtt->pd_offset & 0x3f)] is a fault. *)
Definition get_pd_offset (ppgtt : gen6_ppgtt) : option Z :=
  if negb (Z.land (pd_offset ppgtt) 63 =? 0) then None
  else Some (u32 (Z.shiftl (pd_offset ppgtt / 64) 16)).

(** ** Sizing the global GTT and choosing the PPGTT *)

Definition u16 (x : Z) : Z := x mod 2 ^ 16.

(** The fields of the GMCH control word.  Their shifts and masks are
    declared in [i915_reg.h], which is not part of the sources at hand, so
    the decoders take them as a parameter. *)
Record gmch_hw := {
  SNB_GMCH_GGMS_SHIFT : Z;
  SNB_GMCH_GGMS_MASK : Z;
  SNB_GMCH_GMS_SHIFT : Z;
  SNB_GMCH_GMS_MASK : Z;
  BDW_GMCH_GGMS_SHIFT : Z;
  BDW_GMCH_GGMS_MASK : Z;
  BDW_GMCH_GMS_SHIFT : Z;
  BDW_GMCH_GMS_MASK : Z;
}.

(** The values the driver headers give them. *)
Definition i915_gmch : gmch_hw := {|
  SNB_GMCH_GGMS_SHIFT := 8;
  SNB_GMCH_GGMS_MASK := 3;
  SNB_GMCH_GMS_SHIFT := 3;
  SNB_GMCH_GMS_MASK := 31;
  BDW_GMCH_GGMS_SHIFT := 6;
  BDW_GMCH_GGMS_MASK := 3;
  BDW_GMCH_GMS_SHIFT := 8;
  BDW_GMCH_GMS_MASK := 255;
|}.

(** What the [INTEL_INFO] and [IS_...] macros of [i915_drv.h] give on the
    device, and the members of the device the code below reads. *)
Record intel_device := {
  info_gen : Z;                 (* INTEL_INFO(dev)->gen *)
  IS_GEN6 : bool;
  IS_GEN7 : bool;
  IS_GEN8 : bool;
  IS_GEN9 : bool;
  IS_HASWELL : bool;
  IS_VALLEYVIEW : bool;
  IS_CHERRYVIEW : bool;
  HAS_LLC : bool;
  pdev_revision : Z;            (* dev->pdev->revision *)
  intel_iommu_gfx_mapped : bool;
}.

Section gmch.
Context (h : gmch_hw).
(** [CONFIG_X86_32]: [size_t] and [unsigned long] have 32 bits. *)
Context (CONFIG_X86_32 : bool).

(** An [int] converted to [size_t]. *)
Definition size_t (x : Z) : Z := if CONFIG_X86_32 then u32 x else u64 x.

(** The decoders work in a [u16] variable; the shift that produces the
    result is done in [int]. *)
Definition gen6_get_total_gtt_size (snb_gmch_ctl : Z) : Z :=
  let snb_gmch_ctl := u16 (Z.shiftr snb_gmch_ctl (SNB_GMCH_GGMS_SHIFT h)) in
  let snb_gmch_ctl := u16 (Z.land snb_gmch_ctl (SNB_GMCH_GGMS_MASK h)) in
  u32 (s32 (Z.shiftl snb_gmch_ctl 20)).

Definition gen8_get_total_gtt_size (bdw_gmch_ctl : Z) : Z :=
  let bdw_gmch_ctl := u16 (Z.shiftr bdw_gmch_ctl (BDW_GMCH_GGMS_SHIFT h)) in
  let bdw_gmch_ctl := u16 (Z.land bdw_gmch_ctl (BDW_GMCH_GGMS_MASK h)) in
  let bdw_gmch_ctl :=
    if negb (bdw_gmch_ctl =? 0)
    then u16 (s32 (Z.shiftl 1 bdw_gmch_ctl)) else bdw_gmch_ctl in
  let bdw_gmch_ctl :=
    if CONFIG_X86_32 && (bdw_gmch_ctl >? 4) then 4 else bdw_gmch_ctl in
  u32 (s32 (Z.shiftl bdw_gmch_ctl 20)).

Definition chv_get_total_gtt_size (gmch_ctrl : Z) : Z :=
  let gmch_ctrl := u16 (Z.shiftr gmch_ctrl (SNB_GMCH_GGMS_SHIFT h)) in
  let gmch_ctrl := u16 (Z.land gmch_ctrl (SNB_GMCH_GGMS_MASK h)) in
  if negb (gmch_ctrl =? 0) then u32 (s32 (Z.shiftl 1 (20 + gmch_ctrl)))
  else 0.

Definition gen6_get_stolen_size (snb_gmch_ctl : Z) : Z :=
  let snb_gmch_ctl := u16 (Z.shiftr snb_gmch_ctl (SNB_GMCH_GMS_SHIFT h)) in
  let snb_gmch_ctl := u16 (Z.land snb_gmch_ctl (SNB_GMCH_GMS_MASK h)) in
  size_t (s32 (Z.shiftl snb_gmch_ctl 25)).

Definition gen8_get_stolen_size (bdw_gmch_ctl : Z) : Z :=
  let bdw_gmch_ctl := u16 (Z.shiftr bdw_gmch_ctl (BDW_GMCH_GMS_SHIFT h)) in
  let bdw_gmch_ctl := u16 (Z.land bdw_gmch_ctl (BDW_GMCH_GMS_MASK h)) in
  size_t (s32 (Z.shiftl bdw_gmch_ctl 25)).

Definition chv_get_stolen_size (gmch_ctrl : Z) : Z :=
  let gmch_ctrl := u16 (Z.shiftr gmch_ctrl (SNB_GMCH_GMS_SHIFT h)) in
  let gmch_ctrl := u16 (Z.land gmch_ctrl (SNB_GMCH_GMS_MASK h)) in
  if gmch_ctrl <? 17 then size_t (s32 (Z.shiftl gmch_ctrl 25))
  else if gmch_ctrl <? 23
       then size_t (s32 (Z.shiftl (s32 (gmch_ctrl - 17 + 2)) 22))
       else size_t (s32 (Z.shiftl (s32 (gmch_ctrl - 23 + 9)) 22)).

Definition gen9_get_stolen_size (gen9_gmch_ctl : Z) : Z :=
  let gen9_gmch_ctl := u16 (Z.shiftr gen9_gmch_ctl (BDW_GMCH_GMS_SHIFT h)) in
  let gen9_gmch_ctl := u16 (Z.land gen9_gmch_ctl (BDW_GMCH_GMS_MASK h)) in
  if gen9_gmch_ctl <? 240 then size_t (s32 (Z.shiftl gen9_gmch_ctl 25))
  else size_t (s32 (Z.shiftl (s32 (gen9_gmch_ctl - 240 + 1)) 22)).

(** The sizes [gen8_gmch_probe] and [gen6_gmch_probe] store through
    [gtt_total] and [stolen], for the control word read from the PCI
    configuration space: [gtt_size / sizeof(pte)] is computed in [size_t].
    The aperture is the PCI resource's; for gen6 it has to be between 64MB
    and 512MB, or the probe fails with [-ENXIO] before the sizes are
    stored. *)
Definition gen8_gmch_probe_sizes (dev : intel_device) (snb_gmch_ctl : Z)
    : Z * Z :=
  let '(stolen, gtt_size) :=
    if 9 <=? info_gen dev
    then (gen9_get_stolen_size snb_gmch_ctl,
          gen8_get_total_gtt_size snb_gmch_ctl)
    else if IS_CHERRYVIEW dev
    then (chv_get_stolen_size snb_gmch_ctl,
          chv_get_total_gtt_size snb_gmch_ctl)
    else (gen8_get_stolen_size snb_gmch_ctl,
          gen8_get_total_gtt_size snb_gmch_ctl) in
  (size_t (Z.shiftl (gtt_size / 8) PAGE_SHIFT), stolen).

Definition ENXIO : Z := 6.

Definition gen6_gmch_probe_sizes (mappable_end snb_gmch_ctl : Z)
    : Z + Z * Z :=
  if (mappable_end <? Z.shiftl 64 20) || (mappable_end >? Z.shiftl 512 20)
  then inl (- ENXIO)
  else
    let stolen := gen6_get_stolen_size snb_gmch_ctl in
    let gtt_size := gen6_get_total_gtt_size snb_gmch_ctl in
    inr (size_t (Z.shiftl (gtt_size / 4) PAGE_SHIFT), stolen).

End gmch.

(** [sanitize_enable_ppgtt]; [CONFIG_INTEL_IOMMU] tells whether the VT-d
    check is compiled in. *)
Definition sanitize_enable_ppgtt (CONFIG_INTEL_IOMMU : bool)
    (dev : intel_device) (enable_ppgtt : Z) : Z :=
  let has_aliasing_ppgtt := 6 <=? info_gen dev in
  let has_full_ppgtt := 7 <=? info_gen dev in
  let has_full_ppgtt := if IS_GEN8 dev then false else has_full_ppgtt in
  if (enable_ppgtt =? 0) || negb has_aliasing_ppgtt then 0
  else if enable_ppgtt =? 1 then 1
  else if (enable_ppgtt =? 2) && has_full_ppgtt then 2
  else if CONFIG_INTEL_IOMMU && (info_gen dev =? 6)
          && intel_iommu_gfx_mapped dev then 0
  else if IS_VALLEYVIEW dev && negb (IS_CHERRYVIEW dev)
          && (pdev_revision dev <? 11) then 0
  else if has_aliasing_ppgtt then 1 else 0.

(** The device [gen6_ppgtt_init] finds, by the order of its tests. *)
Definition gen6_device_of (dev : intel_device) : gen6_device :=
  if IS_GEN6 dev then DEV_GEN6
  else if IS_HASWELL dev then DEV_HASWELL
  else if IS_GEN7 dev then DEV_GEN7
  else DEV_OTHER.

(** [__hw_ppgtt_init]: the scratch page, the encoder and the size come from
    the global GTT; [BUG()] is a fault. *)
Definition __hw_ppgtt_init (hw : pte_hw) (env : kenv) (dev : intel_device)
    (g : i915_gtt) (r : kres) : option (Z * option ppgtt_vm * kres) :=
  if info_gen dev <? 8 then
    match gen6_ppgtt_init hw env (gen6_device_of dev)
            (gtt_scratch_addr g) (gtt_pte_encode g) r with
    | Some (ret, ppgtt, r) => Some (ret, Gen6Vm <$> ppgtt, r)
    | None => None
    end
  else if IS_GEN8 dev || IS_GEN9 dev then
    match gen8_ppgtt_init hw env (HAS_LLC dev)
            (gtt_scratch_addr g) (gtt_total g) r with
    | Some (ret, ppgtt, r) => Some (ret, Gen8Vm <$> ppgtt, r)
    | None => None
    end
  else None.

(** A Broadwell, and its global GTT of 2GB before the table is mapped. *)
Definition demo_bdw : intel_device := {|
  info_gen := 8; IS_GEN6 := false; IS_GEN7 := false; IS_GEN8 := true;
  IS_GEN9 := false; IS_HASWELL := false; IS_VALLEYVIEW := false;
  IS_CHERRYVIEW := false; HAS_LLC := true; pdev_revision := 9;
  intel_iommu_gfx_mapped := false;
|}.

Definition demo_bdw_ggtt : i915_gtt := {|
  ggtt_gen_of := GGTT_GEN8; gsm := []; gtt_total := 2 ^ 31;
  gtt_scratch_addr := 28672; gtt_pte_encode := snb_pte_encode i915_hw;
|}.

(** ** Loading the page directories of a gen8 PPGTT *)

(** The command and register macros of [i915_reg.h], for the ring at hand. *)
Record ring_hw := {
  MI_LOAD_REGISTER_IMM : Z -> Z;
  GEN8_RING_PDP_UDW : Z -> Z;       (* GEN8_RING_PDP_UDW(ring, entry) *)
  GEN8_RING_PDP_LDW : Z -> Z;
}.

(** [gen8_write_pdp]: [BUG_ON(entry >= 4)] is a fault; [intel_ring_begin] is
    what that call returns; the words are appended to the ring. *)
Definition gen8_write_pdp (rh : ring_hw) (intel_ring_begin : Z)
    (entry val : Z) (ring : list Z) : option (Z * list Z) :=
  if 4 <=? entry then None else
  if negb (intel_ring_begin =? 0) then Some (intel_ring_begin, ring) else
  Some (0, ring ++ [MI_LOAD_REGISTER_IMM rh 1; GEN8_RING_PDP_UDW rh entry;
                    u32 (Z.shiftr val 32);
                    MI_LOAD_REGISTER_IMM rh 1; GEN8_RING_PDP_LDW rh entry;
                    u32 val]).

(** [gen8_mm_switch], the function behind the [switch_mm] pointer of that
    name; [ring_begin i] is what [intel_ring_begin] returns when entry [i]
    is written. *)
Module Ring.
Definition gen8_mm_switch (rh : ring_hw) (ring_begin : Z -> Z)
    (ppgtt : gen8_ppgtt) (ring : list Z) : option (Z * list Z) :=
  let used_pd := s32 (u32 (g8_num_pd_entries ppgtt) / GEN8_PDES_PER_PAGE) in
  for_each_ret (reverse (seqZ 0 used_pd))
    (fun i ring =>
       addr ← pd_dma_addr ppgtt !! Z.to_nat i;
       gen8_write_pdp rh (ring_begin i) i addr ring) ring.
End Ring.

(** The six words [gen8_write_pdp] emits for an entry. *)
Definition pdp_words (rh : ring_hw) (entry val : Z) : list Z :=
  [MI_LOAD_REGISTER_IMM rh 1; GEN8_RING_PDP_UDW rh entry;
   u32 (Z.shiftr val 32);
   MI_LOAD_REGISTER_IMM rh 1; GEN8_RING_PDP_LDW rh entry; u32 val].

(** A ring whose commands and registers are told apart by their numbers. *)
Definition demo_ring : ring_hw := {|
  MI_LOAD_REGISTER_IMM := fun n => 285212672 + 2 * n - 1;
  GEN8_RING_PDP_UDW := fun entry => 8192 + 624 + entry * 8 + 4;
  GEN8_RING_PDP_LDW := fun entry => 8192 + 624 + entry * 8;
|}.

(** * The atomic modeset helpers *)

(** Objects are named by their index in the device's tables
    ([drm_crtc_index] and the like), encoders by a number; a pointer to one
    is [Some] of it, NULL is [None].  [M] stands for
    [struct drm_display_mode]. *)
Record drm_connector_state := {
  crtc : option nat;
  best_encoder : option nat;
}.

Record drm_crtc_state (M : Type) := {
  enable : bool;
  mode_changed : bool;
  planes_changed : bool;
  mode : M;
  adjusted_mode : M;
}.
Arguments enable {M}.
Arguments mode_changed {M}.
Arguments planes_changed {M}.
Arguments mode {M}.
Arguments adjusted_mode {M}.

Record drm_plane_state := {
  plane_state_crtc : option nat;       (* plane_state->crtc *)
  fb : option nat;
}.

(** [struct drm_plane]: the legacy [plane->crtc] and [plane->state]. *)
Record drm_plane := {
  plane_crtc : option nat;
  plane_current_state : drm_plane_state;
}.

(** The live state: [connector->state], [crtc->state] and the planes, in
    the order of the device's lists. *)
Record drm_device (M : Type) := {
  connector_list : list drm_connector_state;
  crtc_list : list (drm_crtc_state M);
  plane_list : list drm_plane;
}.
Arguments connector_list {M}.
Arguments crtc_list {M}.
Arguments plane_list {M}.

(** [struct drm_atomic_state].  [state->connectors[i]] is set together with
    [state->connector_states[i]], and so for CRTCs and planes: one option
    stands for both pointers. *)
Record drm_atomic_state (M : Type) := {
  connector_states : list (option drm_connector_state);
  crtc_states : list (option (drm_crtc_state M));
  plane_states : list (option drm_plane_state);
}.
Arguments connector_states {M}.
Arguments crtc_states {M}.
Arguments plane_states {M}.

(** [plane->helper_private] *)
Record drm_plane_helper_funcs := {
  plane_atomic_check : option (drm_plane_state -> Z);
  prepare_fb : option (nat -> Z);
  cleanup_fb : bool;                   (* whether the hook is there *)
}.

(** What the helpers call out to: the drivers' hooks, [drm_mode_equal], and
    what acquiring an object for the transaction may answer (the failure of
    the lock or of the allocation; 0 when there is none). *)
Record drm_funcs (M : Type) := {
  drm_mode_equal : M -> M -> bool;
  connector_best_encoder : nat -> option nat;
  bridge_mode_fixup : nat -> option (M -> M -> bool * M);
  encoder_mode_fixup : nat -> M -> M -> bool * M;
  crtc_mode_fixup : nat -> M -> M -> bool * M;
  plane_helper_private : nat -> option drm_plane_helper_funcs;
  crtc_atomic_check : nat -> option (drm_crtc_state M -> Z);
  crtc_acquire : nat -> Z;
  connector_acquire : nat -> Z;
}.
Arguments drm_mode_equal {M}.
Arguments connector_best_encoder {M}.
Arguments bridge_mode_fixup {M}.
Arguments encoder_mode_fixup {M}.
Arguments crtc_mode_fixup {M}.
Arguments plane_helper_private {M}.
Arguments crtc_atomic_check {M}.
Arguments crtc_acquire {M}.
Arguments connector_acquire {M}.

(** What the commit does outside the software state, in order. *)
Inductive commit_event :=
| PrepareFb (plane fb : nat)
| CleanupFb (plane fb : nat)
| WaitForFences | CommitPrePlanes | CommitPlanes | CommitPostPlanes
| WaitForVblanks | StateFree.

Section atomic.
Context {M : Type} (F : drm_funcs M) (dev : drm_device M).

Definition set_connector_states (st : drm_atomic_state M)
    (l : list (option drm_connector_state)) : drm_atomic_state M :=
  {| connector_states := l; crtc_states := crtc_states st;
     plane_states := plane_states st |}.
Definition set_crtc_states (st : drm_atomic_state M)
    (l : list (option (drm_crtc_state M))) : drm_atomic_state M :=
  {| connector_states := connector_states st; crtc_states := l;
     plane_states := plane_states st |}.

Definition crtc_state_set_mode_changed (cs : drm_crtc_state M)
    : drm_crtc_state M :=
  {| enable := enable cs; mode_changed := true;
     planes_changed := planes_changed cs; mode := mode cs;
     adjusted_mode := adjusted_mode cs |}.
Definition crtc_state_set_planes_changed (cs : drm_crtc_state M)
    : drm_crtc_state M :=
  {| enable := enable cs; mode_changed := mode_changed cs;
     planes_changed := true; mode := mode cs;
     adjusted_mode := adjusted_mode cs |}.
Definition crtc_state_set_adjusted_mode (cs : drm_crtc_state M) (m : M)
    : drm_crtc_state M :=
  {| enable := enable cs; mode_changed := mode_changed cs;
     planes_changed := planes_changed cs; mode := mode cs;
     adjusted_mode := m |}.

(** [state->crtc_states[idx]], read through: NULL is a fault. *)
Definition crtc_state_of (st : drm_atomic_state M) (idx : nat)
    : option (drm_crtc_state M) :=
  slot ← crtc_states st !! idx; slot.

(** [state->crtc_states[idx]->mode_changed = true] *)
Definition mark_mode_changed (st : drm_atomic_state M) (idx : nat)
    : option (drm_atomic_state M) :=
  cs ← crtc_state_of st idx;
  Some (set_crtc_states st
          (<[idx := Some (crtc_state_set_mode_changed cs)]> (crtc_states st))).

(** [state->connector_states[i]], read through. *)
Definition connector_state_of (st : drm_atomic_state M) (idx : nat)
    : option drm_connector_state :=
  slot ← connector_states st !! idx; slot.

Definition put_connector_state (st : drm_atomic_state M) (idx : nat)
    (c : drm_connector_state) : drm_atomic_state M :=
  set_connector_states st (<[idx := Some c]> (connector_states st)).

(** [drm_atomic_helper_crtc_duplicate_state] *)
Definition drm_atomic_helper_crtc_duplicate_state (cs : drm_crtc_state M)
    : drm_crtc_state M :=
  {| enable := enable cs; mode_changed := false; planes_changed := false;
     mode := mode cs; adjusted_mode := adjusted_mode cs |}.

(** Modelled from the spec: [drm_atomic_get_crtc_state], of drm_atomic.c.
    The transaction "owns arrays of proposed states indexed by object"; a
    CRTC state is "duplicated at transaction start": the state already in
    the transaction is returned, otherwise the object is acquired, which may
    fail, and a duplicate of its current state is put in its slot. *)
Definition drm_atomic_get_crtc_state (st : drm_atomic_state M) (idx : nat)
    : option (Z * drm_atomic_state M) :=
  slot ← crtc_states st !! idx;
  match slot with
  | Some _ => Some (0, st)
  | None =>
    if negb (crtc_acquire F idx =? 0) then Some (crtc_acquire F idx, st)
    else
      cs ← crtc_list dev !! idx;
      Some (0, set_crtc_states st
                 (<[idx := Some (drm_atomic_helper_crtc_duplicate_state cs)]>
                    (crtc_states st)))
  end.

(** Modelled from the spec: [drm_atomic_get_connector_state], of
    drm_atomic.c.  As for a CRTC; the duplicate of a connector state is a
    plain copy ([drm_atomic_helper_connector_duplicate_state]), and the
    state of the CRTC the connector is on is taken into the transaction with
    it. *)
Definition drm_atomic_get_connector_state (st : drm_atomic_state M)
    (idx : nat) : option (Z * drm_atomic_state M) :=
  slot ← connector_states st !! idx;
  match slot with
  | Some _ => Some (0, st)
  | None =>
    if negb (connector_acquire F idx =? 0)
    then Some (connector_acquire F idx, st)
    else
      c ← connector_list dev !! idx;
      let st := put_connector_state st idx c in
      match crtc c with
      | Some i => drm_atomic_get_crtc_state st i
      | None => Some (0, st)
      end
  end.

(** Modelled from the spec: [drm_atomic_set_crtc_for_connector], of
    drm_atomic.c: the connector state is pointed at the CRTC, whose state is
    taken into the transaction first; detaching ([None]) cannot fail. *)
Definition drm_atomic_set_crtc_for_connector (st : drm_atomic_state M)
    (idx : nat) (new_crtc : option nat) : option (Z * drm_atomic_state M) :=
  '(ret, st) ← match new_crtc with
               | Some i => drm_atomic_get_crtc_state st i
               | None => Some (0, st)
               end;
  if negb (ret =? 0) then Some (ret, st) else
  c ← connector_state_of st idx;
  Some (0, put_connector_state st idx
             {| crtc := new_crtc; best_encoder := best_encoder c |}).

(** Modelled from the spec: [drm_atomic_add_affected_connectors], of
    drm_atomic.c: "pull in all of its currently-connected connectors into
    the transaction". *)
Definition drm_atomic_add_affected_connectors (st : drm_atomic_state M)
    (idx : nat) : option (Z * drm_atomic_state M) :=
  for_each_ret (seq 0 (length (connector_list dev)))
    (fun j st =>
       c ← connector_list dev !! j;
       if decide (crtc c = Some idx)
       then drm_atomic_get_connector_state st j
       else Some (0, st)) st.

(** [connector_states[i] && connector_states[i]->crtc == crtc] *)
Definition routed_to (idx : nat) (slot : option drm_connector_state) : bool :=
  match slot with
  | Some c => bool_decide (crtc c = Some idx)
  | None => false
  end.

(** Modelled from the spec: [drm_atomic_connectors_for_crtc], of
    drm_atomic.c: the "num connectors routed to it", counted over the
    connector states of the transaction. *)
Definition drm_atomic_connectors_for_crtc (st : drm_atomic_state M)
    (idx : nat) : nat :=
  length (List.filter (routed_to idx) (connector_states st)).

(** [get_current_crtc_for_encoder]: the CRTC of the first connector whose
    current state holds the encoder. *)
Definition get_current_crtc_for_encoder (encoder : nat) : option nat :=
  match List.find (fun c => bool_decide (best_encoder c = Some encoder))
          (connector_list dev) with
  | Some c => crtc c
  | None => None
  end.

Definition steal_encoder (st : drm_atomic_state M) (encoder : nat)
    (encoder_crtc : nat) : option (Z * drm_atomic_state M) :=
  '(ret, st) ← drm_atomic_get_crtc_state st encoder_crtc;
  if negb (ret =? 0) then Some (ret, st) else
  st ← mark_mode_changed st encoder_crtc;
  for_each_ret (seq 0 (length (connector_list dev)))
    (fun j st =>
       c ← connector_list dev !! j;
       if decide (best_encoder c = Some encoder) then
         '(ret, st) ← drm_atomic_get_connector_state st j;
         if negb (ret =? 0) then Some (ret, st) else
         '(ret, st) ← drm_atomic_set_crtc_for_connector st j None;
         if negb (ret =? 0) then Some (ret, st) else
         c' ← connector_state_of st j;
         Some (0, put_connector_state st j
                    {| crtc := crtc c'; best_encoder := None |})
       else Some (0, st)) st.

(** [update_connector_routing].  [connector_state] points into the
    transaction: what [steal_encoder] did to it is seen afterwards. *)
Definition update_connector_routing (st : drm_atomic_state M)
    (conn_idx : nat) : option (Z * drm_atomic_state M) :=
  slot ← connector_states st !! conn_idx;
  match slot with
  | None => Some (0, st)
  | Some connector_state =>
    live ← connector_list dev !! conn_idx;
    st ← (if decide (crtc live = crtc connector_state) then Some st
          else
            st ← match crtc live with
                 | Some idx => mark_mode_changed st idx
                 | None => Some st
                 end;
            match crtc connector_state with
            | Some idx => mark_mode_changed st idx
            | None => Some st
            end);
    match crtc connector_state with
    | None =>
      Some (0, put_connector_state st conn_idx
                 {| crtc := crtc connector_state; best_encoder := None |})
    | Some _ =>
      match connector_best_encoder F conn_idx with
      | None => Some (- EINVAL, st)
      | Some new_encoder =>
        if decide (Some new_encoder = best_encoder connector_state)
        then Some (0, st)
        else
          '(ret, st) ← match get_current_crtc_for_encoder new_encoder with
                       | Some encoder_crtc =>
                         steal_encoder st new_encoder encoder_crtc
                       | None => Some (0, st)
                       end;
          if negb (ret =? 0) then Some (ret, st) else
          c ← connector_state_of st conn_idx;
          let st := put_connector_state st conn_idx
                      {| crtc := crtc c; best_encoder := Some new_encoder |} in
          idx ← crtc c;
          st ← mark_mode_changed st idx;
          Some (0, st)
      end
    end
  end.

(** One hook of [mode_fixup] on the CRTC state [idx]: the hook may write
    [adjusted_mode]; [false] is [-EINVAL]. *)
Definition run_mode_fixup (st : drm_atomic_state M) (idx : nat)
    (hook : M -> M -> bool * M) : option (Z * drm_atomic_state M) :=
  cs ← crtc_state_of st idx;
  let '(ok, adjusted) := hook (mode cs) (adjusted_mode cs) in
  let st := set_crtc_states st
              (<[idx := Some (crtc_state_set_adjusted_mode cs adjusted)]>
                 (crtc_states st)) in
  Some (if ok then 0 else - EINVAL, st).

Definition mode_fixup (st : drm_atomic_state M)
    : option (Z * drm_atomic_state M) :=
  let ncrtcs := length (crtc_list dev) in
  let nconnectors := length (connector_list dev) in
  '(_, st) ← for_each_ret (seq 0 ncrtcs)
    (fun i st =>
       slot ← crtc_states st !! i;
       match slot with
       | Some cs =>
         if mode_changed cs
         then Some (0, set_crtc_states st
                         (<[i := Some (crtc_state_set_adjusted_mode cs
                                         (mode cs))]> (crtc_states st)))
         else Some (0, st)
       | None => Some (0, st)
       end) st;
  '(ret, st) ← for_each_ret (seq 0 nconnectors)
    (fun i st =>
       slot ← connector_states st !! i;
       match slot with
       | Some {| crtc := Some idx; best_encoder := Some encoder |} =>
         '(ret, st) ← match bridge_mode_fixup F encoder with
                      | Some hook => run_mode_fixup st idx hook
                      | None => Some (0, st)
                      end;
         if negb (ret =? 0) then Some (ret, st) else
         run_mode_fixup st idx (encoder_mode_fixup F encoder)
       | _ => Some (0, st)
       end) st;
  if negb (ret =? 0) then Some (ret, st) else
  for_each_ret (seq 0 ncrtcs)
    (fun i st =>
       slot ← crtc_states st !! i;
       match slot with
       | Some cs =>
         if mode_changed cs then run_mode_fixup st i (crtc_mode_fixup F i)
         else Some (0, st)
       | None => Some (0, st)
       end) st.

(** The last loop of [drm_atomic_helper_check_prepare], for CRTC [i]. *)
Definition check_full_modeset (st : drm_atomic_state M) (i : nat)
    : option (Z * drm_atomic_state M) :=
  slot ← crtc_states st !! i;
  match slot with
  | None => Some (0, st)
  | Some cs =>
    if negb (mode_changed cs) then Some (0, st) else
    '(ret, st) ← drm_atomic_add_affected_connectors st i;
    if negb (ret =? 0) then Some (ret, st) else
    let num_connectors := drm_atomic_connectors_for_crtc st i in
    if negb (eqb (enable cs) (negb (Nat.eqb num_connectors 0)))
    then Some (- EINVAL, st)
    else Some (0, st)
  end.

Definition drm_atomic_helper_check_prepare (st : drm_atomic_state M)
    : option (Z * drm_atomic_state M) :=
  let ncrtcs := length (crtc_list dev) in
  let nconnectors := length (connector_list dev) in
  st ← for_each (seq 0 ncrtcs)
    (fun i st =>
       slot ← crtc_states st !! i;
       match slot with
       | None => Some st
       | Some cs =>
         live ← crtc_list dev !! i;
         let cs := if negb (drm_mode_equal F (mode live) (mode cs))
                   then crtc_state_set_mode_changed cs else cs in
         let cs := if negb (eqb (enable live) (enable cs))
                   then crtc_state_set_mode_changed cs else cs in
         Some (set_crtc_states st (<[i := Some cs]> (crtc_states st)))
       end) st;
  '(ret, st) ← for_each_ret (seq 0 nconnectors)
                 (fun i st => update_connector_routing st i) st;
  if negb (ret =? 0) then Some (ret, st) else
  '(ret, st) ← for_each_ret (seq 0 ncrtcs)
                 (fun i st => check_full_modeset st i) st;
  if negb (ret =? 0) then Some (ret, st) else
  mode_fixup st.

(** [drm_atomic_helper_plane_changed]; the first index is taken from the
    legacy [plane->crtc]. *)
Definition drm_atomic_helper_plane_changed (st : drm_atomic_state M)
    (plane_state : drm_plane_state) (plane : drm_plane)
    : option (drm_atomic_state M) :=
  let mark (st : drm_atomic_state M) (idx : nat)
      : option (bool * drm_atomic_state M) :=
    slot ← crtc_states st !! idx;
    match slot with
    | None => Some (false, st)
    | Some cs =>
      Some (true,
            set_crtc_states st
              (<[idx := Some (crtc_state_set_planes_changed cs)]>
                 (crtc_states st)))
    end in
  '(go_on, st) ← match plane_state_crtc (plane_current_state plane) with
                 | Some _ => idx ← plane_crtc plane; mark st idx
                 | None => Some (true, st)
                 end;
  if negb go_on then Some st else
  match plane_state_crtc plane_state with
  | Some idx => '(_, st) ← mark st idx; Some st
  | None => Some st
  end.

Definition drm_atomic_helper_check (st : drm_atomic_state M)
    : option (Z * drm_atomic_state M) :=
  let nplanes := length (plane_list dev) in
  let ncrtcs := length (crtc_list dev) in
  '(ret, st) ← drm_atomic_helper_check_prepare st;
  if negb (ret =? 0) then Some (ret, st) else
  '(ret, st) ← for_each_ret (seq 0 nplanes)
    (fun i st =>
       slot ← plane_states st !! i;
       match slot with
       | None => Some (0, st)
       | Some plane_state =>
         plane ← plane_list dev !! i;
         st ← drm_atomic_helper_plane_changed st plane_state plane;
         match plane_helper_private F i with
         | Some {| plane_atomic_check := Some check |} =>
           Some (check plane_state, st)
         | _ => Some (0, st)
         end
       end) st;
  if negb (ret =? 0) then Some (ret, st) else
  for_each_ret (seq 0 ncrtcs)
    (fun i st =>
       slot ← crtc_states st !! i;
       match slot with
       | None => Some (0, st)
       | Some cs =>
         match crtc_atomic_check F i with
         | Some check => Some (check cs, st)
         | None => Some (0, st)
         end
       end) st.

End atomic.

Section atomic_commit.
Context {M : Type} (F : drm_funcs M).

(** [if (fb && funcs->prepare_fb) ret = funcs->prepare_fb(plane, fb)] for
    plane [i] of the transaction. *)
Definition prepare_plane (st : drm_atomic_state M) (i : nat)
    : option (Z * list commit_event) :=
  slot ← plane_states st !! i;
  match slot with
  | None => Some (0, [])
  | Some ps =>
    match fb ps with
    | None => Some (0, [])
    | Some f =>
      funcs ← plane_helper_private F i;
      match prepare_fb funcs with
      | Some hook => Some (hook f, [PrepareFb i f])
      | None => Some (0, [])
      end
    end
  end.

(** [if (fb && funcs->cleanup_fb) funcs->cleanup_fb(plane, fb)] *)
Definition cleanup_plane (st : drm_atomic_state M) (i : nat)
    : option (list commit_event) :=
  slot ← plane_states st !! i;
  match slot with
  | None => Some []
  | Some ps =>
    match fb ps with
    | None => Some []
    | Some f =>
      funcs ← plane_helper_private F i;
      Some (if cleanup_fb funcs then [CleanupFb i f] else [])
    end
  end.

(** The loop of [drm_atomic_helper_prepare_planes]; [done] are the planes
    gone through, last first, for the [fail:] loop. *)
Fixpoint prepare_planes_loop (st : drm_atomic_state M) (ixs done : list nat)
    (tr : list commit_event) : option (Z * list commit_event) :=
  match ixs with
  | [] => Some (0, tr)
  | i :: ixs' =>
    '(ret, ev) ← prepare_plane st i;
    if negb (ret =? 0) then
      undo ← mapM (cleanup_plane st) done;
      Some (ret, tr ++ ev ++ concat undo)
    else prepare_planes_loop st ixs' (i :: done) (tr ++ ev)
  end.

Definition drm_atomic_helper_prepare_planes (dev : drm_device M)
    (st : drm_atomic_state M) : option (Z * list commit_event) :=
  prepare_planes_loop st (seq 0 (length (plane_list dev))) [] [].

Definition drm_atomic_helper_cleanup_planes (dev : drm_device M)
    (old_state : drm_atomic_state M) : option (list commit_event) :=
  undo ← mapM (cleanup_plane old_state) (seq 0 (length (plane_list dev)));
  Some (concat undo).

(** [swap(state->..._states[i], object->state)] for object [i], if it is in
    the transaction; [get] and [set] are the object's [state] member. *)
Definition swap_slot {A B} (get : A -> B) (set : A -> B -> A) (i : nat)
    (s : list A * list (option B)) : option (list A * list (option B)) :=
  slot ← s.2 !! i;
  match slot with
  | None => Some s
  | Some new =>
    object ← s.1 !! i;
    Some (<[i := set object new]> s.1, <[i := Some (get object)]> s.2)
  end.

Definition plane_set_state (plane : drm_plane) (ps : drm_plane_state)
    : drm_plane :=
  {| plane_crtc := plane_crtc plane; plane_current_state := ps |}.

Definition drm_atomic_helper_swap_state (dev : drm_device M)
    (st : drm_atomic_state M) : option (drm_device M * drm_atomic_state M) :=
  '(conns, conn_states) ←
    for_each (seq 0 (length (connector_list dev)))
      (swap_slot id (fun _ new => new))
      (connector_list dev, connector_states st);
  '(crtcs, crtc_sts) ←
    for_each (seq 0 (length (crtc_list dev)))
      (swap_slot id (fun _ new => new))
      (crtc_list dev, crtc_states st);
  '(planes, plane_sts) ←
    for_each (seq 0 (length (plane_list dev)))
      (swap_slot plane_current_state plane_set_state)
      (plane_list dev, plane_states st);
  Some ({| connector_list := conns; crtc_list := crtcs;
           plane_list := planes |},
        {| connector_states := conn_states; crtc_states := crtc_sts;
           plane_states := plane_sts |}).

(** [drm_atomic_helper_commit].  The steps after the swap act on the
    hardware through the drivers' hooks and do not fail: they are recorded.
    The result is the return code, the device, the transaction unless it
    was freed, and what was done. *)
Definition drm_atomic_helper_commit (dev : drm_device M)
    (st : drm_atomic_state M) (async : bool)
    : option (Z * drm_device M * option (drm_atomic_state M)
              * list commit_event) :=
  if async then Some (- EBUSY, dev, Some st, []) else
  '(ret, tr) ← drm_atomic_helper_prepare_planes dev st;
  if negb (ret =? 0) then Some (ret, dev, Some st, tr) else
  '(dev, st) ← drm_atomic_helper_swap_state dev st;
  undo ← drm_atomic_helper_cleanup_planes dev st;
  Some (0, dev, None,
        tr ++ [WaitForFences; CommitPrePlanes; CommitPlanes;
               CommitPostPlanes; WaitForVblanks] ++ undo ++ [StateFree]).

End atomic_commit.

(** A driver whose hooks always agree, with modes named by numbers: both
    connectors are served by encoder 0, there is no bridge, and every object
    can be acquired. *)
Definition shared_encoder_funcs : drm_funcs Z := {|
  drm_mode_equal := Z.eqb;
  connector_best_encoder := fun _ => Some 0%nat;
  bridge_mode_fixup := fun _ => None;
  encoder_mode_fixup := fun _ _ adjusted => (true, adjusted);
  crtc_mode_fixup := fun _ _ adjusted => (true, adjusted);
  plane_helper_private := fun _ => None;
  crtc_atomic_check := fun _ => None;
  crtc_acquire := fun _ => 0;
  connector_acquire := fun _ => 0;
|}.

Definition crtc_off (m : Z) : drm_crtc_state Z :=
  {| enable := false; mode_changed := false; planes_changed := false;
     mode := m; adjusted_mode := m |}.
Definition crtc_on (m : Z) : drm_crtc_state Z :=
  {| enable := true; mode_changed := false; planes_changed := false;
     mode := m; adjusted_mode := m |}.
Definition unrouted : drm_connector_state :=
  {| crtc := None; best_encoder := None |}.

(** One CRTC that is off and two connectors that are not routed. *)
Definition idle_device : drm_device Z :=
  {| connector_list := [unrouted; unrouted]; crtc_list := [crtc_off 0];
     plane_list := [] |}.

(** The transaction that turns the CRTC on in mode 1 with both connectors
    on it (a cloned output). *)
Definition clone_request : drm_atomic_state Z :=
  {| connector_states :=
       [Some {| crtc := Some 0%nat; best_encoder := None |};
        Some {| crtc := Some 0%nat; best_encoder := None |}];
     crtc_states := [Some (crtc_on 1)];
     plane_states := [] |}.

(** Two CRTCs; connector 0 is on CRTC 0 through encoder 0, connector 1 is
    not routed. *)
Definition routed_device : drm_device Z :=
  {| connector_list :=
       [{| crtc := Some 0%nat; best_encoder := Some 0%nat |}; unrouted];
     crtc_list := [crtc_on 5; crtc_off 0];
     plane_list := [] |}.

(** The transaction that changes the mode of CRTC 0 and nothing else. *)
Definition mode_request : drm_atomic_state Z :=
  {| connector_states := [None; None];
     crtc_states := [Some (crtc_on 6); None];
     plane_states := [] |}.

(** The transaction that turns CRTC 0 off and leaves connector 0 on it. *)
Definition disable_request : drm_atomic_state Z :=
  {| connector_states := [None; None];
     crtc_states := [Some (crtc_off 5); None];
     plane_states := [] |}.

(** [disable_request] when the last loop of the check reaches CRTC 0. *)
Definition disable_request_marked : drm_atomic_state Z :=
  {| connector_states := [None; None];
     crtc_states := [Some (crtc_state_set_mode_changed (crtc_off 5)); None];
     plane_states := [] |}.

(** [disable_request] where the check gives up: connector 0 was taken into
    the transaction and is still on CRTC 0. *)
Definition disable_request_pulled : drm_atomic_state Z :=
  {| connector_states :=
       [Some {| crtc := Some 0%nat; best_encoder := Some 0%nat |}; None];
     crtc_states := [Some (crtc_state_set_mode_changed (crtc_off 5)); None];
     plane_states := [] |}.

(** The transaction that puts connector 1 on CRTC 1, which it turns on. *)
Definition steal_request : drm_atomic_state Z :=
  {| connector_states :=
       [None; Some {| crtc := Some 1%nat; best_encoder := None |}];
     crtc_states := [None; Some (crtc_on 7)];
     plane_states := [] |}.

(** [mode_request] as the check leaves it: connector 0, which is on CRTC 0,
    was taken into the transaction. *)
Definition mode_request_checked : drm_atomic_state Z :=
  {| connector_states :=
       [Some {| crtc := Some 0%nat; best_encoder := Some 0%nat |}; None];
     crtc_states := [Some (crtc_state_set_mode_changed (crtc_on 6)); None];
     plane_states := [] |}.

(** A driver with two planes: pinning a framebuffer fails on plane 1. *)
Definition pin_fails_funcs : drm_funcs Z := {|
  drm_mode_equal := Z.eqb;
  connector_best_encoder := fun _ => Some 0%nat;
  bridge_mode_fixup := fun _ => None;
  encoder_mode_fixup := fun _ _ adjusted => (true, adjusted);
  crtc_mode_fixup := fun _ _ adjusted => (true, adjusted);
  plane_helper_private := fun i =>
    Some {| plane_atomic_check := None;
            prepare_fb := Some (fun _ => if Nat.eqb i 1 then - ENOMEM else 0);
            cleanup_fb := true |};
  crtc_atomic_check := fun _ => None;
  crtc_acquire := fun _ => 0;
  connector_acquire := fun _ => 0;
|}.

Definition plane_off : drm_plane :=
  {| plane_crtc := None;
     plane_current_state := {| plane_state_crtc := None; fb := None |} |}.

Definition two_plane_device : drm_device Z :=
  {| connector_list := []; crtc_list := [crtc_on 5];
     plane_list := [plane_off; plane_off] |}.

(** The transaction that shows framebuffers 7 and 8 on the two planes. *)
Definition two_plane_request : drm_atomic_state Z :=
  {| connector_states := []; crtc_states := [None];
     plane_states :=
       [Some {| plane_state_crtc := Some 0%nat; fb := Some 7%nat |};
        Some {| plane_state_crtc := Some 0%nat; fb := Some 8%nat |}] |}.

(** The same driver when pinning succeeds on every plane. *)
Definition pin_ok_funcs : drm_funcs Z := {|
  drm_mode_equal := Z.eqb;
  connector_best_encoder := fun _ => Some 0%nat;
  bridge_mode_fixup := fun _ => None;
  encoder_mode_fixup := fun _ _ adjusted => (true, adjusted);
  crtc_mode_fixup := fun _ _ adjusted => (true, adjusted);
  plane_helper_private := fun i =>
    Some {| plane_atomic_check := None;
            prepare_fb := Some (fun _ => 0);
            cleanup_fb := true |};
  crtc_atomic_check := fun _ => None;
  crtc_acquire := fun _ => 0;
  connector_acquire := fun _ => 0;
|}.

(** Two planes that show framebuffers 3 and 4 on CRTC 0. *)
Definition two_plane_showing : drm_device Z :=
  {| connector_list := []; crtc_list := [crtc_on 5];
     plane_list :=
       [{| plane_crtc := Some 0%nat;
           plane_current_state :=
             {| plane_state_crtc := Some 0%nat; fb := Some 3%nat |} |};
        {| plane_crtc := Some 0%nat;
           plane_current_state :=
             {| plane_state_crtc := Some 0%nat; fb := Some 4%nat |} |}] |}.

(** A driver whose plane check wants a framebuffer and whose CRTC check
    wants the CRTC enabled. *)
Definition checking_funcs : drm_funcs Z := {|
  drm_mode_equal := Z.eqb;
  connector_best_encoder := fun _ => Some 0%nat;
  bridge_mode_fixup := fun _ => None;
  encoder_mode_fixup := fun _ _ adjusted => (true, adjusted);
  crtc_mode_fixup := fun _ _ adjusted => (true, adjusted);
  plane_helper_private := fun i =>
    Some {| plane_atomic_check :=
              Some (fun ps => match fb ps with
                              | Some _ => 0
                              | None => - EINVAL
                              end);
            prepare_fb := None; cleanup_fb := false |};
  crtc_atomic_check :=
    fun _ => Some (fun cs => if enable cs then 0 else - EINVAL);
  crtc_acquire := fun _ => 0;
  connector_acquire := fun _ => 0;
|}.

(** What the mode fix-up leaves alone in a CRTC state. *)
Definition crtc_flags {M} (cs : drm_crtc_state M) : bool * bool :=
  (enable cs, mode_changed cs).

Definition slot_flags {M} (slot : option (drm_crtc_state M))
    : option (bool * bool) :=
  crtc_flags <$> slot.

(** [st'] has the routing of [st]: the same connector states, and CRTC
    states with the same flags in the same slots. *)
Definition same_routing {M} (st st' : drm_atomic_state M) : Prop :=
  connector_states st' = connector_states st /\
  (slot_flags <$> crtc_states st') = (slot_flags <$> crtc_states st).

(** [st'] is [st] with the current states of some connectors that are on
    CRTC [k] put into free slots. *)
Definition pulled_in {M} (dev : drm_device M) (k : nat)
    (st st' : drm_atomic_state M) : Prop :=
  crtc_states st' = crtc_states st /\
  length (connector_states st') = length (connector_states st) /\
  forall j,
    connector_states st' !! j = connector_states st !! j \/
    (connector_states st !! j = Some None /\
     exists c, connector_list dev !! j = Some c /\ crtc c = Some k /\
               connector_states st' !! j = Some (Some c)).

(** The arrays of a transaction have the sizes of the device's tables. *)
Definition state_fits {M} (dev : drm_device M) (st : drm_atomic_state M)
    : Prop :=
  length (connector_states st) = length (connector_list dev) /\
  length (crtc_states st) = length (crtc_list dev) /\
  length (plane_states st) = length (plane_list dev).

(** Slot [i] of the transaction holds [c0] as it was, or a state that was
    detached from its CRTC. *)
Definition kept_or_detached {M} (i : nat) (c0 : drm_connector_state)
    (st : drm_atomic_state M) : Prop :=
  exists c, connector_states st !! i = Some (Some c) /\
            (c = c0 \/ crtc c = None).

(** The codes other than 0 that the check phase can return: [-EINVAL], or
    what a failed acquisition of a connector or of a CRTC answered. *)
Definition check_error {M} (F : drm_funcs M) (ret : Z) : Prop :=
  ret = - EINVAL \/ (exists j, ret = connector_acquire F j) \/
  (exists i, ret = crtc_acquire F i).

(** The CRTC needs a full modeset: its state is in the transaction with
    [mode_changed] set. *)
Definition needs_full_modeset {M} (st : drm_atomic_state M) (i : nat) : Prop :=
  exists cs, crtc_state_of st i = Some cs /\ mode_changed cs = true.

(** [st'] is [st] further along the check: a CRTC state of the transaction
    is still in it with its [enable] and [mode], and with [mode_changed] if
    it was set; a connector state of the transaction is still in it, on the
    CRTC it was on or detached. *)
Definition check_progress {M} (st st' : drm_atomic_state M) : Prop :=
  (forall i cs, crtc_state_of st i = Some cs ->
     exists cs', crtc_state_of st' i = Some cs' /\
       enable cs' = enable cs /\ mode cs' = mode cs /\
       (mode_changed cs = true -> mode_changed cs' = true)) /\
  (forall j c, connector_state_of st j = Some c ->
     exists c', connector_state_of st' j = Some c' /\
       (crtc c' = crtc c \/ crtc c' = None)).
(** * Properties *)

(** ** PTE encoders *)

Section pte_encode_facts.
Context (hw : pte_hw).

Lemma u32_testbit x n : Z.testbit (u32 x) n = (n <? 32) && Z.testbit x n.
Proof. unfold u32. now rewrite Z.testbit_mod_pow2 by lia. Qed.

Lemma u64_testbit x n : Z.testbit (u64 x) n = (n <? 64) && Z.testbit x n.
Proof. unfold u64. now rewrite Z.testbit_mod_pow2 by lia. Qed.

Lemma u32_lor_u32_l x y : u32 (Z.lor (u32 x) y) = u32 (Z.lor x y).
Proof.
  apply Z.bits_inj'; intros n _.
  rewrite !u32_testbit, !Z.lor_spec, u32_testbit.
  destruct (n <? 32); reflexivity.
Qed.

Lemma u64_lor_u64_l x y : u64 (Z.lor (u64 x) y) = u64 (Z.lor x y).
Proof.
  apply Z.bits_inj'; intros n _.
  rewrite !u64_testbit, !Z.lor_spec, u64_testbit.
  destruct (n <? 64); reflexivity.
Qed.

(** Or-ing the valid mask first or last gives the same 32-bit entry. *)
Lemma u32_valid_first v x : u32 (Z.lor v x) = Z.lor (u32 (Z.lor 0 x)) (u32 v).
Proof.
  apply Z.bits_inj'; intros n _.
  rewrite Z.lor_spec, !u32_testbit, !Z.lor_spec, Z.bits_0.
  destruct (n <? 32), (Z.testbit v n), (Z.testbit x n); reflexivity.
Qed.

Lemma u64_valid_first v x : u64 (Z.lor v x) = Z.lor (u64 (Z.lor 0 x)) (u64 v).
Proof.
  apply Z.bits_inj'; intros n _.
  rewrite Z.lor_spec, !u64_testbit, !Z.lor_spec, Z.bits_0.
  destruct (n <? 64), (Z.testbit v n), (Z.testbit x n); reflexivity.
Qed.

Lemma u32_lor_commute_valid a c v :
  u32 (Z.lor (Z.lor a (u32 v)) c) = Z.lor (u32 (Z.lor a c)) (u32 v).
Proof.
  apply Z.bits_inj'; intros n _.
  rewrite ?Z.lor_spec, ?u32_testbit, ?Z.lor_spec, ?u32_testbit.
  destruct (n <? 32), (Z.testbit a n), (Z.testbit v n), (Z.testbit c n);
    reflexivity.
Qed.

Lemma u64_lor_commute_valid a c v :
  u64 (Z.lor (Z.lor a (u64 v)) c) = Z.lor (u64 (Z.lor a c)) (u64 v).
Proof.
  apply Z.bits_inj'; intros n _.
  rewrite ?Z.lor_spec, ?u64_testbit, ?Z.lor_spec, ?u64_testbit.
  destruct (n <? 64), (Z.testbit a n), (Z.testbit v n), (Z.testbit c n);
    reflexivity.
Qed.

(** Every gen6-family encoder factors through the valid mask. *)
Lemma gen6_encoders_valid_or enc addr level flags :
  In enc (gen6_encoders hw) ->
  snd (enc addr level true flags) = snd (enc addr level false flags) /\
  fst (enc addr level true flags)
  = Z.lor (fst (enc addr level false flags)) (u32 (GEN6_PTE_VALID hw)).
Proof.
  unfold gen6_encoders; simpl.
  intros [<-|[<-|[<-|[<-|[<-|[]]]]]];
    unfold snb_pte_encode, ivb_pte_encode, byt_pte_encode, hsw_pte_encode,
      iris_pte_encode;
    destruct level; simpl;
    repeat match goal with
           | |- context [if ?c then _ else _] => destruct c
           end;
    simpl; (split; [reflexivity|]);
    rewrite (u32_valid_first (GEN6_PTE_VALID hw)), ?u32_lor_commute_valid;
    reflexivity.
Qed.

Lemma gen8_pte_encode_valid_or addr level :
  gen8_pte_encode hw addr level true
  = Z.lor (gen8_pte_encode hw addr level false)
      (u64 (Z.lor (_PAGE_PRESENT hw) (_PAGE_RW hw))).
Proof.
  unfold gen8_pte_encode.
  rewrite (u64_valid_first (Z.lor (_PAGE_PRESENT hw) (_PAGE_RW hw))).
  destruct level; rewrite u64_lor_commute_valid; reflexivity.
Qed.

End pte_encode_facts.

Lemma page_aligned_low_bits addr i :
  addr mod PAGE_SIZE = 0 -> i < 12 -> Z.testbit addr i = false.
Proof.
  intros Ha Hi.
  destruct (Z.ltb_spec i 0) as [Hneg|Hpos]; [apply Z.testbit_neg_r; lia|].
  change PAGE_SIZE with (2 ^ 12) in Ha.
  rewrite <- (Z.mod_pow2_bits_low addr 12 i) by lia.
  rewrite Ha. apply Z.bits_0.
Qed.

Lemma testbit_1 n : Z.testbit 1 n = (n =? 0).
Proof.
  destruct (Z.eqb_spec n 0) as [->|Hn]; [reflexivity|].
  destruct (Z.ltb_spec n 0); [apply Z.testbit_neg_r; lia|].
  apply (Z.bits_above_log2 1 n); simpl; lia.
Qed.

Lemma testbit_3 n : Z.testbit 3 n = (n =? 0) || (n =? 1).
Proof.
  destruct (Z.eqb_spec n 0) as [->|Hn]; [reflexivity|].
  destruct (Z.eqb_spec n 1) as [->|Hn1]; [reflexivity|].
  destruct (Z.ltb_spec n 0); [apply Z.testbit_neg_r; lia|].
  apply (Z.bits_above_log2 3 n); simpl; lia.
Qed.

Local Arguments Z.testbit : simpl never.
Local Arguments Z.lor : simpl never.
Local Arguments Z.land : simpl never.

(** With the header's bit layout, a page-aligned address leaves bit 0 of a
    gen6-family entry to the valid flag alone. *)
Lemma gen6_encoders_bit0 enc addr level valid flags :
  In enc (gen6_encoders i915_hw) ->
  addr mod PAGE_SIZE = 0 ->
  Z.testbit (fst (enc addr level valid flags)) 0 = valid.
Proof.
  intros Hin Ha.
  pose proof (page_aligned_low_bits addr 0 Ha ltac:(lia)) as H0.
  revert Hin. unfold gen6_encoders; simpl.
  intros [<-|[<-|[<-|[<-|[<-|[]]]]]];
    unfold snb_pte_encode, ivb_pte_encode, byt_pte_encode, hsw_pte_encode,
      iris_pte_encode;
    destruct level, valid; simpl;
    repeat match goal with
           | |- context [if ?c then _ else _] => destruct c
           end;
    simpl fst;
    repeat (rewrite u32_testbit || rewrite Z.lor_spec || rewrite Z.land_spec);
    rewrite ?H0;
    change (Z.testbit 4080 0) with false;
    change (Z.testbit 2032 0) with false;
    rewrite ?andb_false_r; reflexivity.
Qed.

Lemma gen8_pte_encode_low_bits addr level valid i :
  addr mod PAGE_SIZE = 0 -> 0 <= i < 2 ->
  Z.testbit (gen8_pte_encode i915_hw addr level valid) i = valid.
Proof.
  intros Ha Hi.
  pose proof (page_aligned_low_bits addr i Ha ltac:(lia)) as H0.
  assert (i = 0 \/ i = 1) as [-> | ->] by lia;
    unfold gen8_pte_encode; destruct level, valid; simpl;
    repeat (rewrite u64_testbit || rewrite Z.lor_spec);
    rewrite ?H0; reflexivity.
Qed.

(** C5 (as amended): a cache level outside the cases an encoder names never
    makes it fail, but it is not encoded as uncached either.
    [gen8_pte_encode] takes its [default] branch and produces the cached
    ([PPAT_CACHED_INDEX]) entry, the same as for [I915_CACHE_LLC], without a
    warning; [snb_pte_encode] and [ivb_pte_encode] fire [WARN_ON] and return
    the address with the valid bit and no cache-control bit at all. *)
Theorem pte_encode_unrecognized_level (hw : pte_hw) (addr : Z) (valid : bool)
    (flags : Z) :
  gen8_pte_encode hw addr I915_CACHE_unknown valid
  = gen8_pte_encode hw addr I915_CACHE_LLC valid /\
  gen8_pte_encode hw addr I915_CACHE_unknown valid
  = u64 (Z.lor (u64 (Z.lor (if valid
                            then Z.lor (_PAGE_PRESENT hw) (_PAGE_RW hw)
                            else 0) addr))
           (PPAT_CACHED_INDEX hw)) /\
  snb_pte_encode hw addr I915_CACHE_unknown valid flags
  = (u32 (Z.lor (if valid then GEN6_PTE_VALID hw else 0)
            (GEN6_PTE_ADDR_ENCODE hw addr)), true) /\
  ivb_pte_encode hw addr I915_CACHE_unknown valid flags
  = (u32 (Z.lor (if valid then GEN6_PTE_VALID hw else 0)
            (GEN6_PTE_ADDR_ENCODE hw addr)), true).
Proof. repeat split. Qed.

(** C5, counterexample: with the header's bit values, the entry for an
    unrecognised level differs from the [I915_CACHE_NONE] entry of the same
    page, for [gen8_pte_encode] and for [snb_pte_encode]. *)
Lemma pte_encode_unrecognized_not_uncached :
  gen8_pte_encode i915_hw 4096 I915_CACHE_unknown true
  <> gen8_pte_encode i915_hw 4096 I915_CACHE_NONE true /\
  fst (snb_pte_encode i915_hw 4096 I915_CACHE_unknown true 0)
  <> fst (snb_pte_encode i915_hw 4096 I915_CACHE_NONE true 0).
Proof. split; vm_compute; discriminate. Qed.

Lemma testbit_small c n : 0 <= c < 4096 -> 12 <= n -> Z.testbit c n = false.
Proof.
  intros Hc Hn. destruct (Z.eq_dec c 0) as [->|Hc0]; [apply Z.bits_0|].
  apply Z.bits_above_log2; [lia|].
  assert (Z.log2 c < 12) by (apply Z.log2_lt_pow2; lia). lia.
Qed.

Lemma u32_idem x : u32 (u32 x) = u32 x.
Proof. unfold u32. apply Z.mod_mod. lia. Qed.

Lemma u64_idem x : u64 (u64 x) = u64 x.
Proof. unfold u64. apply Z.mod_mod. lia. Qed.

(** What each encoder returns for [valid = false]: the address as the
    generation encodes it, or-ed with the cache-control bits of the level
    (and the write-enable bit on Valleyview). *)
Lemma pte_encode_invalid_entry (hw : pte_hw) (addr : Z)
    (level : i915_cache_level) (flags : Z) :
  fst (snb_pte_encode hw addr level false flags)
  = u32 (Z.lor (GEN6_PTE_ADDR_ENCODE hw addr)
           match level with
           | I915_CACHE_L3_LLC | I915_CACHE_LLC => GEN6_PTE_CACHE_LLC hw
           | I915_CACHE_NONE => GEN6_PTE_UNCACHED hw
           | _ => 0
           end) /\
  fst (ivb_pte_encode hw addr level false flags)
  = u32 (Z.lor (GEN6_PTE_ADDR_ENCODE hw addr)
           match level with
           | I915_CACHE_L3_LLC => GEN7_PTE_CACHE_L3_LLC hw
           | I915_CACHE_LLC => GEN6_PTE_CACHE_LLC hw
           | I915_CACHE_NONE => GEN6_PTE_UNCACHED hw
           | _ => 0
           end) /\
  fst (byt_pte_encode hw addr level false flags)
  = u32 (Z.lor (Z.lor (GEN6_PTE_ADDR_ENCODE hw addr)
                  (if Z.land flags (PTE_READ_ONLY hw) =? 0
                   then BYT_PTE_WRITEABLE hw else 0))
           match level with
           | I915_CACHE_NONE => 0
           | _ => BYT_PTE_SNOOPED_BY_CPU_CACHES hw
           end) /\
  fst (hsw_pte_encode hw addr level false flags)
  = u32 (Z.lor (HSW_PTE_ADDR_ENCODE hw addr)
           match level with
           | I915_CACHE_NONE => 0
           | _ => HSW_WB_LLC_AGE3 hw
           end) /\
  fst (iris_pte_encode hw addr level false flags)
  = u32 (Z.lor (HSW_PTE_ADDR_ENCODE hw addr)
           match level with
           | I915_CACHE_NONE => 0
           | I915_CACHE_WT => HSW_WT_ELLC_LLC_AGE3 hw
           | _ => HSW_WB_ELLC_LLC_AGE3 hw
           end) /\
  gen8_pte_encode hw addr level false
  = u64 (Z.lor addr
           match level with
           | I915_CACHE_NONE => PPAT_UNCACHED_INDEX hw
           | I915_CACHE_WT => PPAT_DISPLAY_ELLC_INDEX hw
           | _ => PPAT_CACHED_INDEX hw
           end).
Proof.
  unfold snb_pte_encode, ivb_pte_encode, byt_pte_encode, hsw_pte_encode,
    iris_pte_encode, gen8_pte_encode.
  repeat split; destruct level; cbn [fst];
    try destruct (Z.land flags (PTE_READ_ONLY hw) =? 0);
    apply Z.bits_inj'; intros n _;
    repeat (rewrite u32_testbit || rewrite u64_testbit
            || rewrite Z.lor_spec || rewrite Z.bits_0);
    repeat match goal with
           | |- context [Z.testbit ?x n] => destruct (Z.testbit x n)
           end;
    destruct (n <? 32), (n <? 64); reflexivity.
Qed.

(** With the header's bit layout, bits 12 and up of an entry are those of
    the address: the valid bit and the cache-control bits are all below. *)
Lemma gen6_encoders_addr_bits enc addr level valid flags n :
  In enc (gen6_encoders i915_hw) -> 12 <= n < 32 ->
  Z.testbit (fst (enc addr level valid flags)) n = Z.testbit addr n.
Proof.
  intros Hin Hn.
  assert (H32 : (n <? 32) = true) by (apply Z.ltb_lt; lia).
  assert (Hc : forall c, 0 <= c < 4096 -> Z.testbit c n = false)
    by (intros c Hc; apply testbit_small; [exact Hc|lia]).
  revert Hin. unfold gen6_encoders; simpl.
  intros [<-|[<-|[<-|[<-|[<-|[]]]]]];
    unfold snb_pte_encode, ivb_pte_encode, byt_pte_encode, hsw_pte_encode,
      iris_pte_encode;
    destruct level, valid; simpl;
    repeat match goal with
           | |- context [if ?c then _ else _] => destruct c
           end;
    simpl fst;
    repeat (rewrite u32_testbit || rewrite Z.lor_spec || rewrite Z.land_spec);
    rewrite ?H32;
    repeat match goal with
           | |- context [Z.testbit ?c n] =>
               lazymatch c with
               | context [addr] => fail
               | _ => rewrite (Hc c) by (split; vm_compute; congruence)
               end
           end;
    rewrite ?andb_false_r, ?orb_false_r, ?orb_false_l; reflexivity.
Qed.

Lemma gen8_pte_encode_addr_bits addr level valid n :
  12 <= n < 64 ->
  Z.testbit (gen8_pte_encode i915_hw addr level valid) n = Z.testbit addr n.
Proof.
  intros Hn.
  assert (H64 : (n <? 64) = true) by (apply Z.ltb_lt; lia).
  assert (Hc : forall c, 0 <= c < 4096 -> Z.testbit c n = false)
    by (intros c Hc; apply testbit_small; [exact Hc|lia]).
  unfold gen8_pte_encode; destruct level, valid; simpl;
    repeat (rewrite u64_testbit || rewrite Z.lor_spec);
    rewrite ?H64;
    repeat match goal with
           | |- context [Z.testbit ?c n] =>
               lazymatch c with
               | context [addr] => fail
               | _ => rewrite (Hc c) by (split; vm_compute; congruence)
               end
           end;
    rewrite ?andb_false_r, ?orb_false_r, ?orb_false_l; reflexivity.
Qed.

(** C10, counterexample: an address that is not page-aligned already has
    the bit of the valid flag, and the encoders do not mask it off.  With
    the header's bit values, at address 4097 the Sandybridge
    entry for [valid = false] has [GEN6_PTE_VALID] set, so it is not
    non-present, and it is the very entry that [valid = true] gives; the
    same holds of the present bit of the gen8 entry. *)
Lemma pte_encode_invalid_unaligned_present :
  Z.land (fst (snb_pte_encode i915_hw 4097 I915_CACHE_LLC false 0))
    (GEN6_PTE_VALID i915_hw) <> 0 /\
  fst (snb_pte_encode i915_hw 4097 I915_CACHE_LLC false 0)
  = fst (snb_pte_encode i915_hw 4097 I915_CACHE_LLC true 0) /\
  Z.land (gen8_pte_encode i915_hw 4097 I915_CACHE_LLC false)
    (_PAGE_PRESENT i915_hw) <> 0.
Proof. repeat split; vm_compute; discriminate. Qed.

(** C10 (as amended, for page-aligned addresses).

    For every encoder, address, cache level and flags, whatever the bit
    values: the entries for [valid = true] and [valid = false] agree on
    every bit outside the valid mask ([GEN6_PTE_VALID]; present and
    read/write on gen8), the [true] entry is the [false] entry with the mask
    or-ed in, the warning is the same, and the [false] entry is the encoded
    address or-ed with the cache-control bits of the level.

    With the header's bit layout: bits 12 and up of the [false] entry are
    those of the address; and for a page-aligned address the [false] entry
    has the valid bits clear, the [true] entry has them set, and clearing
    them in the [true] entry gives back the [false] entry. *)
Theorem pte_encode_valid_only_flips_valid_bits :
  (forall (hw : pte_hw) (addr : Z) (level : i915_cache_level) (flags : Z),
     (forall enc, In enc (gen6_encoders hw) ->
        snd (enc addr level true flags) = snd (enc addr level false flags) /\
        fst (enc addr level true flags)
        = Z.lor (fst (enc addr level false flags)) (u32 (GEN6_PTE_VALID hw)) /\
        forall n, Z.testbit (GEN6_PTE_VALID hw) n = false ->
          Z.testbit (fst (enc addr level true flags)) n
          = Z.testbit (fst (enc addr level false flags)) n) /\
     gen8_pte_encode hw addr level true
     = Z.lor (gen8_pte_encode hw addr level false)
         (u64 (Z.lor (_PAGE_PRESENT hw) (_PAGE_RW hw))) /\
     (forall n,
        Z.testbit (Z.lor (_PAGE_PRESENT hw) (_PAGE_RW hw)) n = false ->
        Z.testbit (gen8_pte_encode hw addr level true) n
        = Z.testbit (gen8_pte_encode hw addr level false) n) /\
     fst (snb_pte_encode hw addr level false flags)
     = u32 (Z.lor (GEN6_PTE_ADDR_ENCODE hw addr)
              match level with
              | I915_CACHE_L3_LLC | I915_CACHE_LLC => GEN6_PTE_CACHE_LLC hw
              | I915_CACHE_NONE => GEN6_PTE_UNCACHED hw
              | _ => 0
              end) /\
     fst (ivb_pte_encode hw addr level false flags)
     = u32 (Z.lor (GEN6_PTE_ADDR_ENCODE hw addr)
              match level with
              | I915_CACHE_L3_LLC => GEN7_PTE_CACHE_L3_LLC hw
              | I915_CACHE_LLC => GEN6_PTE_CACHE_LLC hw
              | I915_CACHE_NONE => GEN6_PTE_UNCACHED hw
              | _ => 0
              end) /\
     fst (byt_pte_encode hw addr level false flags)
     = u32 (Z.lor (Z.lor (GEN6_PTE_ADDR_ENCODE hw addr)
                     (if Z.land flags (PTE_READ_ONLY hw) =? 0
                      then BYT_PTE_WRITEABLE hw else 0))
              match level with
              | I915_CACHE_NONE => 0
              | _ => BYT_PTE_SNOOPED_BY_CPU_CACHES hw
              end) /\
     fst (hsw_pte_encode hw addr level false flags)
     = u32 (Z.lor (HSW_PTE_ADDR_ENCODE hw addr)
              match level with
              | I915_CACHE_NONE => 0
              | _ => HSW_WB_LLC_AGE3 hw
              end) /\
     fst (iris_pte_encode hw addr level false flags)
     = u32 (Z.lor (HSW_PTE_ADDR_ENCODE hw addr)
              match level with
              | I915_CACHE_NONE => 0
              | I915_CACHE_WT => HSW_WT_ELLC_LLC_AGE3 hw
              | _ => HSW_WB_ELLC_LLC_AGE3 hw
              end) /\
     gen8_pte_encode hw addr level false
     = u64 (Z.lor addr
              match level with
              | I915_CACHE_NONE => PPAT_UNCACHED_INDEX hw
              | I915_CACHE_WT => PPAT_DISPLAY_ELLC_INDEX hw
              | _ => PPAT_CACHED_INDEX hw
              end)) /\
  (forall (addr : Z) (level : i915_cache_level) (flags : Z),
     (forall enc, In enc (gen6_encoders i915_hw) ->
        forall n, 12 <= n < 32 ->
          Z.testbit (fst (enc addr level false flags)) n
          = Z.testbit addr n) /\
     forall n, 12 <= n < 64 ->
       Z.testbit (gen8_pte_encode i915_hw addr level false) n
       = Z.testbit addr n) /\
  (forall (addr : Z) (level : i915_cache_level) (flags : Z),
     addr mod PAGE_SIZE = 0 ->
     (forall enc, In enc (gen6_encoders i915_hw) ->
        Z.testbit (fst (enc addr level false flags)) 0 = false /\
        Z.testbit (fst (enc addr level true flags)) 0 = true /\
        fst (enc addr level false flags)
        = Z.land (fst (enc addr level true flags)) (Z.lnot 1)) /\
     Z.land (gen8_pte_encode i915_hw addr level false) 3 = 0 /\
     Z.land (gen8_pte_encode i915_hw addr level true) 3 = 3 /\
     gen8_pte_encode i915_hw addr level false
     = Z.land (gen8_pte_encode i915_hw addr level true) (Z.lnot 3)).
Proof.
  split; [|split].
  - intros hw addr level flags. split; [|split; [|split]].
    + intros enc Hin.
      destruct (gen6_encoders_valid_or hw enc addr level flags Hin) as [Hw He].
      split; [exact Hw|split; [exact He|]].
      intros n Hn. rewrite He, Z.lor_spec, u32_testbit, Hn.
      now rewrite andb_false_r, orb_false_r.
    + apply gen8_pte_encode_valid_or.
    + intros n Hn. rewrite gen8_pte_encode_valid_or, Z.lor_spec, u64_testbit, Hn.
      now rewrite andb_false_r, orb_false_r.
    + apply pte_encode_invalid_entry.
  - intros addr level flags. split.
    + intros enc Hin n Hn. now apply gen6_encoders_addr_bits.
    + intros n Hn. now apply gen8_pte_encode_addr_bits.
  - intros addr level flags Ha. split.
    + intros enc Hin.
      pose proof (gen6_encoders_bit0 enc addr level false flags Hin Ha) as Hf.
      pose proof (gen6_encoders_bit0 enc addr level true flags Hin Ha) as Ht.
      split; [exact Hf|split; [exact Ht|]].
      destruct (gen6_encoders_valid_or i915_hw enc addr level flags Hin)
        as [_ He].
      apply Z.bits_inj'; intros n Hn.
      rewrite Z.land_spec, Z.lnot_spec, testbit_1 by lia.
      destruct (Z.eqb_spec n 0) as [->|Hn0].
      * rewrite Hf. now rewrite andb_false_r.
      * rewrite He, Z.lor_spec, u32_testbit.
        change (GEN6_PTE_VALID i915_hw) with 1. rewrite testbit_1.
        destruct (Z.eqb_spec n 0); [lia|].
        now rewrite andb_false_r, orb_false_r, andb_true_r.
    + assert (Hbits : forall valid n, 0 <= n ->
                Z.testbit (Z.land (gen8_pte_encode i915_hw addr level valid) 3) n
                = Z.testbit (if valid then 3 else 0) n).
      { intros valid n Hn. rewrite Z.land_spec, testbit_3.
        destruct (Z.eqb_spec n 0) as [->|Hn0];
          [rewrite gen8_pte_encode_low_bits by (auto; lia);
           destruct valid; reflexivity|].
        destruct (Z.eqb_spec n 1) as [->|Hn1];
          [rewrite gen8_pte_encode_low_bits by (auto; lia);
           destruct valid; reflexivity|].
        rewrite andb_false_r. destruct valid; [|now rewrite Z.bits_0].
        rewrite testbit_3.
        destruct (Z.eqb_spec n 0); [lia|]. destruct (Z.eqb_spec n 1); [lia|].
        reflexivity. }
      split; [|split].
      * apply Z.bits_inj'; intros n Hn. apply (Hbits false n Hn).
      * apply Z.bits_inj'; intros n Hn. apply (Hbits true n Hn).
      * apply Z.bits_inj'; intros n Hn.
        rewrite Z.land_spec, Z.lnot_spec, testbit_3 by lia.
        destruct (Z.eqb_spec n 0) as [->|Hn0];
          [rewrite gen8_pte_encode_low_bits by (auto; lia);
           now rewrite andb_false_r|].
        destruct (Z.eqb_spec n 1) as [->|Hn1];
          [rewrite gen8_pte_encode_low_bits by (auto; lia);
           now rewrite andb_false_r|].
        rewrite (gen8_pte_encode_valid_or i915_hw addr level), Z.lor_spec,
          u64_testbit.
        change (Z.lor (_PAGE_PRESENT i915_hw) (_PAGE_RW i915_hw)) with 3.
        rewrite testbit_3.
        destruct (Z.eqb_spec n 0); [lia|]. destruct (Z.eqb_spec n 1); [lia|].
        simpl. now rewrite andb_false_r, orb_false_r, andb_true_r.
Qed.

Lemma pte_encode_valid_only_flips_valid_bits_witness :
  8192 mod PAGE_SIZE = 0 /\
  Z.testbit (fst (snb_pte_encode i915_hw 8192 I915_CACHE_LLC false 0)) 0 = false /\
  Z.testbit (fst (snb_pte_encode i915_hw 8192 I915_CACHE_LLC false 0)) 13 = true /\
  Z.land (gen8_pte_encode i915_hw 8192 I915_CACHE_WT false) 3 = 0 /\
  fst (hsw_pte_encode i915_hw 8192 I915_CACHE_LLC false 0)
  = u32 (Z.lor (HSW_PTE_ADDR_ENCODE i915_hw 8192) (HSW_WB_LLC_AGE3 i915_hw)).
Proof.
  split; [reflexivity|].
  destruct pte_encode_valid_only_flips_valid_bits as (Hany & Hbits & H).
  destruct (H 8192 I915_CACHE_LLC 0 eq_refl) as [H6 _].
  destruct (H 8192 I915_CACHE_WT 0 eq_refl) as [_ [H8 _]].
  destruct (Hbits 8192 I915_CACHE_LLC 0) as [Ha6 _].
  destruct (Hany i915_hw 8192 I915_CACHE_LLC 0)
    as (_ & _ & _ & _ & _ & _ & Hhsw & _).
  split; [|split; [|split; [exact H8|exact Hhsw]]].
  - apply (H6 (snb_pte_encode i915_hw)). simpl. left. reflexivity.
  - rewrite (Ha6 (snb_pte_encode i915_hw)); [reflexivity| |lia].
    simpl. left. reflexivity.
Defined.
(** ** Table pages: [fill_page] and the kmap discipline *)

Lemma foldl_insert_length (v : Z) (ixs : list Z) (pg : list Z) :
  length (foldl (fun pg i => <[Z.to_nat i := v]> pg) pg ixs) = length pg.
Proof.
  revert pg. induction ixs as [|i ixs IH]; intros pg; simpl; [reflexivity|].
  rewrite IH. apply length_insert.
Qed.

Lemma foldl_insert_lookup_notin (v : Z) (ixs : list Z) (pg : list Z) (j : nat) :
  j ∉ Z.to_nat <$> ixs ->
  foldl (fun pg i => <[Z.to_nat i := v]> pg) pg ixs !! j = pg !! j.
Proof.
  revert pg. induction ixs as [|i ixs IH]; intros pg Hj; simpl; [reflexivity|].
  rewrite fmap_cons, not_elem_of_cons in Hj. destruct Hj as [Hne Hj].
  rewrite IH by exact Hj. now apply list_lookup_insert_ne.
Qed.

Lemma foldl_insert_lookup_in (v : Z) (ixs : list Z) (pg : list Z) (j : nat) :
  j ∈ Z.to_nat <$> ixs -> (j < length pg)%nat ->
  foldl (fun pg i => <[Z.to_nat i := v]> pg) pg ixs !! j = Some v.
Proof.
  revert pg. induction ixs as [|i ixs IH]; intros pg Hin Hlen; simpl.
  - inversion Hin.
  - destruct (decide (j ∈ Z.to_nat <$> ixs)) as [Hex|Hnex].
    + apply IH; [exact Hex|]. now rewrite length_insert.
    + rewrite foldl_insert_lookup_notin by exact Hnex.
      rewrite fmap_cons in Hin. apply elem_of_cons in Hin as [->|Hin];
        [now apply list_lookup_insert_eq|contradiction].
Qed.

Lemma fill_page_length pg first last v :
  length (fill_page pg first last v) = length pg.
Proof. apply foldl_insert_length. Qed.

Lemma fill_page_lookup pg first last v i :
  0 <= first -> 0 <= i < Z.of_nat (length pg) ->
  fill_page pg first last v !! Z.to_nat i
  = if decide (first <= i < last) then Some v else pg !! Z.to_nat i.
Proof.
  intros Hf Hi. unfold fill_page. destruct (decide (first <= i < last)).
  - apply foldl_insert_lookup_in; [|lia].
    apply list_elem_of_fmap. exists i. split; [reflexivity|].
    apply elem_of_seqZ. lia.
  - apply foldl_insert_lookup_notin.
    intros Hin. apply list_elem_of_fmap in Hin as [i' [Heq Hi']].
    apply elem_of_seqZ in Hi'. lia.
Qed.

Lemma fill_page_empty pg first last v : last <= first -> fill_page pg first last v = pg.
Proof. intros H. unfold fill_page. now rewrite seqZ_nil by lia. Qed.

Lemma gen8_fill_fold (k : nat) (pg : list Z) (pte v n : Z) :
  Z.of_nat k <= n -> n < 2 ^ 32 ->
  foldl (fun '(pg, n) i => (<[Z.to_nat i := v]> (pg : list Z), u32 (n - 1)))
    (pg, n) (seqZ pte (Z.of_nat k))
  = (foldl (fun (pg : list Z) i => <[Z.to_nat i := v]> pg) pg
       (seqZ pte (Z.of_nat k)),
     n - Z.of_nat k).
Proof.
  revert pg pte n. induction k as [|k IH]; intros pg pte n Hk Hn.
  - simpl. f_equal. lia.
  - rewrite seqZ_cons by lia. simpl foldl.
    replace (Z.pred (Z.of_nat (S k))) with (Z.of_nat k) by lia.
    replace (u32 (n - 1)) with (n - 1)
      by (unfold u32; rewrite Z.mod_small; lia).
    rewrite IH by lia. f_equal. lia.
Qed.

Lemma gen8_fill_page_eq pg pte last v n :
  0 <= last - pte <= n -> n < 2 ^ 32 ->
  gen8_fill_page pg pte last v n = (fill_page pg pte last v, n - (last - pte)).
Proof.
  intros [H0 Hn] Hlt. unfold gen8_fill_page, fill_page.
  rewrite <- (Z2Nat.id (last - pte)) by lia.
  rewrite gen8_fill_fold by lia. reflexivity.
Qed.

Lemma gen8_fill_page_none pg pte last v n :
  last <= pte -> gen8_fill_page pg pte last v n = (pg, n).
Proof. intros H. unfold gen8_fill_page. now rewrite seqZ_nil by lia. Qed.

Lemma kmap_one_at_a_time_app b tr1 tr2 :
  kmap_one_at_a_time b tr1 = true -> kmap_one_at_a_time false tr2 = true ->
  kmap_one_at_a_time b (tr1 ++ tr2) = true.
Proof.
  revert b. induction tr1 as [|e tr1 IH]; intros b H1 H2; simpl in *.
  - destruct b; [discriminate|exact H2].
  - destruct e, b; simpl in *; try discriminate; now apply IH.
Qed.

Lemma kmap_table_visit has_llc tr :
  kmap_one_at_a_time false tr = true ->
  kmap_one_at_a_time false (Kmap :: clflush_unless has_llc ++ Kunmap :: tr)
  = true.
Proof. intros H. destruct has_llc; simpl; exact H. Qed.

(** ** The walk over a store of table pages *)

Lemma div_table (P k a : Z) : 0 < P -> (k / P = a <-> a * P <= k < a * P + P).
Proof.
  intros HP. split.
  - intros <-. pose proof (Z.mul_div_le k P HP).
    pose proof (Z.mul_succ_div_gt k P HP). lia.
  - intros H. symmetry. apply (Z.div_unique k P a (k - a * P)); lia.
Qed.

Lemma mod_table (P k a : Z) :
  0 < P -> a * P <= k < a * P + P -> k mod P = k - a * P.
Proof.
  intros HP H. symmetry. apply (Z.mod_unique k P a (k - a * P)); lia.
Qed.

Section walk_facts.
Context {St : Type}.
Context (pt_get : St -> Z -> option (list Z)).
Context (pt_set : St -> Z -> list Z -> St).
Context (P : Z) (has_llc : bool).
Context (wf : St -> Prop) (size : St -> Z).

Hypothesis P_pos : 0 < P.
Hypothesis get_is_Some :
  forall s t, wf s -> is_Some (pt_get s t) <-> 0 <= t < size s.
Hypothesis get_length :
  forall s t pg, wf s -> pt_get s t = Some pg -> Z.of_nat (length pg) = P.
Hypothesis set_wf :
  forall s t pg, wf s -> 0 <= t < size s -> Z.of_nat (length pg) = P ->
    wf (pt_set s t pg) /\ size (pt_set s t pg) = size s.
Hypothesis get_set_eq :
  forall s t pg, wf s -> 0 <= t < size s -> pt_get (pt_set s t pg) t = Some pg.
Hypothesis get_set_ne :
  forall s t t' pg, 0 <= t -> t <> t' -> pt_get (pt_set s t pg) t' = pt_get s t'.
Hypothesis store_ext :
  forall s1 s2, wf s1 -> wf s2 -> size s1 = size s2 ->
    (forall t, 0 <= t < size s1 -> pt_get s1 t = pt_get s2 t) -> s1 = s2.

Local Abbreviation wclear := (walk_clear pt_get pt_set P has_llc).
Local Abbreviation winsert := (walk_insert pt_get pt_set P has_llc).
Local Abbreviation pte := (pte_at pt_get P).

Lemma pte_at_set s a pg k :
  wf s -> 0 <= a < size s -> Z.of_nat (length pg) = P ->
  pte (pt_set s a pg) k
  = if decide (a * P <= k < a * P + P) then pg !! Z.to_nat (k - a * P)
    else pte s k.
Proof.
  intros Hwf Ha Hlen. unfold pte_at.
  destruct (decide (a * P <= k < a * P + P)) as [Hk|Hk].
  - rewrite (proj2 (div_table P k a P_pos) Hk), get_set_eq by auto.
    simpl. now rewrite (mod_table P k a).
  - rewrite get_set_ne; [reflexivity|lia|].
    intros Heq. apply Hk. apply div_table; auto.
Qed.

Lemma pte_at_in_range s k :
  wf s -> 0 <= k < size s * P -> is_Some (pte s k).
Proof.
  intros Hwf Hk. unfold pte_at.
  assert (Ht : 0 <= k / P < size s).
  { split; [apply Z.div_pos; lia|apply Z.div_lt_upper_bound; lia]. }
  destruct (proj2 (get_is_Some s (k / P) Hwf) Ht) as [pg Hpg].
  rewrite Hpg. simpl. apply lookup_lt_is_Some.
  pose proof (get_length s _ pg Hwf Hpg).
  pose proof (Z.mod_pos_bound k P P_pos). lia.
Qed.

(** Two well-formed stores of the same size with the same entries are the
    same store. *)
Lemma store_ext_pte s1 s2 :
  wf s1 -> wf s2 -> size s1 = size s2 ->
  (forall k, 0 <= k < size s1 * P -> pte s1 k = pte s2 k) ->
  s1 = s2.
Proof.
  intros Hwf1 Hwf2 Hsz Hk. apply store_ext; auto.
  intros t Ht.
  destruct (proj2 (get_is_Some s1 t Hwf1) Ht) as [pg1 Hpg1].
  destruct (proj2 (get_is_Some s2 t Hwf2) ltac:(lia)) as [pg2 Hpg2].
  rewrite Hpg1, Hpg2. f_equal.
  pose proof (get_length s1 t pg1 Hwf1 Hpg1) as Hl1.
  pose proof (get_length s2 t pg2 Hwf2 Hpg2) as Hl2.
  apply list_eq. intros i.
  destruct (decide (Z.of_nat i < P)) as [Hi|Hi].
  - specialize (Hk (t * P + Z.of_nat i)). unfold pte_at in Hk.
    assert (Hd : (t * P + Z.of_nat i) / P = t) by (apply div_table; lia).
    rewrite Hd, Hpg1, Hpg2 in Hk. simpl in Hk.
    rewrite (mod_table P _ t) in Hk by lia.
    replace (Z.to_nat (t * P + Z.of_nat i - t * P)) with i in Hk by lia.
    apply Hk. nia.
  - rewrite !lookup_ge_None_2 by lia. reflexivity.
Qed.

Lemma walk_clear_fuel fuel fuel' s a f n v :
  (Z.to_nat n <= fuel)%nat -> (Z.to_nat n <= fuel')%nat ->
  0 <= f < P -> 0 <= n ->
  wclear fuel s a f n v = wclear fuel' s a f n v.
Proof.
  revert fuel' s a f n.
  induction fuel as [|fuel IH]; intros fuel' s a f n Hf Hf' Hfp Hn.
  - assert (n = 0) as -> by lia. destruct fuel'; reflexivity.
  - destruct fuel' as [|fuel'];
      [assert (n = 0) as -> by lia; reflexivity|].
    simpl. destruct (n =? 0) eqn:Hn0; [reflexivity|].
    apply Z.eqb_neq in Hn0.
    destruct (pt_get s a) as [pg|]; [|reflexivity]. simpl.
    rewrite (IH fuel') by lia. reflexivity.
Qed.

(** One iteration of the clear loop, with the fuel normalised. *)
Lemma walk_clear_step s a f n v :
  0 <= f < P -> 0 < n ->
  wclear (Z.to_nat n) s a f n v
  = pg ← pt_get s a;
    '(s', tr) ← wclear (Z.to_nat (n - (Z.min (f + n) P - f)))
                  (pt_set s a (fill_page pg f (Z.min (f + n) P) v))
                  (a + 1) 0 (n - (Z.min (f + n) P - f)) v;
    Some (s', Kmap :: clflush_unless has_llc ++ Kunmap :: tr).
Proof.
  intros Hf Hn. destruct (Z.to_nat n) as [|fuel] eqn:Hfuel; [lia|].
  simpl. destruct (n =? 0) eqn:Hn0; [apply Z.eqb_eq in Hn0; lia|].
  destruct (pt_get s a) as [pg|]; [|reflexivity]. simpl.
  rewrite (walk_clear_fuel fuel (Z.to_nat (n - (Z.min (f + n) P - f))))
    by lia.
  reflexivity.
Qed.

Lemma walk_clear_zero fuel s a f v : wclear fuel s a f 0 v = Some (s, []).
Proof. destruct fuel; reflexivity. Qed.

(** The clear loop writes [v] to the [n] entries from slot [f] of table [a]
    on and to nothing else. *)
Lemma walk_clear_spec fuel s a f n v :
  wf s -> 0 <= a -> 0 <= f < P -> 0 <= n ->
  a * P + f + n <= size s * P -> (Z.to_nat n <= fuel)%nat ->
  exists s' tr,
    wclear fuel s a f n v = Some (s', tr) /\
    wf s' /\ size s' = size s /\
    forall k, pte s' k
              = if decide (a * P + f <= k < a * P + f + n) then Some v
                else pte s k.
Proof.
  revert s a f n.
  induction fuel as [|fuel IH]; intros s a f n Hwf Ha Hf Hn Hin Hfuel.
  - assert (n = 0) as -> by lia. exists s, []. repeat split; auto.
    intros k. destruct (decide _); [lia|reflexivity].
  - simpl. destruct (n =? 0) eqn:Hn0.
    { apply Z.eqb_eq in Hn0 as ->. exists s, []. repeat split; auto.
      intros k. destruct (decide _); [lia|reflexivity]. }
    apply Z.eqb_neq in Hn0.
    assert (Hasz : 0 <= a < size s) by nia.
    destruct (proj2 (get_is_Some s a Hwf) Hasz) as [pg Hpg].
    pose proof (get_length s a pg Hwf Hpg) as Hlen.
    rewrite Hpg. simpl.
    set (last := Z.min (f + n) P).
    set (pg' := fill_page pg f last v).
    assert (Hlen' : Z.of_nat (length pg') = P)
      by (unfold pg'; now rewrite fill_page_length).
    destruct (set_wf s a pg' Hwf Hasz Hlen') as [Hwf1 Hsz1].
    destruct (IH (pt_set s a pg') (a + 1) 0 (n - (last - f)))
      as (s' & tr & Hrun & Hwf' & Hsz' & Hpte);
      [auto|lia|lia|unfold last; lia|rewrite Hsz1; unfold last; nia
      |unfold last; lia|].
    rewrite Hrun. simpl. eexists _, _. split; [reflexivity|].
    split; [exact Hwf'|]. split; [congruence|].
    intros k. rewrite Hpte, pte_at_set by auto.
    destruct (decide (a * P <= k < a * P + P)) as [Hk|Hk].
    + replace k with (a * P + (k - a * P)) at 3 by lia.
      destruct (decide ((a + 1) * P + 0 <= k < _)); [lia|].
      unfold pg'. rewrite fill_page_lookup by lia.
      destruct (decide (f <= k - a * P < last)),
        (decide (a * P + f <= k < a * P + f + n));
        try reflexivity; try (unfold last in *; lia).
      unfold pte_at.
      rewrite (proj2 (div_table P k a P_pos) Hk), Hpg. simpl.
      now rewrite (mod_table P k a).
    + destruct (decide ((a + 1) * P + 0 <= k < _)),
        (decide (a * P + f <= k < a * P + f + n));
        try reflexivity; unfold last in *; lia.
Qed.

Lemma walk_clear_trace fuel s a f n v s' tr :
  wclear fuel s a f n v = Some (s', tr) ->
  kmap_one_at_a_time false tr = true.
Proof.
  revert s a f n s' tr.
  induction fuel as [|fuel IH]; intros s a f n s' tr; simpl.
  - destruct (n =? 0); [|discriminate]. now intros [= <- <-].
  - destruct (n =? 0); [now intros [= <- <-]|].
    destruct (pt_get s a) as [pg|]; [|discriminate]. simpl.
    destruct (wclear fuel _ _ _ _ _)
      as [[s1 tr1]|] eqn:Hrun; [|discriminate].
    simpl. intros [= <- <-]. apply kmap_table_visit. eauto.
Qed.

(** Clearing [n1 + n2] entries, the first [n1] of which end exactly at a
    table boundary, is clearing the [n1] and then the [n2] from the next
    table on: same store, same sequence of maps and unmaps. *)
Lemma walk_clear_split (m : nat) s a f n1 n2 v :
  0 <= f < P -> 0 < n1 -> 0 <= n2 -> f + n1 = Z.of_nat (S m) * P ->
  wclear (Z.to_nat (n1 + n2)) s a f (n1 + n2) v
  = '(s1, tr1) ← wclear (Z.to_nat n1) s a f n1 v;
    '(s2, tr2) ← wclear (Z.to_nat n2) s1 (a + Z.of_nat (S m)) 0 n2 v;
    Some (s2, tr1 ++ tr2).
Proof.
  revert s a f n1.
  induction m as [|m IH]; intros s a f n1 Hf Hn1 Hn2 Hb.
  - rewrite !walk_clear_step by lia.
    destruct (pt_get s a) as [pg|]; [|reflexivity]. simpl.
    replace (Z.min (f + (n1 + n2)) P) with P by lia.
    replace (Z.min (f + n1) P) with P by lia.
    replace (n1 - (P - f)) with 0 by lia.
    replace (n1 + n2 - (P - f)) with n2 by lia.
    rewrite walk_clear_zero. simpl.
    replace (a + Z.of_nat 1) with (a + 1) by lia.
    destruct (wclear (Z.to_nat n2) _ (a + 1) 0 n2 v) as [[s2 tr2]|];
      [|reflexivity].
    simpl. do 2 f_equal. now rewrite <- app_assoc.
  - rewrite !walk_clear_step by lia.
    destruct (pt_get s a) as [pg|]; [|reflexivity]. simpl.
    replace (Z.min (f + (n1 + n2)) P) with P by nia.
    replace (Z.min (f + n1) P) with P by nia.
    replace (n1 + n2 - (P - f)) with ((n1 - (P - f)) + n2) by lia.
    rewrite (IH _ (a + 1) 0 (n1 - (P - f))) by nia.
    replace (a + 1 + Z.of_nat (S m)) with (a + Z.of_nat (S (S m))) by lia.
    destruct (wclear (Z.to_nat (n1 - (P - f))) _ (a + 1) 0 _ v)
      as [[s1 tr1]|]; [|reflexivity].
    simpl.
    destruct (wclear (Z.to_nat n2) s1 _ 0 n2 v) as [[s2 tr2]|];
      [|reflexivity].
    simpl. do 2 f_equal. now rewrite <- app_assoc.
Qed.

Lemma pte_at_set_slot s a e x pg k :
  wf s -> 0 <= a < size s -> 0 <= e < P -> pt_get s a = Some pg ->
  pte (pt_set s a (<[Z.to_nat e := x]> pg)) k
  = if decide (k = a * P + e) then Some x else pte s k.
Proof.
  intros Hwf Ha He Hpg.
  pose proof (get_length s a pg Hwf Hpg) as Hlen.
  rewrite pte_at_set by (auto; now rewrite length_insert).
  destruct (decide (a * P <= k < a * P + P)) as [Hk|Hk].
  - destruct (decide (k = a * P + e)) as [->|Hne].
    + replace (a * P + e - a * P) with e by lia.
      apply list_lookup_insert_eq. lia.
    + rewrite list_lookup_insert_ne by lia.
      unfold pte_at. rewrite (proj2 (div_table P k a P_pos) Hk), Hpg. simpl.
      now rewrite (mod_table P k a).
  - destruct (decide (k = a * P + e)); [lia|reflexivity].
Qed.

Lemma walk_insert_app l1 l2 s a e m :
  winsert (l1 ++ l2) s a e m
  = '(s1, tr1, c1) ← winsert l1 s a e m;
    '(s2, tr2, c2) ← winsert l2 s1 c1.1.1 c1.1.2 c1.2;
    Some (s2, tr1 ++ tr2, c2).
Proof.
  revert s a e m. induction l1 as [|x l1 IH]; intros s a e m; simpl.
  - destruct (winsert l2 s a e m) as [[[s2 tr2] c2]|]; reflexivity.
  - destruct (pt_get s a) as [pg|]; [|reflexivity]. simpl.
    destruct (e + 1 =? P); rewrite IH;
      match goal with
      | |- context [winsert l1 ?s ?a ?e ?m] =>
        destruct (winsert l1 s a e m) as [[[s1 tr1] [[a1 e1] m1]]|];
          [|reflexivity]
      end; simpl;
      match goal with
      | |- context [winsert l2 ?s ?a ?e ?m] =>
        destruct (winsert l2 s a e m) as [[[s2 tr2] c2]|]; [|reflexivity]
      end; simpl; rewrite <- ?app_assoc; reflexivity.
Qed.

(** Where the insert loop stands after a list of pages. *)
Lemma walk_insert_cursor l s a e m s' tr c :
  winsert l s a e m = Some (s', tr, c) -> 0 <= e < P ->
  c = (a + (e + Z.of_nat (length l)) / P,
       (e + Z.of_nat (length l)) mod P,
       match l with
       | [] => m
       | _ => negb ((e + Z.of_nat (length l)) mod P =? 0)
       end).
Proof.
  revert s a e m s' tr c.
  induction l as [|x l IH]; intros s a e m s' tr c; simpl winsert.
  - intros [= <- <- <-] He. simpl length.
    rewrite Z.add_0_r, Z.div_small, Z.mod_small by lia.
    now rewrite Z.add_0_r.
  - destruct (pt_get s a) as [pg|]; [|discriminate]. simpl.
    destruct (e + 1 =? P) eqn:Hb.
    + apply Z.eqb_eq in Hb.
      destruct (winsert l _ (a + 1) 0 false) as [[[s1 tr1] c1]|] eqn:Hrun;
        [|discriminate].
      simpl. intros [= <- <- <-] He.
      rewrite (IH _ _ _ _ _ _ _ Hrun) by lia. simpl length.
      replace (e + Z.of_nat (S (length l)))
        with (0 + Z.of_nat (length l) + 1 * P) by lia.
      rewrite Z.div_add, Z.mod_add by lia.
      f_equal; [f_equal; lia|].
      destruct l; reflexivity.
    + apply Z.eqb_neq in Hb.
      destruct (winsert l _ a (e + 1) true) as [[[s1 tr1] c1]|] eqn:Hrun;
        [|discriminate].
      simpl. intros [= <- <- <-] He.
      rewrite (IH _ _ _ _ _ _ _ Hrun) by lia. simpl length.
      replace (e + Z.of_nat (S (length l)))
        with (e + 1 + Z.of_nat (length l)) by lia.
      f_equal.
      destruct l; [|reflexivity]. simpl.
      rewrite Z.add_0_r, Z.mod_small by lia.
      symmetry. apply negb_true_iff, Z.eqb_neq. lia.
Qed.

Lemma walk_insert_trace l s a e m s' tr c :
  winsert l s a e m = Some (s', tr, c) ->
  kmap_one_at_a_time m
    (tr ++ (if c.2 then clflush_unless has_llc ++ [Kunmap] else [])) = true.
Proof.
  revert s a e m s' tr c.
  induction l as [|x l IH]; intros s a e m s' tr c; simpl winsert.
  - intros [= <- <- <-]. simpl. destruct m, has_llc; reflexivity.
  - destruct (pt_get s a) as [pg|]; [|discriminate]. simpl.
    destruct (e + 1 =? P).
    + destruct (winsert l _ (a + 1) 0 false) as [[[s1 tr1] c1]|] eqn:Hrun;
        [|discriminate].
      simpl. intros [= <- <- <-]. apply IH in Hrun.
      destruct m, has_llc; simpl; exact Hrun.
    + destruct (winsert l _ a (e + 1) true) as [[[s1 tr1] c1]|] eqn:Hrun;
        [|discriminate].
      simpl. intros [= <- <- <-]. apply IH in Hrun.
      destruct m; simpl; exact Hrun.
Qed.

(** The insert loop writes the list, in order, to the entries from slot [e]
    of table [a] on and to nothing else. *)
Lemma walk_insert_spec l s a e m :
  wf s -> 0 <= a -> 0 <= e < P ->
  a * P + e + Z.of_nat (length l) <= size s * P ->
  exists s' tr c,
    winsert l s a e m = Some (s', tr, c) /\
    wf s' /\ size s' = size s /\
    forall k, pte s' k
              = if decide (a * P + e <= k < a * P + e + Z.of_nat (length l))
                then l !! Z.to_nat (k - (a * P + e))
                else pte s k.
Proof.
  revert s a e m.
  induction l as [|x l IH]; intros s a e m Hwf Ha He Hin; simpl winsert.
  - eexists _, _, _. split; [reflexivity|]. repeat split; auto.
    intros k. simpl length. destruct (decide _); [lia|reflexivity].
  - simpl length in *.
    assert (Hasz : 0 <= a < size s) by nia.
    destruct (proj2 (get_is_Some s a Hwf) Hasz) as [pg Hpg].
    pose proof (get_length s a pg Hwf Hpg) as Hlen.
    rewrite Hpg. simpl.
    set (pg' := <[Z.to_nat e := x]> pg).
    assert (Hlen' : Z.of_nat (length pg') = P)
      by (unfold pg'; now rewrite length_insert).
    destruct (set_wf s a pg' Hwf Hasz Hlen') as [Hwf1 Hsz1].
    assert (Hfin : forall a' e' m' ,
      a' * P + e' = a * P + e + 1 -> 0 <= a' -> 0 <= e' < P ->
      exists s' tr c,
        winsert l (pt_set s a pg') a' e' m' = Some (s', tr, c) /\
        wf s' /\ size s' = size s /\
        forall k, pte s' k
          = if decide (a * P + e <= k
                       < a * P + e + Z.of_nat (S (length l)))
            then (x :: l) !! Z.to_nat (k - (a * P + e))
            else pte s k).
    { intros a' e' m' Hc Ha' He'.
      destruct (IH (pt_set s a pg') a' e' m')
        as (s' & tr & c & Hrun & Hwf' & Hsz' & Hpte);
        [auto|lia|lia|rewrite Hsz1; lia|].
      exists s', tr, c. split; [exact Hrun|].
      split; [exact Hwf'|]. split; [congruence|].
      intros k. rewrite Hpte. unfold pg'.
      rewrite pte_at_set_slot by auto. rewrite Hc.
      destruct (decide (a * P + e + 1 <= k
                        < a * P + e + 1 + Z.of_nat (length l))) as [Hk|Hk].
      - destruct (decide (a * P + e <= k < _)); [|lia].
        replace (Z.to_nat (k - (a * P + e)))
          with (S (Z.to_nat (k - (a * P + e + 1)))) by lia.
        reflexivity.
      - destruct (decide (k = a * P + e)) as [->|Hne].
        + destruct (decide (a * P + e <= _ < _)); [|lia].
          now replace (Z.to_nat (a * P + e - (a * P + e))) with O by lia.
        + destruct (decide (a * P + e <= k < _)); [lia|reflexivity]. }
    destruct (e + 1 =? P) eqn:Hb.
    + apply Z.eqb_eq in Hb.
      destruct (Hfin (a + 1) 0 false) as (s' & tr & c & Hrun & Hrest);
        [lia|lia|lia|].
      rewrite Hrun. simpl. eexists _, _, _. split; [reflexivity|exact Hrest].
    + apply Z.eqb_neq in Hb.
      destruct (Hfin a (e + 1) true) as (s' & tr & c & Hrun & Hrest);
        [lia|lia|lia|].
      rewrite Hrun. simpl. eexists _, _, _. split; [reflexivity|exact Hrest].
Qed.

Lemma boundary_tables f n :
  0 <= f < P -> 0 < n -> (f + n) mod P = 0 ->
  exists m : nat, f + n = Z.of_nat (S m) * P.
Proof.
  intros Hf Hn Hmod.
  pose proof (Z.div_mod (f + n) P ltac:(lia)) as Hdm. rewrite Hmod in Hdm.
  set (q := (f + n) / P) in *.
  assert (0 < q) by nia.
  exists (Z.to_nat (q - 1)).
  replace (Z.of_nat (S (Z.to_nat (q - 1)))) with q by lia. lia.
Qed.

(** The split at a table boundary, for a range inside the store. *)
Lemma walk_clear_split_ok s a f n1 n2 v :
  wf s -> 0 <= a -> 0 <= f < P -> 0 < n1 -> 0 <= n2 ->
  (f + n1) mod P = 0 -> a * P + f + n1 + n2 <= size s * P ->
  exists s1 tr1 s2 tr2,
    wclear (Z.to_nat n1) s a f n1 v = Some (s1, tr1) /\
    wclear (Z.to_nat n2) s1 ((a * P + f + n1) / P) 0 n2 v = Some (s2, tr2) /\
    wclear (Z.to_nat (n1 + n2)) s a f (n1 + n2) v = Some (s2, tr1 ++ tr2) /\
    kmap_one_at_a_time false (tr1 ++ tr2) = true /\
    wf s2 /\ size s2 = size s.
Proof.
  intros Hwf Ha Hf Hn1 Hn2 Hmod Hin.
  destruct (boundary_tables f n1 Hf Hn1 Hmod) as [m Hm].
  assert (Hnext : (a * P + f + n1) / P = a + Z.of_nat (S m)).
  { apply div_table; lia. }
  destruct (walk_clear_spec (Z.to_nat n1) s a f n1 v)
    as (s1 & tr1 & Hrun1 & Hwf1 & Hsz1 & _); auto; try lia.
  destruct (walk_clear_spec (Z.to_nat n2) s1 (a + Z.of_nat (S m)) 0 n2 v)
    as (s2 & tr2 & Hrun2 & Hwf2 & Hsz2 & _); auto; try lia.
  exists s1, tr1, s2, tr2. rewrite Hnext.
  split; [exact Hrun1|]. split; [exact Hrun2|]. split; [|split; [|split]].
  - rewrite (walk_clear_split m) by auto. rewrite Hrun1. simpl.
    rewrite Hrun2. reflexivity.
  - apply kmap_one_at_a_time_app; eapply walk_clear_trace; eauto.
  - exact Hwf2.
  - congruence.
Qed.

Lemma walk_insert_split_ok l1 l2 s a e :
  wf s -> 0 <= a -> 0 <= e < P -> l1 <> [] ->
  (e + Z.of_nat (length l1)) mod P = 0 ->
  a * P + e + Z.of_nat (length l1) + Z.of_nat (length l2) <= size s * P ->
  exists s1 tr1 s2 tr2 c2,
    winsert l1 s a e false
    = Some (s1, tr1, ((a * P + e + Z.of_nat (length l1)) / P, 0, false)) /\
    winsert l2 s1 ((a * P + e + Z.of_nat (length l1)) / P) 0 false
    = Some (s2, tr2, c2) /\
    winsert (l1 ++ l2) s a e false = Some (s2, tr1 ++ tr2, c2) /\
    wf s2 /\ size s2 = size s.
Proof.
  intros Hwf Ha He Hne Hmod Hin.
  assert (Hlen1 : 0 < Z.of_nat (length l1)) by (destruct l1; simpl; [easy|lia]).
  destruct (boundary_tables e _ He Hlen1 Hmod) as [m Hm].
  assert (Hnext : (a * P + e + Z.of_nat (length l1)) / P = a + Z.of_nat (S m)).
  { apply div_table; lia. }
  destruct (walk_insert_spec l1 s a e false)
    as (s1 & tr1 & c1 & Hrun1 & Hwf1 & Hsz1 & _); auto; try lia.
  pose proof (walk_insert_cursor _ _ _ _ _ _ _ _ Hrun1 He) as Hc1.
  assert (Hc1' : c1 = (a + Z.of_nat (S m), 0, false)).
  { rewrite Hc1, Hmod, Hm, Z.div_mul by lia.
    destruct l1; [contradiction|reflexivity]. }
  clear Hc1. subst c1.
  destruct (walk_insert_spec l2 s1 (a + Z.of_nat (S m)) 0 false)
    as (s2 & tr2 & c2 & Hrun2 & Hwf2 & Hsz2 & _); auto; try lia.
  exists s1, tr1, s2, tr2, c2. rewrite Hnext.
  split; [exact Hrun1|]. split; [exact Hrun2|]. split; [|split].
  - rewrite walk_insert_app, Hrun1. simpl. rewrite Hrun2. reflexivity.
  - exact Hwf2.
  - congruence.
Qed.

End walk_facts.

(** ** The gen6 and gen8 stores satisfy the laws of the walk *)

Lemma gen6_get_is_Some pt t :
  gen6_pages_wf pt -> is_Some (gen6_pt_get pt t) <-> 0 <= t < gen6_size pt.
Proof.
  intros _. unfold gen6_pt_get, gen6_size.
  destruct (Z.ltb_spec t 0).
  - split; [intros [? [=]]|lia].
  - rewrite lookup_lt_is_Some. lia.
Qed.

Lemma gen6_get_length pt t pg :
  gen6_pages_wf pt -> gen6_pt_get pt t = Some pg ->
  Z.of_nat (length pg) = I915_PPGTT_PT_ENTRIES.
Proof.
  unfold gen6_pt_get, gen6_pages_wf. intros Hwf.
  destruct (t <? 0); [discriminate|]. intros Hpg.
  exact (proj1 (Forall_lookup _ _) Hwf _ _ Hpg).
Qed.

Lemma gen6_set_wf pt t pg :
  gen6_pages_wf pt -> 0 <= t < gen6_size pt ->
  Z.of_nat (length pg) = I915_PPGTT_PT_ENTRIES ->
  gen6_pages_wf (gen6_pt_set pt t pg) /\
  gen6_size (gen6_pt_set pt t pg) = gen6_size pt.
Proof.
  unfold gen6_pages_wf, gen6_pt_set, gen6_size. intros Hwf Ht Hlen.
  split; [now apply Forall_insert|now rewrite length_insert].
Qed.

Lemma gen6_get_set_eq pt t pg :
  gen6_pages_wf pt -> 0 <= t < gen6_size pt ->
  gen6_pt_get (gen6_pt_set pt t pg) t = Some pg.
Proof.
  unfold gen6_pt_get, gen6_pt_set, gen6_size. intros _ Ht.
  destruct (Z.ltb_spec t 0); [lia|]. apply list_lookup_insert_eq. lia.
Qed.

Lemma gen6_get_set_ne pt t t' pg :
  0 <= t -> t <> t' ->
  gen6_pt_get (gen6_pt_set pt t pg) t' = gen6_pt_get pt t'.
Proof.
  unfold gen6_pt_get, gen6_pt_set. intros Ht Hne.
  destruct (Z.ltb_spec t' 0); [reflexivity|].
  apply list_lookup_insert_ne. lia.
Qed.

Lemma gen6_store_ext pt1 pt2 :
  gen6_pages_wf pt1 -> gen6_pages_wf pt2 -> gen6_size pt1 = gen6_size pt2 ->
  (forall t, 0 <= t < gen6_size pt1 -> gen6_pt_get pt1 t = gen6_pt_get pt2 t) ->
  pt1 = pt2.
Proof.
  unfold gen6_size, gen6_pt_get. intros _ _ Hsz Hget.
  apply list_eq. intros i.
  destruct (decide (i < length pt1)%nat) as [Hi|Hi].
  - specialize (Hget (Z.of_nat i) ltac:(lia)).
    destruct (Z.ltb_spec (Z.of_nat i) 0); [lia|].
    now rewrite Nat2Z.id in Hget.
  - rewrite !lookup_ge_None_2 by lia. reflexivity.
Qed.

Lemma gen8_page_table_is_Some pt pdpe pde :
  gen8_pages_wf pt -> 0 <= pdpe -> 0 <= pde < GEN8_PDES_PER_PAGE ->
  is_Some (gen8_page_table pt pdpe pde) <-> pdpe < Z.of_nat (length pt).
Proof.
  intros Hwf Hpdpe Hpde. unfold gen8_page_table. split.
  - intros [pg Hpg]. destruct (pt !! Z.to_nat pdpe) as [pd|] eqn:Hpd;
      [|discriminate].
    apply lookup_lt_Some in Hpd. lia.
  - intros Hlt.
    destruct (lookup_lt_is_Some_2 pt (Z.to_nat pdpe) ltac:(lia)) as [pd Hpd].
    rewrite Hpd. simpl. apply lookup_lt_is_Some.
    destruct (proj1 (Forall_lookup _ _) Hwf _ _ Hpd) as [Hlen _]. lia.
Qed.

Lemma gen8_get_is_Some pt t :
  gen8_pages_wf pt -> is_Some (gen8_pt_get pt t) <-> 0 <= t < gen8_size pt.
Proof.
  intros Hwf. unfold gen8_pt_get, gen8_size.
  destruct (Z.ltb_spec t 0) as [Hneg|Hpos].
  - split; [intros [? [=]]|lia].
  - assert (0 < GEN8_PDES_PER_PAGE) by reflexivity.
    rewrite gen8_page_table_is_Some;
      [|auto|apply Z.div_pos; lia|apply Z.mod_pos_bound; lia].
    split.
    + intros Hlt. split; [lia|].
      pose proof (Z.mul_succ_div_gt t GEN8_PDES_PER_PAGE ltac:(lia)). nia.
    + intros [_ Hlt]. apply Z.div_lt_upper_bound; lia.
Qed.

Lemma gen8_get_length pt t pg :
  gen8_pages_wf pt -> gen8_pt_get pt t = Some pg ->
  Z.of_nat (length pg) = GEN8_PTES_PER_PAGE.
Proof.
  unfold gen8_pt_get, gen8_page_table, gen8_pages_wf. intros Hwf.
  destruct (t <? 0); [discriminate|].
  destruct (pt !! _) as [pd|] eqn:Hpd; [|discriminate]. simpl. intros Hpg.
  destruct (proj1 (Forall_lookup _ _) Hwf _ _ Hpd) as [_ Hpgs].
  exact (proj1 (Forall_lookup _ _) Hpgs _ _ Hpg).
Qed.

Lemma gen8_set_page_table_wf pt pdpe pde pg :
  gen8_pages_wf pt -> Z.of_nat (length pg) = GEN8_PTES_PER_PAGE ->
  gen8_pages_wf (gen8_set_page_table pt pdpe pde pg) /\
  length (gen8_set_page_table pt pdpe pde pg) = length pt.
Proof.
  unfold gen8_pages_wf, gen8_set_page_table. intros Hwf Hlen.
  split; [|apply length_alter].
  apply Forall_alter; [exact Hwf|].
  intros pd Hpd [Hl Hpgs]. split; [now rewrite length_insert|].
  apply Forall_insert; auto.
Qed.

Lemma gen8_set_wf pt t pg :
  gen8_pages_wf pt -> 0 <= t < gen8_size pt ->
  Z.of_nat (length pg) = GEN8_PTES_PER_PAGE ->
  gen8_pages_wf (gen8_pt_set pt t pg) /\
  gen8_size (gen8_pt_set pt t pg) = gen8_size pt.
Proof.
  intros Hwf _ Hlen. unfold gen8_pt_set, gen8_size.
  destruct (gen8_set_page_table_wf pt (t / GEN8_PDES_PER_PAGE)
              (t mod GEN8_PDES_PER_PAGE) pg Hwf Hlen) as [H1 H2].
  split; [exact H1|now rewrite H2].
Qed.

Lemma gen8_page_table_set_eq pt pdpe pde pg :
  gen8_pages_wf pt -> 0 <= pdpe < Z.of_nat (length pt) ->
  0 <= pde < GEN8_PDES_PER_PAGE ->
  gen8_page_table (gen8_set_page_table pt pdpe pde pg) pdpe pde = Some pg.
Proof.
  intros Hwf Hpdpe Hpde. unfold gen8_page_table, gen8_set_page_table.
  destruct (lookup_lt_is_Some_2 pt (Z.to_nat pdpe) ltac:(lia)) as [pd Hpd].
  rewrite list_lookup_alter_eq, Hpd. simpl.
  apply list_lookup_insert_eq.
  destruct (proj1 (Forall_lookup _ _) Hwf _ _ Hpd) as [Hlen _]. lia.
Qed.

Lemma gen8_page_table_set_ne pt pdpe pde pdpe' pde' pg :
  0 <= pdpe -> 0 <= pde -> 0 <= pdpe' -> 0 <= pde' ->
  (pdpe, pde) <> (pdpe', pde') ->
  gen8_page_table (gen8_set_page_table pt pdpe pde pg) pdpe' pde'
  = gen8_page_table pt pdpe' pde'.
Proof.
  intros H1 H2 H3 H4 Hne. unfold gen8_page_table, gen8_set_page_table.
  destruct (decide (pdpe = pdpe')) as [<-|Hp].
  - rewrite list_lookup_alter_eq.
    destruct (pt !! Z.to_nat pdpe) as [pd|]; [|reflexivity]. simpl.
    apply list_lookup_insert_ne. intros Heq. apply Hne. f_equal. lia.
  - rewrite list_lookup_alter_ne by lia. reflexivity.
Qed.

Lemma gen8_get_set_eq pt t pg :
  gen8_pages_wf pt -> 0 <= t < gen8_size pt ->
  gen8_pt_get (gen8_pt_set pt t pg) t = Some pg.
Proof.
  unfold gen8_pt_get, gen8_pt_set, gen8_size. intros Hwf Ht.
  destruct (Z.ltb_spec t 0); [lia|].
  assert (0 < GEN8_PDES_PER_PAGE) by reflexivity.
  apply gen8_page_table_set_eq; auto.
  - split; [apply Z.div_pos; lia|apply Z.div_lt_upper_bound; lia].
  - apply Z.mod_pos_bound. lia.
Qed.

Lemma gen8_get_set_ne pt t t' pg :
  0 <= t -> t <> t' ->
  gen8_pt_get (gen8_pt_set pt t pg) t' = gen8_pt_get pt t'.
Proof.
  unfold gen8_pt_get, gen8_pt_set. intros Ht Hne.
  destruct (Z.ltb_spec t' 0); [reflexivity|].
  assert (0 < GEN8_PDES_PER_PAGE) by reflexivity.
  apply gen8_page_table_set_ne;
    try (apply Z.div_pos; lia); try (apply Z.mod_pos_bound; lia).
  intros [= Hd Hm]. apply Hne.
  rewrite (Z.div_mod t GEN8_PDES_PER_PAGE), (Z.div_mod t' GEN8_PDES_PER_PAGE)
    by lia.
  now rewrite Hd, Hm.
Qed.

Lemma gen8_store_ext pt1 pt2 :
  gen8_pages_wf pt1 -> gen8_pages_wf pt2 -> gen8_size pt1 = gen8_size pt2 ->
  (forall t, 0 <= t < gen8_size pt1 -> gen8_pt_get pt1 t = gen8_pt_get pt2 t) ->
  pt1 = pt2.
Proof.
  unfold gen8_size. intros Hwf1 Hwf2 Hsz Hget.
  assert (HP : 0 < GEN8_PDES_PER_PAGE) by reflexivity.
  assert (Hlen : length pt1 = length pt2) by nia.
  apply list_eq. intros i.
  destruct (decide (i < length pt1)%nat) as [Hi|Hi];
    [|rewrite !lookup_ge_None_2 by lia; reflexivity].
  destruct (lookup_lt_is_Some_2 pt1 i Hi) as [pd1 Hpd1].
  destruct (lookup_lt_is_Some_2 pt2 i ltac:(lia)) as [pd2 Hpd2].
  rewrite Hpd1, Hpd2. f_equal.
  destruct (proj1 (Forall_lookup _ _) Hwf1 _ _ Hpd1) as [Hl1 _].
  destruct (proj1 (Forall_lookup _ _) Hwf2 _ _ Hpd2) as [Hl2 _].
  apply list_eq. intros j.
  destruct (decide (Z.of_nat j < GEN8_PDES_PER_PAGE)) as [Hj|Hj];
    [|rewrite !lookup_ge_None_2 by lia; reflexivity].
  specialize (Hget (Z.of_nat i * GEN8_PDES_PER_PAGE + Z.of_nat j) ltac:(nia)).
  unfold gen8_pt_get, gen8_page_table in Hget.
  destruct (Z.ltb_spec (Z.of_nat i * GEN8_PDES_PER_PAGE + Z.of_nat j) 0);
    [lia|].
  rewrite (proj2 (div_table GEN8_PDES_PER_PAGE _ (Z.of_nat i) HP)) in Hget
    by lia.
  rewrite (mod_table GEN8_PDES_PER_PAGE _ (Z.of_nat i)) in Hget by lia.
  replace (Z.of_nat i * GEN8_PDES_PER_PAGE + Z.of_nat j
           - Z.of_nat i * GEN8_PDES_PER_PAGE) with (Z.of_nat j) in Hget by lia.
  rewrite !Nat2Z.id, Hpd1, Hpd2 in Hget. exact Hget.
Qed.

(** ** The loops of the source are the walk *)

Lemma u32_small x : 0 <= x < 2 ^ 32 -> u32 x = x.
Proof. intros H. unfold u32. now apply Z.mod_small. Qed.

Lemma gen6_pt_get_nonneg pt a : 0 <= a -> gen6_pt_get pt a = pt !! Z.to_nat a.
Proof. intros H. unfold gen6_pt_get. destruct (Z.ltb_spec a 0); [lia|easy]. Qed.

Lemma gen6_clear_loop_walk fuel pt a f n v :
  0 <= a -> 0 <= f < I915_PPGTT_PT_ENTRIES -> 0 <= n ->
  a + n < 2 ^ 32 -> f + n < 2 ^ 32 ->
  gen6_clear_loop fuel pt a f n v
  = walk_clear gen6_pt_get gen6_pt_set I915_PPGTT_PT_ENTRIES true
      fuel pt a f n v.
Proof.
  revert pt a f n.
  induction fuel as [|fuel IH]; intros pt a f n Ha Hf Hn Han Hfn;
    [reflexivity|].
  simpl. destruct (n =? 0) eqn:Hn0; [reflexivity|].
  apply Z.eqb_neq in Hn0.
  rewrite (u32_small (f + n)) by lia.
  assert (Hlast : (if f + n >? I915_PPGTT_PT_ENTRIES
                   then I915_PPGTT_PT_ENTRIES else f + n)
                  = Z.min (f + n) I915_PPGTT_PT_ENTRIES).
  { destruct (Z.gtb_spec (f + n) I915_PPGTT_PT_ENTRIES); lia. }
  rewrite Hlast. clear Hlast.
  set (last := Z.min (f + n) I915_PPGTT_PT_ENTRIES) in *.
  rewrite (gen6_pt_get_nonneg pt a) by lia.
  destruct (pt !! Z.to_nat a) as [pg|]; [|reflexivity]. simpl.
  rewrite (u32_small (last - f)), (u32_small (a + 1)),
    (u32_small (n - (last - f))) by (unfold last; lia).
  rewrite IH by (unfold last; lia). reflexivity.
Qed.

Lemma gen6_insert_loop_walk encode pages pt a e m :
  0 <= a -> 0 <= e < I915_PPGTT_PT_ENTRIES ->
  a + Z.of_nat (length pages) < 2 ^ 32 ->
  gen6_insert_loop encode pages pt a e (gen6_pt_vaddr a m)
  = '(pt', tr, c) ← walk_insert gen6_pt_get gen6_pt_set
                      I915_PPGTT_PT_ENTRIES true (encode <$> pages) pt a e m;
    Some (pt', tr, gen6_cursor_of c).
Proof.
  revert pt a e m.
  induction pages as [|addr pages IH]; intros pt a e m Ha He Hlen;
    [reflexivity|].
  simpl length in Hlen. simpl.
  rewrite (gen6_pt_get_nonneg pt a) by lia.
  assert (Hev : forall pg,
    pt !! Z.to_nat a = Some pg ->
    match gen6_pt_vaddr a m with
    | Some t => Some ([], t)
    | None => _ ← pt !! Z.to_nat a; Some ([Kmap], a)
    end = Some (if m then [] else [Kmap], a)).
  { intros pg Hpg. destruct m; simpl; [reflexivity|now rewrite Hpg]. }
  destruct (pt !! Z.to_nat a) as [pg|] eqn:Hpg.
  2:{ destruct m; simpl; rewrite ?Hpg; reflexivity. }
  rewrite (Hev pg eq_refl). simpl. rewrite Hpg. simpl.
  rewrite (u32_small (e + 1)) by (change I915_PPGTT_PT_ENTRIES with 1024 in *; lia).
  destruct (e + 1 =? I915_PPGTT_PT_ENTRIES) eqn:Hb.
  - rewrite (u32_small (a + 1)) by lia.
    change None with (gen6_pt_vaddr (a + 1) false).
    rewrite IH by lia. unfold gen6_pt_set.
    destruct (walk_insert _ _ _ _ _ _ _ _ _) as [[[pt' tr] c]|]; reflexivity.
  - apply Z.eqb_neq in Hb.
    change (Some a) with (gen6_pt_vaddr a true).
    rewrite IH by lia. unfold gen6_pt_set.
    destruct (walk_insert _ _ _ _ _ _ _ _ _) as [[[pt' tr] c]|]; reflexivity.
Qed.

Lemma gen8_flat_div pdpe pde :
  0 <= pde < GEN8_PDES_PER_PAGE ->
  (pdpe * GEN8_PDES_PER_PAGE + pde) / GEN8_PDES_PER_PAGE = pdpe /\
  (pdpe * GEN8_PDES_PER_PAGE + pde) mod GEN8_PDES_PER_PAGE = pde.
Proof.
  intros H. assert (HP : 0 < GEN8_PDES_PER_PAGE) by reflexivity. split.
  - apply div_table; lia.
  - rewrite (mod_table _ _ pdpe); lia.
Qed.

Lemma gen8_pt_get_flat pt pdpe pde :
  0 <= pdpe -> 0 <= pde < GEN8_PDES_PER_PAGE ->
  gen8_pt_get pt (pdpe * GEN8_PDES_PER_PAGE + pde)
  = gen8_page_table pt pdpe pde.
Proof.
  intros Hp Hd. unfold gen8_pt_get.
  destruct (gen8_flat_div pdpe pde Hd) as [-> ->].
  destruct (Z.ltb_spec (pdpe * GEN8_PDES_PER_PAGE + pde) 0); [|reflexivity].
  change GEN8_PDES_PER_PAGE with 512 in *. lia.
Qed.

Lemma gen8_pt_set_flat pt pdpe pde pg :
  0 <= pde < GEN8_PDES_PER_PAGE ->
  gen8_pt_set pt (pdpe * GEN8_PDES_PER_PAGE + pde) pg
  = gen8_set_page_table pt pdpe pde pg.
Proof.
  intros Hd. unfold gen8_pt_set.
  now destruct (gen8_flat_div pdpe pde Hd) as [-> ->].
Qed.

Lemma gen8_next_pde_flat pdpe pde :
  0 <= pdpe -> pdpe + 1 < 2 ^ 32 -> 0 <= pde < GEN8_PDES_PER_PAGE ->
  exists pdpe' pde',
    gen8_next_pde pdpe pde = (pdpe', pde') /\
    pdpe <= pdpe' <= pdpe + 1 /\ 0 <= pde' < GEN8_PDES_PER_PAGE /\
    pdpe' * GEN8_PDES_PER_PAGE + pde' = pdpe * GEN8_PDES_PER_PAGE + pde + 1.
Proof.
  intros Hp Hp' Hd. unfold gen8_next_pde.
  change GEN8_PDES_PER_PAGE with 512 in *.
  rewrite (u32_small (pde + 1)) by lia.
  destruct (Z.eqb_spec (pde + 1) 512).
  - rewrite (u32_small (pdpe + 1)) by lia. eexists _, _.
    split; [reflexivity|lia].
  - eexists _, _. split; [reflexivity|lia].
Qed.

Lemma gen8_clear_loop_walk has_llc fuel pt pdpe pde pte n v :
  0 <= pdpe -> 0 <= pde < GEN8_PDES_PER_PAGE ->
  0 <= pte < GEN8_PTES_PER_PAGE -> 0 <= n ->
  pdpe + n < 2 ^ 32 -> pte + n < 2 ^ 32 ->
  gen8_clear_loop has_llc fuel pt pdpe pde pte n v
  = walk_clear gen8_pt_get gen8_pt_set GEN8_PTES_PER_PAGE has_llc
      fuel pt (pdpe * GEN8_PDES_PER_PAGE + pde) pte n v.
Proof.
  revert pt pdpe pde pte n.
  induction fuel as [|fuel IH]; intros pt pdpe pde pte n Hp Hd Ht Hn Hpn Htn;
    [reflexivity|].
  simpl. destruct (n =? 0) eqn:Hn0; [reflexivity|].
  apply Z.eqb_neq in Hn0.
  rewrite gen8_pt_get_flat by auto.
  destruct (gen8_page_table pt pdpe pde) as [pg|]; [|reflexivity]. simpl.
  rewrite (u32_small (pte + n)) by lia.
  assert (Hlast : (if pte + n >? GEN8_PTES_PER_PAGE
                   then GEN8_PTES_PER_PAGE else pte + n)
                  = Z.min (pte + n) GEN8_PTES_PER_PAGE).
  { destruct (Z.gtb_spec (pte + n) GEN8_PTES_PER_PAGE); lia. }
  rewrite Hlast. clear Hlast.
  set (last := Z.min (pte + n) GEN8_PTES_PER_PAGE) in *.
  rewrite gen8_fill_page_eq by (unfold last; lia).
  destruct (gen8_next_pde_flat pdpe pde Hp ltac:(lia) Hd)
    as (pdpe' & pde' & -> & Hp' & Hd' & Hflat).
  rewrite IH by (unfold last; lia).
  rewrite Hflat, gen8_pt_set_flat by auto.
  replace (pdpe * GEN8_PDES_PER_PAGE + pde + 1)
    with (pdpe * GEN8_PDES_PER_PAGE + pde + 1) by lia.
  reflexivity.
Qed.

Lemma gen8_insert_loop_walk has_llc encode pages pt pdpe pde pte m :
  0 <= pdpe -> 0 <= pde < GEN8_PDES_PER_PAGE ->
  0 <= pte < GEN8_PTES_PER_PAGE ->
  (pdpe * GEN8_PDES_PER_PAGE + pde) * GEN8_PTES_PER_PAGE + pte
    + Z.of_nat (length pages)
  <= GEN8_LEGACY_PDPS * GEN8_PDES_PER_PAGE * GEN8_PTES_PER_PAGE ->
  gen8_insert_loop has_llc encode pages pt pdpe pde pte
    (gen8_pt_vaddr (pdpe * GEN8_PDES_PER_PAGE + pde) m)
  = '(pt', tr, c) ← walk_insert gen8_pt_get gen8_pt_set
                      GEN8_PTES_PER_PAGE has_llc (encode <$> pages) pt
                      (pdpe * GEN8_PDES_PER_PAGE + pde) pte m;
    Some (pt', tr, gen8_cursor_of c).
Proof.
  revert pt pdpe pde pte m.
  induction pages as [|addr pages IH]; intros pt pdpe pde pte m Hp Hd Ht Hin.
  - simpl. unfold gen8_cursor_of. simpl.
    now destruct (gen8_flat_div pdpe pde Hd) as [-> ->].
  - simpl length in Hin. simpl.
    assert (Hp4 : pdpe < GEN8_LEGACY_PDPS).
    { change GEN8_LEGACY_PDPS with 4 in *.
      change GEN8_PDES_PER_PAGE with 512 in *.
      change GEN8_PTES_PER_PAGE with 512 in *. lia. }
    destruct (Z.geb_spec pdpe GEN8_LEGACY_PDPS); [lia|].
    rewrite gen8_pt_get_flat by auto.
    assert (Hev : forall pg,
      gen8_page_table pt pdpe pde = Some pg ->
      match gen8_pt_vaddr (pdpe * GEN8_PDES_PER_PAGE + pde) m with
      | Some t => Some ([], t)
      | None => _ ← gen8_page_table pt pdpe pde; Some ([Kmap], (pdpe, pde))
      end = Some (if m then [] else [Kmap], (pdpe, pde))).
    { intros pg Hpg. unfold gen8_pt_vaddr.
      destruct (gen8_flat_div pdpe pde Hd) as [-> ->].
      destruct m; simpl; [reflexivity|now rewrite Hpg]. }
    destruct (gen8_page_table pt pdpe pde) as [pg|] eqn:Hpg.
    2:{ unfold gen8_pt_vaddr.
        destruct (gen8_flat_div pdpe pde Hd) as [-> ->].
        destruct m; simpl; rewrite ?Hpg; reflexivity. }
    rewrite (Hev pg eq_refl). simpl. rewrite Hpg. simpl.
    rewrite (u32_small (pte + 1))
      by (change GEN8_PTES_PER_PAGE with 512 in *; lia).
    rewrite gen8_pt_set_flat by auto.
    destruct (pte + 1 =? GEN8_PTES_PER_PAGE) eqn:Hb.
    + apply Z.eqb_eq in Hb.
      destruct (gen8_next_pde_flat pdpe pde Hp
                  ltac:(change GEN8_LEGACY_PDPS with 4 in *; lia) Hd)
        as (pdpe' & pde' & -> & Hp' & Hd' & Hflat).
      change None with (gen8_pt_vaddr (pdpe' * GEN8_PDES_PER_PAGE + pde') false).
      rewrite IH;
        [|lia|lia|change GEN8_PTES_PER_PAGE with 512 in *; lia
         |rewrite Hflat; lia].
      rewrite Hflat.
      destruct (walk_insert _ _ _ _ _ _ _ _ _) as [[[pt' tr] c]|];
        reflexivity.
    + apply Z.eqb_neq in Hb.
      replace (Some (pdpe, pde))
        with (gen8_pt_vaddr (pdpe * GEN8_PDES_PER_PAGE + pde) true)
        by (unfold gen8_pt_vaddr;
            now destruct (gen8_flat_div pdpe pde Hd) as [-> ->]).
      rewrite IH by lia.
      destruct (walk_insert _ _ _ _ _ _ _ _ _) as [[[pt' tr] c]|];
        reflexivity.
Qed.

(** ** [clear_range] and [insert_entries] of the two PPGTT layouts *)

Lemma shiftr_page x : Z.shiftr x PAGE_SHIFT = x / PAGE_SIZE.
Proof. unfold PAGE_SHIFT. now rewrite Z.shiftr_div_pow2 by lia. Qed.

Lemma page_mul_div n : n * PAGE_SIZE / PAGE_SIZE = n.
Proof. apply Z.div_mul. discriminate. Qed.

Lemma gen6_clear_range_walk ppgtt start length b :
  0 <= start -> 0 <= length ->
  start / PAGE_SIZE + length / PAGE_SIZE < 2 ^ 32 ->
  gen6_ppgtt_clear_range ppgtt start length b
  = '(pt, tr) ← walk_clear gen6_pt_get gen6_pt_set I915_PPGTT_PT_ENTRIES true
                  (Z.to_nat (length / PAGE_SIZE)) (pt_pages ppgtt)
                  (start / PAGE_SIZE / I915_PPGTT_PT_ENTRIES)
                  (start / PAGE_SIZE mod I915_PPGTT_PT_ENTRIES)
                  (length / PAGE_SIZE) (gen6_scratch_pte ppgtt);
    Some (gen6_set_pt_pages ppgtt pt, tr).
Proof.
  intros Hs Hl Hlt. unfold gen6_ppgtt_clear_range.
  rewrite !shiftr_page.
  assert (0 <= start / PAGE_SIZE) by (apply Z.div_pos; [lia|reflexivity]).
  assert (0 <= length / PAGE_SIZE) by (apply Z.div_pos; [lia|reflexivity]).
  rewrite !u32_small by lia.
  assert (HP : 0 < I915_PPGTT_PT_ENTRIES) by reflexivity.
  pose proof (Z.mod_pos_bound (start / PAGE_SIZE) _ HP).
  pose proof (Z.mod_le (start / PAGE_SIZE) _ ltac:(lia) HP).
  pose proof (Z.div_pos (start / PAGE_SIZE) _ ltac:(lia) HP).
  pose proof (Z.div_le_upper_bound (start / PAGE_SIZE) I915_PPGTT_PT_ENTRIES
                (start / PAGE_SIZE) HP ltac:(change I915_PPGTT_PT_ENTRIES with 1024; lia)).
  rewrite gen6_clear_loop_walk
    by (auto; change I915_PPGTT_PT_ENTRIES with 1024 in *; lia).
  reflexivity.
Qed.

Lemma gen6_insert_entries_walk ppgtt pages start cache_level flags :
  0 <= start ->
  start / PAGE_SIZE + Z.of_nat (length pages) < 2 ^ 32 ->
  gen6_ppgtt_insert_entries ppgtt pages start cache_level flags
  = r ← walk_insert gen6_pt_get gen6_pt_set I915_PPGTT_PT_ENTRIES true
          ((fun addr => fst (pte_encode ppgtt addr cache_level true flags))
             <$> pages)
          (pt_pages ppgtt)
          (start / PAGE_SIZE / I915_PPGTT_PT_ENTRIES)
          (start / PAGE_SIZE mod I915_PPGTT_PT_ENTRIES) false;
    let '(pt, tr) := walk_insert_finish true r in
    Some (gen6_set_pt_pages ppgtt pt, tr).
Proof.
  intros Hs Hlt. unfold gen6_ppgtt_insert_entries.
  rewrite !shiftr_page.
  assert (0 <= start / PAGE_SIZE) by (apply Z.div_pos; [lia|reflexivity]).
  rewrite !u32_small by lia.
  assert (HP : 0 < I915_PPGTT_PT_ENTRIES) by reflexivity.
  pose proof (Z.mod_pos_bound (start / PAGE_SIZE) _ HP).
  pose proof (Z.mod_le (start / PAGE_SIZE) _ ltac:(lia) HP).
  pose proof (Z.div_pos (start / PAGE_SIZE) _ ltac:(lia) HP).
  pose proof (Z.div_le_upper_bound (start / PAGE_SIZE) I915_PPGTT_PT_ENTRIES
                (start / PAGE_SIZE) HP ltac:(change I915_PPGTT_PT_ENTRIES with 1024; lia)).
  change None with (gen6_pt_vaddr (start / PAGE_SIZE / I915_PPGTT_PT_ENTRIES) false).
  rewrite gen6_insert_loop_walk by (auto; lia).
  destruct (walk_insert _ _ _ _ _ _ _ _ _) as [[[pt tr] [[a e] m]]|];
    [|reflexivity].
  simpl. destruct m; reflexivity.
Qed.

(** Decoding a gen8 address below 4GB. *)
Lemma land_ones_9 x : Z.land x 511 = x mod 512.
Proof. change 511 with (Z.ones 9). now rewrite Z.land_ones by lia. Qed.

Lemma land_ones_2 x : Z.land x 3 = x mod 4.
Proof. change 3 with (Z.ones 2). now rewrite Z.land_ones by lia. Qed.

Lemma gen8_decode start :
  0 <= start < 2 ^ 32 ->
  let q := start / PAGE_SIZE in
  u32 (Z.land (Z.shiftr start GEN8_PDPE_SHIFT) GEN8_PDPE_MASK)
    * GEN8_PDES_PER_PAGE
  + u32 (Z.land (Z.shiftr start GEN8_PDE_SHIFT) GEN8_PDE_MASK)
  = q / GEN8_PTES_PER_PAGE /\
  u32 (Z.land (Z.shiftr start GEN8_PTE_SHIFT) GEN8_PTE_MASK)
  = q mod GEN8_PTES_PER_PAGE /\
  0 <= u32 (Z.land (Z.shiftr start GEN8_PDPE_SHIFT) GEN8_PDPE_MASK) < 4 /\
  0 <= u32 (Z.land (Z.shiftr start GEN8_PDE_SHIFT) GEN8_PDE_MASK)
    < GEN8_PDES_PER_PAGE.
Proof.
  intros Hs q. subst q.
  unfold GEN8_PDPE_SHIFT, GEN8_PDPE_MASK, GEN8_PDE_SHIFT, GEN8_PDE_MASK,
    GEN8_PTE_SHIFT, GEN8_PTE_MASK.
  rewrite !Z.shiftr_div_pow2 by lia.
  rewrite land_ones_2, !land_ones_9.
  change GEN8_PDES_PER_PAGE with 512. change GEN8_PTES_PER_PAGE with 512.
  change PAGE_SIZE with 4096.
  change (2 ^ 30) with (4096 * 512 * 512). change (2 ^ 21) with (4096 * 512).
  change (2 ^ 12) with 4096.
  rewrite <- !Z.div_div by lia.
  set (q := start / 4096). assert (Hq : 0 <= q < 2 ^ 20).
  { subst q. split; [apply Z.div_pos; lia|apply Z.div_lt_upper_bound; lia]. }
  clearbody q.
  assert (Hd : 0 <= q / 512 < 2048).
  { split; [apply Z.div_pos; lia|apply Z.div_lt_upper_bound; lia]. }
  assert (Hdd : 0 <= q / 512 / 512 < 4).
  { split; [apply Z.div_pos; lia|apply Z.div_lt_upper_bound; lia]. }
  pose proof (Z.mod_pos_bound (q / 512) 512 ltac:(lia)).
  pose proof (Z.mod_pos_bound q 512 ltac:(lia)).
  rewrite (Z.mod_small (q / 512 / 512) 4) by lia.
  rewrite !u32_small by lia.
  pose proof (Z.div_mod (q / 512) 512 ltac:(lia)).
  repeat split; lia.
Qed.

Lemma gen8_clear_range_walk hw ppgtt start length b :
  0 <= start < 2 ^ 32 -> 0 <= length ->
  start / PAGE_SIZE + length / PAGE_SIZE
  <= GEN8_LEGACY_PDPS * GEN8_PDES_PER_PAGE * GEN8_PTES_PER_PAGE ->
  gen8_ppgtt_clear_range hw ppgtt start length b
  = '(pt, tr) ← walk_clear gen8_pt_get gen8_pt_set GEN8_PTES_PER_PAGE
                  (g8_has_llc ppgtt)
                  (Z.to_nat (length / PAGE_SIZE)) (gen8_pt_pages ppgtt)
                  (start / PAGE_SIZE / GEN8_PTES_PER_PAGE)
                  (start / PAGE_SIZE mod GEN8_PTES_PER_PAGE)
                  (length / PAGE_SIZE)
                  (gen8_pte_encode hw (g8_scratch_addr ppgtt) I915_CACHE_LLC b);
    Some (gen8_set_pt_pages ppgtt pt, tr).
Proof.
  intros Hs Hl Hlt. unfold gen8_ppgtt_clear_range.
  change (GEN8_LEGACY_PDPS * GEN8_PDES_PER_PAGE * GEN8_PTES_PER_PAGE)
    with (2 ^ 20) in Hlt.
  destruct (gen8_decode start Hs) as (Hflat & Hpte & Hp & Hd).
  rewrite (shiftr_page length).
  assert (0 <= start / PAGE_SIZE) by (apply Z.div_pos; [lia|reflexivity]).
  assert (0 <= length / PAGE_SIZE) by (apply Z.div_pos; [lia|reflexivity]).
  rewrite (u32_small (length / PAGE_SIZE)) by lia.
  pose proof (Z.mod_pos_bound (start / PAGE_SIZE) GEN8_PTES_PER_PAGE eq_refl).
  pose proof (Z.mod_le (start / PAGE_SIZE) GEN8_PTES_PER_PAGE ltac:(lia)
                eq_refl).
  rewrite gen8_clear_loop_walk by (rewrite ?Hpte; auto; lia).
  rewrite Hflat, Hpte. reflexivity.
Qed.

Lemma gen8_insert_entries_walk hw ppgtt pages start cache_level unused :
  0 <= start < 2 ^ 32 ->
  start / PAGE_SIZE + Z.of_nat (length pages)
  <= GEN8_LEGACY_PDPS * GEN8_PDES_PER_PAGE * GEN8_PTES_PER_PAGE ->
  gen8_ppgtt_insert_entries hw ppgtt pages start cache_level unused
  = r ← walk_insert gen8_pt_get gen8_pt_set GEN8_PTES_PER_PAGE
          (g8_has_llc ppgtt)
          ((fun addr => gen8_pte_encode hw addr cache_level true) <$> pages)
          (gen8_pt_pages ppgtt)
          (start / PAGE_SIZE / GEN8_PTES_PER_PAGE)
          (start / PAGE_SIZE mod GEN8_PTES_PER_PAGE) false;
    let '(pt, tr) := walk_insert_finish (g8_has_llc ppgtt) r in
    Some (gen8_set_pt_pages ppgtt pt, tr).
Proof.
  intros Hs Hlt. unfold gen8_ppgtt_insert_entries.
  destruct (gen8_decode start Hs) as (Hflat & Hpte & Hp & Hd).
  assert (0 <= start / PAGE_SIZE) by (apply Z.div_pos; [lia|reflexivity]).
  pose proof (Z.mod_pos_bound (start / PAGE_SIZE) GEN8_PTES_PER_PAGE eq_refl).
  pose proof (Z.div_mod (start / PAGE_SIZE) GEN8_PTES_PER_PAGE
                ltac:(discriminate)).
  set (pdpe := u32 (Z.land (Z.shiftr start GEN8_PDPE_SHIFT) GEN8_PDPE_MASK)) in *.
  set (pde := u32 (Z.land (Z.shiftr start GEN8_PDE_SHIFT) GEN8_PDE_MASK)) in *.
  replace (@None (Z * Z))
    with (gen8_pt_vaddr (pdpe * GEN8_PDES_PER_PAGE + pde) false)
    by reflexivity.
  rewrite gen8_insert_loop_walk by (rewrite ?Hpte, ?Hflat; auto; lia).
  rewrite Hflat, Hpte.
  destruct (walk_insert _ _ _ _ _ _ _ _ _) as [[[pt tr] [[a e] m]]|];
    [|reflexivity].
  simpl. destruct m; reflexivity.
Qed.

Lemma div_page_le start length T :
  0 <= start -> 0 <= length -> start + length <= T * PAGE_SIZE ->
  0 <= start / PAGE_SIZE /\ 0 <= length / PAGE_SIZE /\
  start / PAGE_SIZE + length / PAGE_SIZE <= T.
Proof.
  unfold PAGE_SIZE. intros Hs Hl Hle.
  Z.div_mod_to_equations. lia.
Qed.

Lemma table_div_mod q P : 0 < P -> q / P * P + q mod P = q.
Proof. intros HP. pose proof (Z.div_mod q P ltac:(lia)). lia. Qed.

Lemma gen6_clear_range_spec ppgtt start length b :
  gen6_ppgtt_ok ppgtt -> 0 <= start -> 0 <= length ->
  start + length <= total ppgtt ->
  exists pt tr,
    gen6_ppgtt_clear_range ppgtt start length b
    = Some (gen6_set_pt_pages ppgtt pt, tr) /\
    gen6_ppgtt_ok (gen6_set_pt_pages ppgtt pt) /\
    kmap_one_at_a_time false tr = true /\
    forall k,
      gen6_pte_at (gen6_set_pt_pages ppgtt pt) k
      = if decide (start / PAGE_SIZE <= k
                   < start / PAGE_SIZE + length / PAGE_SIZE)
        then Some (gen6_scratch_pte ppgtt) else gen6_pte_at ppgtt k.
Proof.
  intros (Hwf & Hlen & Hle & Htot) Hs Hl Hin.
  rewrite Htot in Hin.
  destruct (div_page_le start length _ Hs Hl Hin) as (Hq & Hn & Hqn).
  assert (HP : 0 < I915_PPGTT_PT_ENTRIES) by reflexivity.
  rewrite gen6_clear_range_walk
    by (auto; change I915_PPGTT_PT_ENTRIES with 1024 in *;
        change GEN6_PPGTT_PD_ENTRIES with 512 in *; lia).
  pose proof (table_div_mod (start / PAGE_SIZE) _ HP) as Hdm.
  destruct (walk_clear_spec gen6_pt_get gen6_pt_set I915_PPGTT_PT_ENTRIES true
              gen6_pages_wf gen6_size HP gen6_get_is_Some gen6_get_length
              gen6_set_wf gen6_get_set_eq gen6_get_set_ne
              (Z.to_nat (length / PAGE_SIZE)) (pt_pages ppgtt)
              (start / PAGE_SIZE / I915_PPGTT_PT_ENTRIES)
              (start / PAGE_SIZE mod I915_PPGTT_PT_ENTRIES)
              (length / PAGE_SIZE) (gen6_scratch_pte ppgtt))
    as (pt & tr & Hrun & Hwf' & Hsz' & Hpte);
    [exact Hwf|apply Z.div_pos; lia|apply Z.mod_pos_bound; lia|lia
    |unfold gen6_size; rewrite Hdm, Hlen; lia|lia|].
  exists pt, tr. rewrite Hrun. simpl. split; [reflexivity|].
  split; [|split].
  - unfold gen6_ppgtt_ok. simpl. unfold gen6_size in Hsz'.
    repeat split; auto; lia.
  - eapply walk_clear_trace. exact Hrun.
  - intros k. unfold gen6_pte_at. simpl. rewrite Hpte, Hdm. reflexivity.
Qed.

Lemma gen6_insert_entries_spec ppgtt pages start cache_level flags :
  gen6_ppgtt_ok ppgtt -> 0 <= start ->
  start + Z.of_nat (length pages) * PAGE_SIZE <= total ppgtt ->
  exists pt tr,
    gen6_ppgtt_insert_entries ppgtt pages start cache_level flags
    = Some (gen6_set_pt_pages ppgtt pt, tr) /\
    gen6_ppgtt_ok (gen6_set_pt_pages ppgtt pt) /\
    kmap_one_at_a_time false tr = true /\
    forall k,
      gen6_pte_at (gen6_set_pt_pages ppgtt pt) k
      = if decide (start / PAGE_SIZE <= k
                   < start / PAGE_SIZE + Z.of_nat (length pages))
        then ((fun addr => fst (pte_encode ppgtt addr cache_level true flags))
                <$> pages) !! Z.to_nat (k - start / PAGE_SIZE)
        else gen6_pte_at ppgtt k.
Proof.
  intros (Hwf & Hlen & Hle & Htot) Hs Hin.
  rewrite Htot in Hin.
  destruct (div_page_le start (Z.of_nat (length pages) * PAGE_SIZE) _ Hs
              ltac:(unfold PAGE_SIZE; lia) Hin) as (Hq & Hn & Hqn).
  rewrite page_mul_div in Hqn.
  assert (HP : 0 < I915_PPGTT_PT_ENTRIES) by reflexivity.
  rewrite gen6_insert_entries_walk
    by (auto; change I915_PPGTT_PT_ENTRIES with 1024 in *;
        change GEN6_PPGTT_PD_ENTRIES with 512 in *; lia).
  pose proof (table_div_mod (start / PAGE_SIZE) _ HP) as Hdm.
  set (ptes := (fun addr => fst (pte_encode ppgtt addr cache_level true flags))
                 <$> pages).
  destruct (walk_insert_spec gen6_pt_get gen6_pt_set I915_PPGTT_PT_ENTRIES true
              gen6_pages_wf gen6_size HP gen6_get_is_Some gen6_get_length
              gen6_set_wf gen6_get_set_eq gen6_get_set_ne
              ptes (pt_pages ppgtt)
              (start / PAGE_SIZE / I915_PPGTT_PT_ENTRIES)
              (start / PAGE_SIZE mod I915_PPGTT_PT_ENTRIES) false)
    as (pt & tr & c & Hrun & Hwf' & Hsz' & Hpte);
    [exact Hwf|apply Z.div_pos; lia|apply Z.mod_pos_bound; lia
    |unfold gen6_size, ptes; rewrite Hdm, Hlen, length_fmap; lia|].
  rewrite Hrun. simpl. destruct c as [[a e] m]. simpl.
  eexists pt, _. split; [reflexivity|]. split; [|split].
  - unfold gen6_ppgtt_ok. simpl. unfold gen6_size in Hsz'.
    repeat split; auto; lia.
  - apply (walk_insert_trace _ _ _ _ _ _ _ _ _ _ _ _ Hrun).
  - intros k. unfold gen6_pte_at. simpl. rewrite Hpte, Hdm.
    unfold ptes. rewrite length_fmap. reflexivity.
Qed.

Lemma gen8_clear_range_spec hw ppgtt start length b :
  gen8_ppgtt_ok ppgtt -> 0 <= start < 2 ^ 32 -> 0 <= length ->
  start + length <= g8_total ppgtt ->
  exists pt tr,
    gen8_ppgtt_clear_range hw ppgtt start length b
    = Some (gen8_set_pt_pages ppgtt pt, tr) /\
    gen8_ppgtt_ok (gen8_set_pt_pages ppgtt pt) /\
    kmap_one_at_a_time false tr = true /\
    forall k,
      gen8_pte_at (gen8_set_pt_pages ppgtt pt) k
      = if decide (start / PAGE_SIZE <= k
                   < start / PAGE_SIZE + length / PAGE_SIZE)
        then Some (gen8_pte_encode hw (g8_scratch_addr ppgtt)
                     I915_CACHE_LLC b)
        else gen8_pte_at ppgtt k.
Proof.
  intros (Hwf & Hlen & Hle & Htot) Hs Hl Hin.
  rewrite Htot in Hin.
  destruct (div_page_le start length _ (proj1 Hs) Hl Hin) as (Hq & Hn & Hqn).
  assert (HP : 0 < GEN8_PTES_PER_PAGE) by reflexivity.
  rewrite gen8_clear_range_walk
    by (auto; change GEN8_PTES_PER_PAGE with 512 in *;
        change GEN8_PDES_PER_PAGE with 512 in *;
        change GEN8_LEGACY_PDPS with 4 in *; lia).
  pose proof (table_div_mod (start / PAGE_SIZE) _ HP) as Hdm.
  destruct (walk_clear_spec gen8_pt_get gen8_pt_set GEN8_PTES_PER_PAGE
              (g8_has_llc ppgtt)
              gen8_pages_wf gen8_size HP gen8_get_is_Some gen8_get_length
              gen8_set_wf gen8_get_set_eq gen8_get_set_ne
              (Z.to_nat (length / PAGE_SIZE)) (gen8_pt_pages ppgtt)
              (start / PAGE_SIZE / GEN8_PTES_PER_PAGE)
              (start / PAGE_SIZE mod GEN8_PTES_PER_PAGE)
              (length / PAGE_SIZE)
              (gen8_pte_encode hw (g8_scratch_addr ppgtt) I915_CACHE_LLC b))
    as (pt & tr & Hrun & Hwf' & Hsz' & Hpte);
    [exact Hwf|apply Z.div_pos; lia|apply Z.mod_pos_bound; lia|lia
    |unfold gen8_size; rewrite Hdm, Hlen; lia|lia|].
  exists pt, tr. rewrite Hrun. simpl. split; [reflexivity|].
  split; [|split].
  - unfold gen8_ppgtt_ok. simpl. unfold gen8_size in Hsz'.
    change GEN8_PDES_PER_PAGE with 512 in *.
    repeat split; auto; lia.
  - eapply walk_clear_trace. exact Hrun.
  - intros k. unfold gen8_pte_at. simpl. rewrite Hpte, Hdm. reflexivity.
Qed.

Lemma gen8_insert_entries_spec hw ppgtt pages start cache_level unused :
  gen8_ppgtt_ok ppgtt -> 0 <= start < 2 ^ 32 ->
  start + Z.of_nat (length pages) * PAGE_SIZE <= g8_total ppgtt ->
  exists pt tr,
    gen8_ppgtt_insert_entries hw ppgtt pages start cache_level unused
    = Some (gen8_set_pt_pages ppgtt pt, tr) /\
    gen8_ppgtt_ok (gen8_set_pt_pages ppgtt pt) /\
    kmap_one_at_a_time false tr = true /\
    forall k,
      gen8_pte_at (gen8_set_pt_pages ppgtt pt) k
      = if decide (start / PAGE_SIZE <= k
                   < start / PAGE_SIZE + Z.of_nat (length pages))
        then ((fun addr => gen8_pte_encode hw addr cache_level true)
                <$> pages) !! Z.to_nat (k - start / PAGE_SIZE)
        else gen8_pte_at ppgtt k.
Proof.
  intros (Hwf & Hlen & Hle & Htot) Hs Hin.
  rewrite Htot in Hin.
  destruct (div_page_le start (Z.of_nat (length pages) * PAGE_SIZE) _
              (proj1 Hs) ltac:(unfold PAGE_SIZE; lia) Hin) as (Hq & Hn & Hqn).
  rewrite page_mul_div in Hqn.
  assert (HP : 0 < GEN8_PTES_PER_PAGE) by reflexivity.
  rewrite gen8_insert_entries_walk
    by (auto; change GEN8_PTES_PER_PAGE with 512 in *;
        change GEN8_PDES_PER_PAGE with 512 in *;
        change GEN8_LEGACY_PDPS with 4 in *; lia).
  pose proof (table_div_mod (start / PAGE_SIZE) _ HP) as Hdm.
  set (ptes := (fun addr => gen8_pte_encode hw addr cache_level true)
                 <$> pages).
  destruct (walk_insert_spec gen8_pt_get gen8_pt_set GEN8_PTES_PER_PAGE
              (g8_has_llc ppgtt)
              gen8_pages_wf gen8_size HP gen8_get_is_Some gen8_get_length
              gen8_set_wf gen8_get_set_eq gen8_get_set_ne
              ptes (gen8_pt_pages ppgtt)
              (start / PAGE_SIZE / GEN8_PTES_PER_PAGE)
              (start / PAGE_SIZE mod GEN8_PTES_PER_PAGE) false)
    as (pt & tr & c & Hrun & Hwf' & Hsz' & Hpte);
    [exact Hwf|apply Z.div_pos; lia|apply Z.mod_pos_bound; lia
    |unfold gen8_size, ptes; rewrite Hdm, Hlen, length_fmap; lia|].
  rewrite Hrun. simpl. destruct c as [[a e] m]. simpl.
  eexists pt, _. split; [reflexivity|]. split; [|split].
  - unfold gen8_ppgtt_ok. simpl. unfold gen8_size in Hsz'.
    change GEN8_PDES_PER_PAGE with 512 in *.
    repeat split; auto; lia.
  - apply (walk_insert_trace _ _ _ _ _ _ _ _ _ _ _ _ Hrun).
  - intros k. unfold gen8_pte_at. simpl. rewrite Hpte, Hdm.
    unfold ptes. rewrite length_fmap. reflexivity.
Qed.

(** Equal entries make equal address spaces. *)
Lemma gen6_ppgtt_ext ppgtt pt1 pt2 :
  gen6_ppgtt_ok (gen6_set_pt_pages ppgtt pt1) ->
  gen6_ppgtt_ok (gen6_set_pt_pages ppgtt pt2) ->
  (forall k, 0 <= k < total ppgtt / PAGE_SIZE ->
     gen6_pte_at (gen6_set_pt_pages ppgtt pt1) k
     = gen6_pte_at (gen6_set_pt_pages ppgtt pt2) k) ->
  pt1 = pt2.
Proof.
  intros (Hwf1 & Hlen1 & _ & Htot) (Hwf2 & Hlen2 & _ & _) Hk. simpl in *.
  apply (store_ext_pte gen6_pt_get I915_PPGTT_PT_ENTRIES gen6_pages_wf
           gen6_size eq_refl gen6_get_is_Some gen6_get_length
           gen6_store_ext); auto.
  - unfold gen6_size. lia.
  - intros k Hkr. apply Hk. unfold gen6_size in Hkr.
    rewrite Htot, Z.div_mul by discriminate. lia.
Qed.

Lemma gen8_ppgtt_ext ppgtt pt1 pt2 :
  gen8_ppgtt_ok (gen8_set_pt_pages ppgtt pt1) ->
  gen8_ppgtt_ok (gen8_set_pt_pages ppgtt pt2) ->
  (forall k, 0 <= k < g8_total ppgtt / PAGE_SIZE ->
     gen8_pte_at (gen8_set_pt_pages ppgtt pt1) k
     = gen8_pte_at (gen8_set_pt_pages ppgtt pt2) k) ->
  pt1 = pt2.
Proof.
  intros (Hwf1 & Hlen1 & _ & Htot) (Hwf2 & Hlen2 & _ & _) Hk. simpl in *.
  apply (store_ext_pte gen8_pt_get GEN8_PTES_PER_PAGE gen8_pages_wf
           gen8_size eq_refl gen8_get_is_Some gen8_get_length
           gen8_store_ext); auto.
  - unfold gen8_size. lia.
  - intros k Hkr. apply Hk. unfold gen8_size in Hkr.
    rewrite Htot, Z.div_mul, <- Hlen1 by discriminate. lia.
Qed.

Lemma gen6_set_pt_pages_id ppgtt : gen6_set_pt_pages ppgtt (pt_pages ppgtt) = ppgtt.
Proof. now destruct ppgtt. Qed.

Lemma gen8_set_pt_pages_id ppgtt :
  gen8_set_pt_pages ppgtt (gen8_pt_pages ppgtt) = ppgtt.
Proof. now destruct ppgtt. Qed.

(** ** Round trip and split of the PPGTT range operations *)

Lemma demo_gen6_ok : gen6_ppgtt_ok demo_gen6.
Proof.
  split; [|split; [|split]].
  - unfold gen6_pages_wf. cbn [pt_pages demo_gen6].
    apply Forall_replicate. now rewrite length_replicate.
  - reflexivity.
  - now vm_compute.
  - reflexivity.
Qed.

Lemma demo_gen8_ok : gen8_ppgtt_ok demo_gen8.
Proof.
  split; [|split; [|split]].
  - unfold gen8_pages_wf. cbn [gen8_pt_pages demo_gen8].
    constructor; [|constructor]. split.
    + now rewrite length_replicate.
    + apply Forall_replicate. now rewrite length_replicate.
  - reflexivity.
  - now vm_compute.
  - reflexivity.
Qed.

Lemma gen6_insert_then_clear ppgtt pages start cache_level flags :
  gen6_ppgtt_ok ppgtt -> 0 <= start ->
  start + Z.of_nat (length pages) * PAGE_SIZE <= total ppgtt ->
  exists p1 tr1 p2 tr2,
    gen6_ppgtt_insert_entries ppgtt pages start cache_level flags
    = Some (p1, tr1) /\
    gen6_ppgtt_clear_range p1 start (Z.of_nat (length pages) * PAGE_SIZE) true
    = Some (p2, tr2) /\
    (forall k, gen6_pte_at p2 k
               = if decide (start / PAGE_SIZE <= k
                            < start / PAGE_SIZE + Z.of_nat (length pages))
                 then Some (gen6_scratch_pte ppgtt)
                 else gen6_pte_at ppgtt k) /\
    ((forall k, start / PAGE_SIZE <= k
                < start / PAGE_SIZE + Z.of_nat (length pages) ->
        gen6_pte_at ppgtt k = Some (gen6_scratch_pte ppgtt)) ->
     p2 = ppgtt).
Proof.
  intros Hok Hs Hin.
  destruct (gen6_insert_entries_spec ppgtt pages start cache_level flags
              Hok Hs Hin) as (pt1 & tr1 & Hins & Hok1 & _ & Hpte1).
  destruct (gen6_clear_range_spec (gen6_set_pt_pages ppgtt pt1) start
              (Z.of_nat (length pages) * PAGE_SIZE) true Hok1 Hs
              ltac:(unfold PAGE_SIZE; lia) Hin)
    as (pt2 & tr2 & Hclr & Hok2 & _ & Hpte2).
  change (gen6_set_pt_pages (gen6_set_pt_pages ppgtt pt1) pt2)
    with (gen6_set_pt_pages ppgtt pt2) in *.
  change (gen6_scratch_pte (gen6_set_pt_pages ppgtt pt1))
    with (gen6_scratch_pte ppgtt) in *.
  rewrite page_mul_div in Hpte2.
  assert (Hfin : forall k,
    gen6_pte_at (gen6_set_pt_pages ppgtt pt2) k
    = if decide (start / PAGE_SIZE <= k
                 < start / PAGE_SIZE + Z.of_nat (length pages))
      then Some (gen6_scratch_pte ppgtt) else gen6_pte_at ppgtt k).
  { intros k. rewrite Hpte2, Hpte1. now destruct (decide _). }
  exists (gen6_set_pt_pages ppgtt pt1), tr1, (gen6_set_pt_pages ppgtt pt2), tr2.
  split; [exact Hins|]. split; [exact Hclr|]. split; [exact Hfin|].
  intros Hscr.
  rewrite <- (gen6_set_pt_pages_id ppgtt) at 2. f_equal.
  apply (gen6_ppgtt_ext ppgtt); [exact Hok2|now rewrite gen6_set_pt_pages_id|].
  intros k _. rewrite Hfin, gen6_set_pt_pages_id.
  destruct (decide _) as [Hk|]; [|reflexivity]. symmetry. now apply Hscr.
Qed.

Lemma gen8_insert_then_clear hw ppgtt pages start cache_level unused :
  gen8_ppgtt_ok ppgtt -> 0 <= start < 2 ^ 32 ->
  start + Z.of_nat (length pages) * PAGE_SIZE <= g8_total ppgtt ->
  exists p1 tr1 p2 tr2,
    gen8_ppgtt_insert_entries hw ppgtt pages start cache_level unused
    = Some (p1, tr1) /\
    gen8_ppgtt_clear_range hw p1 start (Z.of_nat (length pages) * PAGE_SIZE)
      true
    = Some (p2, tr2) /\
    (forall k, gen8_pte_at p2 k
               = if decide (start / PAGE_SIZE <= k
                            < start / PAGE_SIZE + Z.of_nat (length pages))
                 then Some (gen8_scratch_pte hw ppgtt)
                 else gen8_pte_at ppgtt k) /\
    ((forall k, start / PAGE_SIZE <= k
                < start / PAGE_SIZE + Z.of_nat (length pages) ->
        gen8_pte_at ppgtt k = Some (gen8_scratch_pte hw ppgtt)) ->
     p2 = ppgtt).
Proof.
  intros Hok Hs Hin.
  destruct (gen8_insert_entries_spec hw ppgtt pages start cache_level unused
              Hok Hs Hin) as (pt1 & tr1 & Hins & Hok1 & _ & Hpte1).
  destruct (gen8_clear_range_spec hw (gen8_set_pt_pages ppgtt pt1) start
              (Z.of_nat (length pages) * PAGE_SIZE) true Hok1 Hs
              ltac:(unfold PAGE_SIZE; lia) Hin)
    as (pt2 & tr2 & Hclr & Hok2 & _ & Hpte2).
  change (gen8_set_pt_pages (gen8_set_pt_pages ppgtt pt1) pt2)
    with (gen8_set_pt_pages ppgtt pt2) in *.
  change (g8_scratch_addr (gen8_set_pt_pages ppgtt pt1))
    with (g8_scratch_addr ppgtt) in *.
  rewrite page_mul_div in Hpte2.
  assert (Hfin : forall k,
    gen8_pte_at (gen8_set_pt_pages ppgtt pt2) k
    = if decide (start / PAGE_SIZE <= k
                 < start / PAGE_SIZE + Z.of_nat (length pages))
      then Some (gen8_scratch_pte hw ppgtt) else gen8_pte_at ppgtt k).
  { intros k. rewrite Hpte2, Hpte1. now destruct (decide _). }
  exists (gen8_set_pt_pages ppgtt pt1), tr1, (gen8_set_pt_pages ppgtt pt2), tr2.
  split; [exact Hins|]. split; [exact Hclr|]. split; [exact Hfin|].
  intros Hscr.
  rewrite <- (gen8_set_pt_pages_id ppgtt) at 2. f_equal.
  apply (gen8_ppgtt_ext ppgtt); [exact Hok2|now rewrite gen8_set_pt_pages_id|].
  intros k _. rewrite Hfin, gen8_set_pt_pages_id.
  destruct (decide _) as [Hk|]; [|reflexivity]. symmetry. now apply Hscr.
Qed.

(** C3: in a gen6 and in a gen8 PPGTT, for every page list and every start
    offset such that the pages fit in the address space, [insert_entries]
    followed by [clear_range] over the same range with [use_scratch = true]
    succeeds and leaves every covered entry equal to the valid encoding of
    the scratch page, every other entry as it was; if the covered entries
    held the scratch encoding before the insert, the address space is back
    in the state it had before. *)
Theorem ppgtt_insert_then_clear_restores_scratch :
  (forall ppgtt pages start cache_level flags,
     gen6_ppgtt_ok ppgtt -> 0 <= start ->
     start + Z.of_nat (length pages) * PAGE_SIZE <= total ppgtt ->
     exists p1 tr1 p2 tr2,
       gen6_ppgtt_insert_entries ppgtt pages start cache_level flags
       = Some (p1, tr1) /\
       gen6_ppgtt_clear_range p1 start
         (Z.of_nat (length pages) * PAGE_SIZE) true
       = Some (p2, tr2) /\
       (forall k, gen6_pte_at p2 k
                  = if decide (start / PAGE_SIZE <= k
                               < start / PAGE_SIZE + Z.of_nat (length pages))
                    then Some (fst (pte_encode ppgtt (scratch_addr ppgtt)
                                      I915_CACHE_LLC true 0))
                    else gen6_pte_at ppgtt k) /\
       ((forall k, start / PAGE_SIZE <= k
                   < start / PAGE_SIZE + Z.of_nat (length pages) ->
           gen6_pte_at ppgtt k
           = Some (fst (pte_encode ppgtt (scratch_addr ppgtt)
                          I915_CACHE_LLC true 0))) ->
        p2 = ppgtt)) /\
  (forall hw ppgtt pages start cache_level unused,
     gen8_ppgtt_ok ppgtt -> 0 <= start < 2 ^ 32 ->
     start + Z.of_nat (length pages) * PAGE_SIZE <= g8_total ppgtt ->
     exists p1 tr1 p2 tr2,
       gen8_ppgtt_insert_entries hw ppgtt pages start cache_level unused
       = Some (p1, tr1) /\
       gen8_ppgtt_clear_range hw p1 start
         (Z.of_nat (length pages) * PAGE_SIZE) true
       = Some (p2, tr2) /\
       (forall k, gen8_pte_at p2 k
                  = if decide (start / PAGE_SIZE <= k
                               < start / PAGE_SIZE + Z.of_nat (length pages))
                    then Some (gen8_pte_encode hw (g8_scratch_addr ppgtt)
                                 I915_CACHE_LLC true)
                    else gen8_pte_at ppgtt k) /\
       ((forall k, start / PAGE_SIZE <= k
                   < start / PAGE_SIZE + Z.of_nat (length pages) ->
           gen8_pte_at ppgtt k
           = Some (gen8_pte_encode hw (g8_scratch_addr ppgtt)
                     I915_CACHE_LLC true)) ->
        p2 = ppgtt)).
Proof.
  split.
  - intros. now apply gen6_insert_then_clear.
  - intros. now apply gen8_insert_then_clear.
Qed.

Lemma ppgtt_insert_then_clear_restores_scratch_witness :
  gen6_ppgtt_ok demo_gen6 /\ 0 <= 4186112 /\
  4186112 + Z.of_nat (length demo_pages) * PAGE_SIZE <= total demo_gen6 /\
  exists p1 tr1 p2 tr2,
    gen6_ppgtt_insert_entries demo_gen6 demo_pages 4186112 I915_CACHE_LLC 0
    = Some (p1, tr1) /\
    gen6_ppgtt_clear_range p1 4186112
      (Z.of_nat (length demo_pages) * PAGE_SIZE) true
    = Some (p2, tr2) /\
    gen6_pte_at p2 1023
    = Some (fst (pte_encode demo_gen6 (scratch_addr demo_gen6)
                   I915_CACHE_LLC true 0)).
Proof.
  assert (H1 : 0 <= 4186112) by lia.
  assert (H2 : 4186112 + Z.of_nat (length demo_pages) * PAGE_SIZE
               <= total demo_gen6) by (vm_compute; discriminate).
  split; [exact demo_gen6_ok|]. split; [exact H1|]. split; [exact H2|].
  destruct (proj1 ppgtt_insert_then_clear_restores_scratch demo_gen6
              demo_pages 4186112 I915_CACHE_LLC 0 demo_gen6_ok H1 H2)
    as (p1 & tr1 & p2 & tr2 & Hins & Hclr & Hpte & _).
  exists p1, tr1, p2, tr2. split; [exact Hins|]. split; [exact Hclr|].
  rewrite Hpte. reflexivity.
Defined.

(** ** Splitting a range at a table boundary *)

Lemma boundary_slot first n P :
  0 < P -> (first + n) mod P = 0 -> (first mod P + n) mod P = 0.
Proof.
  intros HP H. rewrite <- H.
  rewrite (Z.div_mod first P) at 2 by lia.
  replace (P * (first / P) + first mod P + n)
    with (first mod P + n + first / P * P) by lia.
  now rewrite Z.mod_add by lia.
Qed.

Lemma gen6_clear_range_split ppgtt first n1 n2 b :
  gen6_ppgtt_ok ppgtt -> 0 <= first -> 0 < n1 -> 0 <= n2 ->
  (first + n1) mod I915_PPGTT_PT_ENTRIES = 0 ->
  (first + n1 + n2) * PAGE_SIZE <= total ppgtt ->
  exists p1 tr1 p2 tr2,
    gen6_ppgtt_clear_range ppgtt (first * PAGE_SIZE) (n1 * PAGE_SIZE) b
    = Some (p1, tr1) /\
    gen6_ppgtt_clear_range p1 ((first + n1) * PAGE_SIZE) (n2 * PAGE_SIZE) b
    = Some (p2, tr2) /\
    gen6_ppgtt_clear_range ppgtt (first * PAGE_SIZE)
      ((n1 + n2) * PAGE_SIZE) b
    = Some (p2, tr1 ++ tr2) /\
    kmap_one_at_a_time false (tr1 ++ tr2) = true.
Proof.
  intros (Hwf & Hlen & Hle & Htot) Hf Hn1 Hn2 Hb Hin.
  assert (HP : 0 < I915_PPGTT_PT_ENTRIES) by reflexivity.
  pose proof (table_div_mod first _ HP) as Hdm.
  assert (Hsp : first + n1 + n2
                <= num_pd_entries ppgtt * I915_PPGTT_PT_ENTRIES)
    by (rewrite Htot in Hin; unfold PAGE_SIZE in Hin; lia).
  assert (Hbig : num_pd_entries ppgtt * I915_PPGTT_PT_ENTRIES < 2 ^ 32)
    by (change I915_PPGTT_PT_ENTRIES with 1024;
        change GEN6_PPGTT_PD_ENTRIES with 512 in Hle; lia).
  destruct (walk_clear_split_ok gen6_pt_get gen6_pt_set I915_PPGTT_PT_ENTRIES
              true gen6_pages_wf gen6_size HP gen6_get_is_Some
              gen6_get_length gen6_set_wf gen6_get_set_eq gen6_get_set_ne
              (pt_pages ppgtt) (first / I915_PPGTT_PT_ENTRIES)
              (first mod I915_PPGTT_PT_ENTRIES) n1 n2
              (gen6_scratch_pte ppgtt))
    as (s1 & tr1 & s2 & tr2 & Hrun1 & Hrun2 & Hrun & Htr & _);
    [exact Hwf|apply Z.div_pos; lia|apply Z.mod_pos_bound; lia|lia|lia
    |now apply boundary_slot|unfold gen6_size; rewrite Hdm, Hlen; lia|].
  rewrite Hdm in Hrun2.
  exists (gen6_set_pt_pages ppgtt s1), tr1, (gen6_set_pt_pages ppgtt s2), tr2.
  rewrite !gen6_clear_range_walk
    by (rewrite ?page_mul_div; unfold PAGE_SIZE; lia).
  rewrite !page_mul_div. cbn [pt_pages gen6_set_pt_pages].
  change (gen6_scratch_pte (gen6_set_pt_pages ppgtt s1))
    with (gen6_scratch_pte ppgtt).
  rewrite Hb, Hrun1, Hrun2, Hrun. auto.
Qed.

Lemma gen6_insert_entries_split ppgtt pages1 pages2 first cache_level flags :
  gen6_ppgtt_ok ppgtt -> 0 <= first -> pages1 <> [] ->
  (first + Z.of_nat (length pages1)) mod I915_PPGTT_PT_ENTRIES = 0 ->
  (first + Z.of_nat (length pages1) + Z.of_nat (length pages2)) * PAGE_SIZE
  <= total ppgtt ->
  exists p1 tr1 p2 tr2,
    gen6_ppgtt_insert_entries ppgtt pages1 (first * PAGE_SIZE) cache_level
      flags
    = Some (p1, tr1) /\
    gen6_ppgtt_insert_entries p1 pages2
      ((first + Z.of_nat (length pages1)) * PAGE_SIZE) cache_level flags
    = Some (p2, tr2) /\
    gen6_ppgtt_insert_entries ppgtt (pages1 ++ pages2) (first * PAGE_SIZE)
      cache_level flags
    = Some (p2, tr1 ++ tr2) /\
    kmap_one_at_a_time false (tr1 ++ tr2) = true.
Proof.
  intros Hok Hf Hne Hb Hin.
  pose proof Hok as (Hwf & Hlen & Hle & Htot).
  assert (HP : 0 < I915_PPGTT_PT_ENTRIES) by reflexivity.
  pose proof (table_div_mod first _ HP) as Hdm.
  assert (Hsp : first + Z.of_nat (length pages1) + Z.of_nat (length pages2)
                <= num_pd_entries ppgtt * I915_PPGTT_PT_ENTRIES)
    by (rewrite Htot in Hin; unfold PAGE_SIZE in Hin; lia).
  assert (Hbig : num_pd_entries ppgtt * I915_PPGTT_PT_ENTRIES < 2 ^ 32)
    by (change I915_PPGTT_PT_ENTRIES with 1024;
        change GEN6_PPGTT_PD_ENTRIES with 512 in Hle; lia).
  set (enc := fun addr => fst (pte_encode ppgtt addr cache_level true flags)).
  destruct (walk_insert_split_ok gen6_pt_get gen6_pt_set I915_PPGTT_PT_ENTRIES
              true gen6_pages_wf gen6_size HP gen6_get_is_Some
              gen6_get_length gen6_set_wf gen6_get_set_eq gen6_get_set_ne
              (enc <$> pages1) (enc <$> pages2)
              (pt_pages ppgtt) (first / I915_PPGTT_PT_ENTRIES)
              (first mod I915_PPGTT_PT_ENTRIES))
    as (s1 & tr1 & s2 & tr2 & c2 & Hrun1 & Hrun2 & Hrun & _);
    [exact Hwf|apply Z.div_pos; lia|apply Z.mod_pos_bound; lia
    |destruct pages1; [contradiction|discriminate]
    |rewrite length_fmap; now apply boundary_slot
    |unfold gen6_size; rewrite !length_fmap, Hdm, Hlen; lia|].
  rewrite !length_fmap, Hdm in *. rewrite <- fmap_app in Hrun.
  destruct (gen6_insert_entries_spec ppgtt (pages1 ++ pages2)
              (first * PAGE_SIZE) cache_level flags Hok
              ltac:(unfold PAGE_SIZE; lia)
              ltac:(rewrite length_app; unfold PAGE_SIZE in *; lia))
    as (ptw & trw & Hw & _ & Htrw & _).
  destruct c2 as [[a2 e2] m2].
  exists (gen6_set_pt_pages ppgtt s1), (tr1 ++ []),
    (gen6_set_pt_pages ppgtt s2),
    (tr2 ++ (if m2 then clflush_unless true ++ [Kunmap] else [])).
  revert Hw.
  rewrite !gen6_insert_entries_walk
    by (rewrite ?page_mul_div, ?length_app; unfold PAGE_SIZE; lia).
  rewrite !page_mul_div. cbn [pt_pages pte_encode gen6_set_pt_pages].
  fold enc. rewrite Hb, Hrun1, Hrun2, Hrun. simpl.
  intros [= <- <-].
  split; [reflexivity|]. split; [reflexivity|].
  rewrite app_nil_r, app_assoc. split; [reflexivity|exact Htrw].
Qed.

Lemma gen8_space_bound ppgtt :
  gen8_ppgtt_ok ppgtt ->
  g8_num_pd_entries ppgtt * GEN8_PTES_PER_PAGE <= 2 ^ 20.
Proof.
  intros (_ & Hlen & Hle & _). rewrite <- Hlen.
  change GEN8_PDES_PER_PAGE with 512. change GEN8_PTES_PER_PAGE with 512.
  change GEN8_LEGACY_PDPS with 4 in Hle. lia.
Qed.

Lemma gen8_clear_range_split hw ppgtt first n1 n2 b :
  gen8_ppgtt_ok ppgtt -> 0 <= first -> 0 < n1 -> 0 < n2 ->
  (first + n1) mod GEN8_PTES_PER_PAGE = 0 ->
  (first + n1 + n2) * PAGE_SIZE <= g8_total ppgtt ->
  exists p1 tr1 p2 tr2,
    gen8_ppgtt_clear_range hw ppgtt (first * PAGE_SIZE) (n1 * PAGE_SIZE) b
    = Some (p1, tr1) /\
    gen8_ppgtt_clear_range hw p1 ((first + n1) * PAGE_SIZE) (n2 * PAGE_SIZE) b
    = Some (p2, tr2) /\
    gen8_ppgtt_clear_range hw ppgtt (first * PAGE_SIZE)
      ((n1 + n2) * PAGE_SIZE) b
    = Some (p2, tr1 ++ tr2) /\
    kmap_one_at_a_time false (tr1 ++ tr2) = true.
Proof.
  intros Hok Hf Hn1 Hn2 Hb Hin.
  pose proof (gen8_space_bound ppgtt Hok) as Hbig.
  destruct Hok as (Hwf & Hlen & Hle & Htot).
  assert (HP : 0 < GEN8_PTES_PER_PAGE) by reflexivity.
  pose proof (table_div_mod first _ HP) as Hdm.
  assert (Hsp : first + n1 + n2
                <= g8_num_pd_entries ppgtt * GEN8_PTES_PER_PAGE)
    by (rewrite Htot in Hin; unfold PAGE_SIZE in Hin; lia).
  destruct (walk_clear_split_ok gen8_pt_get gen8_pt_set GEN8_PTES_PER_PAGE
              (g8_has_llc ppgtt) gen8_pages_wf gen8_size HP gen8_get_is_Some
              gen8_get_length gen8_set_wf gen8_get_set_eq gen8_get_set_ne
              (gen8_pt_pages ppgtt) (first / GEN8_PTES_PER_PAGE)
              (first mod GEN8_PTES_PER_PAGE) n1 n2
              (gen8_pte_encode hw (g8_scratch_addr ppgtt) I915_CACHE_LLC b))
    as (s1 & tr1 & s2 & tr2 & Hrun1 & Hrun2 & Hrun & Htr & _);
    [exact Hwf|apply Z.div_pos; lia|apply Z.mod_pos_bound; lia|lia|lia
    |now apply boundary_slot|unfold gen8_size; rewrite Hdm, Hlen; lia|].
  rewrite Hdm in Hrun2.
  exists (gen8_set_pt_pages ppgtt s1), tr1, (gen8_set_pt_pages ppgtt s2), tr2.
  rewrite !gen8_clear_range_walk
    by (rewrite ?page_mul_div;
        change (GEN8_LEGACY_PDPS * GEN8_PDES_PER_PAGE * GEN8_PTES_PER_PAGE)
          with (2 ^ 20);
        unfold PAGE_SIZE; lia).
  rewrite !page_mul_div.
  cbn [gen8_pt_pages g8_has_llc g8_scratch_addr gen8_set_pt_pages].
  rewrite Hb, Hrun1, Hrun2, Hrun. auto.
Qed.

Lemma gen8_insert_entries_split hw ppgtt pages1 pages2 first cache_level
    unused :
  gen8_ppgtt_ok ppgtt -> 0 <= first -> pages1 <> [] -> pages2 <> [] ->
  (first + Z.of_nat (length pages1)) mod GEN8_PTES_PER_PAGE = 0 ->
  (first + Z.of_nat (length pages1) + Z.of_nat (length pages2)) * PAGE_SIZE
  <= g8_total ppgtt ->
  exists p1 tr1 p2 tr2,
    gen8_ppgtt_insert_entries hw ppgtt pages1 (first * PAGE_SIZE) cache_level
      unused
    = Some (p1, tr1) /\
    gen8_ppgtt_insert_entries hw p1 pages2
      ((first + Z.of_nat (length pages1)) * PAGE_SIZE) cache_level unused
    = Some (p2, tr2) /\
    gen8_ppgtt_insert_entries hw ppgtt (pages1 ++ pages2) (first * PAGE_SIZE)
      cache_level unused
    = Some (p2, tr1 ++ tr2) /\
    kmap_one_at_a_time false (tr1 ++ tr2) = true.
Proof.
  intros Hok Hf Hne Hne2 Hb Hin.
  pose proof (gen8_space_bound ppgtt Hok) as Hbig.
  pose proof Hok as (Hwf & Hlen & Hle & Htot).
  assert (HP : 0 < GEN8_PTES_PER_PAGE) by reflexivity.
  pose proof (table_div_mod first _ HP) as Hdm.
  assert (Hl2 : 0 < Z.of_nat (length pages2))
    by (destruct pages2; [contradiction|simpl; lia]).
  assert (Hsp : first + Z.of_nat (length pages1) + Z.of_nat (length pages2)
                <= g8_num_pd_entries ppgtt * GEN8_PTES_PER_PAGE)
    by (rewrite Htot in Hin; unfold PAGE_SIZE in Hin; lia).
  set (enc := fun addr => gen8_pte_encode hw addr cache_level true).
  destruct (walk_insert_split_ok gen8_pt_get gen8_pt_set GEN8_PTES_PER_PAGE
              (g8_has_llc ppgtt) gen8_pages_wf gen8_size HP gen8_get_is_Some
              gen8_get_length gen8_set_wf gen8_get_set_eq gen8_get_set_ne
              (enc <$> pages1) (enc <$> pages2)
              (gen8_pt_pages ppgtt) (first / GEN8_PTES_PER_PAGE)
              (first mod GEN8_PTES_PER_PAGE))
    as (s1 & tr1 & s2 & tr2 & c2 & Hrun1 & Hrun2 & Hrun & _);
    [exact Hwf|apply Z.div_pos; lia|apply Z.mod_pos_bound; lia
    |destruct pages1; [contradiction|discriminate]
    |rewrite length_fmap; now apply boundary_slot
    |unfold gen8_size; rewrite !length_fmap, Hdm, Hlen; lia|].
  rewrite !length_fmap, Hdm in *. rewrite <- fmap_app in Hrun.
  destruct (gen8_insert_entries_spec hw ppgtt (pages1 ++ pages2)
              (first * PAGE_SIZE) cache_level unused Hok
              ltac:(unfold PAGE_SIZE; lia)
              ltac:(rewrite length_app; unfold PAGE_SIZE in *; lia))
    as (ptw & trw & Hw & _ & Htrw & _).
  destruct c2 as [[a2 e2] m2].
  exists (gen8_set_pt_pages ppgtt s1), (tr1 ++ []),
    (gen8_set_pt_pages ppgtt s2),
    (tr2 ++ (if m2 then clflush_unless (g8_has_llc ppgtt) ++ [Kunmap]
             else [])).
  revert Hw.
  rewrite !gen8_insert_entries_walk
    by (rewrite ?page_mul_div, ?length_app;
        change (GEN8_LEGACY_PDPS * GEN8_PDES_PER_PAGE * GEN8_PTES_PER_PAGE)
          with (2 ^ 20);
        unfold PAGE_SIZE; lia).
  rewrite !page_mul_div.
  cbn [gen8_pt_pages g8_has_llc gen8_set_pt_pages].
  fold enc. rewrite Hb, Hrun1, Hrun2, Hrun. simpl.
  intros [= <- <-].
  split; [reflexivity|]. split; [reflexivity|].
  rewrite app_nil_r, app_assoc. split; [reflexivity|exact Htrw].
Qed.

(** C4: a range that crosses a table boundary, handled in one call or in two
    calls split exactly at the boundary, gives the same address space, and
    the same sequence of page maps and unmaps; in that sequence a table page
    is mapped only while no other one is.  For [clear_range] and
    [insert_entries], gen6 and gen8; ranges are given in pages. *)
Theorem ppgtt_range_ops_split_at_table_boundary :
  (forall ppgtt first n1 n2 b,
     gen6_ppgtt_ok ppgtt -> 0 <= first -> 0 < n1 -> 0 < n2 ->
     (first + n1) mod I915_PPGTT_PT_ENTRIES = 0 ->
     (first + n1 + n2) * PAGE_SIZE <= total ppgtt ->
     exists p1 tr1 p2 tr2,
       gen6_ppgtt_clear_range ppgtt (first * PAGE_SIZE) (n1 * PAGE_SIZE) b
       = Some (p1, tr1) /\
       gen6_ppgtt_clear_range p1 ((first + n1) * PAGE_SIZE) (n2 * PAGE_SIZE) b
       = Some (p2, tr2) /\
       gen6_ppgtt_clear_range ppgtt (first * PAGE_SIZE)
         ((n1 + n2) * PAGE_SIZE) b
       = Some (p2, tr1 ++ tr2) /\
       kmap_one_at_a_time false (tr1 ++ tr2) = true) /\
  (forall ppgtt pages1 pages2 first cache_level flags,
     gen6_ppgtt_ok ppgtt -> 0 <= first -> pages1 <> [] -> pages2 <> [] ->
     (first + Z.of_nat (length pages1)) mod I915_PPGTT_PT_ENTRIES = 0 ->
     (first + Z.of_nat (length pages1) + Z.of_nat (length pages2)) * PAGE_SIZE
     <= total ppgtt ->
     exists p1 tr1 p2 tr2,
       gen6_ppgtt_insert_entries ppgtt pages1 (first * PAGE_SIZE) cache_level
         flags
       = Some (p1, tr1) /\
       gen6_ppgtt_insert_entries p1 pages2
         ((first + Z.of_nat (length pages1)) * PAGE_SIZE) cache_level flags
       = Some (p2, tr2) /\
       gen6_ppgtt_insert_entries ppgtt (pages1 ++ pages2) (first * PAGE_SIZE)
         cache_level flags
       = Some (p2, tr1 ++ tr2) /\
       kmap_one_at_a_time false (tr1 ++ tr2) = true) /\
  (forall hw ppgtt first n1 n2 b,
     gen8_ppgtt_ok ppgtt -> 0 <= first -> 0 < n1 -> 0 < n2 ->
     (first + n1) mod GEN8_PTES_PER_PAGE = 0 ->
     (first + n1 + n2) * PAGE_SIZE <= g8_total ppgtt ->
     exists p1 tr1 p2 tr2,
       gen8_ppgtt_clear_range hw ppgtt (first * PAGE_SIZE) (n1 * PAGE_SIZE) b
       = Some (p1, tr1) /\
       gen8_ppgtt_clear_range hw p1 ((first + n1) * PAGE_SIZE)
         (n2 * PAGE_SIZE) b
       = Some (p2, tr2) /\
       gen8_ppgtt_clear_range hw ppgtt (first * PAGE_SIZE)
         ((n1 + n2) * PAGE_SIZE) b
       = Some (p2, tr1 ++ tr2) /\
       kmap_one_at_a_time false (tr1 ++ tr2) = true) /\
  (forall hw ppgtt pages1 pages2 first cache_level unused,
     gen8_ppgtt_ok ppgtt -> 0 <= first -> pages1 <> [] -> pages2 <> [] ->
     (first + Z.of_nat (length pages1)) mod GEN8_PTES_PER_PAGE = 0 ->
     (first + Z.of_nat (length pages1) + Z.of_nat (length pages2)) * PAGE_SIZE
     <= g8_total ppgtt ->
     exists p1 tr1 p2 tr2,
       gen8_ppgtt_insert_entries hw ppgtt pages1 (first * PAGE_SIZE)
         cache_level unused
       = Some (p1, tr1) /\
       gen8_ppgtt_insert_entries hw p1 pages2
         ((first + Z.of_nat (length pages1)) * PAGE_SIZE) cache_level unused
       = Some (p2, tr2) /\
       gen8_ppgtt_insert_entries hw ppgtt (pages1 ++ pages2)
         (first * PAGE_SIZE) cache_level unused
       = Some (p2, tr1 ++ tr2) /\
       kmap_one_at_a_time false (tr1 ++ tr2) = true).
Proof.
  split; [|split; [|split]].
  - intros. apply gen6_clear_range_split; auto; lia.
  - intros. now apply gen6_insert_entries_split.
  - intros. now apply gen8_clear_range_split.
  - intros. now apply gen8_insert_entries_split.
Qed.

Lemma ppgtt_range_ops_split_at_table_boundary_witness :
  gen6_ppgtt_ok demo_gen6 /\
  (1022 + Z.of_nat (length (take 2 demo_pages))) mod I915_PPGTT_PT_ENTRIES = 0
  /\
  exists p1 tr1 p2 tr2,
    gen6_ppgtt_insert_entries demo_gen6 (take 2 demo_pages)
      (1022 * PAGE_SIZE) I915_CACHE_LLC 0
    = Some (p1, tr1) /\
    gen6_ppgtt_insert_entries p1 (drop 2 demo_pages)
      ((1022 + Z.of_nat (length (take 2 demo_pages))) * PAGE_SIZE)
      I915_CACHE_LLC 0
    = Some (p2, tr2) /\
    gen6_ppgtt_insert_entries demo_gen6
      (take 2 demo_pages ++ drop 2 demo_pages) (1022 * PAGE_SIZE)
      I915_CACHE_LLC 0
    = Some (p2, tr1 ++ tr2) /\
    kmap_one_at_a_time false (tr1 ++ tr2) = true.
Proof.
  split; [exact demo_gen6_ok|]. split; [reflexivity|].
  apply (proj1 (proj2 ppgtt_range_ops_split_at_table_boundary)).
  - exact demo_gen6_ok.
  - lia.
  - discriminate.
  - discriminate.
  - reflexivity.
  - vm_compute. discriminate.
Defined.

(** ** Unbinding twice *)

Lemma gen6_clear_range_twice ppgtt start length :
  gen6_ppgtt_ok ppgtt -> 0 <= start -> 0 <= length ->
  start + length <= total ppgtt ->
  exists p1 tr1 tr2,
    gen6_ppgtt_clear_range ppgtt start length true = Some (p1, tr1) /\
    gen6_ppgtt_clear_range p1 start length true = Some (p1, tr2) /\
    gen6_ppgtt_ok p1 /\
    forall k,
      gen6_pte_at p1 k
      = if decide (start / PAGE_SIZE <= k
                   < start / PAGE_SIZE + length / PAGE_SIZE)
        then Some (gen6_scratch_pte ppgtt) else gen6_pte_at ppgtt k.
Proof.
  intros Hok Hs Hl Hin.
  destruct (gen6_clear_range_spec ppgtt start length true Hok Hs Hl Hin)
    as (pt1 & tr1 & Hc1 & Hok1 & _ & Hpte1).
  destruct (gen6_clear_range_spec (gen6_set_pt_pages ppgtt pt1) start length
              true Hok1 Hs Hl Hin) as (pt2 & tr2 & Hc2 & Hok2 & _ & Hpte2).
  change (gen6_set_pt_pages (gen6_set_pt_pages ppgtt pt1) pt2)
    with (gen6_set_pt_pages ppgtt pt2) in *.
  change (gen6_scratch_pte (gen6_set_pt_pages ppgtt pt1))
    with (gen6_scratch_pte ppgtt) in *.
  assert (pt2 = pt1) as ->.
  { apply (gen6_ppgtt_ext ppgtt); auto.
    intros k _. rewrite Hpte2, Hpte1. now destruct (decide _). }
  eauto 12.
Qed.

Lemma gen8_clear_range_twice hw ppgtt start length :
  gen8_ppgtt_ok ppgtt -> 0 <= start < 2 ^ 32 -> 0 <= length ->
  start + length <= g8_total ppgtt ->
  exists p1 tr1 tr2,
    gen8_ppgtt_clear_range hw ppgtt start length true = Some (p1, tr1) /\
    gen8_ppgtt_clear_range hw p1 start length true = Some (p1, tr2) /\
    gen8_ppgtt_ok p1 /\
    forall k,
      gen8_pte_at p1 k
      = if decide (start / PAGE_SIZE <= k
                   < start / PAGE_SIZE + length / PAGE_SIZE)
        then Some (gen8_scratch_pte hw ppgtt) else gen8_pte_at ppgtt k.
Proof.
  intros Hok Hs Hl Hin.
  destruct (gen8_clear_range_spec hw ppgtt start length true Hok Hs Hl Hin)
    as (pt1 & tr1 & Hc1 & Hok1 & _ & Hpte1).
  destruct (gen8_clear_range_spec hw (gen8_set_pt_pages ppgtt pt1) start length
              true Hok1 Hs Hl Hin) as (pt2 & tr2 & Hc2 & Hok2 & _ & Hpte2).
  change (gen8_set_pt_pages (gen8_set_pt_pages ppgtt pt1) pt2)
    with (gen8_set_pt_pages ppgtt pt2) in *.
  change (g8_scratch_addr (gen8_set_pt_pages ppgtt pt1))
    with (g8_scratch_addr ppgtt) in *.
  assert (pt2 = pt1) as ->.
  { apply (gen8_ppgtt_ext ppgtt); auto.
    intros k _. rewrite Hpte2, Hpte1. now destruct (decide _). }
  eauto 12.
Qed.

Lemma gen8_total_bound ppgtt : gen8_ppgtt_ok ppgtt -> g8_total ppgtt <= 2 ^ 32.
Proof.
  intros Hok. pose proof (gen8_space_bound ppgtt Hok).
  destruct Hok as (_ & _ & _ & ->). unfold PAGE_SIZE. lia.
Qed.

Lemma ppgtt_unbind_vma_twice hw vm vma :
  vm_ok vm -> vma_in_vm vm vma ->
  exists vm1 tr1 tr2,
    ppgtt_unbind_vma hw vm vma = Some (vm1, tr1) /\
    ppgtt_unbind_vma hw vm1 vma = Some (vm1, tr2) /\
    vm_ok vm1 /\
    forall k,
      vm_pte_at vm1 k
      = if decide (node_start vma / PAGE_SIZE <= k
                   < node_start vma / PAGE_SIZE
                     + obj_size (obj vma) / PAGE_SIZE)
        then Some (vm_scratch_pte hw vm) else vm_pte_at vm k.
Proof.
  intros Hok (Hs & Hl & Hin). unfold ppgtt_unbind_vma.
  destruct vm as [p|p]; simpl in *.
  - destruct (gen6_clear_range_twice p (node_start vma)
                (obj_size (obj vma)) Hok Hs ltac:(lia) Hin)
      as (p1 & tr1 & tr2 & H1 & H2 & Hok1 & Hpte).
    exists (Gen6Vm p1), tr1, tr2. simpl. now rewrite H1, H2.
  - pose proof (gen8_total_bound p Hok).
    destruct (gen8_clear_range_twice hw p (node_start vma)
                (obj_size (obj vma)) Hok ltac:(lia) ltac:(lia) Hin)
      as (p1 & tr1 & tr2 & H1 & H2 & Hok1 & Hpte).
    exists (Gen8Vm p1), tr1, tr2. simpl. now rewrite H1, H2.
Qed.

Lemma demo_vma_in_vm : vma_in_vm (Gen6Vm demo_gen6) demo_vma.
Proof. repeat split; vm_compute; congruence. Qed.
(** ** PPGTT initialisation *)

Section gen6_init_facts.
Context (hw : pte_hw) (env : kenv).

Lemma zrange_length len start : length (zrange len start) = len.
Proof.
  revert start. induction len as [|len IH]; intros start; simpl;
    [reflexivity|now rewrite IH].
Qed.

Lemma fresh_page_length pd i n :
  0 <= n -> Z.of_nat (length (fresh_page env pd i n)) = n.
Proof.
  intros Hn. unfold fresh_page. rewrite length_fmap, zrange_length. lia.
Qed.

(** After a complete run of the [alloc_page] loop, every slot the loop went
    through holds a full page, and the other slots are as before. *)
Lemma gen6_alloc_pages_loop_ok ixs pages r pages' r' :
  gen6_alloc_pages_loop env ixs pages r = (true, pages', r') ->
  Forall (fun i => 0 <= i) ixs ->
  length pages' = length pages /\
  forall j slot,
    pages' !! j = Some slot ->
    if decide (Z.of_nat j ∈ ixs)
    then exists pg,
        slot = Some pg /\ Z.of_nat (length pg) = I915_PPGTT_PT_ENTRIES
    else pages !! j = Some slot.
Proof.
  revert pages r. induction ixs as [|i ixs IH]; intros pages r; simpl.
  - intros [= <- <-] _. split; [reflexivity|].
    intros j slot Hj.
    destruct (decide (Z.of_nat j ∈ [])) as [Hin|]; [inversion Hin|exact Hj].
  - destruct (alloc_ok env (PT_PAGE 0 i)); [|discriminate].
    intros Hrun Hpos. inversion Hpos as [|? ? Hi Hpos']; subst.
    destruct (IH _ _ Hrun Hpos') as [Hlen Hslots].
    rewrite length_insert in Hlen. split; [exact Hlen|].
    intros j slot Hj. specialize (Hslots j slot Hj).
    destruct (decide (Z.of_nat j ∈ ixs)) as [Hin|Hnin].
    + destruct (decide (Z.of_nat j ∈ i :: ixs)) as [|Hn]; [exact Hslots|].
      exfalso. apply Hn. now right.
    + destruct (decide (Z.of_nat j = i)) as [<-|Hne].
      * destruct (decide (Z.of_nat j ∈ Z.of_nat j :: ixs)) as [|Hn];
          [|exfalso; apply Hn; now left].
        rewrite Nat2Z.id in Hslots.
        rewrite list_lookup_insert_eq in Hslots
          by (apply lookup_lt_Some in Hj; lia).
        injection Hslots as <-. eexists. split; [reflexivity|].
        now apply fresh_page_length.
      * destruct (decide (Z.of_nat j ∈ i :: ixs)) as [Hin|_].
        -- apply elem_of_cons in Hin as [?|?]; [lia|contradiction].
        -- rewrite list_lookup_insert_ne in Hslots by lia. exact Hslots.
Qed.

Lemma gen6_allocate_page_directories_ok p r p' r' :
  gen6_ppgtt_allocate_page_directories env p r = (0, p', r') ->
  raw_num_pd_entries p' = GEN6_PPGTT_PD_ENTRIES /\
  raw_pt_pages p' = raw_pt_pages p /\
  raw_pt_dma_addr p' = raw_pt_dma_addr p.
Proof.
  unfold gen6_ppgtt_allocate_page_directories.
  destruct (drm_mm_insert_node env false) as [ret start].
  destruct (ret =? 0) eqn:Hret.
  - apply Z.eqb_eq in Hret as ->. simpl. intros [= <- <-]. auto.
  - destruct (ret =? - ENOSPC) eqn:Hspc.
    + destruct (i915_gem_evict_something env =? 0) eqn:Hev.
      * destruct (drm_mm_insert_node env true) as [ret2 start2].
        destruct (ret2 =? 0) eqn:Hret2; intros [= Hz <- <-]; auto.
      * intros [= Hz]. rewrite Hz in Hev. discriminate.
    + intros [= Hz <- <-]. rewrite Hz in Hret. discriminate.
Qed.

Lemma gen6_allocate_page_tables_ok p r p' r' :
  0 <= raw_num_pd_entries p ->
  gen6_ppgtt_allocate_page_tables env p r = Some (0, p', r') ->
  raw_num_pd_entries p' = raw_num_pd_entries p /\
  raw_pt_dma_addr p' = raw_pt_dma_addr p /\
  exists pages,
    raw_pt_pages p' = Some (Some <$> pages) /\
    Z.of_nat (length pages) = raw_num_pd_entries p /\
    gen6_pages_wf pages.
Proof.
  intros Hn. unfold gen6_ppgtt_allocate_page_tables.
  destruct (alloc_ok env (PT_ARRAY 0)); [|discriminate].
  destruct (gen6_alloc_pages_loop _ _ _ _) as [[ok slots] r1] eqn:Hloop.
  destruct ok.
  2:{ destruct (gen6_ppgtt_free _ _); discriminate. }
  intros [= <- <-]. simpl. split; [reflexivity|]. split; [reflexivity|].
  destruct (gen6_alloc_pages_loop_ok _ _ _ _ _ Hloop) as [Hlen Hslots].
  { apply Forall_forall. intros i Hi. apply list_elem_of_In, elem_of_seqZ in Hi.
    lia. }
  rewrite length_replicate in Hlen.
  assert (Hall : forall j slot, slots !! j = Some slot ->
            exists pg, slot = Some pg /\
                       Z.of_nat (length pg) = I915_PPGTT_PT_ENTRIES).
  { intros j slot Hj. specialize (Hslots j slot Hj).
    destruct (decide _) as [|Hnin]; [exact Hslots|].
    exfalso. apply Hnin. apply elem_of_seqZ.
    apply lookup_lt_Some in Hj. lia. }
  clear Hslots Hloop.
  assert (Hex : exists pages, slots = Some <$> pages /\ gen6_pages_wf pages).
  { clear Hlen. induction slots as [|slot slots IH].
    - exists []. split; [reflexivity|constructor].
    - destruct (Hall O slot eq_refl) as (pg & -> & Hpg).
      destruct IH as (pages & -> & Hwf).
      { intros j s Hj. exact (Hall (S j) s Hj). }
      exists (pg :: pages). split; [reflexivity|now constructor]. }
  destruct Hex as (pages & -> & Hwf).
  exists pages. rewrite length_fmap in Hlen. repeat split; auto. lia.
Qed.

Lemma gen6_ppgtt_alloc_ok p r p' r' :
  gen6_ppgtt_alloc env p r = Some (0, p', r') ->
  raw_num_pd_entries p' = GEN6_PPGTT_PD_ENTRIES /\
  raw_pt_dma_addr p'
  = Some (replicate (Z.to_nat GEN6_PPGTT_PD_ENTRIES) 0) /\
  exists pages,
    raw_pt_pages p' = Some (Some <$> pages) /\
    Z.of_nat (length pages) = GEN6_PPGTT_PD_ENTRIES /\
    gen6_pages_wf pages.
Proof.
  unfold gen6_ppgtt_alloc.
  destruct (gen6_ppgtt_allocate_page_directories env p r)
    as [[ret p1] r1] eqn:Hpd.
  destruct (Z.eqb_spec ret 0) as [->|Hne]; simpl;
    [|intros [= -> _ _]; contradiction].
  destruct (gen6_allocate_page_directories_ok _ _ _ _ Hpd) as (Hn1 & _ & _).
  destruct (gen6_ppgtt_allocate_page_tables env p1 r1)
    as [[[ret2 p2] r2]|] eqn:Hpt; [|discriminate]. simpl.
  destruct (Z.eqb_spec ret2 0) as [->|Hne]; simpl;
    [|intros [= -> _ _]; contradiction].
  destruct (gen6_allocate_page_tables_ok _ _ _ _
              ltac:(rewrite Hn1; discriminate) Hpt)
    as (Hn2 & _ & pages & Hpages & Hlen & Hwf).
  destruct (alloc_ok env (PT_DMA_ARRAY 0)).
  - intros [= <- <-]. simpl. rewrite Hn2, Hn1.
    split; [reflexivity|]. split; [reflexivity|].
    exists pages. repeat split; auto. congruence.
  - destruct (gen6_ppgtt_free _ _); discriminate.
Qed.

Lemma gen6_setup_page_tables_ok p r p' r' :
  gen6_ppgtt_setup_page_tables env p r = Some (0, p', r') ->
  raw_num_pd_entries p' = raw_num_pd_entries p /\
  raw_pt_pages p' = raw_pt_pages p /\ raw_node p' = raw_node p /\
  is_Some (raw_pt_dma_addr p').
Proof.
  unfold gen6_ppgtt_setup_page_tables.
  destruct (raw_pt_dma_addr p) as [addrs|]; [|discriminate]. simpl.
  destruct (gen6_map_pages_loop _ _ _ _) as [[ok addrs'] r1].
  destruct ok.
  - intros [= <- <-]. simpl. eauto.
  - destruct (gen6_ppgtt_unmap_pages _ _); discriminate.
Qed.

Lemma mapM_id_Some {A} (l : list A) : mapM id (Some <$> l) = Some l.
Proof.
  apply mapM_Some. induction l; constructor; auto.
Qed.

(** A successful [gen6_ppgtt_init] delivers a 2GB address space of 512 full
    tables in which every entry is the valid encoding of the scratch page. *)
Lemma gen6_ppgtt_init_scratch dev scratch encode r ppgtt r' :
  gen6_ppgtt_init hw env dev scratch encode r = Some (0, Some ppgtt, r') ->
  gen6_ppgtt_ok ppgtt /\
  scratch_addr ppgtt = scratch /\ pte_encode ppgtt = encode /\
  num_pd_entries ppgtt = GEN6_PPGTT_PD_ENTRIES /\
  total ppgtt = GEN6_PPGTT_PD_ENTRIES * I915_PPGTT_PT_ENTRIES * PAGE_SIZE /\
  forall k, 0 <= k < total ppgtt / PAGE_SIZE ->
    gen6_pte_at ppgtt k
    = Some (fst (encode scratch I915_CACHE_LLC true 0)).
Proof.
  unfold gen6_ppgtt_init.
  destruct (match dev with DEV_OTHER => None | _ => Some _ end) as [sw|];
    [|discriminate]. simpl.
  destruct (gen6_ppgtt_alloc env gen6_raw_zero r) as [[[ret p1] r1]|] eqn:Ha;
    [|discriminate]. simpl.
  destruct (Z.eqb_spec ret 0) as [->|Hne]; simpl; [|discriminate].
  destruct (gen6_ppgtt_alloc_ok _ _ _ _ Ha)
    as (Hn1 & _ & pages & Hpages & Hlen & Hwf).
  destruct (gen6_ppgtt_setup_page_tables env p1 r1)
    as [[[ret2 p2] r2]|] eqn:Hs; [|discriminate]. simpl.
  destruct (Z.eqb_spec ret2 0) as [->|Hne]; simpl.
  2:{ destruct (gen6_ppgtt_free p2 r2); discriminate. }
  destruct (gen6_setup_page_tables_ok _ _ _ _ Hs)
    as (Hn2 & Hp2 & _ & [addrs Haddrs]).
  rewrite Hp2, Hpages, Haddrs. cbn [mbind option_bind].
  rewrite mapM_id_Some. cbn [mbind option_bind]. cbv zeta.
  match goal with
  | |- context [gen6_ppgtt_clear_range ?p _ _ _] => set (ppgtt0 := p)
  end.
  assert (Hn : num_pd_entries ppgtt0 = GEN6_PPGTT_PD_ENTRIES)
    by exact (eq_trans Hn2 Hn1).
  assert (Htot : total ppgtt0 =
            GEN6_PPGTT_PD_ENTRIES * I915_PPGTT_PT_ENTRIES * PAGE_SIZE)
    by (unfold ppgtt0; cbn [total]; now rewrite Hn2, Hn1).
  assert (Hok0 : gen6_ppgtt_ok ppgtt0).
  { split; [exact Hwf|]. split; [now rewrite Hn|]. split; [|reflexivity].
    rewrite Hn. apply Z.le_refl. }
  assert (Hsa : scratch_addr ppgtt0 = scratch) by reflexivity.
  assert (Hen : pte_encode ppgtt0 = encode) by reflexivity.
  change (raw_num_pd_entries p2 * I915_PPGTT_PT_ENTRIES * PAGE_SIZE)
    with (total ppgtt0).
  clearbody ppgtt0.
  destruct (gen6_clear_range_spec ppgtt0 0 (total ppgtt0) true Hok0)
    as (pt & tr & Hclr & Hok1 & _ & Hpte).
  { lia. }
  { rewrite Htot. now vm_compute. }
  { lia. }
  rewrite Hclr. cbn [mbind option_bind].
  destruct (gen6_write_pdes hw _ r2) as [r3|]; [|discriminate].
  cbn [mbind option_bind]. intros [= <- <-].
  split; [exact Hok1|]. split; [exact Hsa|]. split; [exact Hen|].
  split; [exact Hn|]. split; [exact Htot|].
  intros k Hk. rewrite Hpte. unfold gen6_scratch_pte. rewrite Hsa, Hen.
  change (total (gen6_set_pt_pages ppgtt0 pt)) with (total ppgtt0) in Hk.
  destruct (decide _) as [|Hne']; [reflexivity|].
  exfalso. apply Hne'. change (0 / PAGE_SIZE) with 0. rewrite Z.add_0_l.
  exact Hk.
Qed.

Lemma gen6_alloc_pages_loop_total ixs pages r :
  (forall site, alloc_ok env site = true) ->
  exists pages' r',
    gen6_alloc_pages_loop env ixs pages r = (true, pages', r').
Proof.
  intros Hok. revert pages r.
  induction ixs as [|i ixs IH]; intros pages r; simpl; [eauto|].
  rewrite Hok. apply IH.
Qed.

Lemma gen6_map_pages_loop_total ixs addrs r :
  (forall site, is_Some (pci_map_page env site)) ->
  exists addrs' r',
    gen6_map_pages_loop env ixs addrs r = (true, addrs', r') /\
    length addrs' = length addrs.
Proof.
  intros Hok. revert addrs r.
  induction ixs as [|i ixs IH]; intros addrs r; simpl; [eauto|].
  destruct (Hok (MAP_PT 0 i)) as [a ->].
  destruct (IH (<[Z.to_nat i := a]> addrs)
              (res_set_dma r (a :: dma_live r) (dma_stray r)))
    as (addrs' & r' & -> & Hlen).
  rewrite length_insert in Hlen. eauto.
Qed.

Lemma for_each_total {Ix S : Type} (I : S -> Prop) (ixs : list Ix)
    (body : Ix -> S -> option S) s :
  (forall i s, i ∈ ixs -> I s -> exists s', body i s = Some s' /\ I s') ->
  I s -> exists s', for_each ixs body s = Some s' /\ I s'.
Proof.
  revert s. induction ixs as [|i ixs IH]; intros s Hbody Hs; simpl; [eauto|].
  destruct (Hbody i s) as (s1 & -> & Hs1); [now left|exact Hs|]. simpl.
  apply IH; [|exact Hs1]. intros j s2 Hj. apply Hbody. now right.
Qed.

Lemma gen6_ppgtt_alloc_total p r :
  (drm_mm_insert_node env false).1 = 0 ->
  (forall site, alloc_ok env site = true) ->
  exists p' r', gen6_ppgtt_alloc env p r = Some (0, p', r').
Proof.
  intros Hnode Hok.
  unfold gen6_ppgtt_alloc, gen6_ppgtt_allocate_page_directories.
  destruct (drm_mm_insert_node env false) as [ret start].
  cbn [fst] in Hnode. subst ret.
  cbn [Z.eqb].
  change (match - ENOSPC with 0 => true | _ => false end) with false.
  cbn [Z.eqb negb raw_num_pd_entries raw_pt_pages raw_pt_dma_addr raw_node].
  unfold gen6_ppgtt_allocate_page_tables. rewrite Hok.
  cbn [raw_num_pd_entries].
  match goal with
  | |- context [gen6_alloc_pages_loop env ?ixs ?pages ?r] =>
      destruct (gen6_alloc_pages_loop_total ixs pages r Hok)
        as (pages' & r' & ->)
  end.
  cbn [mbind option_bind Z.eqb negb]. rewrite Hok. eauto.
Qed.

Lemma gen6_setup_page_tables_total p r addrs :
  (forall site, is_Some (pci_map_page env site)) ->
  raw_pt_dma_addr p = Some addrs ->
  exists p' r' addrs',
    gen6_ppgtt_setup_page_tables env p r = Some (0, p', r') /\
    raw_pt_dma_addr p' = Some addrs' /\ length addrs' = length addrs.
Proof.
  intros Hok Haddrs. unfold gen6_ppgtt_setup_page_tables.
  rewrite Haddrs. cbn [mbind option_bind].
  destruct (gen6_map_pages_loop_total
              (seqZ 0 (raw_num_pd_entries p)) addrs r Hok)
    as (addrs' & r' & -> & Hlen).
  eexists _, _, addrs'. split; [reflexivity|]. split; [reflexivity|exact Hlen].
Qed.

(** When the environment grants every request, [gen6_ppgtt_init] goes
    through on every device it supports. *)
Lemma gen6_ppgtt_init_total dev scratch encode r :
  env_grants_all env -> dev <> DEV_OTHER ->
  exists ppgtt r',
    gen6_ppgtt_init hw env dev scratch encode r = Some (0, Some ppgtt, r').
Proof.
  intros (Hnode & Halloc & Hmap) Hdev. unfold gen6_ppgtt_init.
  assert (Hsw : exists sw,
             match dev with
             | DEV_GEN6 => Some gen6_mm_switch
             | DEV_HASWELL => Some hsw_mm_switch
             | DEV_GEN7 => Some gen7_mm_switch
             | DEV_OTHER => None
             end = Some sw) by (destruct dev; eauto; contradiction).
  destruct Hsw as [sw ->]. cbn [mbind option_bind].
  destruct (gen6_ppgtt_alloc_total gen6_raw_zero r Hnode Halloc)
    as (p1 & r1 & Ha).
  rewrite Ha. cbn [mbind option_bind Z.eqb negb].
  destruct (gen6_ppgtt_alloc_ok _ _ _ _ Ha)
    as (Hn1 & Hdma & pages & Hpages & Hlen & Hwf).
  destruct (gen6_setup_page_tables_total p1 r1 _ Hmap Hdma)
    as (p2 & r2 & addrs & Hs & Haddrs & Hlena).
  rewrite Hs. cbn [mbind option_bind Z.eqb negb].
  destruct (gen6_setup_page_tables_ok _ _ _ _ Hs) as (Hn2 & Hp2 & _ & _).
  rewrite Hp2, Hpages, Haddrs. cbn [mbind option_bind].
  rewrite mapM_id_Some. cbn [mbind option_bind]. cbv zeta.
  match goal with
  | |- context [gen6_ppgtt_clear_range ?p _ _ _] => set (ppgtt0 := p)
  end.
  assert (Hn : num_pd_entries ppgtt0 = GEN6_PPGTT_PD_ENTRIES)
    by exact (eq_trans Hn2 Hn1).
  assert (Htot : total ppgtt0 =
            GEN6_PPGTT_PD_ENTRIES * I915_PPGTT_PT_ENTRIES * PAGE_SIZE)
    by (unfold ppgtt0; cbn [total]; now rewrite Hn2, Hn1).
  assert (Hok0 : gen6_ppgtt_ok ppgtt0).
  { split; [exact Hwf|]. split; [now rewrite Hn|]. split; [|reflexivity].
    rewrite Hn. apply Z.le_refl. }
  assert (Hda : pt_dma_addr ppgtt0 = addrs) by reflexivity.
  change (raw_num_pd_entries p2 * I915_PPGTT_PT_ENTRIES * PAGE_SIZE)
    with (total ppgtt0).
  clearbody ppgtt0.
  destruct (gen6_clear_range_spec ppgtt0 0 (total ppgtt0) true Hok0)
    as (pt & tr & Hclr & _).
  { lia. }
  { rewrite Htot. now vm_compute. }
  { lia. }
  rewrite Hclr. cbn [mbind option_bind].
  destruct (for_each_total (fun _ : kres => True)
              (seqZ 0 (num_pd_entries (gen6_set_pt_pages ppgtt0 pt)))
              (fun i r =>
                 pt_addr ← pt_dma_addr (gen6_set_pt_pages ppgtt0 pt)
                             !! Z.to_nat i;
                 Some (res_set_gsm r
                         (gsm_writes r ++
                          [(pd_offset (gen6_set_pt_pages ppgtt0 pt) / 4 + i,
                            u32 (Z.lor (u32 (GEN6_PDE_ADDR_ENCODE hw pt_addr))
                                   (GEN6_PDE_VALID hw)))]))) r2)
    as (r3 & Hr3 & _); [|exact I|].
  { intros i s Hi _. apply elem_of_seqZ in Hi.
    cbn [num_pd_entries pt_dma_addr gen6_set_pt_pages] in Hi |- *.
    rewrite Hn in Hi. rewrite Hda.
    destruct (lookup_lt_is_Some_2 addrs (Z.to_nat i)) as [a ->];
      [|cbn [mbind option_bind]; eauto].
    rewrite Hlena, length_replicate.
    apply Z2Nat.inj_lt; [lia|discriminate|lia]. }
  unfold gen6_write_pdes. rewrite Hr3. cbn [mbind option_bind]. eauto.
Qed.

End gen6_init_facts.


(** *** Loops that keep an invariant *)

Lemma for_each_inv {Ix S : Type} (I : S -> Prop) (ixs : list Ix)
    (body : Ix -> S -> option S) s s' :
  (forall i s s', body i s = Some s' -> I s -> I s') ->
  for_each ixs body s = Some s' -> I s -> I s'.
Proof.
  intros Hbody. revert s. induction ixs as [|i ixs IH]; intros s; simpl.
  - now intros [= <-].
  - destruct (body i s) as [s1|] eqn:Hb; [|discriminate]. simpl.
    intros Hrun Hs. exact (IH _ Hrun (Hbody _ _ _ Hb Hs)).
Qed.

Lemma for_each_ret_inv {Ix S : Type} (I : S -> Prop) (ixs : list Ix)
    (body : Ix -> S -> option (Z * S)) s ret s' :
  (forall i s ret s', body i s = Some (ret, s') -> I s -> I s') ->
  for_each_ret ixs body s = Some (ret, s') -> I s -> I s'.
Proof.
  intros Hbody. revert s. induction ixs as [|i ixs IH]; intros s; simpl.
  - now intros [= _ <-].
  - destruct (body i s) as [[ret1 s1]|] eqn:Hb; [|discriminate]. simpl.
    destruct (negb (ret1 =? 0)).
    + intros [= _ <-] Hs. exact (Hbody _ _ _ _ Hb Hs).
    + intros Hrun Hs. exact (IH _ Hrun (Hbody _ _ _ _ Hb Hs)).
Qed.

Lemma store_at_Some {A} i (x : A) l l' :
  store_at i x l = Some l' ->
  0 <= i < Z.of_nat (length l) /\ l' = <[Z.to_nat i := x]> l.
Proof.
  unfold store_at. destruct (bool_decide_reflect (0 <= i < Z.of_nat (length l)));
    [|discriminate].
  intros [= <-]. auto.
Qed.

(** The pointers up to the first NULL: if the first [n] are there and the
    rest are NULL, these are the first [n]. *)
Lemma present_prefix_spec {A} (P : A -> Prop) (l : list (option A)) n :
  (forall j, (j < n)%nat -> exists x, l !! j = Some (Some x) /\ P x) ->
  (forall j, (n <= j)%nat -> (j < length l)%nat -> l !! j = Some None) ->
  length (present_prefix l) = n /\ Forall P (present_prefix l).
Proof.
  revert n. induction l as [|o l IH]; intros n Hlo Hhi.
  - destruct n as [|n]; [now split|].
    destruct (Hlo O ltac:(lia)) as (x & Hx & _). discriminate.
  - destruct n as [|n].
    + specialize (Hhi O ltac:(lia) ltac:(simpl; lia)).
      injection Hhi as ->. now split.
    + destruct (Hlo O ltac:(lia)) as (x & [= ->] & Hx). simpl.
      destruct (IH n) as [Hlen Hall].
      * intros j Hj. exact (Hlo (S j) ltac:(lia)).
      * intros j Hj1 Hj2. exact (Hhi (S j) ltac:(lia) ltac:(simpl; lia)).
      * split; [now rewrite Hlen|now constructor].
Qed.

(** Slots that all hold something are the image of a list. *)
Lemma slots_all_present {A} (P : A -> Prop) (slots : list (option A)) :
  (forall j slot, slots !! j = Some slot -> exists x, slot = Some x /\ P x) ->
  exists xs, slots = Some <$> xs /\ Forall P xs.
Proof.
  induction slots as [|slot slots IH]; intros Hall.
  - exists []. split; [reflexivity|constructor].
  - destruct (Hall O slot eq_refl) as (x & -> & Hx).
    destruct IH as (xs & -> & Hxs).
    { intros j s Hj. exact (Hall (S j) s Hj). }
    exists (x :: xs). split; [reflexivity|now constructor].
Qed.

Section gen8_init_facts.
Context (hw : pte_hw) (env : kenv).

Lemma gen8_alloc_pages_loop_ok pd ixs pages r pages' r' :
  gen8_alloc_pages_loop env pd ixs pages r = (true, pages', r') ->
  Forall (fun i => 0 <= i) ixs ->
  length pages' = length pages /\
  forall j slot,
    pages' !! j = Some slot ->
    if decide (Z.of_nat j ∈ ixs)
    then exists pg,
        slot = Some pg /\ Z.of_nat (length pg) = GEN8_PTES_PER_PAGE
    else pages !! j = Some slot.
Proof.
  revert pages r. induction ixs as [|i ixs IH]; intros pages r; simpl.
  - intros [= <- <-] _. split; [reflexivity|].
    intros j slot Hj.
    destruct (decide (Z.of_nat j ∈ [])) as [Hin|]; [inversion Hin|exact Hj].
  - destruct (alloc_ok env (PT_PAGE pd i)); [|discriminate].
    intros Hrun Hpos. inversion Hpos as [|? ? Hi Hpos']; subst.
    destruct (IH _ _ Hrun Hpos') as [Hlen Hslots].
    rewrite length_insert in Hlen. split; [exact Hlen|].
    intros j slot Hj. specialize (Hslots j slot Hj).
    destruct (decide (Z.of_nat j ∈ ixs)) as [Hin|Hnin].
    + destruct (decide (Z.of_nat j ∈ i :: ixs)) as [|Hn]; [exact Hslots|].
      exfalso. apply Hn. now right.
    + destruct (decide (Z.of_nat j = i)) as [<-|Hne].
      * destruct (decide (Z.of_nat j ∈ Z.of_nat j :: ixs)) as [|Hn];
          [|exfalso; apply Hn; now left].
        rewrite Nat2Z.id in Hslots.
        rewrite list_lookup_insert_eq in Hslots
          by (apply lookup_lt_Some in Hj; lia).
        injection Hslots as <-. eexists. split; [reflexivity|].
        now apply fresh_page_length.
      * destruct (decide (Z.of_nat j ∈ i :: ixs)) as [Hin|_].
        -- apply elem_of_cons in Hin as [?|?]; [lia|contradiction].
        -- rewrite list_lookup_insert_ne in Hslots by lia. exact Hslots.
Qed.

Lemma gen8_alloc_page_tables_ok pd r slots r' :
  __gen8_alloc_page_tables env pd r = (Some slots, r') ->
  exists pages, slots = Some <$> pages /\ gen8_dir_wf pages.
Proof.
  unfold __gen8_alloc_page_tables.
  destruct (alloc_ok env (PT_ARRAY pd)); [|discriminate].
  destruct (gen8_alloc_pages_loop _ _ _ _ _) as [[ok slots'] r1] eqn:Hloop.
  destruct ok; [|discriminate]. intros [= <- <-].
  destruct (gen8_alloc_pages_loop_ok _ _ _ _ _ _ Hloop) as [Hlen Hslots].
  { apply Forall_forall. intros i Hi.
    apply list_elem_of_In, elem_of_seqZ in Hi. lia. }
  rewrite length_replicate in Hlen.
  destruct (slots_all_present
              (fun pg => Z.of_nat (length pg) = GEN8_PTES_PER_PAGE) slots')
    as (pages & -> & Hwf).
  { intros j slot Hj. specialize (Hslots j slot Hj).
    destruct (decide _) as [|Hnin]; [exact Hslots|].
    exfalso. apply Hnin. apply elem_of_seqZ.
    apply lookup_lt_Some in Hj. lia. }
  exists pages. split; [reflexivity|]. split; [|exact Hwf].
  rewrite length_fmap in Hlen. rewrite Hlen. reflexivity.
Qed.

Lemma gen8_alloc_tables_loop_ok ixs pts r pts' r' :
  gen8_alloc_tables_loop env ixs pts r = Some (None, pts', r') ->
  length pts' = length pts /\
  Forall (fun i => 0 <= i < Z.of_nat (length pts)) ixs /\
  forall j slot,
    pts' !! j = Some slot ->
    if decide (Z.of_nat j ∈ ixs)
    then exists pages, slot = Some (Some <$> pages) /\ gen8_dir_wf pages
    else pts !! j = Some slot.
Proof.
  revert pts r. induction ixs as [|i ixs IH]; intros pts r; simpl.
  - intros [= <- <-]. split; [reflexivity|]. split; [constructor|].
    intros j slot Hj.
    destruct (decide (Z.of_nat j ∈ [])) as [Hin|]; [inversion Hin|exact Hj].
  - destruct (__gen8_alloc_page_tables env i r) as [[slots|] r1] eqn:Ha;
      [|discriminate].
    destruct (gen8_alloc_page_tables_ok _ _ _ _ Ha) as (pages & -> & Hwf).
    destruct (store_at i _ pts) as [pts1|] eqn:Hst; [|discriminate]. simpl.
    apply store_at_Some in Hst as [Hi ->].
    intros Hrun. destruct (IH _ _ Hrun) as (Hlen & Hixs & Hslots).
    rewrite length_insert in Hlen, Hixs.
    split; [exact Hlen|]. split; [now constructor|].
    intros j slot Hj. specialize (Hslots j slot Hj).
    destruct (decide (Z.of_nat j ∈ ixs)) as [Hin|Hnin].
    + destruct (decide (Z.of_nat j ∈ i :: ixs)) as [|Hn]; [exact Hslots|].
      exfalso. apply Hn. now right.
    + destruct (decide (Z.of_nat j = i)) as [<-|Hne].
      * destruct (decide (Z.of_nat j ∈ Z.of_nat j :: ixs)) as [|Hn];
          [|exfalso; apply Hn; now left].
        rewrite Nat2Z.id in Hslots.
        rewrite list_lookup_insert_eq in Hslots by lia.
        injection Hslots as <-. eauto.
      * destruct (decide (Z.of_nat j ∈ i :: ixs)) as [Hin|_].
        -- apply elem_of_cons in Hin as [?|?]; [lia|contradiction].
        -- rewrite list_lookup_insert_ne in Hslots by lia. exact Hslots.
Qed.

(** The second loop of [gen8_ppgtt_allocate_page_tables] copies the slots it
    goes through and leaves the others. *)
Lemma gen8_copy_tables_loop_ok {A} ixs (loc init pts' : list A) :
  for_each ixs
    (fun i pts => pages ← loc !! Z.to_nat i; store_at i pages pts) init
  = Some pts' ->
  length pts' = length init /\
  forall j, pts' !! j
            = if decide (Z.of_nat j ∈ ixs) then loc !! j else init !! j.
Proof.
  revert init. induction ixs as [|i ixs IH]; intros init; simpl.
  - intros [= <-]. split; [reflexivity|]. intros j.
    destruct (decide (Z.of_nat j ∈ [])) as [Hin|]; [inversion Hin|reflexivity].
  - destruct (loc !! Z.to_nat i) as [pages|] eqn:Hloc; [|discriminate]. simpl.
    destruct (store_at i pages init) as [pts1|] eqn:Hst; [|discriminate].
    simpl. apply store_at_Some in Hst as [Hi ->].
    intros Hrun. destruct (IH _ Hrun) as [Hlen Hslots].
    rewrite length_insert in Hlen. split; [exact Hlen|].
    intros j. rewrite Hslots.
    destruct (decide (Z.of_nat j ∈ ixs)) as [Hin|Hnin].
    + destruct (decide (Z.of_nat j ∈ i :: ixs)) as [|Hn]; [reflexivity|].
      exfalso. apply Hn. now right.
    + destruct (decide (Z.of_nat j = i)) as [<-|Hne].
      * destruct (decide (Z.of_nat j ∈ Z.of_nat j :: ixs)) as [|Hn];
          [|exfalso; apply Hn; now left].
        rewrite Nat2Z.id in Hloc |- *.
        rewrite list_lookup_insert_eq by lia. now rewrite Hloc.
      * destruct (decide (Z.of_nat j ∈ i :: ixs)) as [Hin|_].
        -- apply elem_of_cons in Hin as [?|?]; [lia|contradiction].
        -- now rewrite list_lookup_insert_ne by lia.
Qed.

(** After [gen8_ppgtt_allocate_page_tables] the first [max_pdp] slots of
    [gen8_pt_pages] hold full directories of full table pages, and there
    are at most [GEN8_LEGACY_PDPS] of them. *)
Lemma gen8_allocate_page_tables_ok p max_pdp r p' r' :
  raw8_pt_pages p = replicate (Z.to_nat GEN8_LEGACY_PDPS) None ->
  gen8_ppgtt_allocate_page_tables env p max_pdp r = Some (0, p', r') ->
  max_pdp <= GEN8_LEGACY_PDPS /\
  raw8_num_pd_pages p' = raw8_num_pd_pages p /\
  raw8_pd_pages p' = raw8_pd_pages p /\
  raw8_pd_dma_addr p' = raw8_pd_dma_addr p /\
  raw8_pt_dma_addr p' = raw8_pt_dma_addr p /\
  (forall j, (j < Z.to_nat max_pdp)%nat ->
     exists pages,
       raw8_pt_pages p' !! j = Some (Some (Some <$> pages)) /\
       gen8_dir_wf pages) /\
  length (present_prefix (gen8_table_pages <$> raw8_pt_pages p'))
  = Z.to_nat max_pdp /\
  gen8_pages_wf (present_prefix (gen8_table_pages <$> raw8_pt_pages p')).
Proof.
  intros Hzero. unfold gen8_ppgtt_allocate_page_tables.
  destruct (gen8_alloc_tables_loop _ _ _ _) as [[[failed loc] r1]|] eqn:Hloop;
    [|discriminate]. simpl.
  destruct failed as [i|].
  { destruct (for_each _ _ _); discriminate. }
  destruct (for_each _ _ _) as [pts|] eqn:Hcopy; [|discriminate]. simpl.
  intros [= <- <-]. simpl.
  destruct (gen8_alloc_tables_loop_ok _ _ _ _ _ Hloop)
    as (Hlen & Hixs & Hslots).
  destruct (gen8_copy_tables_loop_ok _ _ _ _ Hcopy) as [Hlen' Hpts].
  rewrite length_replicate in Hlen, Hixs.
  rewrite Hzero, length_replicate in Hlen'.
  assert (Hmax : max_pdp <= GEN8_LEGACY_PDPS).
  { destruct (Z_le_gt_dec max_pdp 0) as [|Hpos];
      [etransitivity; [eassumption|discriminate]|].
    rewrite Forall_forall in Hixs.
    specialize (Hixs (max_pdp - 1)).
    rewrite <- list_elem_of_In, elem_of_seqZ in Hixs.
    unfold GEN8_LEGACY_PDPS in *. lia. }
  assert (Hdirs : forall j, (j < Z.to_nat max_pdp)%nat ->
            exists pages,
              pts !! j = Some (Some (Some <$> pages)) /\ gen8_dir_wf pages).
  { intros j Hj.
    assert (Hin : Z.of_nat j ∈ seqZ 0 max_pdp) by (apply elem_of_seqZ; lia).
    assert (Hsome : is_Some (loc !! j)).
    { apply lookup_lt_is_Some. rewrite Hlen.
      unfold GEN8_LEGACY_PDPS in *. lia. }
    destruct Hsome as [slot Hslot]. specialize (Hslots j slot Hslot).
    destruct (decide _) as [_|Hn]; [|contradiction].
    destruct Hslots as (pages & -> & Hwf).
    exists pages. split; [|exact Hwf].
    rewrite Hpts. destruct (decide _) as [_|Hn]; [|contradiction].
    exact Hslot. }
  split; [exact Hmax|]. do 4 (split; [reflexivity|]).
  split; [exact Hdirs|].
  apply (present_prefix_spec gen8_dir_wf).
  - intros j Hj. destruct (Hdirs j Hj) as (pages & Hslot & Hwf).
    exists pages. split; [|exact Hwf].
    rewrite list_lookup_fmap, Hslot. simpl. now rewrite mapM_id_Some.
  - intros j Hj1 Hj2. rewrite length_fmap, Hlen' in Hj2.
    rewrite list_lookup_fmap, Hpts.
    destruct (decide _) as [Hin|_].
    { apply elem_of_seqZ in Hin. lia. }
    rewrite Hzero, lookup_replicate_2 by exact Hj2. reflexivity.
Qed.

Lemma gen8_alloc_dma_loop_tables ixs p r ret p' r' :
  gen8_alloc_dma_loop env ixs p r = Some (ret, p', r') ->
  raw8_pt_pages p' = raw8_pt_pages p /\
  raw8_num_pd_entries p' = raw8_num_pd_entries p.
Proof.
  revert p r. induction ixs as [|i ixs IH]; intros p r; simpl.
  - intros [= _ <- _]. auto.
  - destruct (alloc_ok env (PT_DMA_ARRAY i)).
    + destruct (store_at i _ _) as [addrs|]; [|discriminate]. simpl.
      intros Hrun. destruct (IH _ _ Hrun) as [-> ->]. auto.
    + destruct (store_at i _ _) as [addrs|]; [|discriminate]. simpl.
      intros [= _ <- _]. auto.
Qed.

Lemma gen8_ppgtt_alloc_ok max_pdp r p' r' :
  gen8_ppgtt_alloc env gen8_raw_zero max_pdp r = Some (0, p', r') ->
  max_pdp <= GEN8_LEGACY_PDPS /\
  raw8_num_pd_entries p' = u32 (max_pdp * GEN8_PDES_PER_PAGE) /\
  length (present_prefix (gen8_table_pages <$> raw8_pt_pages p'))
  = Z.to_nat max_pdp /\
  gen8_pages_wf (present_prefix (gen8_table_pages <$> raw8_pt_pages p')).
Proof.
  unfold gen8_ppgtt_alloc, gen8_ppgtt_allocate_page_directories.
  destruct (alloc_ok env PD_PAGES); [|discriminate].
  destruct (GEN8_LEGACY_PDPS <? gen8_pd_block env max_pdp); [discriminate|].
  cbn [mbind option_bind Z.eqb negb].
  match goal with
  | |- context [gen8_ppgtt_allocate_page_tables _ ?p _ ?r] =>
      destruct (gen8_ppgtt_allocate_page_tables env p max_pdp r)
        as [[[ret p1] r1]|] eqn:Hpt; [|discriminate]
  end.
  cbn [mbind option_bind].
  destruct (Z.eqb_spec ret 0) as [->|Hne]; cbn [negb];
    [|intros [= -> _ _]; contradiction].
  apply gen8_allocate_page_tables_ok in Hpt
    as (Hmax & _ & _ & _ & _ & _ & Hlen & Hwf); [|reflexivity].
  destruct (gen8_ppgtt_allocate_dma _ _ _) as [[[ret2 p2] r2]|] eqn:Hdma;
    [|discriminate].
  cbn [mbind option_bind].
  destruct (gen8_alloc_dma_loop_tables _ _ _ _ _ _ Hdma) as [Hpts Hn].
  destruct (Z.eqb_spec ret2 0) as [->|Hne]; cbn [negb].
  - intros [= <- <-]. rewrite Hpts, Hn. auto.
  - destruct (gen8_ppgtt_free _ _ _); [|discriminate].
    intros [= -> _ _]. contradiction.
Qed.

Lemma gen8_map_loops_tables max_pdp p r ret p' r' :
  for_each_ret (seqZ 0 max_pdp)
    (fun i (s : gen8_ppgtt_raw * kres) =>
       '(ret, s) ← gen8_ppgtt_setup_page_directories env s.1 i s.2;
       if negb (ret =? 0) then Some (ret, s) else
       for_each_ret (seqZ 0 GEN8_PDES_PER_PAGE)
         (fun j (s : gen8_ppgtt_raw * kres) =>
            gen8_ppgtt_setup_page_tables env s.1 i j s.2) s)
    (p, r) = Some (ret, (p', r')) ->
  raw8_pt_pages p' = raw8_pt_pages p /\
  raw8_num_pd_entries p' = raw8_num_pd_entries p.
Proof.
  intros Hrun.
  apply (for_each_ret_inv
           (fun s : gen8_ppgtt_raw * kres =>
              raw8_pt_pages s.1 = raw8_pt_pages p /\
              raw8_num_pd_entries s.1 = raw8_num_pd_entries p)
           _ _ _ _ _) in Hrun; [exact Hrun| |now split].
  clear. intros i [p0 r0] ret [p1 r1]. cbn [fst snd].
  unfold gen8_ppgtt_setup_page_directories.
  intros Hbody Hinv.
  assert (Hpd : exists p2 r2,
             raw8_pt_pages p2 = raw8_pt_pages p0 /\
             raw8_num_pd_entries p2 = raw8_num_pd_entries p0 /\
             (Some (ret, (p1, r1)) = Some (ret, (p2, r2)) \/
              for_each_ret (seqZ 0 GEN8_PDES_PER_PAGE)
                (fun j (s : gen8_ppgtt_raw * kres) =>
                   gen8_ppgtt_setup_page_tables env s.1 i j s.2) (p2, r2)
              = Some (ret, (p1, r1)))).
  { destruct (pci_map_page env (MAP_PD i)) as [a|].
    - destruct (store_at i a _) as [addrs|]; [|discriminate].
      cbn [mbind option_bind Z.eqb negb] in Hbody.
      eexists _, _. split; [|split; [|right; exact Hbody]]; reflexivity.
    - cbn [mbind option_bind] in Hbody. exists p0, r0.
      split; [reflexivity|]. split; [reflexivity|].
      destruct (negb _); [left|right; exact Hbody].
      injection Hbody as _ <- <-. reflexivity. }
  destruct Hpd as (p2 & r2 & Hpts & Hn & [[= <- <-]|Hin]).
  { rewrite Hpts, Hn. exact Hinv. }
  apply (for_each_ret_inv
           (fun s : gen8_ppgtt_raw * kres =>
              raw8_pt_pages s.1 = raw8_pt_pages p /\
              raw8_num_pd_entries s.1 = raw8_num_pd_entries p)
           _ _ _ _ _) in Hin; [exact Hin| |cbn [fst]; now rewrite Hpts, Hn].
  clear. intros j [p0 r0] ret [p1 r1]. cbn [fst snd].
  unfold gen8_ppgtt_setup_page_tables. intros Hbody Hinv.
  destruct (raw8_pt_pages p0 !! Z.to_nat i) as [[pages|]|];
    try discriminate. cbn [mbind option_bind] in Hbody.
  destruct (pages !! Z.to_nat j) as [[page|]|]; try discriminate.
  cbn [mbind option_bind] in Hbody.
  destruct (pci_map_page env (MAP_PT i j)) as [a|].
  - destruct (raw8_pt_dma_addr p0 !! Z.to_nat i) as [[addrs|]|];
      try discriminate. cbn [mbind option_bind] in Hbody.
    destruct (store_at j a addrs); [|discriminate].
    injection Hbody as <- <- <-. exact Hinv.
  - injection Hbody as <- <- <-. exact Hinv.
Qed.

Lemma gen8_write_pdes_tables ixs p p' :
  for_each ixs (fun i p => gen8_write_pdes hw p i) p = Some p' ->
  raw8_pt_pages p' = raw8_pt_pages p /\
  raw8_num_pd_entries p' = raw8_num_pd_entries p.
Proof.
  intros Hrun.
  apply (for_each_inv
           (fun s => raw8_pt_pages s = raw8_pt_pages p /\
                     raw8_num_pd_entries s = raw8_num_pd_entries p)
           _ _ _ _) in Hrun; [exact Hrun| |now split].
  clear. intros i p0 p1. unfold gen8_write_pdes.
  destruct (raw8_pd_pages p0) as [pds|]; [|discriminate].
  cbn [mbind option_bind].
  destruct (pds !! Z.to_nat i) as [pd|]; [|discriminate].
  cbn [mbind option_bind].
  destruct (for_each _ _ pd); [|discriminate].
  intros [= <-]. tauto.
Qed.

Lemma gen8_max_pdp_small size :
  0 <= size < 2 ^ 60 ->
  s32 (u64 (size + (2 ^ 30 - 1)) / 2 ^ 30) = (size + (2 ^ 30 - 1)) / 2 ^ 30 /\
  0 <= (size + (2 ^ 30 - 1)) / 2 ^ 30.
Proof.
  intros Hsize. unfold s32, u64.
  change (2 ^ 60) with 1152921504606846976 in Hsize.
  change (2 ^ 30) with 1073741824. change (2 ^ 31) with 2147483648.
  change (2 ^ 32) with 4294967296. change (2 ^ 64) with 18446744073709551616.
  rewrite (Z.mod_small (size + _)) by lia.
  assert (0 <= (size + (1073741824 - 1)) / 1073741824 < 2147483648).
  { split; [apply Z.div_pos; lia|apply Z.div_lt_upper_bound; lia]. }
  rewrite Z.mod_small by lia. lia.
Qed.

(** The last step of [gen8_ppgtt_init]: over full directories the clear of
    [0, total) goes through and leaves the scratch encoding everywhere. *)
Lemma gen8_init_clear has_llc scratch p pds m :
  0 <= m <= GEN8_LEGACY_PDPS ->
  raw8_num_pd_entries p = u32 (m * GEN8_PDES_PER_PAGE) ->
  length (present_prefix (gen8_table_pages <$> raw8_pt_pages p))
  = Z.to_nat m ->
  gen8_pages_wf (present_prefix (gen8_table_pages <$> raw8_pt_pages p)) ->
  exists ppgtt tr,
    gen8_ppgtt_clear_range hw (gen8_ppgtt_of_raw has_llc scratch p pds) 0
      (g8_total (gen8_ppgtt_of_raw has_llc scratch p pds)) true
    = Some (ppgtt, tr) /\
    gen8_ppgtt_ok ppgtt /\
    g8_scratch_addr ppgtt = scratch /\
    g8_total ppgtt = m * 2 ^ 30 /\
    forall k, 0 <= k < g8_total ppgtt / PAGE_SIZE ->
      gen8_pte_at ppgtt k
      = Some (gen8_pte_encode hw scratch I915_CACHE_LLC true).
Proof.
  intros Hm Hn1 Hlen Hwf.
  set (ppgtt0 := gen8_ppgtt_of_raw has_llc scratch p pds).
  assert (Hn : u32 (m * GEN8_PDES_PER_PAGE) = m * GEN8_PDES_PER_PAGE).
  { unfold u32, GEN8_LEGACY_PDPS in *.
    change GEN8_PDES_PER_PAGE with 512. change (2 ^ 32) with 4294967296.
    apply Z.mod_small. lia. }
  assert (Htot : g8_total ppgtt0 = m * 2 ^ 30).
  { unfold ppgtt0. cbn [g8_total gen8_ppgtt_of_raw]. rewrite Hn1, Hn.
    unfold u64, GEN8_LEGACY_PDPS in *.
    change GEN8_PDES_PER_PAGE with 512. change GEN8_PTES_PER_PAGE with 512.
    change PAGE_SIZE with 4096. change (2 ^ 30) with 1073741824.
    change (2 ^ 64) with 18446744073709551616.
    rewrite Z.mod_small by lia. lia. }
  assert (Hok0 : gen8_ppgtt_ok ppgtt0).
  { split; [exact Hwf|]. unfold ppgtt0.
    cbn [gen8_pt_pages g8_num_pd_entries g8_total gen8_ppgtt_of_raw].
    rewrite Hlen, Hn1, Hn, Z2Nat.id by apply Hm.
    split; [reflexivity|]. split; [apply Hm|].
    unfold u64, GEN8_LEGACY_PDPS in *.
    change GEN8_PDES_PER_PAGE with 512. change GEN8_PTES_PER_PAGE with 512.
    change PAGE_SIZE with 4096. change (2 ^ 64) with 18446744073709551616.
    apply Z.mod_small. lia. }
  assert (Hsa : g8_scratch_addr ppgtt0 = scratch) by reflexivity.
  clearbody ppgtt0.
  destruct (gen8_clear_range_spec hw ppgtt0 0 (g8_total ppgtt0) true Hok0)
    as (pt & tr & Hclr & Hok1 & _ & Hpte).
  { split; reflexivity. }
  { rewrite Htot. unfold GEN8_LEGACY_PDPS in *. lia. }
  { lia. }
  exists (gen8_set_pt_pages ppgtt0 pt), tr.
  split; [exact Hclr|]. split; [exact Hok1|]. split; [exact Hsa|].
  split; [exact Htot|].
  intros k Hk. rewrite Hpte, Hsa.
  change (g8_total (gen8_set_pt_pages ppgtt0 pt)) with (g8_total ppgtt0) in Hk.
  destruct (decide _) as [|Hne']; [reflexivity|].
  exfalso. apply Hne'. change (0 / PAGE_SIZE) with 0. rewrite Z.add_0_l.
  exact Hk.
Qed.

(** A successful [gen8_ppgtt_init] delivers an address space of [size]
    rounded up to whole gigabytes, at most four, made of full directories
    of full tables in which every entry is the valid encoding of the scratch
    page. *)
Lemma gen8_ppgtt_init_scratch has_llc scratch size r ppgtt r' :
  0 <= size < 2 ^ 60 ->
  gen8_ppgtt_init hw env has_llc scratch size r = Some (0, Some ppgtt, r') ->
  gen8_ppgtt_ok ppgtt /\
  g8_scratch_addr ppgtt = scratch /\
  g8_total ppgtt = (size + (2 ^ 30 - 1)) / 2 ^ 30 * 2 ^ 30 /\
  forall k, 0 <= k < g8_total ppgtt / PAGE_SIZE ->
    gen8_pte_at ppgtt k
    = Some (gen8_pte_encode hw scratch I915_CACHE_LLC true).
Proof.
  intros Hsize. destruct (gen8_max_pdp_small size Hsize) as [Hm Hm0].
  unfold gen8_ppgtt_init. cbv zeta. rewrite Hm.
  set (m := (size + (2 ^ 30 - 1)) / 2 ^ 30) in *. clearbody m. clear Hm.
  destruct (gen8_ppgtt_alloc env gen8_raw_zero m r) as [[[ret p1] r1]|] eqn:Ha;
    [|discriminate]. cbn [mbind option_bind].
  destruct (Z.eqb_spec ret 0) as [->|Hne]; cbn [negb]; [|discriminate].
  destruct (gen8_ppgtt_alloc_ok _ _ _ _ Ha) as (Hmax & Hn1 & Hlen & Hwf).
  destruct (for_each_ret _ _ _) as [[ret2 [p2 r2]]|] eqn:Hmap; [|discriminate].
  cbn [mbind option_bind].
  destruct (gen8_map_loops_tables _ _ _ _ _ _ Hmap) as [Hpts2 Hn2].
  destruct (Z.eqb_spec ret2 0) as [->|Hne]; cbn [negb].
  2:{ destruct (gen8_ppgtt_unmap_pages _ _); [|discriminate].
      cbn [mbind option_bind].
      destruct (gen8_ppgtt_free _ _ _); discriminate. }
  destruct (for_each _ _ p2) as [p3|] eqn:Hpde; [|discriminate].
  cbn [mbind option_bind].
  destruct (gen8_write_pdes_tables _ _ _ Hpde) as [Hpts3 Hn3].
  destruct (raw8_pd_pages p3) as [pds|]; [|discriminate].
  cbn [mbind option_bind].
  destruct (gen8_init_clear has_llc scratch p3 pds m)
    as (ppgtt1 & tr & Hclr & Hfacts).
  { split; assumption. }
  { now rewrite Hn3, Hn2. }
  { now rewrite Hpts3, Hpts2. }
  { now rewrite Hpts3, Hpts2. }
  rewrite Hclr. cbn [mbind option_bind]. intros [= <- <-]. exact Hfacts.
Qed.

(** *** When the environment grants every request *)

Lemma for_each_ret_total {Ix S : Type} (I : S -> Prop) (ixs : list Ix)
    (body : Ix -> S -> option (Z * S)) s :
  (forall i s, i ∈ ixs -> I s -> exists s', body i s = Some (0, s') /\ I s') ->
  I s -> exists s', for_each_ret ixs body s = Some (0, s') /\ I s'.
Proof.
  revert s. induction ixs as [|i ixs IH]; intros s Hbody Hs; simpl; [eauto|].
  destruct (Hbody i s) as (s1 & -> & Hs1); [now left|exact Hs|].
  cbn [mbind option_bind Z.eqb negb].
  apply IH; [|exact Hs1]. intros j s2 Hj. apply Hbody. now right.
Qed.

Lemma store_at_total {A} i (x : A) l :
  0 <= i < Z.of_nat (length l) ->
  store_at i x l = Some (<[Z.to_nat i := x]> l).
Proof.
  intros Hi. unfold store_at. now rewrite bool_decide_eq_true_2.
Qed.

Lemma gen8_alloc_pages_loop_total pd ixs pages r :
  (forall site, alloc_ok env site = true) ->
  exists pages' r',
    gen8_alloc_pages_loop env pd ixs pages r = (true, pages', r').
Proof.
  intros Hok. revert pages r.
  induction ixs as [|i ixs IH]; intros pages r; simpl; [eauto|].
  rewrite Hok. apply IH.
Qed.

Lemma gen8_alloc_page_tables_total pd r :
  (forall site, alloc_ok env site = true) ->
  exists slots r', __gen8_alloc_page_tables env pd r = (Some slots, r').
Proof.
  intros Hok. unfold __gen8_alloc_page_tables. rewrite Hok.
  match goal with
  | |- context [gen8_alloc_pages_loop env pd ?ixs ?pages ?r] =>
      destruct (gen8_alloc_pages_loop_total pd ixs pages r Hok)
        as (pages' & r' & ->)
  end.
  eauto.
Qed.

Lemma gen8_alloc_tables_loop_total ixs pts r :
  (forall site, alloc_ok env site = true) ->
  Forall (fun i => 0 <= i < Z.of_nat (length pts)) ixs ->
  exists pts' r', gen8_alloc_tables_loop env ixs pts r = Some (None, pts', r').
Proof.
  intros Hok. revert pts r.
  induction ixs as [|i ixs IH]; intros pts r Hixs; simpl; [eauto|].
  inversion Hixs as [|? ? Hi Hixs']; subst.
  destruct (gen8_alloc_page_tables_total i r Hok) as (slots & r1 & ->).
  rewrite store_at_total by exact Hi. cbn [mbind option_bind].
  apply IH. now rewrite length_insert.
Qed.

Lemma gen8_allocate_page_tables_total p m r :
  (forall site, alloc_ok env site = true) ->
  Z.of_nat (length (raw8_pt_pages p)) = GEN8_LEGACY_PDPS ->
  m <= GEN8_LEGACY_PDPS ->
  exists p' r',
    gen8_ppgtt_allocate_page_tables env p m r = Some (0, p', r').
Proof.
  intros Hok Hlen Hm. unfold gen8_ppgtt_allocate_page_tables.
  destruct (gen8_alloc_tables_loop_total (seqZ 0 m)
              (replicate (Z.to_nat GEN8_LEGACY_PDPS) None) r Hok)
    as (loc & r1 & Hloop).
  { apply Forall_forall. intros i Hi.
    apply list_elem_of_In, elem_of_seqZ in Hi.
    rewrite length_replicate. unfold GEN8_LEGACY_PDPS in *. lia. }
  rewrite Hloop. cbn [mbind option_bind].
  destruct (gen8_alloc_tables_loop_ok _ _ _ _ _ Hloop) as (Hloc & _ & _).
  rewrite length_replicate in Hloc.
  destruct (for_each_total
              (fun pts : list (option (list (option (list Z)))) =>
                 Z.of_nat (length pts) = GEN8_LEGACY_PDPS)
              (seqZ 0 m)
              (fun i pts => pages ← loc !! Z.to_nat i; store_at i pages pts)
              (raw8_pt_pages p))
    as (pts & -> & _); [|exact Hlen|cbn [mbind option_bind]; eauto].
  intros i pts Hi Hpts. apply elem_of_seqZ in Hi.
  destruct (lookup_lt_is_Some_2 loc (Z.to_nat i)) as [pages ->].
  { rewrite Hloc. apply Z2Nat.inj_lt; lia. }
  cbn [mbind option_bind]. rewrite store_at_total by lia.
  eexists. split; [reflexivity|]. now rewrite length_insert.
Qed.

Lemma gen8_alloc_dma_loop_total ixs p r :
  (forall site, alloc_ok env site = true) ->
  Forall (fun i => 0 <= i < Z.of_nat (length (raw8_pt_dma_addr p))) ixs ->
  exists addrs r',
    gen8_alloc_dma_loop env ixs p r
    = Some (0, raw8_set_pt_dma p addrs, r') /\
    length addrs = length (raw8_pt_dma_addr p) /\
    forall j,
      addrs !! j
      = if decide (Z.of_nat j ∈ ixs)
        then Some (Some (replicate (Z.to_nat GEN8_PDES_PER_PAGE) 0))
        else raw8_pt_dma_addr p !! j.
Proof.
  intros Hok. revert p r.
  induction ixs as [|i ixs IH]; intros p r Hixs; simpl.
  - exists (raw8_pt_dma_addr p), r. split; [now destruct p|].
    split; [reflexivity|]. intros j.
    destruct (decide (Z.of_nat j ∈ [])) as [Hin|]; [inversion Hin|reflexivity].
  - inversion Hixs as [|? ? Hi Hixs']; subst.
    rewrite Hok, store_at_total by exact Hi. cbn [mbind option_bind].
    match goal with
    | |- context [gen8_alloc_dma_loop env ixs ?p1 ?r1] =>
        destruct (IH p1 r1) as (addrs & r' & Hrun & Hlen & Hslots)
    end.
    { cbn [raw8_pt_dma_addr raw8_set_pt_dma]. now rewrite length_insert. }
    cbn [raw8_pt_dma_addr raw8_set_pt_dma] in Hlen, Hslots.
    rewrite length_insert in Hlen.
    exists addrs, r'. split; [exact Hrun|]. split; [exact Hlen|].
    intros j. rewrite Hslots.
    destruct (decide (Z.of_nat j ∈ ixs)) as [Hin|Hnin].
    + destruct (decide (Z.of_nat j ∈ i :: ixs)) as [|Hn]; [reflexivity|].
      exfalso. apply Hn. now right.
    + destruct (decide (Z.of_nat j = i)) as [<-|Hne].
      * destruct (decide (Z.of_nat j ∈ Z.of_nat j :: ixs)) as [|Hn];
          [|exfalso; apply Hn; now left].
        rewrite Nat2Z.id. now rewrite list_lookup_insert_eq by lia.
      * destruct (decide (Z.of_nat j ∈ i :: ixs)) as [Hin|_].
        -- apply elem_of_cons in Hin as [?|?]; [lia|contradiction].
        -- now rewrite list_lookup_insert_ne by lia.
Qed.

Lemma gen8_ppgtt_alloc_total m r :
  (forall site, alloc_ok env site = true) ->
  0 <= m <= gen8_pd_block env m ->
  gen8_pd_block env m <= GEN8_LEGACY_PDPS ->
  exists p1 r1,
    gen8_ppgtt_alloc env gen8_raw_zero m r = Some (0, p1, r1) /\
    gen8_raw_ready m p1.
Proof.
  intros Hok Hm Hn.
  unfold gen8_ppgtt_alloc, gen8_ppgtt_allocate_page_directories.
  rewrite Hok. cbv zeta. rewrite (proj2 (Z.ltb_ge _ _)) by exact Hn.
  cbn [mbind option_bind Z.eqb negb].
  set (n := gen8_pd_block env m) in *.
  match goal with
  | |- context [gen8_ppgtt_allocate_page_tables env ?p m ?r] =>
      set (p0 := p);
      destruct (gen8_allocate_page_tables_total p0 m r Hok)
        as (p1 & r1 & Hpt)
  end.
  { reflexivity. }
  { lia. }
  rewrite Hpt. cbn [mbind option_bind Z.eqb negb].
  apply gen8_allocate_page_tables_ok in Hpt
    as (_ & Hnpp & Hpd & Hpdd & Hptd & Hdirs & _); [|reflexivity].
  change (raw8_num_pd_pages p0) with n in Hnpp.
  unfold gen8_ppgtt_allocate_dma. cbn [raw8_num_pd_pages raw8_set_counts].
  match goal with
  | |- context [gen8_alloc_dma_loop env ?ixs ?p ?r] =>
      destruct (gen8_alloc_dma_loop_total ixs p r Hok)
        as (addrs & r2 & -> & Hlen & Hslots)
  end.
  { cbn [raw8_pt_dma_addr raw8_set_counts]. rewrite Hptd.
    apply Forall_forall. intros i Hi.
    apply list_elem_of_In, elem_of_seqZ in Hi.
    change (raw8_pt_dma_addr p0)
      with (replicate (Z.to_nat GEN8_LEGACY_PDPS) (@None (list Z))).
    rewrite length_replicate. unfold GEN8_LEGACY_PDPS in *. lia. }
  cbn [mbind option_bind Z.eqb negb]. eexists _, _. split; [reflexivity|].
  cbn [raw8_pt_dma_addr raw8_set_counts] in Hlen, Hslots.
  split; [|split; [|split]].
  - cbn [raw8_pd_dma_addr raw8_set_pt_dma raw8_set_counts].
    rewrite Hpdd. reflexivity.
  - cbn [raw8_pd_pages raw8_set_pt_dma raw8_set_counts]. rewrite Hpd.
    eexists. split; [reflexivity|].
    split.
    + rewrite length_fmap, zrange_length. lia.
    + apply Forall_fmap, Forall_forall. intros i _.
      now apply fresh_page_length.
  - intros i Hi. destruct (Hdirs (Z.to_nat i)) as (pages & Hslot & Hwf);
      [lia|].
    exists pages. split; [exact Hslot|apply Hwf].
  - intros i Hi.
    cbn [raw8_pt_dma_addr raw8_set_pt_dma raw8_set_counts].
    rewrite Hslots.
    destruct (decide _) as [_|Hnin].
    + eexists. split; [reflexivity|]. now rewrite length_replicate.
    + exfalso. apply Hnin. apply elem_of_seqZ. rewrite Hnpp. lia.
Qed.

Lemma gen8_setup_page_directories_total m p i r :
  (forall site, is_Some (pci_map_page env site)) ->
  gen8_raw_ready m p -> 0 <= i < m -> m <= GEN8_LEGACY_PDPS ->
  exists s',
    gen8_ppgtt_setup_page_directories env p i r = Some (0, s') /\
    gen8_raw_ready m s'.1.
Proof.
  intros Hmap (H1 & H2 & H3 & H4) Hi Hm.
  unfold gen8_ppgtt_setup_page_directories.
  destruct (Hmap (MAP_PD i)) as [a ->].
  rewrite store_at_total by lia. cbn [mbind option_bind].
  eexists. split; [reflexivity|]. cbn [fst].
  split; [|split; [exact H2|split; [exact H3|exact H4]]].
  cbn [raw8_pd_dma_addr raw8_set_pd_dma]. now rewrite length_insert.
Qed.

Lemma gen8_setup_page_tables_total m p i j r :
  (forall site, is_Some (pci_map_page env site)) ->
  gen8_raw_ready m p -> 0 <= i < m -> 0 <= j < GEN8_PDES_PER_PAGE ->
  exists s',
    gen8_ppgtt_setup_page_tables env p i j r = Some (0, s') /\
    gen8_raw_ready m s'.1.
Proof.
  intros Hmap (H1 & H2 & H3 & H4) Hi Hj.
  unfold gen8_ppgtt_setup_page_tables.
  destruct (H3 i Hi) as (pages & -> & Hlen). cbn [mbind option_bind].
  rewrite list_lookup_fmap.
  destruct (lookup_lt_is_Some_2 pages (Z.to_nat j)) as [pg ->]; [lia|].
  cbn [fmap option_fmap option_map mbind option_bind].
  destruct (Hmap (MAP_PT i j)) as [a ->].
  destruct (H4 i Hi) as (addrs & Hd & Hlena). rewrite Hd.
  cbn [mbind option_bind]. rewrite store_at_total by lia.
  cbn [mbind option_bind]. eexists. split; [reflexivity|]. cbn [fst].
  split; [exact H1|]. split; [exact H2|]. split; [exact H3|].
  intros i' Hi'. cbn [raw8_pt_dma_addr raw8_set_pt_dma].
  destruct (decide (i' = i)) as [->|Hne].
  - rewrite list_lookup_insert_eq by (apply lookup_lt_Some in Hd; lia).
    eexists. split; [reflexivity|]. now rewrite length_insert.
  - rewrite list_lookup_insert_ne by lia. exact (H4 i' Hi').
Qed.

Lemma gen8_map_loops_total m p r :
  (forall site, is_Some (pci_map_page env site)) ->
  gen8_raw_ready m p -> m <= GEN8_LEGACY_PDPS ->
  exists s',
    for_each_ret (seqZ 0 m)
      (fun i (s : gen8_ppgtt_raw * kres) =>
         '(ret, s) ← gen8_ppgtt_setup_page_directories env s.1 i s.2;
         if negb (ret =? 0) then Some (ret, s) else
         for_each_ret (seqZ 0 GEN8_PDES_PER_PAGE)
           (fun j (s : gen8_ppgtt_raw * kres) =>
              gen8_ppgtt_setup_page_tables env s.1 i j s.2) s)
      (p, r) = Some (0, s') /\
    gen8_raw_ready m s'.1.
Proof.
  intros Hmap Hready Hm.
  apply (for_each_ret_total (fun s => gen8_raw_ready m s.1));
    [|exact Hready].
  intros i s Hi Hs. apply elem_of_seqZ in Hi.
  destruct (gen8_setup_page_directories_total m s.1 i s.2 Hmap Hs)
    as (s1 & -> & Hs1); [lia|exact Hm|].
  cbn [mbind option_bind Z.eqb negb].
  apply (for_each_ret_total (fun s => gen8_raw_ready m s.1));
    [|exact Hs1].
  intros j s2 Hj Hs2. apply elem_of_seqZ in Hj.
  apply (gen8_setup_page_tables_total m); auto; lia.
Qed.

Lemma gen8_write_pdes_total m p i :
  gen8_raw_ready m p -> 0 <= i < m ->
  exists p', gen8_write_pdes hw p i = Some p' /\ gen8_raw_ready m p'.
Proof.
  intros (H1 & (pds & Hpds & Hlen & Hall) & H3 & H4) Hi.
  unfold gen8_write_pdes. rewrite Hpds. cbn [mbind option_bind].
  destruct (lookup_lt_is_Some_2 pds (Z.to_nat i)) as [pd Hpd]; [lia|].
  rewrite Hpd. cbn [mbind option_bind].
  destruct (H4 i Hi) as (addrs & Hd & Hlena).
  destruct (for_each_total
              (fun pg : list Z => Z.of_nat (length pg) = GEN8_PDES_PER_PAGE)
              (seqZ 0 GEN8_PDES_PER_PAGE)
              (fun j pd_vaddr =>
                 slot ← raw8_pt_dma_addr p !! Z.to_nat i;
                 addrs ← slot;
                 addr ← addrs !! Z.to_nat j;
                 store_at j (gen8_pde_encode hw addr I915_CACHE_LLC)
                   pd_vaddr) pd)
    as (pd' & -> & Hpd').
  { intros j pg Hj Hpg. apply elem_of_seqZ in Hj.
    rewrite Hd. cbn [mbind option_bind].
    destruct (lookup_lt_is_Some_2 addrs (Z.to_nat j)) as [a ->]; [lia|].
    cbn [mbind option_bind]. rewrite store_at_total by lia.
    eexists. split; [reflexivity|]. now rewrite length_insert. }
  { exact (Forall_lookup_1 _ _ _ _ Hall Hpd). }
  cbn [mbind option_bind]. eexists. split; [reflexivity|].
  split; [exact H1|]. split; [|split; [exact H3|exact H4]].
  cbn [raw8_pd_pages raw8_set_pd_pages]. eexists. split; [reflexivity|].
  rewrite length_insert. split; [exact Hlen|].
  apply Forall_insert; assumption.
Qed.

(** When the environment grants every request and the page-directory block
    it hands out holds the directories without exceeding the four of the
    hardware, [gen8_ppgtt_init] goes through for every size up to 4GB. *)
Lemma gen8_ppgtt_init_total has_llc scratch size r :
  env_grants_all env ->
  0 <= size <= GEN8_LEGACY_PDPS * 2 ^ 30 ->
  (size + (2 ^ 30 - 1)) / 2 ^ 30
  <= gen8_pd_block env ((size + (2 ^ 30 - 1)) / 2 ^ 30) <= GEN8_LEGACY_PDPS ->
  exists ppgtt r',
    gen8_ppgtt_init hw env has_llc scratch size r = Some (0, Some ppgtt, r').
Proof.
  intros (_ & Halloc & Hmap) Hsize Hblock.
  destruct (gen8_max_pdp_small size) as [Hm Hm0].
  { unfold GEN8_LEGACY_PDPS in Hsize.
    change (2 ^ 30) with 1073741824 in Hsize.
    change (2 ^ 60) with 1152921504606846976. lia. }
  unfold gen8_ppgtt_init. cbv zeta. rewrite Hm.
  set (m := (size + (2 ^ 30 - 1)) / 2 ^ 30) in *. clearbody m. clear Hm.
  destruct (gen8_ppgtt_alloc_total m r Halloc) as (p1 & r1 & Ha & Hready1);
    [lia|lia|].
  rewrite Ha. cbn [mbind option_bind Z.eqb negb].
  destruct (gen8_ppgtt_alloc_ok _ _ _ _ Ha) as (Hmax & Hn1 & Hlen & Hwf).
  destruct (gen8_map_loops_total m p1 r1 Hmap Hready1 Hmax)
    as ([p2 r2] & Hrun & Hready2).
  rewrite Hrun. cbn [mbind option_bind Z.eqb negb fst] in Hready2 |- *.
  destruct (gen8_map_loops_tables _ _ _ _ _ _ Hrun) as [Hpts2 Hn2].
  destruct (for_each_total (gen8_raw_ready m) (seqZ 0 m)
              (fun i p => gen8_write_pdes hw p i) p2)
    as (p3 & Hpde & Hready3); [|exact Hready2|].
  { intros i p Hi Hp. apply elem_of_seqZ in Hi.
    apply gen8_write_pdes_total; [exact Hp|lia]. }
  rewrite Hpde. cbn [mbind option_bind].
  destruct (gen8_write_pdes_tables _ _ _ Hpde) as [Hpts3 Hn3].
  destruct Hready3 as (_ & (pds & -> & _) & _). cbn [mbind option_bind].
  destruct (gen8_init_clear has_llc scratch p3 pds m)
    as (ppgtt1 & tr & -> & _).
  { split; assumption. }
  { now rewrite Hn3, Hn2. }
  { now rewrite Hpts3, Hpts2. }
  { now rewrite Hpts3, Hpts2. }
  cbn [mbind option_bind]. eauto.
Qed.

End gen8_init_facts.

(** X1.  For both page-table allocator variants, a successful
    initialisation ([gen6_ppgtt_init], or [gen8_ppgtt_init] for a size
    below 2^60 bytes) returns an address space whose tables are all there
    and in which every entry of [0, total) holds the valid encoding of the
    scratch page: the last thing initialisation does to the tables is the
    clear of the whole span.  The gen6 space is 512 tables of 1024 entries,
    the gen8 space the size rounded up to whole gigabytes. *)
Theorem ppgtt_init_leaves_scratch_everywhere (hw : pte_hw) (env : kenv) :
  (forall dev scratch encode r ppgtt r',
     gen6_ppgtt_init hw env dev scratch encode r = Some (0, Some ppgtt, r') ->
     gen6_ppgtt_ok ppgtt /\
     total ppgtt = GEN6_PPGTT_PD_ENTRIES * I915_PPGTT_PT_ENTRIES * PAGE_SIZE /\
     forall k, 0 <= k < total ppgtt / PAGE_SIZE ->
       gen6_pte_at ppgtt k
       = Some (fst (encode scratch I915_CACHE_LLC true 0))) /\
  (forall has_llc scratch size r ppgtt r',
     0 <= size < 2 ^ 60 ->
     gen8_ppgtt_init hw env has_llc scratch size r
     = Some (0, Some ppgtt, r') ->
     gen8_ppgtt_ok ppgtt /\
     g8_total ppgtt = (size + (2 ^ 30 - 1)) / 2 ^ 30 * 2 ^ 30 /\
     forall k, 0 <= k < g8_total ppgtt / PAGE_SIZE ->
       gen8_pte_at ppgtt k
       = Some (gen8_pte_encode hw scratch I915_CACHE_LLC true)).
Proof.
  split.
  - intros dev scratch encode r ppgtt r' Hinit.
    destruct (gen6_ppgtt_init_scratch hw env _ _ _ _ _ _ Hinit)
      as (Hok & _ & _ & _ & Htot & Hpte).
    auto.
  - intros has_llc scratch size r ppgtt r' Hsize Hinit.
    destruct (gen8_ppgtt_init_scratch hw env _ _ _ _ _ _ Hsize Hinit)
      as (Hok & _ & Htot & Hpte).
    auto.
Qed.

Lemma env_all_ok_grants_all : env_grants_all env_all_ok.
Proof.
  split; [reflexivity|]. split; [reflexivity|].
  intros [pd|pd i]; eexists; reflexivity.
Qed.

Lemma ppgtt_init_leaves_scratch_everywhere_witness :
  (exists ppgtt r',
     gen6_ppgtt_init i915_hw env_all_ok DEV_GEN6 28672
       (snb_pte_encode i915_hw) res_empty
     = Some (0, Some ppgtt, r') /\
     gen6_pte_at ppgtt 0 = Some 28677 /\
     gen6_pte_at ppgtt 524287 = Some 28677) /\
  (exists ppgtt r',
     0 <= 2147483648 < 2 ^ 60 /\
     gen8_ppgtt_init i915_hw env_all_ok true 28672 2147483648 res_empty
     = Some (0, Some ppgtt, r') /\
     gen8_pte_at ppgtt 0 = Some 28803 /\
     gen8_pte_at ppgtt 524287 = Some 28803).
Proof.
  split.
  - destruct (gen6_ppgtt_init_total i915_hw env_all_ok DEV_GEN6 28672
                (snb_pte_encode i915_hw) res_empty env_all_ok_grants_all)
      as (ppgtt & r' & Hinit); [discriminate|].
    exists ppgtt, r'. split; [exact Hinit|].
    destruct (proj1 (ppgtt_init_leaves_scratch_everywhere i915_hw env_all_ok)
                _ _ _ _ _ _ Hinit) as (_ & Htot & Hpte).
    split;
      (rewrite Hpte;
       [reflexivity|rewrite Htot; vm_compute; split; congruence]).
  - assert (Hsize : 0 <= 2147483648 < 2 ^ 60)
      by (vm_compute; split; congruence).
    destruct (gen8_ppgtt_init_total i915_hw env_all_ok true 28672 2147483648
                res_empty env_all_ok_grants_all)
      as (ppgtt & r' & Hinit).
    { vm_compute; split; congruence. }
    { vm_compute; split; congruence. }
    exists ppgtt, r'. split; [exact Hsize|]. split; [exact Hinit|].
    destruct (proj2 (ppgtt_init_leaves_scratch_everywhere i915_hw env_all_ok)
                _ _ _ _ _ _ Hsize Hinit) as (_ & Htot & Hpte).
    split;
      (rewrite Hpte;
       [reflexivity|rewrite Htot; vm_compute; split; congruence]).
Defined.

(** *** What initialisation takes and gives back *)

Lemma kres_ext (r r' : kres) :
  mm_nodes r = mm_nodes r' -> pages_live r = pages_live r' ->
  kmem_live r = kmem_live r' -> dma_live r = dma_live r' ->
  dma_stray r = dma_stray r' -> gsm_writes r = gsm_writes r' -> r = r'.
Proof. destruct r, r'. simpl. now intros -> -> -> -> -> ->. Qed.

Lemma res_take_nothing r : res_take r [] 0 0 [] = r.
Proof. apply kres_ext; simpl; auto; lia. Qed.

Lemma res_take_take r n1 p1 k1 d1 n2 p2 k2 d2 :
  res_take (res_take r n1 p1 k1 d1) n2 p2 k2 d2
  = res_take r (n2 ++ n1) (p1 + p2) (k1 + k2) (d2 ++ d1).
Proof. apply kres_ext; simpl; auto using app_assoc; lia. Qed.

Lemma for_each_ext {Ix S : Type} (ixs : list Ix)
    (body body' : Ix -> S -> option S) s :
  (forall i s, i ∈ ixs -> body i s = body' i s) ->
  for_each ixs body s = for_each ixs body' s.
Proof.
  revert s. induction ixs as [|i ixs IH]; intros s Hext; simpl; [reflexivity|].
  rewrite Hext by now left. destruct (body' i s) as [s1|]; simpl; [|reflexivity].
  apply IH. intros j s2 Hj. apply Hext. now right.
Qed.

Lemma for_each_fmap {Ix Jx S : Type} (f : Ix -> Jx) (ixs : list Ix)
    (body : Jx -> S -> option S) s :
  for_each (f <$> ixs) body s = for_each ixs (fun i => body (f i)) s.
Proof.
  revert s. induction ixs as [|i ixs IH]; intros s; simpl; [reflexivity|].
  destruct (body (f i) s) as [s1|]; simpl; [apply IH|reflexivity].
Qed.

Lemma seqZ_of_nat n : seqZ 0 (Z.of_nat n) = Z.of_nat <$> seq 0 n.
Proof.
  unfold seqZ. rewrite Nat2Z.id. apply list_fmap_ext.
  intros i x _. lia.
Qed.

(** A loop that reads [l[i]] for every index of [l] is a fold over [l]. *)
Lemma for_each_lookup_foldl {A S : Type} (g : A -> S -> S) (l : list A) :
  forall (pre : list A) s,
  for_each (seq (length pre) (length l))
    (fun i s => a ← (pre ++ l) !! i; Some (g a s)) s
  = Some (foldl (fun s a => g a s) s l).
Proof.
  induction l as [|a l IH]; intros pre s; [reflexivity|].
  cbn [length seq for_each foldl].
  rewrite list_lookup_middle by reflexivity. cbn [mbind option_bind].
  specialize (IH (pre ++ [a]) (g a s)).
  rewrite length_app, Nat.add_1_r, <- app_assoc in IH. exact IH.
Qed.

Lemma for_each_seqZ_foldl {A S : Type} (g : A -> S -> S) (l : list A) s :
  for_each (seqZ 0 (Z.of_nat (length l)))
    (fun i s => a ← l !! Z.to_nat i; Some (g a s)) s
  = Some (foldl (fun s a => g a s) s l).
Proof.
  rewrite seqZ_of_nat, for_each_fmap.
  rewrite <- (for_each_lookup_foldl g l [] s).
  apply for_each_ext. intros i s' _. now rewrite Nat2Z.id.
Qed.

Lemma remove_one_app_in `{EqDecision A} (x : A) (l1 l2 : list A) :
  x ∈ l1 -> remove_one x (l1 ++ l2) = remove_one x l1 ++ l2.
Proof.
  induction l1 as [|y l1 IH]; intros Hin; [inversion Hin|]. simpl.
  destruct (decide (x = y)); [reflexivity|].
  apply elem_of_cons in Hin as [?|Hin]; [contradiction|].
  now rewrite IH.
Qed.

Lemma remove_one_perm `{EqDecision A} (x : A) (l : list A) :
  x ∈ l -> l ≡ₚ x :: remove_one x l.
Proof.
  induction l as [|y l IH]; intros Hin; [inversion Hin|]. simpl.
  destruct (decide (x = y)) as [->|Hne]; [reflexivity|].
  apply elem_of_cons in Hin as [?|Hin]; [contradiction|].
  rewrite (IH Hin) at 1. apply Permutation_swap.
Qed.

(** Unmapping, in any order, the addresses that were mapped last leaves the
    mappings there were before, and gives [pci_unmap_page] nothing that was
    not mapped. *)
Lemma unmap_fold_restores (l : list Z) :
  forall pre old r,
  pre ≡ₚ l -> dma_live r = pre ++ old ->
  foldl (fun r a => pci_unmap_page a r) r l
  = res_set_dma r old (dma_stray r).
Proof.
  induction l as [|a l IH]; intros pre old r Hperm Hlive.
  - apply Permutation_nil_r in Hperm. subst pre. simpl in *.
    apply kres_ext; simpl; auto.
  - assert (Hin : a ∈ pre) by (rewrite Hperm; now left).
    cbn [foldl]. unfold pci_unmap_page at 2.
    rewrite bool_decide_eq_true_2 by (rewrite Hlive; apply elem_of_app; auto).
    assert (Hperm' : remove_one a pre ≡ₚ l).
    { apply (Permutation_cons_inv (a := a)).
      now rewrite <- (remove_one_perm a pre Hin). }
    rewrite (IH (remove_one a pre) old _ Hperm'); [reflexivity|].
    cbn [dma_live res_set_dma].
    now rewrite Hlive, remove_one_app_in by exact Hin.
Qed.

Section gen6_resources.
Context (hw : pte_hw) (env : kenv).

Lemma gen6_allocate_page_directories_res p r p' r' :
  gen6_ppgtt_allocate_page_directories env p r = (0, p', r') ->
  exists start,
    (exists retried, start = (drm_mm_insert_node env retried).2) /\
    raw_node p' = (start, GEN6_PD_SIZE) /\
    r' = res_take r [(start, GEN6_PD_SIZE)] 0 0 [].
Proof.
  unfold gen6_ppgtt_allocate_page_directories.
  destruct (drm_mm_insert_node env false) as [ret start] eqn:Hfirst.
  destruct (ret =? 0) eqn:Hret.
  - apply Z.eqb_eq in Hret as ->. simpl. intros [= <- <-].
    exists start. split; [exists false; now rewrite Hfirst|].
    split; [reflexivity|]. apply kres_ext; simpl; auto; lia.
  - destruct (ret =? - ENOSPC) eqn:Hspc.
    + destruct (i915_gem_evict_something env =? 0) eqn:Hev.
      * destruct (drm_mm_insert_node env true) as [ret2 start2] eqn:Hsecond.
        destruct (ret2 =? 0) eqn:Hret2; intros [= Hz <- <-].
        -- exists start2. split; [exists true; now rewrite Hsecond|].
           split; [reflexivity|].
           apply kres_ext; simpl; auto; lia.
        -- rewrite Hz in Hret2. discriminate.
      * intros [= Hz]. rewrite Hz in Hev. discriminate.
    + intros [= Hz <- <-]. rewrite Hz in Hret. discriminate.
Qed.

Lemma gen6_alloc_pages_loop_res ixs pages r pages' r' :
  gen6_alloc_pages_loop env ixs pages r = (true, pages', r') ->
  r' = res_take r [] (Z.of_nat (length ixs)) 0 [].
Proof.
  revert pages r. induction ixs as [|i ixs IH]; intros pages r; simpl.
  - intros [= _ <-]. now rewrite res_take_nothing.
  - destruct (alloc_ok env (PT_PAGE 0 i)); [|discriminate].
    intros Hrun. rewrite (IH _ _ Hrun).
    apply kres_ext; simpl; auto; lia.
Qed.

Lemma gen6_allocate_page_tables_res p r p' r' :
  0 <= raw_num_pd_entries p ->
  gen6_ppgtt_allocate_page_tables env p r = Some (0, p', r') ->
  raw_node p' = raw_node p /\
  r' = res_take r [] (raw_num_pd_entries p) 1 [].
Proof.
  intros Hn. unfold gen6_ppgtt_allocate_page_tables.
  destruct (alloc_ok env (PT_ARRAY 0)); [|discriminate].
  destruct (gen6_alloc_pages_loop _ _ _ _) as [[ok slots] r1] eqn:Hloop.
  destruct ok.
  2:{ destruct (gen6_ppgtt_free _ _); discriminate. }
  intros [= <- <-]. split; [reflexivity|].
  rewrite (gen6_alloc_pages_loop_res _ _ _ _ _ Hloop), length_seqZ.
  apply kres_ext; simpl; auto; lia.
Qed.

Lemma gen6_ppgtt_alloc_res r p' r' :
  gen6_ppgtt_alloc env gen6_raw_zero r = Some (0, p', r') ->
  exists start,
    (exists retried, start = (drm_mm_insert_node env retried).2) /\
    raw_node p' = (start, GEN6_PD_SIZE) /\
    r' = res_take r [(start, GEN6_PD_SIZE)] GEN6_PPGTT_PD_ENTRIES 2 [].
Proof.
  unfold gen6_ppgtt_alloc.
  destruct (gen6_ppgtt_allocate_page_directories env gen6_raw_zero r)
    as [[ret p1] r1] eqn:Hpd.
  destruct (Z.eqb_spec ret 0) as [->|Hne]; simpl;
    [|intros [= -> _ _]; contradiction].
  destruct (gen6_allocate_page_directories_ok _ _ _ _ _ Hpd) as (Hn1 & _ & _).
  destruct (gen6_allocate_page_directories_res _ _ _ _ Hpd)
    as (start & Hwhich & Hnode & ->).
  destruct (gen6_ppgtt_allocate_page_tables env p1 _)
    as [[[ret2 p2] r2]|] eqn:Hpt; [|discriminate]. simpl.
  destruct (Z.eqb_spec ret2 0) as [->|Hne]; simpl;
    [|intros [= -> _ _]; contradiction].
  destruct (gen6_allocate_page_tables_res _ _ _ _
              ltac:(rewrite Hn1; discriminate) Hpt) as [Hnode2 ->].
  destruct (alloc_ok env (PT_DMA_ARRAY 0)).
  - intros [= <- <-]. exists start. cbn [raw_node].
    split; [exact Hwhich|]. split; [congruence|]. rewrite Hn1.
    apply kres_ext; simpl; auto; lia.
  - destruct (gen6_ppgtt_free _ _); discriminate.
Qed.

(** The mapping loop over the slots [k], ..., [k + m - 1]: the addresses it
    got are in those slots and, last first, at the head of the mappings. *)
Lemma gen6_map_pages_loop_res m : forall k addrs r addrs' r',
  (k + m <= length addrs)%nat ->
  gen6_map_pages_loop env (seqZ (Z.of_nat k) (Z.of_nat m)) addrs r
  = (true, addrs', r') ->
  exists l,
    length l = m /\
    addrs' = take k addrs ++ l ++ drop (k + m) addrs /\
    r' = res_take r [] 0 0 (reverse l).
Proof.
  induction m as [|m IH]; intros k addrs r addrs' r' Hlen.
  - simpl. intros [= <- <-]. exists []. split; [reflexivity|].
    rewrite Nat.add_0_r. simpl. rewrite take_drop.
    split; [reflexivity|]. now rewrite res_take_nothing.
  - rewrite seqZ_cons by lia. cbn [gen6_map_pages_loop].
    destruct (pci_map_page env (MAP_PT 0 (Z.of_nat k))) as [a|];
      [|discriminate].
    replace (Z.succ (Z.of_nat k)) with (Z.of_nat (S k)) by lia.
    replace (Z.pred (Z.of_nat (S m))) with (Z.of_nat m) by lia.
    rewrite Nat2Z.id. intros Hrun.
    apply IH in Hrun as (l & Hl & -> & ->); [|rewrite length_insert; lia].
    exists (a :: l). split; [simpl; now rewrite Hl|]. split.
    + replace (k + S m)%nat with (S k + m)%nat by lia.
      rewrite (take_S_r _ _ a) by (apply list_lookup_insert_eq; lia).
      rewrite take_insert_ge by lia. rewrite drop_insert_lt by lia.
      now rewrite <- app_assoc.
    + rewrite reverse_cons. apply kres_ext; simpl; auto; try lia.
      now rewrite <- app_assoc.
Qed.

Lemma gen6_setup_page_tables_res p r p' r' addrs :
  raw_pt_dma_addr p = Some addrs ->
  Z.of_nat (length addrs) = raw_num_pd_entries p ->
  gen6_ppgtt_setup_page_tables env p r = Some (0, p', r') ->
  exists l,
    raw_pt_dma_addr p' = Some l /\ length l = length addrs /\
    r' = res_take r [] 0 0 (reverse l).
Proof.
  intros Haddrs Hlen. unfold gen6_ppgtt_setup_page_tables.
  rewrite Haddrs, <- Hlen. cbn [mbind option_bind].
  destruct (gen6_map_pages_loop _ _ _ _) as [[ok addrs'] r1] eqn:Hloop.
  destruct ok.
  2:{ destruct (gen6_ppgtt_unmap_pages _ _); discriminate. }
  intros [= <- <-].
  apply (gen6_map_pages_loop_res (length addrs) 0) in Hloop
    as (l & Hl & -> & ->); [|lia].
  exists l. cbn [raw_pt_dma_addr Nat.add].
  rewrite take_0, drop_all, app_nil_r. auto.
Qed.

(** The page-directory entry written for the table at [pt_addr]. *)
Lemma write_pdes_loop (base : Z) (f : Z -> Z) (l : list Z) :
  forall (pre : list Z) r,
  for_each (seq (length pre) (length l))
    (fun i r =>
       a ← (pre ++ l) !! i;
       Some (res_set_gsm r (gsm_writes r ++ [(base + Z.of_nat i, f a)]))) r
  = Some (res_set_gsm r
            (gsm_writes r
             ++ imap (fun j a => (base + Z.of_nat (length pre + j), f a)) l)).
Proof.
  induction l as [|a l IH]; intros pre r.
  - cbn [length seq for_each imap]. rewrite app_nil_r. f_equal.
    now apply kres_ext.
  - cbn [length seq for_each].
    rewrite list_lookup_middle by reflexivity. cbn [mbind option_bind].
    specialize (IH (pre ++ [a])
                  (res_set_gsm r
                     (gsm_writes r ++ [(base + Z.of_nat (length pre), f a)]))).
    rewrite length_app, Nat.add_1_r, <- app_assoc in IH.
    cbn [app] in IH. rewrite IH. f_equal.
    apply kres_ext; try reflexivity.
    cbn [gsm_writes res_set_gsm]. rewrite <- app_assoc. f_equal.
    rewrite imap_cons. cbn [app]. rewrite Nat.add_0_r. f_equal.
    apply imap_ext. intros j x _. cbn. do 3 f_equal. lia.
Qed.

Lemma gen6_write_pdes_spec ppgtt r :
  Z.of_nat (length (pt_dma_addr ppgtt)) = num_pd_entries ppgtt ->
  gen6_write_pdes hw ppgtt r
  = Some (res_set_gsm r
            (gsm_writes r
             ++ imap (fun i a =>
                        (pd_offset ppgtt / 4 + Z.of_nat i,
                         u32 (Z.lor (u32 (GEN6_PDE_ADDR_ENCODE hw a))
                                (GEN6_PDE_VALID hw))))
                  (pt_dma_addr ppgtt))).
Proof.
  intros Hlen. unfold gen6_write_pdes.
  rewrite <- Hlen, seqZ_of_nat, for_each_fmap.
  pose proof (write_pdes_loop (pd_offset ppgtt / 4)
                (fun a => u32 (Z.lor (u32 (GEN6_PDE_ADDR_ENCODE hw a))
                                 (GEN6_PDE_VALID hw)))
                (pt_dma_addr ppgtt) [] r) as Hloop.
  cbn [length app Nat.add] in Hloop. rewrite <- Hloop.
  apply for_each_ext. intros i s _. now rewrite Nat2Z.id.
Qed.

(** What a successful [gen6_ppgtt_init] holds when it returns: the node of
    the page directory, the pages of the tables, the two arrays, and one
    mapping for each address in [pt_dma_addr]. *)
Lemma gen6_ppgtt_init_res dev scratch encode r ppgtt r' :
  gen6_ppgtt_init hw env dev scratch encode r = Some (0, Some ppgtt, r') ->
  exists start ws,
    (exists retried, start = (drm_mm_insert_node env retried).2) /\
    node ppgtt = (start, GEN6_PD_SIZE) /\
    num_pd_entries ppgtt = GEN6_PPGTT_PD_ENTRIES /\
    Z.of_nat (length (pt_pages ppgtt)) = GEN6_PPGTT_PD_ENTRIES /\
    Z.of_nat (length (pt_dma_addr ppgtt)) = GEN6_PPGTT_PD_ENTRIES /\
    pd_offset ppgtt = u32 (start / PAGE_SIZE * 4) /\
    ws = gsm_writes r
         ++ imap (fun i a =>
                    (pd_offset ppgtt / 4 + Z.of_nat i,
                     u32 (Z.lor (u32 (GEN6_PDE_ADDR_ENCODE hw a))
                            (GEN6_PDE_VALID hw))))
              (pt_dma_addr ppgtt) /\
    r' = res_set_gsm
           (res_take r [(start, GEN6_PD_SIZE)] GEN6_PPGTT_PD_ENTRIES 2
              (reverse (pt_dma_addr ppgtt))) ws.
Proof.
  unfold gen6_ppgtt_init.
  destruct (match dev with DEV_OTHER => None | _ => Some _ end) as [sw|];
    [|discriminate]. simpl.
  destruct (gen6_ppgtt_alloc env gen6_raw_zero r) as [[[ret p1] r1]|] eqn:Ha;
    [|discriminate]. simpl.
  destruct (Z.eqb_spec ret 0) as [->|Hne]; simpl; [|discriminate].
  destruct (gen6_ppgtt_alloc_ok _ _ _ _ _ Ha)
    as (Hn1 & Hdma1 & pages & Hpages & Hlen & Hwf).
  destruct (gen6_ppgtt_alloc_res _ _ _ Ha) as (start & Hwhich & Hnode1 & ->).
  destruct (gen6_ppgtt_setup_page_tables env p1 _)
    as [[[ret2 p2] r2]|] eqn:Hs; [|discriminate]. simpl.
  destruct (Z.eqb_spec ret2 0) as [->|Hne]; simpl.
  2:{ destruct (gen6_ppgtt_free p2 r2); discriminate. }
  destruct (gen6_setup_page_tables_ok _ _ _ _ _ Hs)
    as (Hn2 & Hp2 & Hnode2 & _).
  destruct (gen6_setup_page_tables_res _ _ _ _ _ Hdma1
              ltac:(rewrite length_replicate, Hn1; reflexivity) Hs)
    as (l & Haddrs & Hl & ->).
  rewrite length_replicate in Hl.
  rewrite Hp2, Hpages, Haddrs. cbn [mbind option_bind].
  rewrite mapM_id_Some. cbn [mbind option_bind]. cbv zeta.
  match goal with
  | |- context [gen6_ppgtt_clear_range ?p _ _ _] => set (ppgtt0 := p)
  end.
  assert (Hn : num_pd_entries ppgtt0 = GEN6_PPGTT_PD_ENTRIES)
    by exact (eq_trans Hn2 Hn1).
  assert (Htot : total ppgtt0 =
            GEN6_PPGTT_PD_ENTRIES * I915_PPGTT_PT_ENTRIES * PAGE_SIZE)
    by (unfold ppgtt0; cbn [total]; now rewrite Hn2, Hn1).
  assert (Hok0 : gen6_ppgtt_ok ppgtt0).
  { split; [exact Hwf|]. split; [now rewrite Hn|]. split; [|reflexivity].
    rewrite Hn. apply Z.le_refl. }
  assert (Hnd : node ppgtt0 = (start, GEN6_PD_SIZE))
    by exact (eq_trans Hnode2 Hnode1).
  assert (Hda : pt_dma_addr ppgtt0 = l) by reflexivity.
  assert (Hpo : pd_offset ppgtt0 = u32 (start / PAGE_SIZE * 4)).
  { unfold ppgtt0. cbn [pd_offset]. now rewrite Hnode2, Hnode1. }
  change (raw_num_pd_entries p2 * I915_PPGTT_PT_ENTRIES * PAGE_SIZE)
    with (total ppgtt0).
  clearbody ppgtt0.
  destruct (gen6_clear_range_spec ppgtt0 0 (total ppgtt0) true Hok0)
    as (pt & tr & Hclr & (_ & Hlen1 & _) & _).
  { lia. }
  { rewrite Htot. now vm_compute. }
  { lia. }
  rewrite Hclr. cbn [mbind option_bind].
  rewrite gen6_write_pdes_spec.
  2:{ change (pt_dma_addr (gen6_set_pt_pages ppgtt0 pt))
        with (pt_dma_addr ppgtt0).
      change (num_pd_entries (gen6_set_pt_pages ppgtt0 pt))
        with (num_pd_entries ppgtt0).
      rewrite Hda, Hl, Hn. reflexivity. }
  cbn [mbind option_bind]. intros [= <- <-].
  change (pt_dma_addr (gen6_set_pt_pages ppgtt0 pt)) with (pt_dma_addr ppgtt0).
  change (pd_offset (gen6_set_pt_pages ppgtt0 pt)) with (pd_offset ppgtt0).
  eexists start, _. split; [exact Hwhich|].
  split; [exact Hnd|]. split; [exact Hn|].
  split; [now rewrite Hlen1|].
  rewrite Hda. split; [rewrite Hl; reflexivity|].
  split; [exact Hpo|]. split; [reflexivity|].
  rewrite res_take_take. cbn [gsm_writes res_take].
  f_equal. apply kres_ext; simpl; rewrite ?app_nil_r; auto; lia.
Qed.

Lemma free_pages_fold (pages : list (list Z)) r :
  foldl (fun r (_ : list Z) => res_set_pages r (pages_live r - 1)) r pages
  = res_set_pages r (pages_live r - Z.of_nat (length pages)).
Proof.
  revert r. induction pages as [|pg pages IH]; intros r.
  - simpl. apply kres_ext; simpl; auto; lia.
  - cbn [foldl length]. rewrite IH. apply kres_ext; simpl; auto; lia.
Qed.

(** [gen6_ppgtt_cleanup] gives back what the address space holds. *)
Lemma gen6_ppgtt_cleanup_res ppgtt r ws :
  Z.of_nat (length (pt_pages ppgtt)) = num_pd_entries ppgtt ->
  Z.of_nat (length (pt_dma_addr ppgtt)) = num_pd_entries ppgtt ->
  gen6_ppgtt_cleanup ppgtt
    (res_set_gsm
       (res_take r [node ppgtt] (num_pd_entries ppgtt) 2
          (reverse (pt_dma_addr ppgtt))) ws)
  = Some (res_set_gsm r ws).
Proof.
  intros Hpages Hdma. unfold gen6_ppgtt_cleanup, gen6_ppgtt_unmap_pages.
  cbn [raw_pt_dma_addr raw_num_pd_entries].
  rewrite <- Hdma at 1.
  rewrite (for_each_seqZ_foldl pci_unmap_page).
  rewrite (unmap_fold_restores _ (reverse (pt_dma_addr ppgtt)) (dma_live r))
    by (try apply reverse_Permutation; reflexivity).
  cbn [mbind option_bind]. unfold gen6_ppgtt_free.
  cbn [raw_pt_dma_addr raw_num_pd_entries raw_pt_pages kfree].
  rewrite <- Hpages at 1.
  rewrite (for_each_ext _ _
             (fun i r => pg ← pt_pages ppgtt !! Z.to_nat i;
                         Some (res_set_pages r (pages_live r - 1)))).
  2:{ intros i s _. cbn [mbind option_bind]. rewrite list_lookup_fmap.
      now destruct (pt_pages ppgtt !! Z.to_nat i). }
  rewrite (for_each_seqZ_foldl
             (fun (_ : list Z) r => res_set_pages r (pages_live r - 1))).
  cbn [mbind option_bind]. rewrite free_pages_fold. f_equal.
  apply kres_ext; simpl; auto; try lia.
  destruct (decide (node ppgtt = node ppgtt)); [reflexivity|contradiction].
Qed.

(** *** The error path of the mapping loop *)

Lemma remove_one_length `{EqDecision A} (x : A) (l : list A) :
  x ∈ l -> S (length (remove_one x l)) = length l.
Proof.
  induction l as [|y l IH]; intros Hin; [inversion Hin|]. simpl.
  destruct (decide (x = y)); [reflexivity|].
  apply elem_of_cons in Hin as [?|Hin]; [contradiction|].
  simpl. now rewrite IH.
Qed.

Lemma unmap_fold_frame (l : list Z) : forall r,
  exists live stray,
    foldl (fun r a => pci_unmap_page a r) r l = res_set_dma r live stray /\
    dma_balance (res_set_dma r live stray)
    = dma_balance r - Z.of_nat (length l).
Proof.
  induction l as [|a l IH]; intros r.
  - exists (dma_live r), (dma_stray r). simpl. split.
    + now apply kres_ext.
    + unfold dma_balance. simpl. lia.
  - cbn [foldl]. destruct (IH (pci_unmap_page a r)) as (live & stray & -> & Hb).
    exists live, stray. split.
    + unfold pci_unmap_page. now destruct (bool_decide _); apply kres_ext.
    + revert Hb. unfold dma_balance, pci_unmap_page.
      destruct (bool_decide_reflect (a ∈ dma_live r)) as [Hin|_];
        cbn [dma_live dma_stray res_set_dma length].
      * apply remove_one_length in Hin. lia.
      * lia.
Qed.

Lemma gen6_unmap_pages_frame p r addrs :
  raw_pt_dma_addr p = Some addrs ->
  Z.of_nat (length addrs) = raw_num_pd_entries p ->
  exists live stray,
    gen6_ppgtt_unmap_pages p r = Some (res_set_dma r live stray) /\
    dma_balance (res_set_dma r live stray)
    = dma_balance r - raw_num_pd_entries p.
Proof.
  intros Haddrs Hlen. unfold gen6_ppgtt_unmap_pages.
  rewrite Haddrs, <- Hlen, (for_each_seqZ_foldl pci_unmap_page).
  destruct (unmap_fold_frame addrs r) as (live & stray & -> & Hb). eauto.
Qed.

Lemma gen6_ppgtt_free_res p r pages :
  raw_pt_pages p = Some (Some <$> pages) ->
  Z.of_nat (length pages) = raw_num_pd_entries p ->
  gen6_ppgtt_free p r
  = Some (kfree (raw_pt_pages p)
            (res_set_pages (kfree (raw_pt_dma_addr p) r)
               (pages_live r - raw_num_pd_entries p))).
Proof.
  intros Hpages Hlen. unfold gen6_ppgtt_free. rewrite <- Hlen at 1.
  rewrite (for_each_ext _ _
             (fun i r => pg ← pages !! Z.to_nat i;
                         Some (res_set_pages r (pages_live r - 1)))).
  2:{ intros i s _. rewrite Hpages. cbn [mbind option_bind].
      rewrite list_lookup_fmap. now destruct (pages !! Z.to_nat i). }
  rewrite (for_each_seqZ_foldl
             (fun (_ : list Z) r => res_set_pages r (pages_live r - 1))).
  cbn [mbind option_bind]. rewrite free_pages_fold, Hlen. do 2 f_equal.
  destruct (raw_pt_dma_addr p); reflexivity.
Qed.

(** When one of the mappings fails the loop stops there, having mapped
    fewer pages than it was asked to. *)
Lemma gen6_map_pages_loop_fails ixs : forall addrs r k,
  k ∈ ixs -> pci_map_page env (MAP_PT 0 k) = None ->
  exists addrs' live,
    gen6_map_pages_loop env ixs addrs r
    = (false, addrs', res_set_dma r live (dma_stray r)) /\
    length addrs' = length addrs /\
    (length live < length (dma_live r) + length ixs)%nat.
Proof.
  induction ixs as [|i ixs IH]; intros addrs r k Hin Hk; [inversion Hin|].
  cbn [gen6_map_pages_loop].
  destruct (pci_map_page env (MAP_PT 0 i)) as [a|] eqn:Hi.
  - apply elem_of_cons in Hin as [->|Hin]; [congruence|].
    destruct (IH (<[Z.to_nat i := a]> addrs)
                (res_set_dma r (a :: dma_live r) (dma_stray r)) k Hin Hk)
      as (addrs' & live & -> & Hlen & Hlive).
    exists addrs', live. rewrite length_insert in Hlen.
    split; [|split; [exact Hlen|simpl in *; lia]].
    do 2 f_equal.
  - exists addrs, (dma_live r). split; [|simpl; split; [reflexivity|lia]].
    do 2 f_equal. now apply kres_ext.
Qed.

End gen6_resources.

(** *** What the gen8 initialisation takes and gives back *)

Section gen8_resources.
Context (hw : pte_hw) (env : kenv).

Lemma gen8_free_page_tables_fold (l : list (list Z)) n r :
  gen8_free_page_tables (Some ((Some <$> l) ++ replicate n None)) r
  = res_set_pages r (pages_live r - Z.of_nat (length l)).
Proof.
  unfold gen8_free_page_tables. rewrite foldl_app.
  assert (Hnone : forall s : kres,
             foldl (fun r (pg : option (list Z)) =>
                      match pg with
                      | Some _ => res_set_pages r (pages_live r - 1)
                      | None => r
                      end) s (replicate n None) = s).
  { induction n as [|n IH]; intros s; simpl; auto. }
  rewrite Hnone. clear Hnone. revert r.
  induction l as [|pg l IH]; intros r; simpl.
  - apply kres_ext; simpl; auto; lia.
  - rewrite IH. apply kres_ext; simpl; auto; lia.
Qed.

Lemma gen8_alloc_pages_loop_res pd n : forall (pre : list (list Z)) rest r,
  (n <= rest)%nat ->
  exists (l : list (list Z)) ok,
    gen8_alloc_pages_loop env pd (seqZ (Z.of_nat (length pre)) (Z.of_nat n))
      ((Some <$> pre) ++ replicate rest None) r
    = (ok, (Some <$> (pre ++ l)) ++ replicate (rest - length l) None,
       res_take r [] (Z.of_nat (length l)) 0 []) /\
    (length l <= n)%nat /\
    (ok = true -> length l = n).
Proof.
  induction n as [|n IH]; intros pre rest r Hn.
  - exists [], true. simpl. rewrite app_nil_r, Nat.sub_0_r, res_take_nothing.
    auto.
  - rewrite seqZ_cons by lia. cbn [gen8_alloc_pages_loop].
    destruct (alloc_ok env (PT_PAGE pd (Z.of_nat (length pre)))).
    + destruct rest as [|rest]; [lia|].
      set (pg := fresh_page env pd (Z.of_nat (length pre)) GEN8_PTES_PER_PAGE).
      replace (<[Z.to_nat (Z.of_nat (length pre)) := Some pg]>
                 ((Some <$> pre) ++ replicate (S rest) None))
        with ((Some <$> (pre ++ [pg])) ++ replicate rest None).
      2:{ rewrite Nat2Z.id, fmap_app, <- app_assoc.
          rewrite insert_app_r_alt by (rewrite length_fmap; lia).
          rewrite length_fmap, Nat.sub_diag. reflexivity. }
      replace (Z.succ (Z.of_nat (length pre)))
        with (Z.of_nat (length (pre ++ [pg])))
        by (rewrite length_app; simpl; lia).
      replace (Z.pred (Z.of_nat (S n))) with (Z.of_nat n) by lia.
      destruct (IH (pre ++ [pg]) rest
                  (res_set_pages r (pages_live r + 1)) ltac:(lia))
        as (l & ok & -> & Hl & Hok).
      exists (pg :: l), ok. rewrite <- app_assoc. cbn [app length].
      split; [|split; [lia|intros H; rewrite (Hok H); reflexivity]].
      f_equal. apply kres_ext; simpl; auto; lia.
    + exists [], false. simpl. rewrite app_nil_r, res_take_nothing, Nat.sub_0_r.
      split; [reflexivity|]. split; [lia|discriminate].
Qed.

Lemma gen8_alloc_page_tables_res pd r :
  (exists l : list (list Z),
     __gen8_alloc_page_tables env pd r
     = (Some (Some <$> l), res_take r [] GEN8_PDES_PER_PAGE 1 []) /\
     Z.of_nat (length l) = GEN8_PDES_PER_PAGE) \/
  __gen8_alloc_page_tables env pd r = (None, r).
Proof.
  unfold __gen8_alloc_page_tables.
  destruct (alloc_ok env (PT_ARRAY pd)); [|now right].
  cbv zeta.
  destruct (gen8_alloc_pages_loop_res pd (Z.to_nat GEN8_PDES_PER_PAGE) []
              (Z.to_nat GEN8_PDES_PER_PAGE)
              (res_set_kmem r (kmem_live r + 1)) ltac:(lia))
    as (l & ok & Hrun & Hl & Hok).
  cbn [length fmap list_fmap app] in Hrun.
  change (Z.of_nat 0) with 0 in Hrun.
  rewrite Z2Nat.id in Hrun by (change GEN8_PDES_PER_PAGE with 512; lia).
  rewrite Hrun. destruct ok.
  - left. exists l. specialize (Hok eq_refl).
    assert (Hlen : Z.of_nat (length l) = GEN8_PDES_PER_PAGE).
    { rewrite Hok, Z2Nat.id; [reflexivity|].
      change GEN8_PDES_PER_PAGE with 512; lia. }
    replace (Z.to_nat GEN8_PDES_PER_PAGE - length l)%nat with 0%nat by lia.
    cbn [replicate]. rewrite app_nil_r, Hlen. split; [|reflexivity].
    f_equal. apply kres_ext; cbn [res_take res_set_kmem mm_nodes pages_live
      kmem_live dma_live dma_stray gsm_writes app]; auto; lia.
  - right. rewrite gen8_free_page_tables_fold. f_equal.
    apply kres_ext; simpl; auto; lia.
Qed.

End gen8_resources.
Lemma for_each_snoc {Ix S : Type} (ixs : list Ix) i
    (body : Ix -> S -> option S) s :
  for_each (ixs ++ [i]) body s = s' ← for_each ixs body s; body i s'.
Proof.
  revert s. induction ixs as [|j ixs IH]; intros s; simpl.
  - destruct (body i s); reflexivity.
  - destruct (body j s) as [s1|]; simpl; [apply IH|reflexivity].
Qed.

Lemma for_each_ret_snoc {Ix S : Type} (ixs : list Ix) i
    (body : Ix -> S -> option (Z * S)) s :
  for_each_ret (ixs ++ [i]) body s
  = '(ret, s') ← for_each_ret ixs body s;
    if negb (ret =? 0) then Some (ret, s') else body i s'.
Proof.
  revert s. induction ixs as [|j ixs IH]; intros s; simpl.
  - destruct (body i s) as [[ret s1]|]; simpl; [|reflexivity].
    destruct (Z.eqb_spec ret 0) as [->|]; reflexivity.
  - destruct (body j s) as [[ret s1]|]; simpl; [|reflexivity].
    destruct (negb (ret =? 0)) eqn:Hret; [|apply IH].
    simpl. now rewrite Hret.
Qed.

Lemma seqZ_snoc (n : nat) :
  seqZ 0 (Z.of_nat (S n)) = seqZ 0 (Z.of_nat n) ++ [Z.of_nat n].
Proof.
  replace (Z.of_nat (S n)) with (Z.of_nat n + 1) by lia.
  rewrite seqZ_app by lia. reflexivity.
Qed.

(** The copy loop of [gen8_ppgtt_allocate_page_tables]. *)
Lemma gen8_copy_tables_loop_res {A} (n : nat) (src cur : list A) :
  (n <= length src)%nat -> (n <= length cur)%nat ->
  for_each (seqZ 0 (Z.of_nat n))
    (fun i pts => pages ← src !! Z.to_nat i; store_at i pages pts) cur
  = Some (take n src ++ drop n cur).
Proof.
  induction n as [|n IH]; intros Hs Hc; [reflexivity|].
  rewrite seqZ_snoc, for_each_snoc, IH by lia. cbn [mbind option_bind].
  rewrite Nat2Z.id.
  destruct (lookup_lt_is_Some_2 src n ltac:(lia)) as [x Hx].
  destruct (lookup_lt_is_Some_2 cur n ltac:(lia)) as [y Hy].
  rewrite Hx. cbn [mbind option_bind].
  rewrite store_at_total
    by (rewrite length_app, length_take, length_drop; lia).
  rewrite Nat2Z.id. f_equal.
  rewrite insert_app_r_alt by (rewrite length_take; lia).
  rewrite length_take, Nat.min_l, Nat.sub_diag by lia.
  rewrite (drop_S cur y n Hy). cbn [insert list_insert].
  rewrite (take_S_r src n x Hx), <- app_assoc. reflexivity.
Qed.

Section gen8_resources2.
Context (hw : pte_hw) (env : kenv).

Lemma gen8_alloc_tables_loop_res n :
  forall (pre : list (list (list Z))) rest r,
  (n <= rest)%nat ->
  exists (ds : list (list (list Z))) failed,
    gen8_alloc_tables_loop env (seqZ (Z.of_nat (length pre)) (Z.of_nat n))
      (((fun pd : list (list Z) => Some (Some <$> pd)) <$> pre)
       ++ replicate rest None) r
    = Some (failed,
            ((fun pd : list (list Z) => Some (Some <$> pd)) <$> (pre ++ ds))
            ++ replicate (rest - length ds) None,
            res_take r [] (GEN8_PDES_PER_PAGE * Z.of_nat (length ds))
              (Z.of_nat (length ds)) []) /\
    (length ds <= n)%nat /\
    Forall (fun pd => Z.of_nat (length pd) = GEN8_PDES_PER_PAGE) ds /\
    (failed = None -> length ds = n) /\
    (forall f, failed = Some f -> f = Z.of_nat (length (pre ++ ds))).
Proof.
  induction n as [|n IH]; intros pre rest r Hn.
  - exists [], None. simpl. rewrite app_nil_r, Nat.sub_0_r.
    replace (GEN8_PDES_PER_PAGE * 0) with 0 by lia.
    rewrite res_take_nothing. repeat split; auto. discriminate.
  - rewrite seqZ_cons by lia. cbn [gen8_alloc_tables_loop].
    destruct (gen8_alloc_page_tables_res env (Z.of_nat (length pre)) r)
      as [(d & -> & Hd)| ->].
    + destruct rest as [|rest]; [lia|].
      rewrite store_at_total
        by (rewrite length_app, length_fmap, length_replicate; lia).
      cbn [mbind option_bind]. rewrite Nat2Z.id.
      rewrite insert_app_r_alt by (rewrite length_fmap; lia).
      rewrite length_fmap, Nat.sub_diag. cbn [replicate insert list_insert].
      replace (Z.succ (Z.of_nat (length pre)))
        with (Z.of_nat (length (pre ++ [d])))
        by (rewrite length_app; simpl; lia).
      replace (Z.pred (Z.of_nat (S n))) with (Z.of_nat n) by lia.
      replace (((fun pd : list (list Z) => Some (Some <$> pd)) <$> pre)
               ++ Some (Some <$> d) :: replicate rest None)
        with (((fun pd : list (list Z) => Some (Some <$> pd))
                 <$> (pre ++ [d])) ++ replicate rest None)
        by (rewrite fmap_app, <- app_assoc; reflexivity).
      destruct (IH (pre ++ [d]) rest
                  (res_take r [] GEN8_PDES_PER_PAGE 1 []) ltac:(lia))
        as (ds & failed & -> & Hl & Hds & Hok & Hf).
      exists (d :: ds), failed. rewrite <- app_assoc in *. cbn [app length] in *.
      split; [|split; [lia|split; [now constructor|split]]].
      * f_equal. f_equal. rewrite res_take_take. f_equal; lia.
      * intros H. now rewrite (Hok H).
      * exact Hf.
    + exists [], (Some (Z.of_nat (length pre))). simpl.
      rewrite app_nil_r, Nat.sub_0_r.
      replace (GEN8_PDES_PER_PAGE * 0) with 0 by lia.
      rewrite res_take_nothing. split; [reflexivity|].
      split; [lia|]. split; [constructor|]. split; [discriminate|].
      now intros f [= <-].
Qed.

(** The unwinding loop of [gen8_ppgtt_allocate_page_tables]. *)
Lemma gen8_free_tables_loop_res (ds : list (list (list Z))) rest :
  forall ixs r,
  Forall (fun pd => Z.of_nat (length pd) = GEN8_PDES_PER_PAGE) ds ->
  Forall (fun j => 0 <= j < Z.of_nat (length ds)) ixs ->
  for_each ixs
    (fun j r =>
       pages ← (((fun pd : list (list Z) => Some (Some <$> pd)) <$> ds)
                ++ rest) !! Z.to_nat j;
       Some (kfree pages (gen8_free_page_tables pages r))) r
  = Some (res_take r [] (- (GEN8_PDES_PER_PAGE * Z.of_nat (length ixs)))
            (- Z.of_nat (length ixs)) []).
Proof.
  intros ixs r Hds. revert r.
  induction ixs as [|j ixs IH]; intros r Hixs.
  - simpl. replace (- (GEN8_PDES_PER_PAGE * 0)) with 0 by lia.
    now rewrite res_take_nothing.
  - apply Forall_cons_1 in Hixs as [Hj Hixs]. cbn [for_each].
    destruct (lookup_lt_is_Some_2 ds (Z.to_nat j) ltac:(lia)) as [d Hd].
    rewrite lookup_app_l by (rewrite length_fmap; lia).
    rewrite list_lookup_fmap, Hd. cbn [fmap option_fmap option_map mbind option_bind].
    rewrite IH by exact Hixs. f_equal.
    pose proof (gen8_free_page_tables_fold d 0 r) as Hf.
    cbn [replicate] in Hf. rewrite app_nil_r in Hf. rewrite Hf.
    rewrite Forall_forall in Hds.
    rewrite (Hds d) by (eapply list_elem_of_In, list_elem_of_lookup_2, Hd).
    apply kres_ext; cbn [res_take res_set_pages kfree res_set_kmem mm_nodes
      pages_live kmem_live dma_live dma_stray gsm_writes app length];
      auto; lia.
Qed.

Lemma raw8_set_pt_pages_id p : raw8_set_pt_pages p (raw8_pt_pages p) = p.
Proof. now destruct p. Qed.

Lemma gen8_allocate_page_tables_res p (m : nat) r :
  raw8_pt_pages p = replicate (Z.to_nat GEN8_LEGACY_PDPS) None ->
  (m <= Z.to_nat GEN8_LEGACY_PDPS)%nat ->
  (exists ds : list (list (list Z)),
     gen8_ppgtt_allocate_page_tables env p (Z.of_nat m) r
     = Some (0,
             raw8_set_pt_pages p
               (gen8_slots ((fun pd : list (list Z) => Some <$> pd) <$> ds)),
             res_take r [] (GEN8_PDES_PER_PAGE * Z.of_nat m) (Z.of_nat m)
               []) /\
     length ds = m /\
     Forall (fun pd => Z.of_nat (length pd) = GEN8_PDES_PER_PAGE) ds) \/
  gen8_ppgtt_allocate_page_tables env p (Z.of_nat m) r
  = Some (- ENOMEM, p, r).
Proof.
  intros Hzero Hm. unfold gen8_ppgtt_allocate_page_tables.
  destruct (gen8_alloc_tables_loop_res m [] (Z.to_nat GEN8_LEGACY_PDPS) r Hm)
    as (ds & failed & Hrun & Hl & Hds & Hok & Hf).
  cbn [length fmap list_fmap app] in Hrun, Hf.
  change (Z.of_nat 0) with 0 in Hrun. rewrite Hrun. clear Hrun.
  cbn [mbind option_bind]. destruct failed as [f|].
  - right. rewrite (Hf f eq_refl).
    rewrite (gen8_free_tables_loop_res ds _ _ _ Hds).
    + cbn [mbind option_bind]. f_equal. f_equal. rewrite res_take_take.
      rewrite length_reverse, length_seqZ, Nat2Z.id.
      rewrite <- (res_take_nothing r) at 2. f_equal; lia.
    + apply Forall_forall. intros j Hj.
      apply list_elem_of_In, elem_of_reverse, elem_of_seqZ in Hj. lia.
  - left. exists ds. specialize (Hok eq_refl). subst m.
    rewrite Hzero.
    pose proof (gen8_copy_tables_loop_res (length ds)
      (((fun pd : list (list Z) => Some (Some <$> pd)) <$> ds)
       ++ replicate (Z.to_nat GEN8_LEGACY_PDPS - length ds) None)
      (replicate (Z.to_nat GEN8_LEGACY_PDPS) None)) as Hcopy.
    rewrite Hcopy; clear Hcopy.
    2:{ rewrite length_app, length_fmap; lia. }
    2:{ now rewrite length_replicate. }
    cbn [mbind option_bind]. split; [|auto].
    f_equal. f_equal. f_equal.
    rewrite take_app_le by (rewrite length_fmap; lia).
    rewrite firstn_all2 by (rewrite length_fmap; lia).
    rewrite drop_replicate. unfold gen8_slots.
    rewrite <- list_fmap_compose, length_fmap. reflexivity.
Qed.
End gen8_resources2.
Section gen8_resources3.
Context (hw : pte_hw) (env : kenv).

Lemma raw8_set_pt_dma_id p : raw8_set_pt_dma p (raw8_pt_dma_addr p) = p.
Proof. now destruct p. Qed.

Lemma raw8_set_pt_dma_twice p a b :
  raw8_set_pt_dma (raw8_set_pt_dma p a) b = raw8_set_pt_dma p b.
Proof. reflexivity. Qed.

Lemma gen8_alloc_dma_loop_res n : forall (pre : list (list Z)) rest p r,
  raw8_pt_dma_addr p = (Some <$> pre) ++ replicate rest None ->
  (n <= rest)%nat ->
  exists ret (ts : list (list Z)),
    gen8_alloc_dma_loop env (seqZ (Z.of_nat (length pre)) (Z.of_nat n)) p r
    = Some (ret,
            raw8_set_pt_dma p
              ((Some <$> (pre ++ ts)) ++ replicate (rest - length ts) None),
            res_take r [] 0 (Z.of_nat (length ts)) []) /\
    (length ts <= n)%nat /\
    Forall (fun t => t = replicate (Z.to_nat GEN8_PDES_PER_PAGE) 0) ts /\
    (ret = 0 -> length ts = n) /\
    (ret = 0 \/ ret = - ENOMEM).
Proof.
  induction n as [|n IH]; intros pre rest p r Hp Hn.
  - exists 0, []. simpl. rewrite app_nil_r, Nat.sub_0_r, res_take_nothing.
    rewrite <- Hp, raw8_set_pt_dma_id. repeat split; auto.
  - rewrite seqZ_cons by lia. cbn [gen8_alloc_dma_loop].
    destruct rest as [|rest]; [lia|].
    rewrite !store_at_total
      by (rewrite Hp, length_app, length_fmap, length_replicate; lia).
    cbn [mbind option_bind]. rewrite Nat2Z.id, Hp.
    rewrite !insert_app_r_alt by (rewrite length_fmap; lia).
    rewrite length_fmap, Nat.sub_diag. cbn [replicate insert list_insert].
    destruct (alloc_ok env (PT_DMA_ARRAY (Z.of_nat (length pre)))).
    + set (t := replicate (Z.to_nat GEN8_PDES_PER_PAGE) 0).
      replace (Z.succ (Z.of_nat (length pre)))
        with (Z.of_nat (length (pre ++ [t])))
        by (rewrite length_app; simpl; lia).
      replace (Z.pred (Z.of_nat (S n))) with (Z.of_nat n) by lia.
      destruct (IH (pre ++ [t]) rest
                  (raw8_set_pt_dma p
                     ((Some <$> pre) ++ Some t :: replicate rest None))
                  (res_set_kmem r (kmem_live r + 1)))
        as (ret & ts & -> & Hl & Hts & Hok & Hret); [|lia|].
      { cbn [raw8_set_pt_dma raw8_pt_dma_addr].
        rewrite fmap_app, <- app_assoc. reflexivity. }
      exists ret, (t :: ts). rewrite <- app_assoc. cbn [app length].
      split; [|split; [lia|split; [now constructor|split; [|exact Hret]]]].
      * f_equal. f_equal. apply kres_ext; simpl; auto; lia.
      * intros H. now rewrite (Hok H).
    + exists (- ENOMEM), []. simpl. rewrite app_nil_r, res_take_nothing.
      split; [reflexivity|]. split; [lia|]. split; [constructor|].
      split; [discriminate|now right].
Qed.

Lemma gen8_free_loop_res p (m c : nat) r (b : nat) :
  Z.of_nat b <= raw8_num_pd_pages p ->
  (forall i, (i < m)%nat ->
     exists pd : list (list Z),
       raw8_pt_pages p !! i = Some (Some (Some <$> pd)) /\
       Z.of_nat (length pd) = GEN8_PDES_PER_PAGE) ->
  (forall i, (m <= i)%nat -> Z.of_nat i < raw8_num_pd_pages p ->
     raw8_pt_pages p !! i = Some None) ->
  (forall i, (i < c)%nat ->
     exists a, raw8_pt_dma_addr p !! i = Some (Some a)) ->
  (forall i, (c <= i)%nat -> Z.of_nat i < raw8_num_pd_pages p ->
     raw8_pt_dma_addr p !! i = Some None) ->
  for_each (seqZ 0 (Z.of_nat b))
    (fun i r =>
       pages ← raw8_pt_pages p !! Z.to_nat i;
       addrs ← raw8_pt_dma_addr p !! Z.to_nat i;
       Some (kfree addrs (kfree pages (gen8_free_page_tables pages r)))) r
  = Some (res_take r []
            (- (GEN8_PDES_PER_PAGE * Z.of_nat (b `min` m)))
            (- (Z.of_nat (b `min` m) + Z.of_nat (b `min` c))) []).
Proof.
  intros Hb Hpm Hpn Hdc Hdn. induction b as [|b IH].
  - simpl. replace (- (GEN8_PDES_PER_PAGE * 0)) with 0 by lia.
    now rewrite res_take_nothing.
  - rewrite seqZ_snoc, for_each_snoc, IH by lia. cbn [mbind option_bind].
    rewrite Nat2Z.id.
    assert (Hpages : exists pages,
               raw8_pt_pages p !! b = Some pages /\
               forall s, kfree pages (gen8_free_page_tables pages s)
                         = res_take s []
                             (- (GEN8_PDES_PER_PAGE
                                 * (Z.of_nat (S b `min` m)
                                    - Z.of_nat (b `min` m))))
                             (- (Z.of_nat (S b `min` m)
                                 - Z.of_nat (b `min` m))) []).
    { destruct (Nat.lt_ge_cases b m) as [Hlt|Hge].
      - destruct (Hpm b Hlt) as (pd & Hpd & Hlen). eexists. split; [exact Hpd|].
        intros s. pose proof (gen8_free_page_tables_fold pd 0 s) as Hf.
        cbn [replicate] in Hf. rewrite app_nil_r in Hf. rewrite Hf, Hlen.
        change GEN8_PDES_PER_PAGE with 512.
        apply kres_ext; cbn [res_take res_set_pages kfree res_set_kmem mm_nodes
          pages_live kmem_live dma_live dma_stray gsm_writes app];
          auto; lia.
      - exists None. split; [apply Hpn; lia|]. intros s.
        cbn [kfree gen8_free_page_tables].
        replace (Z.of_nat (S b `min` m) - Z.of_nat (b `min` m)) with 0 by lia.
        replace (- (GEN8_PDES_PER_PAGE * 0)) with 0 by lia.
        now rewrite res_take_nothing. }
    destruct Hpages as (pages & -> & Hfree). cbn [mbind option_bind].
    assert (Haddrs : exists addrs : option (list Z),
               raw8_pt_dma_addr p !! b = Some addrs /\
               forall s, kfree addrs s
                         = res_take s [] 0
                             (- (Z.of_nat (S b `min` c)
                                 - Z.of_nat (b `min` c))) []).
    { destruct (Nat.lt_ge_cases b c) as [Hlt|Hge].
      - destruct (Hdc b Hlt) as (a & Ha). eexists. split; [exact Ha|].
        intros s.
        apply kres_ext; cbn [res_take kfree res_set_kmem mm_nodes
          pages_live kmem_live dma_live dma_stray gsm_writes app];
          auto; lia.
      - exists None. split; [apply Hdn; lia|]. intros s. cbn [kfree].
        replace (Z.of_nat (S b `min` c) - Z.of_nat (b `min` c)) with 0 by lia.
        now rewrite res_take_nothing. }
    destruct Haddrs as (addrs & -> & Hk). cbn [mbind option_bind].
    rewrite Hk, Hfree, !res_take_take. f_equal.
    change GEN8_PDES_PER_PAGE with 512. f_equal; lia.
Qed.

Lemma gen8_ppgtt_free_res p (m c : nat) r :
  0 <= raw8_num_pd_pages p ->
  is_Some (raw8_pd_pages p) ->
  Z.of_nat m <= raw8_num_pd_pages p ->
  Z.of_nat c <= raw8_num_pd_pages p ->
  (forall i, (i < m)%nat ->
     exists pd : list (list Z),
       raw8_pt_pages p !! i = Some (Some (Some <$> pd)) /\
       Z.of_nat (length pd) = GEN8_PDES_PER_PAGE) ->
  (forall i, (m <= i)%nat -> Z.of_nat i < raw8_num_pd_pages p ->
     raw8_pt_pages p !! i = Some None) ->
  (forall i, (i < c)%nat ->
     exists a, raw8_pt_dma_addr p !! i = Some (Some a)) ->
  (forall i, (c <= i)%nat -> Z.of_nat i < raw8_num_pd_pages p ->
     raw8_pt_dma_addr p !! i = Some None) ->
  gen8_ppgtt_free env p r
  = Some (res_take r []
            (- (GEN8_PDES_PER_PAGE * Z.of_nat m)
             - gen8_pd_block env (raw8_num_pd_pages p))
            (- (Z.of_nat m + Z.of_nat c)) []).
Proof.
  intros HB [pds Hpds] Hm Hc Hpm Hpn Hdc Hdn. unfold gen8_ppgtt_free.
  pose proof (gen8_free_loop_res p m c r (Z.to_nat (raw8_num_pd_pages p))
                ltac:(lia) Hpm Hpn Hdc Hdn) as Hloop.
  rewrite Z2Nat.id in Hloop by lia. rewrite Hloop, Hpds.
  cbn [mbind option_bind]. f_equal.
  rewrite !Nat.min_r by lia.
  apply kres_ext; cbn [res_take res_set_pages mm_nodes
    pages_live kmem_live dma_live dma_stray gsm_writes app]; auto; lia.
Qed.

End gen8_resources3.
Lemma gen8_slots_lookup_lt {A} (l : list A) i x :
  l !! i = Some x -> gen8_slots l !! i = Some (Some x).
Proof.
  intros Hx. unfold gen8_slots.
  rewrite lookup_app_l
    by (rewrite length_fmap; eapply lookup_lt_Some, Hx).
  now rewrite list_lookup_fmap, Hx.
Qed.

Lemma gen8_slots_lookup_ge {A} (l : list A) i :
  (length l <= i)%nat -> Z.of_nat i < GEN8_LEGACY_PDPS ->
  gen8_slots l !! i = Some None.
Proof.
  intros Hl Hi. unfold gen8_slots.
  rewrite lookup_app_r by (rewrite length_fmap; lia).
  rewrite length_fmap. apply lookup_replicate_2.
  unfold GEN8_LEGACY_PDPS in *. lia.
Qed.

Lemma gen8_slots_length {A} (l : list A) :
  Z.of_nat (length l) <= GEN8_LEGACY_PDPS ->
  Z.of_nat (length (gen8_slots l)) = GEN8_LEGACY_PDPS.
Proof.
  intros Hl. unfold gen8_slots.
  rewrite length_app, length_fmap, length_replicate.
  unfold GEN8_LEGACY_PDPS in *. lia.
Qed.

Section gen8_resources4.
Context (hw : pte_hw) (env : kenv).

(** What [gen8_ppgtt_alloc] takes for [m] directories, or nothing if it
    fails. *)
Lemma gen8_ppgtt_alloc_res (m : nat) r :
  Z.of_nat m <= gen8_pd_block env (Z.of_nat m) <= GEN8_LEGACY_PDPS ->
  gen8_pd_block env (gen8_pd_block env (Z.of_nat m))
  = gen8_pd_block env (Z.of_nat m) ->
  (exists (ds : list (list (list Z))) pds,
     gen8_ppgtt_alloc env gen8_raw_zero (Z.of_nat m) r
     = Some (0,
             {| raw8_num_pd_entries :=
                  u32 (Z.of_nat m * GEN8_PDES_PER_PAGE);
                raw8_num_pd_pages := gen8_pd_block env (Z.of_nat m);
                raw8_pd_pages := Some pds;
                raw8_pt_pages :=
                  gen8_slots
                    ((fun pd : list (list Z) => Some <$> pd) <$> ds);
                raw8_pd_dma_addr :=
                  replicate (Z.to_nat GEN8_LEGACY_PDPS) 0;
                raw8_pt_dma_addr :=
                  gen8_slots
                    (replicate
                       (Z.to_nat (gen8_pd_block env (Z.of_nat m)))
                       (replicate (Z.to_nat GEN8_PDES_PER_PAGE) 0)) |},
             res_take r []
               (gen8_pd_block env (Z.of_nat m)
                + GEN8_PDES_PER_PAGE * Z.of_nat m)
               (Z.of_nat m + gen8_pd_block env (Z.of_nat m)) []) /\
     length ds = m /\
     Forall (fun pd => Z.of_nat (length pd) = GEN8_PDES_PER_PAGE) ds /\
     Z.of_nat (length pds) = gen8_pd_block env (Z.of_nat m) /\
     Forall (fun pd => Z.of_nat (length pd) = GEN8_PDES_PER_PAGE) pds) \/
  (exists ret p',
     ret <> 0 /\
     gen8_ppgtt_alloc env gen8_raw_zero (Z.of_nat m) r = Some (ret, p', r)).
Proof.
  set (B := gen8_pd_block env (Z.of_nat m)). intros HB Hidem.
  unfold gen8_ppgtt_alloc, gen8_ppgtt_allocate_page_directories.
  fold B. cbv zeta.
  destruct (alloc_ok env PD_PAGES).
  2:{ right. exists (- ENOMEM), gen8_raw_zero. split; [discriminate|].
      reflexivity. }
  destruct (Z.ltb_spec GEN8_LEGACY_PDPS B) as [|_]; [lia|].
  cbn [mbind option_bind Z.eqb negb].
  set (pds := (fun i => fresh_page env (-1) i GEN8_PDES_PER_PAGE)
                <$> zrange (Z.to_nat B) 0).
  set (p0 := raw8_set_counts (raw8_set_pd_pages gen8_raw_zero (Some pds))
               (raw8_num_pd_entries gen8_raw_zero) B).
  set (r0 := res_set_pages r (pages_live r + B)).
  destruct (gen8_allocate_page_tables_res env p0 m r0 eq_refl)
    as [(ds & -> & Hlen & Hds)| ->].
  { unfold GEN8_LEGACY_PDPS in *. lia. }
  2:{ right. exists (- ENOMEM), p0. split; [discriminate|].
      cbn [mbind option_bind]. change (negb (- ENOMEM =? 0)) with true.
      cbv iota. f_equal. f_equal.
      apply kres_ext; simpl; auto; lia. }
  cbn [mbind option_bind Z.eqb negb]. unfold gen8_ppgtt_allocate_dma.
  match goal with
  | |- context [gen8_alloc_dma_loop env _ ?p ?r] =>
      set (p1 := p); set (r1 := r)
  end.
  change (raw8_num_pd_pages p1) with B.
  destruct (gen8_alloc_dma_loop_res env (Z.to_nat B) []
              (Z.to_nat GEN8_LEGACY_PDPS) p1 r1 eq_refl)
    as (ret & ts & Hrun & Hl & Hts & Hok & Hret).
  { unfold GEN8_LEGACY_PDPS in *. lia. }
  cbn [length app] in Hrun. change (Z.of_nat 0) with 0 in Hrun.
  rewrite Z2Nat.id in Hrun by lia. rewrite Hrun. clear Hrun.
  cbn [mbind option_bind].
  assert (Hts' : ts = replicate (length ts)
                        (replicate (Z.to_nat GEN8_PDES_PER_PAGE) 0)).
  { clear -Hts. induction Hts as [|t ts -> _ IH]; [reflexivity|].
    cbn [length]. rewrite replicate_S. f_equal. exact IH. }
  destruct (Z.eqb_spec ret 0) as [->|Hne]; cbn [negb].
  - left. exists ds, pds. specialize (Hok eq_refl).
    split; [|split; [exact Hlen|split; [exact Hds|split]]].
    + f_equal. f_equal.
      * rewrite Hok in Hts'. rewrite Hts'. unfold gen8_slots.
        rewrite length_replicate. reflexivity.
      * unfold r1, r0. rewrite Hok, Z2Nat.id by lia.
        apply kres_ext; simpl; auto; lia.
    + unfold pds. rewrite length_fmap, zrange_length. lia.
    + unfold pds. apply Forall_fmap, Forall_forall. intros i _.
      apply (fresh_page_length env (-1) i GEN8_PDES_PER_PAGE).
      change GEN8_PDES_PER_PAGE with 512. lia.
  - right.
    match goal with
    | |- context [gen8_ppgtt_free env ?p ?r] => set (p2 := p); set (r2 := r)
    end.
    rewrite (gen8_ppgtt_free_res env p2 m (length ts) r2).
    + cbn [mbind option_bind]. exists ret. eexists. split; [exact Hne|].
      f_equal. f_equal. unfold r2, r1, r0.
      change (raw8_num_pd_pages p2) with B. rewrite Hidem.
      apply kres_ext; simpl; auto; lia.
    + cbn. fold B. lia.
    + cbn. eauto.
    + cbn. fold B. lia.
    + cbn. fold B. lia.
    + intros i Hi. cbn.
      destruct (lookup_lt_is_Some_2 ds i ltac:(lia)) as [d Hd].
      exists d. split.
      * apply gen8_slots_lookup_lt. now rewrite list_lookup_fmap, Hd.
      * rewrite Forall_forall in Hds. apply Hds.
        eapply list_elem_of_In, list_elem_of_lookup_2, Hd.
    + intros i Hi HiB. cbn in HiB |- *. fold B in HiB.
      apply gen8_slots_lookup_ge; [rewrite length_fmap; lia|lia].
    + intros i Hi. cbn.
      destruct (lookup_lt_is_Some_2 ts i Hi) as [t Ht]. exists t.
      rewrite lookup_app_l by (rewrite length_fmap; lia).
      now rewrite list_lookup_fmap, Ht.
    + intros i Hi HiB. cbn in HiB |- *. fold B in HiB.
      rewrite lookup_app_r by (rewrite length_fmap; lia).
      rewrite length_fmap. apply lookup_replicate_2.
      unfold GEN8_LEGACY_PDPS in *. lia.
Qed.

End gen8_resources4.
Section gen8_resources5.
Context (hw : pte_hw) (env : kenv).
Hypothesis Hnz : env_dma_nonzero env.
Hypothesis Herr : pci_dma_mapping_error env <> 0.

(** The mapping loop over the tables of directory [i]: the addresses go to
    the front of the directory's array, and are the mappings made. *)
Lemma gen8_map_tables_loop_res (i : Z) (n : nat) p r (pd : list (list Z))
    addrs :
  0 <= i ->
  raw8_pt_pages p !! Z.to_nat i = Some (Some (Some <$> pd)) ->
  (n <= length pd)%nat ->
  raw8_pt_dma_addr p !! Z.to_nat i = Some (Some addrs) ->
  (n <= length addrs)%nat ->
  exists ret l,
    for_each_ret (seqZ 0 (Z.of_nat n))
      (fun j (s : gen8_ppgtt_raw * kres) =>
         gen8_ppgtt_setup_page_tables env s.1 i j s.2) (p, r)
    = Some (ret,
            (raw8_set_pt_dma p
               (<[Z.to_nat i := Some (l ++ drop (length l) addrs)]>
                  (raw8_pt_dma_addr p)),
             res_take r [] 0 0 (reverse l))) /\
    (length l <= n)%nat /\
    Forall (fun a => a <> 0) l /\
    (ret = 0 -> length l = n).
Proof.
  intros Hi0 Hpd Hn Haddrs Hna. induction n as [|n IH].
  - exists 0, []. cbn [for_each_ret seqZ length app drop reverse].
    rewrite list_insert_id by exact Haddrs.
    rewrite raw8_set_pt_dma_id, res_take_nothing. repeat split; auto.
  - destruct IH as (ret & l & Hrun & Hl & Hnzl & Hok); [lia|lia|].
    rewrite seqZ_snoc, for_each_ret_snoc, Hrun. cbn [mbind option_bind].
    destruct (Z.eqb_spec ret 0) as [->|Hne]; cbn [negb].
    2:{ exists ret, l. split; [reflexivity|]. split; [lia|].
        split; [exact Hnzl|]. intros ->. contradiction. }
    specialize (Hok eq_refl). cbn [fst snd].
    unfold gen8_ppgtt_setup_page_tables.
    cbn [raw8_set_pt_dma raw8_pt_pages raw8_pt_dma_addr].
    rewrite Hpd. cbn [mbind option_bind]. rewrite Nat2Z.id.
    destruct (lookup_lt_is_Some_2 pd n ltac:(lia)) as [pg Hpg].
    rewrite list_lookup_fmap, Hpg.
    cbn [fmap option_fmap option_map mbind option_bind].
    destruct (pci_map_page env (MAP_PT i (Z.of_nat n))) as [a|] eqn:Hmap.
    + rewrite list_lookup_insert_eq
        by (eapply lookup_lt_Some, Haddrs).
      cbn [mbind option_bind].
      rewrite store_at_total
        by (rewrite length_app, length_drop; lia).
      cbn [mbind option_bind]. rewrite Nat2Z.id.
      exists 0, (l ++ [a]). split; [|split; [|split]].
      * f_equal. f_equal. f_equal.
        -- f_equal. rewrite list_insert_insert_eq. f_equal. f_equal.
           rewrite insert_app_r_alt by lia.
           rewrite Hok, Nat.sub_diag, length_app. cbn [length].
           destruct (lookup_lt_is_Some_2 addrs n ltac:(lia)) as [x Hx].
           rewrite (drop_S addrs x n Hx). cbn [insert list_insert].
           rewrite <- app_assoc. cbn [app].
           replace (length l + 1)%nat with (S n) by lia. reflexivity.
        -- rewrite reverse_app. cbn [reverse rev_append app].
           apply kres_ext; simpl; auto.
      * rewrite length_app. simpl. lia.
      * apply Forall_app. split; [exact Hnzl|]. constructor; [|constructor].
        apply (Hnz (MAP_PT i (Z.of_nat n))); [simpl; lia|exact Hmap].
      * intros _. rewrite length_app. simpl. lia.
    + exists (pci_dma_mapping_error env), l. split; [reflexivity|].
      split; [lia|]. split; [exact Hnzl|]. intros H. contradiction.
Qed.

Lemma raw8_set_dma_id p :
  raw8_set_pd_dma (raw8_set_pt_dma p (raw8_pt_dma_addr p))
    (raw8_pd_dma_addr p) = p.
Proof. now destruct p. Qed.

(** The mapping loops of [gen8_ppgtt_init] over the first [n] directories:
    [A] are the addresses of the directories that were mapped, [T] those of
    their tables, the last of them maybe short of a full directory if the
    loops stopped there. *)
Lemma gen8_map_loops_res (n : nat) p r :
  (n <= length (raw8_pd_dma_addr p))%nat ->
  (forall i, (i < n)%nat ->
     exists pd : list (list Z),
       raw8_pt_pages p !! i = Some (Some (Some <$> pd)) /\
       Z.of_nat (length pd) = GEN8_PDES_PER_PAGE) ->
  (forall i, (i < n)%nat ->
     raw8_pt_dma_addr p !! i
     = Some (Some (replicate (Z.to_nat GEN8_PDES_PER_PAGE) 0))) ->
  exists ret A T,
    for_each_ret (seqZ 0 (Z.of_nat n))
      (fun i (s : gen8_ppgtt_raw * kres) =>
         '(ret, s) ← gen8_ppgtt_setup_page_directories env s.1 i s.2;
         if negb (ret =? 0) then Some (ret, s) else
         for_each_ret (seqZ 0 GEN8_PDES_PER_PAGE)
           (fun j (s : gen8_ppgtt_raw * kres) =>
              gen8_ppgtt_setup_page_tables env s.1 i j s.2) s)
      (p, r)
    = Some (ret,
            (raw8_set_pd_dma
               (raw8_set_pt_dma p
                  ((Some <$> ((fun t : list Z =>
                                 t ++ drop (length t)
                                        (replicate
                                           (Z.to_nat GEN8_PDES_PER_PAGE) 0))
                                <$> T))
                   ++ drop (length T) (raw8_pt_dma_addr p)))
               (A ++ drop (length A) (raw8_pd_dma_addr p)),
             res_take r [] 0 0 (reverse (concat (zip_with cons A T))))) /\
    length A = length T /\ (length A <= n)%nat /\
    Forall (fun a => a <> 0) A /\
    Forall (fun t : list Z =>
              Z.of_nat (length t) <= GEN8_PDES_PER_PAGE /\
              Forall (fun a => a <> 0) t) T /\
    (ret = 0 ->
     length A = n /\
     Forall (fun t : list Z => Z.of_nat (length t) = GEN8_PDES_PER_PAGE) T).
Proof.
  intros Hlen Hpages Hzero. induction n as [|n IH].
  - exists 0, [], []. cbn [for_each_ret seqZ length app drop fmap list_fmap
      zip_with concat reverse].
    rewrite raw8_set_dma_id, res_take_nothing. repeat split; auto.
  - destruct IH as (ret & A & T & Hrun & HAT & HA & HnzA & HnzT & Hok);
      [lia|auto|auto|].
    rewrite seqZ_snoc, for_each_ret_snoc, Hrun. cbn [mbind option_bind].
    clear Hrun.
    destruct (Z.eqb_spec ret 0) as [->|Hne]; cbn [negb].
    2:{ exists ret, A, T. split; [reflexivity|]. split; [exact HAT|].
        split; [lia|]. split; [exact HnzA|]. split; [exact HnzT|].
        intros ->. contradiction. }
    destruct (Hok eq_refl) as [HlenA HfullT]. clear Hok.
    pose proof HlenA as Hok. cbn [fst snd].
    unfold gen8_ppgtt_setup_page_directories.
    destruct (pci_map_page env (MAP_PD (Z.of_nat n))) as [a|] eqn:Hmap.
    2:{ cbn [mbind option_bind].
        destruct (Z.eqb_spec (pci_dma_mapping_error env) 0) as [H0|_];
          [contradiction|]. cbn [negb].
        exists (pci_dma_mapping_error env), A, T.
        split; [reflexivity|]. split; [exact HAT|].
        split; [lia|]. split; [exact HnzA|]. split; [exact HnzT|].
        intros H. contradiction. }
    cbn [raw8_set_pd_dma raw8_pd_dma_addr].
    rewrite store_at_total by (rewrite length_app, length_drop; lia).
    cbn [mbind option_bind Z.eqb negb]. rewrite Nat2Z.id.
    destruct (Hpages n ltac:(lia)) as (pd & Hpd & Hpdlen).
    set (zeros := replicate (Z.to_nat GEN8_PDES_PER_PAGE) 0) in *.
    match goal with
    | |- context [for_each_ret _ _ (?p1, ?r1)] =>
        destruct (gen8_map_tables_loop_res (Z.of_nat n)
                    (Z.to_nat GEN8_PDES_PER_PAGE) p1 r1 pd zeros)
          as (ret & l & Hrun & Hl & Hnzl & Hokl)
    end.
    { lia. }
    { rewrite Nat2Z.id. exact Hpd. }
    { lia. }
    { rewrite Nat2Z.id. cbn [raw8_set_pd_dma raw8_set_pt_dma raw8_pt_dma_addr].
      rewrite lookup_app_r by (rewrite !length_fmap; lia).
      rewrite !length_fmap, lookup_drop.
      replace (length T + (n - length T))%nat with n by lia.
      apply Hzero. lia. }
    { unfold zeros. rewrite length_replicate. lia. }
    rewrite Z2Nat.id in Hrun by (change GEN8_PDES_PER_PAGE with 512; lia).
    rewrite Hrun. clear Hrun.
    exists ret, (A ++ [a]), (T ++ [l]).
    split; [|split; [|split; [|split; [|split]]]].
    + f_equal. f_equal. f_equal.
      * rewrite Nat2Z.id.
        unfold raw8_set_pd_dma, raw8_set_pt_dma.
        cbn [raw8_pt_dma_addr
          raw8_num_pd_entries raw8_num_pd_pages raw8_pd_pages raw8_pt_pages
          raw8_pd_dma_addr].
        f_equal.
        -- rewrite insert_app_r_alt by lia.
           replace (n - length A)%nat with 0%nat by lia.
           destruct (lookup_lt_is_Some_2 (raw8_pd_dma_addr p) (length A)
                       ltac:(lia)) as [x Hx].
           rewrite (drop_S _ x _ Hx). cbn [insert list_insert].
           rewrite <- app_assoc, length_app. cbn [length app].
           replace (length A + 1)%nat with (S (length A)) by lia.
           reflexivity.
        -- rewrite insert_app_r_alt by (rewrite !length_fmap; lia).
           rewrite !length_fmap.
           replace (n - length T)%nat with 0%nat by lia.
           rewrite (drop_S (raw8_pt_dma_addr p) (Some zeros) (length T))
             by (apply Hzero; lia).
           cbn [insert list_insert]. rewrite !fmap_app, <- app_assoc.
           rewrite length_app. cbn [length fmap list_fmap app].
           replace (length T + 1)%nat with (S (length T)) by lia.
           reflexivity.
      * rewrite zip_with_app by exact HAT. cbn [zip_with].
        rewrite concat_app. cbn [concat]. rewrite app_nil_r.
        rewrite reverse_app, reverse_cons, <- app_assoc.
        apply kres_ext; simpl; auto; try lia.
        now rewrite <- app_assoc.
    + rewrite !length_app. simpl. lia.
    + rewrite length_app. simpl. lia.
    + apply Forall_app. split; [exact HnzA|]. constructor; [|constructor].
      apply (Hnz (MAP_PD (Z.of_nat n))); [simpl; lia|exact Hmap].
    + apply Forall_app. split; [exact HnzT|]. constructor; [|constructor].
      split; [lia|exact Hnzl].
    + intros Hret. split; [rewrite length_app; simpl; lia|].
      apply Forall_app. split; [exact HfullT|]. constructor; [|constructor].
      rewrite (Hokl Hret). change GEN8_PDES_PER_PAGE with 512. lia.
Qed.

End gen8_resources5.

Section gen8_unmap.
Context (hw : pte_hw) (env : kenv).

Lemma unmap_nonzero_fold (t : list Z) (n : nat) r :
  Forall (fun a => a <> 0) t ->
  foldl (fun r a => if a =? 0 then r else pci_unmap_page a r) r
    (t ++ replicate n 0)
  = foldl (fun r a => pci_unmap_page a r) r t.
Proof.
  intros Ht. rewrite foldl_app.
  assert (Hz : forall s, foldl (fun r a => if a =? 0 then r else pci_unmap_page a r)
                 s (replicate n 0) = s).
  { induction n as [|n IH]; intros s; [reflexivity|]. simpl. apply IH. }
  rewrite Hz. clear Hz. revert r.
  induction Ht as [|a t Ha Ht IH]; intros r; [reflexivity|].
  cbn [foldl]. destruct (Z.eqb_spec a 0); [contradiction|]. apply IH.
Qed.

(** The inner loop of [gen8_ppgtt_unmap_pages] over the tables of directory
    [i], of which the first were mapped. *)
Lemma gen8_unmap_tables_loop p (i : nat) (t : list Z) (n : nat) r :
  raw8_pt_dma_addr p !! i = Some (Some (t ++ replicate n 0)) ->
  Z.of_nat (length t + n) = GEN8_PDES_PER_PAGE ->
  Forall (fun a => a <> 0) t ->
  for_each (seqZ 0 GEN8_PDES_PER_PAGE)
    (fun j r =>
       slot ← raw8_pt_dma_addr p !! i;
       addrs ← slot;
       addr ← addrs !! Z.to_nat j;
       Some (if addr =? 0 then r else pci_unmap_page addr r)) r
  = Some (foldl (fun r a => pci_unmap_page a r) r t).
Proof.
  intros Hslot Hlen Ht.
  rewrite (for_each_ext _ _
             (fun j r => a ← (t ++ replicate n 0) !! Z.to_nat j;
                         Some ((fun a r => if a =? 0 then r
                                           else pci_unmap_page a r) a r))).
  2:{ intros j s _. rewrite Hslot. reflexivity. }
  replace GEN8_PDES_PER_PAGE
    with (Z.of_nat (length (t ++ replicate n 0)))
    by (rewrite length_app, length_replicate; lia).
  rewrite (for_each_seqZ_foldl
             (fun a r => if a =? 0 then r else pci_unmap_page a r)).
  now rewrite unmap_nonzero_fold.
Qed.

(** [gen8_ppgtt_unmap_pages] on a structure of which the directories [A]
    and, of each, the tables [T] were mapped: these are unmapped, in this
    order, and nothing else. *)
Lemma gen8_ppgtt_unmap_pages_res p (A : list Z) (T : list (list Z)) r :
  0 <= raw8_num_pd_pages p ->
  length A = length T ->
  Forall (fun a => a <> 0) A ->
  Forall (fun t : list Z => Forall (fun a => a <> 0) t) T ->
  (forall i a, A !! i = Some a -> raw8_pd_dma_addr p !! i = Some a) ->
  (forall i, (length A <= i)%nat -> Z.of_nat i < raw8_num_pd_pages p ->
     raw8_pd_dma_addr p !! i = Some 0) ->
  (forall i t, T !! i = Some t ->
     exists n, raw8_pt_dma_addr p !! i = Some (Some (t ++ replicate n 0)) /\
               Z.of_nat (length t + n) = GEN8_PDES_PER_PAGE) ->
  exists done,
    gen8_ppgtt_unmap_pages p r
    = Some (foldl (fun r a => pci_unmap_page a r) r done) /\
    (Z.of_nat (length A) <= raw8_num_pd_pages p ->
     done = concat (zip_with cons A T)).
Proof.
  intros HB HAT HA HT Hpd Hpd0 Hpt. unfold gen8_ppgtt_unmap_pages.
  assert (Hloop : forall b : nat, Z.of_nat b <= raw8_num_pd_pages p ->
    for_each (seqZ 0 (Z.of_nat b))
      (fun i r =>
         pd_addr ← raw8_pd_dma_addr p !! Z.to_nat i;
         if pd_addr =? 0 then Some r else
         for_each (seqZ 0 GEN8_PDES_PER_PAGE)
           (fun j r =>
              slot ← raw8_pt_dma_addr p !! Z.to_nat i;
              addrs ← slot;
              addr ← addrs !! Z.to_nat j;
              Some (if addr =? 0 then r else pci_unmap_page addr r))
           (pci_unmap_page pd_addr r)) r
    = Some (foldl (fun r a => pci_unmap_page a r) r
              (concat (zip_with cons (take b A) (take b T))))).
  { induction b as [|b IH]; intros Hb; [reflexivity|].
    rewrite seqZ_snoc, for_each_snoc, IH by lia. cbn [mbind option_bind].
    rewrite Nat2Z.id.
    destruct (decide (b < length A)%nat) as [Hlt|Hge].
    - destruct (lookup_lt_is_Some_2 A b Hlt) as [a Ha].
      destruct (lookup_lt_is_Some_2 T b ltac:(lia)) as [t Ht].
      rewrite (Hpd b a Ha). cbn [mbind option_bind].
      pose proof (Forall_lookup_1 _ _ _ _ HA Ha) as Hnz.
      destruct (Z.eqb_spec a 0) as [?|_]; [contradiction|].
      destruct (Hpt b t Ht) as (n & Hslot & Hlen).
      rewrite (gen8_unmap_tables_loop p b t n _ Hslot Hlen
                 (Forall_lookup_1 _ _ _ _ HT Ht)).
      f_equal.
      rewrite (take_S_r A b a Ha), (take_S_r T b t Ht).
      rewrite zip_with_app by (rewrite !length_take; lia).
      rewrite concat_app, foldl_app. cbn [zip_with concat app foldl].
      now rewrite app_nil_r.
    - rewrite (Hpd0 b) by lia. cbn [mbind option_bind Z.eqb].
      rewrite !(take_ge _ (S b)), !(take_ge _ b) by lia. reflexivity. }
  specialize (Hloop (Z.to_nat (raw8_num_pd_pages p))).
  rewrite Z2Nat.id in Hloop by lia. rewrite Hloop by lia.
  eexists. split; [reflexivity|]. intros Hle.
  now rewrite !take_ge by lia.
Qed.

End gen8_unmap.

Lemma raw8_set_pd_pages_twice p a b :
  raw8_set_pd_pages (raw8_set_pd_pages p a) b = raw8_set_pd_pages p b.
Proof. reflexivity. Qed.

Lemma present_prefix_app_none {A} (l : list A) (n : nat) :
  present_prefix ((Some <$> l) ++ replicate n None) = l.
Proof.
  induction l as [|x l IH]; simpl.
  - now destruct n.
  - f_equal. exact IH.
Qed.

Lemma present_prefix_slots {A} (l : list A) :
  present_prefix (gen8_slots l) = l.
Proof. apply present_prefix_app_none. Qed.


Lemma gen8_slots_front {A} (X Y : list A) :
  (length X <= length Y)%nat ->
  (Some <$> X) ++ drop (length X) (gen8_slots Y)
  = gen8_slots (X ++ drop (length X) Y).
Proof.
  intros Hle. unfold gen8_slots.
  rewrite drop_app_le by (rewrite length_fmap; lia).
  rewrite fmap_app, fmap_drop, <- app_assoc.
  rewrite length_app, length_drop.
  replace (length X + (length Y - length X))%nat with (length Y) by lia.
  reflexivity.
Qed.


Lemma zip_cons_length (A : list Z) (T : list (list Z)) (n : Z) :
  length A = length T ->
  Forall (fun t : list Z => Z.of_nat (length t) = n) T ->
  Z.of_nat (length (concat (zip_with cons A T)))
  = (n + 1) * Z.of_nat (length A).
Proof.
  revert T. induction A as [|a A IH]; intros [|t T] Hlen HT;
    try discriminate; [simpl; lia|].
  apply Forall_cons_1 in HT as [Ht HT]. cbn [zip_with concat].
  rewrite length_app. cbn [length].
  rewrite Nat2Z.inj_add, (IH T) by (auto; simpl in Hlen; lia). lia.
Qed.

Lemma zip_cons_nonzero (A : list Z) (T : list (list Z)) :
  Forall (fun a => a <> 0) A ->
  Forall (fun t : list Z => Forall (fun a => a <> 0) t) T ->
  Forall (fun a => a <> 0) (concat (zip_with cons A T)).
Proof.
  revert T. induction A as [|a A IH]; intros [|t T] HA HT;
    cbn [zip_with concat]; try constructor.
  - now apply Forall_cons_1 in HA as [Ha _].
  - apply Forall_cons_1 in HA as [_ HA]. apply Forall_cons_1 in HT as [Ht HT].
    apply Forall_app. split; [exact Ht|]. now apply IH.
Qed.

Section gen8_round_trip.
Context (hw : pte_hw) (env : kenv).
Hypothesis Hnz : env_dma_nonzero env.
Hypothesis Herr : pci_dma_mapping_error env <> 0.

Lemma gen8_write_pdes_fields ixs p p' :
  for_each ixs (fun i p => gen8_write_pdes hw p i) p = Some p' ->
  exists pds, p' = raw8_set_pd_pages p pds.
Proof.
  intros Hrun.
  apply (for_each_inv (fun s => exists pds, s = raw8_set_pd_pages p pds)
           _ _ _ _) in Hrun; [exact Hrun| |].
  - clear. intros i s s' Hb [pds ->]. unfold gen8_write_pdes in Hb.
    destruct (raw8_pd_pages _) as [l|]; cbn [mbind option_bind] in Hb;
      [|discriminate].
    destruct (l !! Z.to_nat i) as [pd|]; cbn [mbind option_bind] in Hb;
      [|discriminate].
    destruct (for_each _ _ pd) as [pd'|]; cbn [mbind option_bind] in Hb;
      [|discriminate].
    injection Hb as <-. eexists. apply raw8_set_pd_pages_twice.
  - exists (raw8_pd_pages p). now destruct p.
Qed.

Lemma gen8_clear_range_fields ppgtt start length b ppgtt' tr :
  gen8_ppgtt_clear_range hw ppgtt start length b = Some (ppgtt', tr) ->
  exists pt, ppgtt' = gen8_set_pt_pages ppgtt pt.
Proof.
  unfold gen8_ppgtt_clear_range. cbv zeta.
  destruct (gen8_clear_loop _ _ _ _ _ _ _ _) as [[pt tr']|];
    cbn [mbind option_bind]; [|discriminate].
  intros [= <- _]. eauto.
Qed.

(** Unmapping and freeing a structure of [m] directories in a block of
    [B], of which the directories [A] and the tables [T] were mapped. *)
Lemma gen8_unmap_free_res p (m : nat) (A : list Z) (T : list (list Z)) r0 r :
  Z.of_nat m <= raw8_num_pd_pages p <= GEN8_LEGACY_PDPS ->
  gen8_pd_block env (raw8_num_pd_pages p) = raw8_num_pd_pages p ->
  is_Some (raw8_pd_pages p) ->
  (forall i, (i < m)%nat ->
     exists pd : list (list Z),
       raw8_pt_pages p !! i = Some (Some (Some <$> pd)) /\
       Z.of_nat (length pd) = GEN8_PDES_PER_PAGE) ->
  (forall i, (m <= i)%nat -> Z.of_nat i < raw8_num_pd_pages p ->
     raw8_pt_pages p !! i = Some None) ->
  (forall i, Z.of_nat i < raw8_num_pd_pages p ->
     exists a, raw8_pt_dma_addr p !! i = Some (Some a)) ->
  length A = length T -> (length A <= m)%nat ->
  Forall (fun a => a <> 0) A ->
  Forall (fun t : list Z => Forall (fun a => a <> 0) t) T ->
  (forall i a, A !! i = Some a -> raw8_pd_dma_addr p !! i = Some a) ->
  (forall i, (length A <= i)%nat -> Z.of_nat i < raw8_num_pd_pages p ->
     raw8_pd_dma_addr p !! i = Some 0) ->
  (forall i t, T !! i = Some t ->
     exists n, raw8_pt_dma_addr p !! i = Some (Some (t ++ replicate n 0)) /\
               Z.of_nat (length t + n) = GEN8_PDES_PER_PAGE) ->
  r = res_take r0 []
        (raw8_num_pd_pages p + GEN8_PDES_PER_PAGE * Z.of_nat m)
        (Z.of_nat m + raw8_num_pd_pages p)
        (reverse (concat (zip_with cons A T))) ->
  (r' ← gen8_ppgtt_unmap_pages p r; gen8_ppgtt_free env p r') = Some r0.
Proof.
  intros HB Hidem Hpds Hpm Hpn Hdc HAT HAm HA HT Hpd Hpd0 Hpt ->.
  destruct (gen8_ppgtt_unmap_pages_res p A T
              (res_take r0 []
                 (raw8_num_pd_pages p + GEN8_PDES_PER_PAGE * Z.of_nat m)
                 (Z.of_nat m + raw8_num_pd_pages p)
                 (reverse (concat (zip_with cons A T))))
              ltac:(lia) HAT HA HT Hpd Hpd0 Hpt) as (done & -> & Hdone).
  rewrite Hdone by lia. cbn [mbind option_bind].
  rewrite (unmap_fold_restores _ (reverse (concat (zip_with cons A T)))
             (dma_live r0))
    by (try apply reverse_Permutation; reflexivity).
  rewrite (gen8_ppgtt_free_res env p m (Z.to_nat (raw8_num_pd_pages p)))
    by (rewrite ?Z2Nat.id by lia; auto; try lia;
        intros i Hi; try (apply Hdc; lia); intros; lia).
  rewrite Hidem, Z2Nat.id by lia. f_equal.
  apply kres_ext; cbn [res_take res_set_dma mm_nodes pages_live kmem_live
    dma_live dma_stray gsm_writes app]; auto; lia.
Qed.


(** The same for a structure given by its members. *)
Lemma gen8_unmap_free_slots (m : nat) (B entries : Z) pds
    (X : list (list (list Z))) (A : list Z) (T : list (list Z)) r0 :
  Z.of_nat m <= B <= GEN8_LEGACY_PDPS ->
  gen8_pd_block env B = B ->
  length X = m ->
  Forall (fun pd => Z.of_nat (length pd) = GEN8_PDES_PER_PAGE) X ->
  length A = length T -> (length A <= m)%nat ->
  Forall (fun a => a <> 0) A ->
  Forall (fun t : list Z =>
            Z.of_nat (length t) <= GEN8_PDES_PER_PAGE /\
            Forall (fun a => a <> 0) t) T ->
  let p :=
    {| raw8_num_pd_entries := entries; raw8_num_pd_pages := B;
       raw8_pd_pages := Some pds;
       raw8_pt_pages :=
         gen8_slots ((fun pd : list (list Z) => Some <$> pd) <$> X);
       raw8_pd_dma_addr :=
         A ++ drop (length A) (replicate (Z.to_nat GEN8_LEGACY_PDPS) 0);
       raw8_pt_dma_addr :=
         gen8_slots
           (((fun t : list Z =>
                t ++ drop (length t)
                       (replicate (Z.to_nat GEN8_PDES_PER_PAGE) 0)) <$> T)
            ++ drop (length T)
                 (replicate (Z.to_nat B)
                    (replicate (Z.to_nat GEN8_PDES_PER_PAGE) 0))) |} in
  (r' ← gen8_ppgtt_unmap_pages p
          (res_take r0 [] (B + GEN8_PDES_PER_PAGE * Z.of_nat m)
             (Z.of_nat m + B) (reverse (concat (zip_with cons A T))));
   gen8_ppgtt_free env p r') = Some r0.
Proof.
  intros HB Hidem HX HXwf HAT HAm HA HT p.
  assert (HL : Z.to_nat GEN8_LEGACY_PDPS = 4%nat) by reflexivity.
  assert (HBL : B <= 4) by (unfold GEN8_LEGACY_PDPS in HB; lia).
  set (D := ((fun t : list Z =>
                t ++ drop (length t)
                       (replicate (Z.to_nat GEN8_PDES_PER_PAGE) 0)) <$> T)
            ++ drop (length T)
                 (replicate (Z.to_nat B)
                    (replicate (Z.to_nat GEN8_PDES_PER_PAGE) 0))) in *.
  assert (HD : length D = Z.to_nat B).
  { unfold D. rewrite length_app, length_fmap, length_drop, length_replicate.
    lia. }
  apply (gen8_unmap_free_res p m A T); subst p;
    cbn [raw8_num_pd_entries raw8_num_pd_pages raw8_pd_pages raw8_pt_pages
         raw8_pd_dma_addr raw8_pt_dma_addr]; auto.
  - intros i Hi.
    destruct (lookup_lt_is_Some_2 X i ltac:(lia)) as [pd Hpd].
    exists pd. split.
    + apply gen8_slots_lookup_lt. now rewrite list_lookup_fmap, Hpd.
    + exact (Forall_lookup_1 _ _ _ _ HXwf Hpd).
  - intros i Hi HiB. apply gen8_slots_lookup_ge.
    + rewrite length_fmap. lia.
    + lia.
  - intros i Hi.
    destruct (lookup_lt_is_Some_2 D i ltac:(lia)) as [a Ha].
    exists a. now apply gen8_slots_lookup_lt.
  - eapply Forall_impl; [|exact HT]. now intros t [_ Ht].
  - intros i a Ha. rewrite lookup_app_l by (eapply lookup_lt_Some, Ha).
    exact Ha.
  - intros i Hi HiB. rewrite lookup_app_r by lia. rewrite lookup_drop.
    apply lookup_replicate_2. lia.
  - intros i t Ht.
    destruct (Forall_lookup_1 _ _ _ _ HT Ht) as [Hlen _].
    exists (Z.to_nat GEN8_PDES_PER_PAGE - length t)%nat. split.
    + apply gen8_slots_lookup_lt. unfold D.
      rewrite lookup_app_l
        by (rewrite length_fmap; eapply lookup_lt_Some, Ht).
      rewrite list_lookup_fmap, Ht. cbn [fmap option_fmap option_map].
      now rewrite drop_replicate.
    + change GEN8_PDES_PER_PAGE with 512 in *. lia.
Qed.


Lemma gen8_ppgtt_init_res has_llc scratch size r ret o r' :
  0 <= size < 2 ^ 60 ->
  (size + (2 ^ 30 - 1)) / 2 ^ 30
  <= gen8_pd_block env ((size + (2 ^ 30 - 1)) / 2 ^ 30)
  <= GEN8_LEGACY_PDPS ->
  gen8_pd_block env (gen8_pd_block env ((size + (2 ^ 30 - 1)) / 2 ^ 30))
  = gen8_pd_block env ((size + (2 ^ 30 - 1)) / 2 ^ 30) ->
  gen8_ppgtt_init hw env has_llc scratch size r = Some (ret, o, r') ->
  (ret <> 0 /\ o = None /\ r' = r) \/
  (ret = 0 /\
   exists ppgtt L,
     o = Some ppgtt /\
     r' = res_take r []
            (gen8_pd_block env ((size + (2 ^ 30 - 1)) / 2 ^ 30)
             + GEN8_PDES_PER_PAGE * ((size + (2 ^ 30 - 1)) / 2 ^ 30))
            ((size + (2 ^ 30 - 1)) / 2 ^ 30
             + gen8_pd_block env ((size + (2 ^ 30 - 1)) / 2 ^ 30)) L /\
     Z.of_nat (length L)
     = (GEN8_PDES_PER_PAGE + 1) * ((size + (2 ^ 30 - 1)) / 2 ^ 30) /\
     Forall (fun a => a <> 0) L /\
     L = reverse
           (concat
              (zip_with cons
                 (take (Z.to_nat ((size + (2 ^ 30 - 1)) / 2 ^ 30))
                    (pd_dma_addr ppgtt))
                 (take (Z.to_nat ((size + (2 ^ 30 - 1)) / 2 ^ 30))
                    (gen8_pt_dma_addr ppgtt)))) /\
     g8_num_pd_pages ppgtt
     = gen8_pd_block env ((size + (2 ^ 30 - 1)) / 2 ^ 30) /\
     gen8_ppgtt_cleanup env ppgtt r' = Some r).
Proof.
  intros Hsize Hblock Hidem Hinit. pose proof Hinit as Hinit0.
  destruct (gen8_max_pdp_small size Hsize) as [Hm Hm0].
  unfold gen8_ppgtt_init in Hinit. cbv zeta in Hinit. rewrite Hm in Hinit.
  set (mz := (size + (2 ^ 30 - 1)) / 2 ^ 30) in *. clearbody mz. clear Hm.
  assert (Hmn : mz = Z.of_nat (Z.to_nat mz)) by lia.
  set (m := Z.to_nat mz) in *. clearbody m. subst mz.
  set (B := gen8_pd_block env (Z.of_nat m)) in *.
  destruct (gen8_ppgtt_alloc_res env m r Hblock Hidem)
    as [(ds & pds & Ha & Hds & Hdswf & Hpds & Hpdswf)
       |(reta & pa & Hne & Ha)]; rewrite Ha in Hinit;
    cbn [mbind option_bind] in Hinit.
  2:{ destruct (Z.eqb_spec reta 0) as [?|_]; [contradiction|].
      cbn [negb] in Hinit. injection Hinit as <- <- <-. left. auto. }
  cbn [Z.eqb negb] in Hinit. fold B in Hinit. clear Ha.
  assert (HL : Z.to_nat GEN8_LEGACY_PDPS = 4%nat) by reflexivity.
  assert (HBL : B <= 4) by (unfold GEN8_LEGACY_PDPS in Hblock; lia).
  set (zeros := replicate (Z.to_nat GEN8_PDES_PER_PAGE) 0) in *.
  match type of Hinit with
  | context [for_each_ret _ _ (?p1, ?r1)] =>
      destruct (gen8_map_loops_res env Hnz Herr m p1 r1)
        as (ret2 & A & T & Hrun & HAT & HAm & HA & HT & Hok)
  end.
  { cbn [raw8_pd_dma_addr]. rewrite length_replicate. lia. }
  { intros i Hi. cbn [raw8_pt_pages].
    destruct (lookup_lt_is_Some_2 ds i ltac:(lia)) as [pd Hpd].
    exists pd. split.
    - apply gen8_slots_lookup_lt. now rewrite list_lookup_fmap, Hpd.
    - exact (Forall_lookup_1 _ _ _ _ Hdswf Hpd). }
  { intros i Hi. cbn [raw8_pt_dma_addr]. apply gen8_slots_lookup_lt.
    apply lookup_replicate_2. lia. }
  rewrite Hrun in Hinit. clear Hrun. cbn [mbind option_bind] in Hinit.
  unfold raw8_set_pd_dma, raw8_set_pt_dma in Hinit.
  cbn [raw8_num_pd_entries raw8_num_pd_pages raw8_pd_pages raw8_pt_pages
       raw8_pd_dma_addr raw8_pt_dma_addr] in Hinit.
  rewrite <- (length_fmap (fun t : list Z =>
                t ++ drop (length t) zeros) T) in Hinit.
  rewrite gen8_slots_front in Hinit
    by (rewrite length_fmap, length_replicate; lia).
  rewrite length_fmap in Hinit.
  rewrite res_take_take, !Z.add_0_r in Hinit. cbn [app] in Hinit.
  rewrite app_nil_r in Hinit.
  subst zeros.
  destruct (Z.eqb_spec ret2 0) as [->|Hne2]; cbn [negb] in Hinit.
  - destruct (Hok eq_refl) as [HlenA Hfull]. clear Hok.
    destruct (for_each _ _ _) as [p3|] eqn:Hpde in Hinit; [|discriminate].
    apply gen8_write_pdes_fields in Hpde as [pds3 ->].
    cbn [mbind option_bind raw8_set_pd_pages raw8_pd_pages] in Hinit.
    destruct pds3 as [pds0|]; cbn [mbind option_bind] in Hinit;
      [|discriminate].
    destruct (gen8_ppgtt_clear_range _ _ _ _ _) as [[ppgtt tr]|] eqn:Hclr
      in Hinit; [|discriminate].
    cbn [mbind option_bind] in Hinit. injection Hinit as <- <- <-.
    right. split; [reflexivity|].
    exists ppgtt, (reverse (concat (zip_with cons A T))).
    split; [reflexivity|]. split; [reflexivity|].
    split; [|split; [|split; [|split]]].
    + rewrite length_reverse,
        (zip_cons_length A T GEN8_PDES_PER_PAGE HAT Hfull), HlenA.
      reflexivity.
    + apply Forall_reverse, zip_cons_nonzero; [exact HA|].
      eapply Forall_impl; [|exact HT]. now intros t [_ Ht].
    + apply gen8_clear_range_fields in Hclr as [pt ->].
      cbn [pd_dma_addr gen8_pt_dma_addr gen8_set_pt_pages gen8_ppgtt_of_raw
           raw8_pd_dma_addr raw8_pt_dma_addr raw8_set_pd_pages].
      rewrite present_prefix_slots.
      assert (HT1 : take m (A ++ drop (length A)
                             (replicate (Z.to_nat GEN8_LEGACY_PDPS) 0)) = A)
        by (rewrite <- HlenA; apply take_app_length).
      assert (HT2 : forall (X Y : list (list Z)),
                length X = m -> take m (X ++ Y) = X)
        by (intros X Y <-; apply take_app_length).
      rewrite HT1, HT2 by (rewrite length_fmap; lia).
      do 3 f_equal. clear -Hfull.
      induction Hfull as [|t T Ht _ IH]; [reflexivity|].
      cbn [fmap list_fmap]. rewrite <- IH. f_equal.
      rewrite drop_ge, app_nil_r; [reflexivity|].
      rewrite length_replicate. lia.
    + apply gen8_clear_range_fields in Hclr as [pt ->]. reflexivity.
    + destruct (gen8_ppgtt_init_scratch hw env _ _ _ _ _ _ Hsize Hinit0)
        as ((Hwf & Hlen & _) & _).
      apply gen8_clear_range_fields in Hclr as [pt ->].
      cbn [gen8_pt_pages gen8_set_pt_pages g8_num_pd_entries
           gen8_ppgtt_of_raw raw8_num_pd_entries raw8_set_pd_pages]
        in Hwf, Hlen.
      assert (Hpt : length pt = m).
      { revert Hlen. unfold u32. change GEN8_PDES_PER_PAGE with 512.
        change (2 ^ 32) with 4294967296.
        rewrite Z.mod_small by lia. lia. }
      unfold gen8_ppgtt_cleanup, gen8_raw_of.
      cbn [gen8_pt_pages gen8_set_pt_pages g8_num_pd_entries g8_num_pd_pages
           pd_pages pd_dma_addr gen8_pt_dma_addr
           gen8_ppgtt_of_raw raw8_num_pd_entries raw8_num_pd_pages
           raw8_pd_pages raw8_pt_pages raw8_pd_dma_addr raw8_pt_dma_addr
           raw8_set_pd_pages].
      rewrite present_prefix_slots.
      apply (gen8_unmap_free_slots m B _ pds0 pt A T r Hblock Hidem Hpt);
        auto.
      eapply Forall_impl; [|exact Hwf]. now intros pd [Hpd _].
  - pose proof (gen8_unmap_free_slots m B
                  (u32 (Z.of_nat m * GEN8_PDES_PER_PAGE)) pds ds A T r
                  Hblock Hidem Hds Hdswf HAT HAm HA HT) as Hback.
    cbv zeta in Hback.
    match type of Hinit with
    | context [gen8_ppgtt_unmap_pages ?p ?r0] =>
        change ((r' ← gen8_ppgtt_unmap_pages p r0; gen8_ppgtt_free env p r')
                = Some r) in Hback;
        destruct (gen8_ppgtt_unmap_pages p r0) as [ru|]
    end; cbn [mbind option_bind] in Hback; [|discriminate].
    cbn [mbind option_bind] in Hinit.
    rewrite Hback in Hinit. cbn [mbind option_bind] in Hinit.
    injection Hinit as <- <- <-. left. auto.
Qed.
(** [gen8_ppgtt_init] returns, whatever the kernel grants. *)
Lemma gen8_ppgtt_init_returns has_llc scratch size r :
  0 <= size < 2 ^ 60 ->
  (size + (2 ^ 30 - 1)) / 2 ^ 30
  <= gen8_pd_block env ((size + (2 ^ 30 - 1)) / 2 ^ 30)
  <= GEN8_LEGACY_PDPS ->
  gen8_pd_block env (gen8_pd_block env ((size + (2 ^ 30 - 1)) / 2 ^ 30))
  = gen8_pd_block env ((size + (2 ^ 30 - 1)) / 2 ^ 30) ->
  exists ret o r',
    gen8_ppgtt_init hw env has_llc scratch size r = Some (ret, o, r').
Proof.
  intros Hsize Hblock Hidem.
  destruct (gen8_max_pdp_small size Hsize) as [Hm Hm0].
  unfold gen8_ppgtt_init. cbv zeta. rewrite Hm.
  set (mz := (size + (2 ^ 30 - 1)) / 2 ^ 30) in *. clearbody mz. clear Hm.
  assert (Hmn : mz = Z.of_nat (Z.to_nat mz)) by lia.
  set (m := Z.to_nat mz) in *. clearbody m. subst mz.
  set (B := gen8_pd_block env (Z.of_nat m)) in *.
  destruct (gen8_ppgtt_alloc_res env m r Hblock Hidem)
    as [(ds & pds & Ha & Hds & Hdswf & Hpds & Hpdswf)
       |(reta & pa & Hne & Ha)]; rewrite Ha; cbn [mbind option_bind].
  2:{ destruct (Z.eqb_spec reta 0) as [?|_]; [contradiction|]. cbn [negb].
      eauto. }
  cbn [Z.eqb negb]. fold B.
  destruct (gen8_ppgtt_alloc_ok env _ _ _ _ Ha) as (_ & _ & Hlen1 & Hwf1).
  cbn [raw8_pt_pages] in Hlen1, Hwf1. fold B in Hlen1, Hwf1. clear Ha.
  assert (HL : Z.to_nat GEN8_LEGACY_PDPS = 4%nat) by reflexivity.
  assert (HBL : B <= 4) by (unfold GEN8_LEGACY_PDPS in Hblock; lia).
  set (zeros := replicate (Z.to_nat GEN8_PDES_PER_PAGE) 0) in *.
  match goal with
  | |- context [for_each_ret _ _ (?p1, ?r1)] =>
      destruct (gen8_map_loops_res env Hnz Herr m p1 r1)
        as (ret2 & A & T & Hrun & HAT & HAm & HA & HT & Hok)
  end.
  { cbn [raw8_pd_dma_addr]. rewrite length_replicate. lia. }
  { intros i Hi. cbn [raw8_pt_pages].
    destruct (lookup_lt_is_Some_2 ds i ltac:(lia)) as [pd Hpd].
    exists pd. split.
    - apply gen8_slots_lookup_lt. now rewrite list_lookup_fmap, Hpd.
    - exact (Forall_lookup_1 _ _ _ _ Hdswf Hpd). }
  { intros i Hi. cbn [raw8_pt_dma_addr]. apply gen8_slots_lookup_lt.
    apply lookup_replicate_2. lia. }
  rewrite Hrun. clear Hrun. cbn [mbind option_bind].
  unfold raw8_set_pd_dma, raw8_set_pt_dma.
  cbn [raw8_num_pd_entries raw8_num_pd_pages raw8_pd_pages raw8_pt_pages
       raw8_pd_dma_addr raw8_pt_dma_addr].
  rewrite <- (length_fmap (fun t : list Z =>
                t ++ drop (length t) zeros) T).
  rewrite gen8_slots_front
    by (rewrite length_fmap, length_replicate; lia).
  rewrite length_fmap.
  rewrite res_take_take, !Z.add_0_r. cbn [app].
  rewrite app_nil_r.
  subst zeros.
  destruct (Z.eqb_spec ret2 0) as [->|Hne2]; cbn [negb].
  - destruct (Hok eq_refl) as [HlenA Hfull]. clear Hok.
    match goal with
    | |- context [for_each _ _ ?p2] =>
        destruct (for_each_total (gen8_raw_ready (Z.of_nat m))
                    (seqZ 0 (Z.of_nat m))
                    (fun i p => gen8_write_pdes hw p i) p2)
          as (p3 & Hpde & Hready3)
    end.
    { intros i p Hi Hp. apply elem_of_seqZ in Hi.
      apply gen8_write_pdes_total; [exact Hp|lia]. }
    { split; [|split; [|split]];
        cbn [raw8_pd_dma_addr raw8_pd_pages raw8_pt_pages raw8_pt_dma_addr].
      - rewrite length_app, length_drop, length_replicate.
        unfold GEN8_LEGACY_PDPS in *. lia.
      - exists pds. split; [reflexivity|]. split; [lia|exact Hpdswf].
      - intros i Hi.
        destruct (lookup_lt_is_Some_2 ds (Z.to_nat i) ltac:(lia)) as [pd Hpd].
        exists pd. split.
        + apply gen8_slots_lookup_lt. now rewrite list_lookup_fmap, Hpd.
        + exact (Forall_lookup_1 _ _ _ _ Hdswf Hpd).
      - intros i Hi.
        destruct (lookup_lt_is_Some_2 T (Z.to_nat i) ltac:(lia)) as [t Ht].
        exists (t ++ drop (length t)
                       (replicate (Z.to_nat GEN8_PDES_PER_PAGE) 0)).
        split.
        + apply gen8_slots_lookup_lt.
          rewrite lookup_app_l by (rewrite length_fmap; lia).
          now rewrite list_lookup_fmap, Ht.
        + pose proof (Forall_lookup_1 _ _ _ _ Hfull Ht) as Hlt.
          cbv beta in Hlt.
          rewrite length_app, length_drop, length_replicate.
          change GEN8_PDES_PER_PAGE with 512 in *. lia. }
    rewrite Hpde. cbn [mbind option_bind].
    destruct (gen8_write_pdes_tables hw _ _ _ Hpde) as [Hpts3 Hn3].
    cbn [raw8_pt_pages raw8_num_pd_entries] in Hpts3, Hn3.
    destruct Hready3 as (_ & (pds3 & -> & _) & _). cbn [mbind option_bind].
    destruct (gen8_init_clear hw has_llc scratch p3 pds3 (Z.of_nat m))
      as (ppgtt1 & tr & -> & _).
    { lia. }
    { exact Hn3. }
    { now rewrite Hpts3. }
    { now rewrite Hpts3. }
    cbn [mbind option_bind]. eauto.
  - pose proof (gen8_unmap_free_slots m B
                  (u32 (Z.of_nat m * GEN8_PDES_PER_PAGE)) pds ds A T r
                  Hblock Hidem Hds Hdswf HAT HAm HA HT) as Hback.
    cbv zeta in Hback.
    match goal with
    | |- context [gen8_ppgtt_unmap_pages ?p ?r0] =>
        change ((r' ← gen8_ppgtt_unmap_pages p r0; gen8_ppgtt_free env p r')
                = Some r) in Hback;
        destruct (gen8_ppgtt_unmap_pages p r0) as [ru|]
    end; cbn [mbind option_bind] in Hback; [|discriminate].
    cbn [mbind option_bind]. rewrite Hback. cbn [mbind option_bind]. eauto.
Qed.

End gen8_round_trip.

(** ** The atomic modeset helpers *)

Section atomic_facts.
Context {M : Type} (F : drm_funcs M) (dev : drm_device M).

Lemma same_routing_refl (st : drm_atomic_state M) : same_routing st st.
Proof. split; reflexivity. Qed.

Lemma same_routing_trans (a b c : drm_atomic_state M) :
  same_routing a b -> same_routing b c -> same_routing a c.
Proof. intros [H1 H2] [H3 H4]. split; congruence. Qed.

(** Writing a CRTC state with the same flags into its slot keeps the
    routing. *)
Lemma same_routing_set_crtc (st : drm_atomic_state M) i cs cs' :
  crtc_state_of st i = Some cs -> crtc_flags cs' = crtc_flags cs ->
  same_routing st (set_crtc_states st (<[i := Some cs']> (crtc_states st))).
Proof.
  unfold crtc_state_of. intros Hcs Hflags.
  destruct (crtc_states st !! i) as [slot|] eqn:Hslot; [|discriminate].
  simpl in Hcs. subst slot.
  split; [reflexivity|]. cbn [crtc_states set_crtc_states].
  rewrite list_fmap_insert. cbn [slot_flags fmap option_fmap option_map].
  rewrite Hflags. apply list_insert_id.
  now rewrite list_lookup_fmap, Hslot.
Qed.

Lemma run_mode_fixup_routing (st : drm_atomic_state M) idx hook ret st' :
  run_mode_fixup st idx hook = Some (ret, st') -> same_routing st st'.
Proof.
  unfold run_mode_fixup.
  destruct (crtc_state_of st idx) as [cs|] eqn:Hcs; [|discriminate].
  cbn [mbind option_bind].
  destruct (hook (mode cs) (adjusted_mode cs)) as [ok adjusted].
  intros [= _ <-]. now apply (same_routing_set_crtc st idx cs).
Qed.

Lemma mode_fixup_routing st ret st' :
  mode_fixup F dev st = Some (ret, st') -> same_routing st st'.
Proof.
  unfold mode_fixup. cbv zeta.
  destruct (for_each_ret _ _ st) as [[ret1 st1]|] eqn:H1; [|discriminate].
  cbn [mbind option_bind].
  apply (for_each_ret_inv (same_routing st)) in H1;
    [| |apply same_routing_refl].
  2:{ clear. intros i s ret s' Hbody Hs.
      destruct (crtc_states s !! i) as [[cs|]|] eqn:Hslot;
        cbn [mbind option_bind] in Hbody; try discriminate.
      - destruct (mode_changed cs); injection Hbody as _ <-; [|exact Hs].
        apply (same_routing_trans _ _ _ Hs).
        apply (same_routing_set_crtc s i cs); [|reflexivity].
        unfold crtc_state_of. now rewrite Hslot.
      - now injection Hbody as _ <-. }
  destruct (for_each_ret _ _ st1) as [[ret2 st2]|] eqn:H2; [|discriminate].
  cbn [mbind option_bind].
  apply (for_each_ret_inv (same_routing st)) in H2; [| |exact H1].
  2:{ clear. intros i s ret s' Hbody Hs.
      destruct (connector_states s !! i) as [[[[idx|] [encoder|]]|]|];
        cbn [mbind option_bind] in Hbody; try discriminate;
        try (injection Hbody as _ <-; exact Hs).
      destruct (bridge_mode_fixup F encoder) as [hook|].
      - destruct (run_mode_fixup s idx hook) as [[r1 s1]|] eqn:Hb;
          [|discriminate]. cbn [mbind option_bind] in Hbody.
        apply run_mode_fixup_routing in Hb.
        destruct (negb (r1 =? 0)).
        + injection Hbody as _ <-. exact (same_routing_trans _ _ _ Hs Hb).
        + apply run_mode_fixup_routing in Hbody.
          exact (same_routing_trans _ _ _ Hs
                   (same_routing_trans _ _ _ Hb Hbody)).
      - cbn [mbind option_bind Z.eqb negb] in Hbody.
        apply run_mode_fixup_routing in Hbody.
        exact (same_routing_trans _ _ _ Hs Hbody). }
  destruct (negb (ret2 =? 0)).
  { now intros [= _ <-]. }
  intros H3.
  apply (for_each_ret_inv (same_routing st)) in H3; [exact H3| |exact H2].
  clear. intros i s ret s' Hbody Hs.
  destruct (crtc_states s !! i) as [[cs|]|];
    cbn [mbind option_bind] in Hbody; try discriminate.
  - destruct (mode_changed cs).
    + apply run_mode_fixup_routing in Hbody.
      exact (same_routing_trans _ _ _ Hs Hbody).
    + now injection Hbody as _ <-.
  - now injection Hbody as _ <-.
Qed.

(** A loop that came through with 0: what each step set up and the later
    steps kept holds at the end. *)
Lemma for_each_ret_post {Ix S : Type} (I : S -> Prop) (Q : Ix -> S -> Prop)
    (ixs : list Ix) (body : Ix -> S -> option (Z * S)) s s' :
  (forall i s s', body i s = Some (0, s') -> I s ->
     I s' /\ Q i s' /\ forall j, Q j s -> Q j s') ->
  for_each_ret ixs body s = Some (0, s') -> I s ->
  I s' /\ (forall j, Q j s -> Q j s') /\ forall i, i ∈ ixs -> Q i s'.
Proof.
  intros Hbody. revert s. induction ixs as [|i ixs IH]; intros s; simpl.
  - intros [= <-] Hs. split; [exact Hs|]. split; [auto|].
    intros i Hi. inversion Hi.
  - destruct (body i s) as [[r1 s1]|] eqn:Hb; [|discriminate].
    cbn [mbind option_bind].
    destruct (Z.eqb_spec r1 0) as [->|Hne]; cbn [negb];
      [|intros [= -> _]; contradiction].
    intros Hrun Hs.
    destruct (Hbody _ _ _ Hb Hs) as (Hs1 & Hq & Hstable).
    destruct (IH _ Hrun Hs1) as (Hs' & Hstable' & Hall).
    split; [exact Hs'|]. split; [auto|].
    intros j Hj. apply elem_of_cons in Hj as [->|Hj]; auto.
Qed.

Lemma pulled_in_refl k (st : drm_atomic_state M) : pulled_in dev k st st.
Proof. split; [reflexivity|]. split; [reflexivity|]. intros j. now left. Qed.

Lemma pulled_in_trans k (a b c : drm_atomic_state M) :
  pulled_in dev k a b -> pulled_in dev k b c -> pulled_in dev k a c.
Proof.
  intros (H1 & H2 & H3) (H4 & H5 & H6).
  split; [congruence|]. split; [congruence|].
  intros j. destruct (H6 j) as [Heq|(Hnone & cj & Hcj & Hk & Hsome)].
  - rewrite Heq. apply H3.
  - destruct (H3 j) as [Heq|(Hnone' & cj' & _ & _ & Hsome')].
    + right. rewrite <- Heq. eauto 6.
    + congruence.
Qed.

(** What is in the transaction stays in it. *)
Lemma pulled_in_present k (st st' : drm_atomic_state M) j :
  pulled_in dev k st st' ->
  is_Some (connector_state_of st j) -> is_Some (connector_state_of st' j).
Proof.
  intros (_ & _ & H) [c Hc]. unfold connector_state_of in *.
  destruct (connector_states st !! j) as [slot|] eqn:Hslot; [|discriminate].
  simpl in Hc. subst slot.
  destruct (H j) as [->|(Hnone & _)]; [|congruence].
  rewrite Hslot. simpl. eauto.
Qed.

Lemma get_crtc_state_present (st : drm_atomic_state M) i :
  is_Some (crtc_state_of st i) ->
  drm_atomic_get_crtc_state F dev st i = Some (0, st).
Proof.
  intros [cs Hcs]. unfold crtc_state_of, drm_atomic_get_crtc_state in *.
  destruct (crtc_states st !! i) as [[cs'|]|]; try discriminate.
  reflexivity.
Qed.

Lemma get_connector_state_pulled st j k c ret st' :
  connector_list dev !! j = Some c -> crtc c = Some k ->
  is_Some (crtc_state_of st k) ->
  drm_atomic_get_connector_state F dev st j = Some (ret, st') ->
  pulled_in dev k st st' /\ (ret = 0 -> is_Some (connector_state_of st' j)).
Proof.
  intros Hc Hk Hcrtc. unfold drm_atomic_get_connector_state.
  destruct (connector_states st !! j) as [[c0|]|] eqn:Hslot;
    cbn [mbind option_bind]; [| |discriminate].
  - intros [= <- <-]. split; [apply pulled_in_refl|]. intros _.
    unfold connector_state_of. rewrite Hslot. simpl. eauto.
  - destruct (Z.eqb_spec (connector_acquire F j) 0) as [_|Hne]; cbn [negb].
    2:{ intros [= <- <-]. split; [apply pulled_in_refl|]. contradiction. }
    rewrite Hc. cbn [mbind option_bind]. rewrite Hk.
    rewrite get_crtc_state_present by exact Hcrtc.
    intros [= <- <-].
    assert (Hlt : (j < length (connector_states st))%nat)
      by (apply lookup_lt_Some in Hslot; exact Hslot).
    split.
    + split; [reflexivity|].
      cbn [connector_states put_connector_state set_connector_states].
      split; [now rewrite length_insert|].
      intros j'. destruct (decide (j' = j)) as [->|Hne].
      * right. split; [exact Hslot|]. exists c.
        rewrite list_lookup_insert_eq by exact Hlt. auto.
      * left. now rewrite list_lookup_insert_ne by congruence.
    + intros _. unfold connector_state_of.
      cbn [connector_states put_connector_state set_connector_states].
      rewrite list_lookup_insert_eq by exact Hlt. simpl. eauto.
Qed.

Lemma pulled_in_crtc_state k (st st' : drm_atomic_state M) i :
  pulled_in dev k st st' -> crtc_state_of st' i = crtc_state_of st i.
Proof. intros (H & _). unfold crtc_state_of. now rewrite H. Qed.

Lemma add_affected_connectors_pulled st k ret st' :
  is_Some (crtc_state_of st k) ->
  drm_atomic_add_affected_connectors F dev st k = Some (ret, st') ->
  pulled_in dev k st st' /\
  (ret = 0 ->
   forall j c, connector_list dev !! j = Some c -> crtc c = Some k ->
     is_Some (connector_state_of st' j)).
Proof.
  intros Hcrtc Hrun. unfold drm_atomic_add_affected_connectors in Hrun.
  assert (Hbody : forall j s r s',
            (c ← connector_list dev !! j;
             if decide (crtc c = Some k)
             then drm_atomic_get_connector_state F dev s j
             else Some (0, s)) = Some (r, s') ->
            pulled_in dev k st s ->
            pulled_in dev k st s' /\
            pulled_in dev k s s' /\
            (r = 0 -> forall c, connector_list dev !! j = Some c ->
                        crtc c = Some k ->
                        is_Some (connector_state_of s' j))).
  { intros j s r s' Hb Hs.
    destruct (connector_list dev !! j) as [c|] eqn:Hc; [|discriminate].
    cbn [mbind option_bind] in Hb.
    destruct (decide (crtc c = Some k)) as [Hk|Hnk].
    - apply (get_connector_state_pulled s j k c) in Hb as [Hp Hq]; auto.
      + split; [exact (pulled_in_trans _ _ _ _ Hs Hp)|]. split; [exact Hp|].
        intros Hr c' _ _. exact (Hq Hr).
      + rewrite (pulled_in_crtc_state _ _ _ _ Hs). exact Hcrtc.
    - injection Hb as <- <-. split; [exact Hs|].
      split; [apply pulled_in_refl|].
      intros _ c' [= <-] Hk. contradiction. }
  split.
  - apply (for_each_ret_inv (pulled_in dev k st)) in Hrun;
      [exact Hrun| |apply pulled_in_refl].
    intros j s r s' Hb Hs. exact (proj1 (Hbody _ _ _ _ Hb Hs)).
  - intros ->.
    apply (for_each_ret_post (pulled_in dev k st)
             (fun j s => forall c, connector_list dev !! j = Some c ->
                           crtc c = Some k ->
                           is_Some (connector_state_of s j)))
      in Hrun as (_ & _ & Hall); [| |apply pulled_in_refl].
    + intros j c Hc Hk. apply (Hall j) with (c := c); [|exact Hc|exact Hk].
      apply elem_of_seq. apply lookup_lt_Some in Hc. lia.
    + intros j s s' Hb Hs.
      destruct (Hbody _ _ _ _ Hb Hs) as (Hs' & Hstep & Hq).
      split; [exact Hs'|]. split; [exact (Hq eq_refl)|].
      intros j' Hj' c Hc Hk.
      exact (pulled_in_present _ _ _ _ Hstep (Hj' c Hc Hk)).
Qed.

Lemma filter_length_fmap {A} (f : A -> bool) (l : list A) :
  length (List.filter f l) = length (List.filter id (f <$> l)).
Proof.
  induction l as [|x l IH]; [reflexivity|]. simpl.
  unfold id at 1. destruct (f x); simpl; now rewrite IH.
Qed.

(** Pulling in connectors that are on CRTC [k] leaves the number of
    connectors on any other CRTC as it was. *)
Lemma pulled_in_connectors_for_crtc k (st st' : drm_atomic_state M) i :
  pulled_in dev k st st' -> i <> k ->
  drm_atomic_connectors_for_crtc st' i = drm_atomic_connectors_for_crtc st i.
Proof.
  intros (_ & Hlen & Hslots) Hne. unfold drm_atomic_connectors_for_crtc.
  rewrite (filter_length_fmap (routed_to i) (connector_states st')),
    (filter_length_fmap (routed_to i) (connector_states st)).
  f_equal. f_equal.
  apply list_eq. intros j. rewrite !list_lookup_fmap.
  destruct (Hslots j) as [->|(Hnone & c & _ & Hk & ->)]; [reflexivity|].
  rewrite Hnone. simpl. f_equal.
  rewrite bool_decide_eq_false_2; [reflexivity|]. congruence.
Qed.

Lemma check_full_modeset_spec st i ret st' :
  check_full_modeset F dev st i = Some (ret, st') ->
  pulled_in dev i st st' /\
  (ret = 0 ->
   forall cs, crtc_state_of st' i = Some cs -> mode_changed cs = true ->
     (forall j c, connector_list dev !! j = Some c -> crtc c = Some i ->
        is_Some (connector_state_of st' j)) /\
     enable cs = negb (Nat.eqb (drm_atomic_connectors_for_crtc st' i) 0)).
Proof.
  unfold check_full_modeset.
  destruct (crtc_states st !! i) as [[cs|]|] eqn:Hslot;
    cbn [mbind option_bind]; [| |discriminate].
  2:{ intros [= <- <-]. split; [apply pulled_in_refl|].
      intros _ cs Hcs. unfold crtc_state_of in Hcs.
      rewrite Hslot in Hcs. discriminate. }
  assert (Hcs : crtc_state_of st i = Some cs)
    by (unfold crtc_state_of; now rewrite Hslot).
  destruct (mode_changed cs) eqn:Hmc; cbn [negb].
  2:{ intros [= <- <-]. split; [apply pulled_in_refl|].
      intros _ cs' Hcs' Hmc'. congruence. }
  destruct (drm_atomic_add_affected_connectors F dev st i)
    as [[r s1]|] eqn:Hadd; [|discriminate]. cbn [mbind option_bind].
  apply add_affected_connectors_pulled in Hadd as [Hp Hall]; [|eauto].
  destruct (Z.eqb_spec r 0) as [->|Hne]; cbn [negb].
  2:{ intros [= <- <-]. split; [exact Hp|]. contradiction. }
  destruct (eqb (enable cs) _) eqn:Hen; cbn [negb]; intros [= <- <-];
    (split; [exact Hp|]).
  - intros _ cs' Hcs' _.
    rewrite (pulled_in_crtc_state _ _ _ _ Hp), Hcs in Hcs'.
    injection Hcs' as <-. split; [exact (Hall eq_refl)|].
    now apply eqb_prop.
  - intros Hz. discriminate Hz.
Qed.

Lemma check_full_modeset_loop n st st' :
  for_each_ret (seq 0 n) (fun i st => check_full_modeset F dev st i) st
  = Some (0, st') ->
  crtc_states st' = crtc_states st /\
  forall i cs, (i < n)%nat ->
    crtc_state_of st' i = Some cs -> mode_changed cs = true ->
    (forall j c, connector_list dev !! j = Some c -> crtc c = Some i ->
       is_Some (connector_state_of st' j)) /\
    enable cs = negb (Nat.eqb (drm_atomic_connectors_for_crtc st' i) 0).
Proof.
  intros Hrun.
  apply (for_each_ret_post (fun s => crtc_states s = crtc_states st)
           (fun i s => forall cs,
              crtc_state_of s i = Some cs -> mode_changed cs = true ->
              (forall j c, connector_list dev !! j = Some c ->
                 crtc c = Some i -> is_Some (connector_state_of s j)) /\
              enable cs
              = negb (Nat.eqb (drm_atomic_connectors_for_crtc s i) 0)))
    in Hrun as (Hcrtcs & _ & Hall); [| |reflexivity].
  - split; [exact Hcrtcs|]. intros i cs Hi. apply Hall.
    apply elem_of_seq. lia.
  - intros i s s' Hb Hs.
    apply check_full_modeset_spec in Hb as [Hp Hq].
    split; [rewrite <- Hs; apply Hp|]. split; [exact (Hq eq_refl)|].
    intros j Hj cs Hcs Hmc.
    destruct (decide (j = i)) as [->|Hne]; [exact (Hq eq_refl cs Hcs Hmc)|].
    rewrite (pulled_in_crtc_state _ _ _ _ Hp) in Hcs.
    destruct (Hj cs Hcs Hmc) as [Hconn Hen]. split.
    + intros j' c Hc Hk.
      exact (pulled_in_present _ _ _ _ Hp (Hconn j' c Hc Hk)).
    + now rewrite (pulled_in_connectors_for_crtc _ _ _ _ Hp Hne).
Qed.

Lemma same_routing_crtc_state (st st' : drm_atomic_state M) i cs' :
  same_routing st st' -> crtc_state_of st' i = Some cs' ->
  exists cs, crtc_state_of st i = Some cs /\
             enable cs = enable cs' /\ mode_changed cs = mode_changed cs'.
Proof.
  intros [_ Hflags] Hcs'. unfold crtc_state_of in *.
  assert (Hi : (slot_flags <$> crtc_states st') !! i
               = (slot_flags <$> crtc_states st) !! i) by now rewrite Hflags.
  rewrite !list_lookup_fmap in Hi.
  destruct (crtc_states st' !! i) as [slot'|]; [|discriminate].
  simpl in Hcs'. subst slot'.
  destruct (crtc_states st !! i) as [[cs|]|]; try discriminate.
  simpl in Hi. injection Hi as He Hm. exists cs. auto.
Qed.

Lemma same_routing_connectors (st st' : drm_atomic_state M) :
  same_routing st st' ->
  (forall j, connector_state_of st' j = connector_state_of st j) /\
  forall i, drm_atomic_connectors_for_crtc st' i
            = drm_atomic_connectors_for_crtc st i.
Proof.
  intros [Hconn _]. unfold connector_state_of, drm_atomic_connectors_for_crtc.
  rewrite Hconn. auto.
Qed.

(** After a successful [drm_atomic_helper_check_prepare], every CRTC of the
    device whose state in the transaction has [mode_changed] has all the
    connectors that are currently on it in the transaction, and its
    [enable] says whether a connector state of the transaction is on it. *)
Lemma check_prepare_consistent st st' :
  drm_atomic_helper_check_prepare F dev st = Some (0, st') ->
  forall i cs, (i < length (crtc_list dev))%nat ->
    crtc_state_of st' i = Some cs -> mode_changed cs = true ->
    (forall j c, connector_list dev !! j = Some c -> crtc c = Some i ->
       is_Some (connector_state_of st' j)) /\
    enable cs = negb (Nat.eqb (drm_atomic_connectors_for_crtc st' i) 0).
Proof.
  unfold drm_atomic_helper_check_prepare. cbv zeta.
  destruct (for_each _ _ st) as [s1|]; [|discriminate].
  cbn [mbind option_bind].
  destruct (for_each_ret _ _ s1) as [[r2 s2]|]; [|discriminate].
  cbn [mbind option_bind].
  destruct (Z.eqb_spec r2 0) as [->|Hne]; cbn [negb];
    [|intros [= -> _]; contradiction].
  destruct (for_each_ret _ _ s2) as [[r3 s3]|] eqn:H3; [|discriminate].
  cbn [mbind option_bind].
  destruct (Z.eqb_spec r3 0) as [->|Hne]; cbn [negb];
    [|intros [= -> _]; contradiction].
  intros Hfix i cs Hi Hcs Hmc.
  apply mode_fixup_routing in Hfix.
  destruct (same_routing_crtc_state _ _ _ _ Hfix Hcs) as (cs3 & Hcs3 & He & Hm).
  destruct (same_routing_connectors _ _ Hfix) as [Hconn Hcount].
  destruct (check_full_modeset_loop _ _ _ H3) as [_ Hall].
  destruct (Hall i cs3 Hi Hcs3 ltac:(congruence)) as [Hin Hen].
  split.
  - intros j c Hc Hk. rewrite Hconn. exact (Hin j c Hc Hk).
  - rewrite Hcount, <- He. exact Hen.
Qed.

End atomic_facts.

(** *** What routing a connector leaves in its slot *)

Section routing_facts.
Context {M : Type} (F : drm_funcs M) (dev : drm_device M).

Lemma get_crtc_state_connectors (st : drm_atomic_state M) k ret st' :
  drm_atomic_get_crtc_state F dev st k = Some (ret, st') ->
  connector_states st' = connector_states st.
Proof.
  unfold drm_atomic_get_crtc_state.
  destruct (crtc_states st !! k) as [[cs|]|]; cbn [mbind option_bind];
    try discriminate.
  - now intros [= _ <-].
  - destruct (negb (crtc_acquire F k =? 0)); [now intros [= _ <-]|].
    destruct (crtc_list dev !! k); cbn [mbind option_bind]; [|discriminate].
    now intros [= _ <-].
Qed.

Lemma mark_mode_changed_connectors (st : drm_atomic_state M) k st' :
  mark_mode_changed st k = Some st' ->
  connector_states st' = connector_states st.
Proof.
  unfold mark_mode_changed.
  destruct (crtc_state_of st k); cbn [mbind option_bind]; [|discriminate].
  now intros [= <-].
Qed.

Lemma mark_mode_changed_flag (st : drm_atomic_state M) k st' :
  mark_mode_changed st k = Some st' ->
  exists cs, crtc_state_of st' k = Some cs /\ mode_changed cs = true.
Proof.
  unfold mark_mode_changed, crtc_state_of.
  destruct (crtc_states st !! k) as [[cs|]|] eqn:Hk;
    cbn [mbind option_bind]; try discriminate.
  intros [= <-]. cbn [crtc_states set_crtc_states].
  rewrite list_lookup_insert_eq by (now apply lookup_lt_Some in Hk).
  cbn [mbind option_bind]. eauto.
Qed.

Lemma kept_or_detached_same i c0 (st st' : drm_atomic_state M) :
  connector_states st' = connector_states st ->
  kept_or_detached i c0 st -> kept_or_detached i c0 st'.
Proof. unfold kept_or_detached. now intros ->. Qed.

Lemma kept_or_detached_put i c0 (st : drm_atomic_state M) j c :
  (j = i -> crtc c = None) ->
  kept_or_detached i c0 st ->
  kept_or_detached i c0 (put_connector_state st j c).
Proof.
  intros Hj (c1 & Hc1 & Hor). unfold kept_or_detached, put_connector_state.
  cbn [connector_states set_connector_states].
  destruct (decide (j = i)) as [->|Hne].
  - exists c. rewrite list_lookup_insert_eq by (now apply lookup_lt_Some in Hc1).
    auto.
  - exists c1. rewrite list_lookup_insert_ne by exact Hne. auto.
Qed.

Lemma get_connector_state_kept i c0 (st : drm_atomic_state M) j ret st' :
  drm_atomic_get_connector_state F dev st j = Some (ret, st') ->
  kept_or_detached i c0 st -> kept_or_detached i c0 st'.
Proof.
  unfold drm_atomic_get_connector_state. intros Hrun Hi.
  destruct (connector_states st !! j) as [[c|]|] eqn:Hj;
    cbn [mbind option_bind] in Hrun; try discriminate.
  - now injection Hrun as _ <-.
  - destruct (negb (connector_acquire F j =? 0));
      [now injection Hrun as _ <-|].
    destruct (connector_list dev !! j) as [c|];
      cbn [mbind option_bind] in Hrun; [|discriminate].
    assert (Hput : kept_or_detached i c0 (put_connector_state st j c)).
    { apply kept_or_detached_put; [|exact Hi].
      intros ->. destruct Hi as (c1 & Hc1 & _). congruence. }
    destruct (crtc c) as [k|].
    + apply get_crtc_state_connectors in Hrun.
      exact (kept_or_detached_same _ _ _ _ Hrun Hput).
    + now injection Hrun as _ <-.
Qed.

Lemma steal_encoder_kept i c0 (st : drm_atomic_state M) encoder k ret st' :
  steal_encoder F dev st encoder k = Some (ret, st') ->
  kept_or_detached i c0 st -> kept_or_detached i c0 st'.
Proof.
  unfold steal_encoder. intros Hrun Hi.
  destruct (drm_atomic_get_crtc_state F dev st k) as [[r st1]|] eqn:Hget;
    cbn [mbind option_bind] in Hrun; [|discriminate].
  apply get_crtc_state_connectors in Hget.
  pose proof (kept_or_detached_same _ _ _ _ Hget Hi) as H1.
  destruct (negb (r =? 0)); [now injection Hrun as _ <-|].
  destruct (mark_mode_changed st1 k) as [st2|] eqn:Hmark;
    cbn [mbind option_bind] in Hrun; [|discriminate].
  apply mark_mode_changed_connectors in Hmark.
  pose proof (kept_or_detached_same _ _ _ _ Hmark H1) as H2.
  revert Hrun H2. apply for_each_ret_inv.
  clear. intros j s r s' Hbody Hs.
  destruct (connector_list dev !! j) as [c|];
    cbn [mbind option_bind] in Hbody; [|discriminate].
  destruct (decide (best_encoder c = Some encoder));
    [|now injection Hbody as _ <-].
  destruct (drm_atomic_get_connector_state F dev s j) as [[r1 s1]|] eqn:Hg;
    cbn [mbind option_bind] in Hbody; [|discriminate].
  pose proof (get_connector_state_kept _ _ _ _ _ _ Hg Hs) as Hs1.
  destruct (negb (r1 =? 0)); [now injection Hbody as _ <-|].
  unfold drm_atomic_set_crtc_for_connector in Hbody.
  cbn [mbind option_bind negb Z.eqb] in Hbody.
  destruct (connector_state_of s1 j) as [c1|];
    cbn [mbind option_bind negb Z.eqb] in Hbody; [|discriminate].
  set (s2 := put_connector_state s1 j _) in Hbody.
  assert (Hs2 : kept_or_detached i c0 s2)
    by (apply kept_or_detached_put; auto).
  destruct (connector_state_of s2 j) as [c2|] eqn:Hc2;
    cbn [mbind option_bind] in Hbody; [|discriminate].
  injection Hbody as _ <-.
  apply kept_or_detached_put; [|exact Hs2].
  intros _. unfold connector_state_of, s2, put_connector_state in Hc2.
  cbn [connector_states set_connector_states] in Hc2.
  destruct (decide (j < length (connector_states s1))%nat) as [Hlt|Hge].
  - rewrite list_lookup_insert_eq in Hc2 by exact Hlt.
    cbn in Hc2. now injection Hc2 as <-.
  - rewrite lookup_ge_None_2 in Hc2 by (rewrite length_insert; lia).
    discriminate.
Qed.

End routing_facts.

(** *** The check phase *)

Section check_facts.
Context {M : Type} (F : drm_funcs M) (dev : drm_device M).

Lemma plane_changed_frame (st st' : drm_atomic_state M) ps plane :
  drm_atomic_helper_plane_changed st ps plane = Some st' ->
  plane_states st' = plane_states st /\
  connector_states st' = connector_states st /\
  length (crtc_states st') = length (crtc_states st).
Proof.
  unfold drm_atomic_helper_plane_changed. cbv zeta. intros Hrun.
  destruct (plane_state_crtc (plane_current_state plane));
    [destruct (plane_crtc plane) as [idx0|];
       cbn [mbind option_bind] in Hrun; [|discriminate];
     destruct (crtc_states st !! idx0) as [[cs0|]|];
       cbn [mbind option_bind negb] in Hrun; try discriminate;
       [|now injection Hrun as <-]
    |cbn [mbind option_bind negb] in Hrun];
    (destruct (plane_state_crtc ps) as [idx|];
       [|injection Hrun as <-; cbn; rewrite ?length_insert; auto];
     match type of Hrun with
     | context [crtc_states ?s !! idx] =>
         destruct (crtc_states s !! idx) as [[cs|]|];
           cbn [mbind option_bind] in Hrun; try discriminate;
           injection Hrun as <-; cbn; rewrite ?length_insert; auto
     end).
Qed.

End check_facts.


(** ** The return codes of the check phase *)

Lemma for_each_ret_code {Ix S : Type} (P : Z -> Prop) (ixs : list Ix)
    (body : Ix -> S -> option (Z * S)) s ret s' :
  P 0 ->
  (forall i s ret s', body i s = Some (ret, s') -> P ret) ->
  for_each_ret ixs body s = Some (ret, s') -> P ret.
Proof.
  intros H0 Hbody. revert s. induction ixs as [|i ixs IH]; intros s; simpl.
  - now intros [= <- _].
  - destruct (body i s) as [[ret1 s1]|] eqn:Hb; [|discriminate]. simpl.
    destruct (negb (ret1 =? 0)).
    + intros [= <- _]. exact (Hbody _ _ _ _ Hb).
    + apply IH.
Qed.

Section check_codes.
Context {M : Type} (F : drm_funcs M) (dev : drm_device M).

Let ok_or_error (ret : Z) : Prop := ret = 0 \/ check_error F ret.

Lemma get_crtc_state_code st i ret st' :
  drm_atomic_get_crtc_state F dev st i = Some (ret, st') -> ok_or_error ret.
Proof.
  unfold drm_atomic_get_crtc_state.
  destruct (crtc_states st !! i) as [[cs|]|]; cbn [mbind option_bind];
    [| |discriminate].
  - intros [= <- _]. now left.
  - destruct (negb (crtc_acquire F i =? 0)).
    + intros [= <- _]. right. right. right. eauto.
    + destruct (crtc_list dev !! i); [|discriminate].
      intros [= <- _]. now left.
Qed.

Lemma get_connector_state_code st j ret st' :
  drm_atomic_get_connector_state F dev st j = Some (ret, st') ->
  ok_or_error ret.
Proof.
  unfold drm_atomic_get_connector_state.
  destruct (connector_states st !! j) as [[c|]|]; cbn [mbind option_bind];
    [| |discriminate].
  - intros [= <- _]. now left.
  - destruct (negb (connector_acquire F j =? 0)).
    + intros [= <- _]. right. right. left. eauto.
    + destruct (connector_list dev !! j) as [c|]; [|discriminate].
      cbn [mbind option_bind]. destruct (crtc c).
      * apply get_crtc_state_code.
      * intros [= <- _]. now left.
Qed.

Lemma set_crtc_for_connector_code st j new_crtc ret st' :
  drm_atomic_set_crtc_for_connector F dev st j new_crtc = Some (ret, st') ->
  ok_or_error ret.
Proof.
  unfold drm_atomic_set_crtc_for_connector.
  destruct new_crtc as [i|].
  - destruct (drm_atomic_get_crtc_state F dev st i) as [[r s1]|] eqn:Hg;
      [|discriminate]. cbn [mbind option_bind].
    apply get_crtc_state_code in Hg.
    destruct (negb (r =? 0)); [now intros [= <- _]|].
    destruct (connector_state_of s1 j); [|discriminate].
    intros [= <- _]. now left.
  - cbn [mbind option_bind Z.eqb negb].
    destruct (connector_state_of st j); [|discriminate].
    intros [= <- _]. now left.
Qed.

Lemma steal_encoder_code st encoder encoder_crtc ret st' :
  steal_encoder F dev st encoder encoder_crtc = Some (ret, st') ->
  ok_or_error ret.
Proof.
  unfold steal_encoder.
  destruct (drm_atomic_get_crtc_state F dev st encoder_crtc)
    as [[r s1]|] eqn:Hg; [|discriminate]. cbn [mbind option_bind].
  apply get_crtc_state_code in Hg.
  destruct (negb (r =? 0)); [now intros [= <- _]|].
  destruct (mark_mode_changed s1 encoder_crtc) as [s2|]; [|discriminate].
  cbn [mbind option_bind].
  apply for_each_ret_code; [now left|].
  intros j s r' s'.
  destruct (connector_list dev !! j) as [c|]; [|discriminate].
  cbn [mbind option_bind].
  destruct (decide (best_encoder c = Some encoder)); [|intros [= <- _]; now left].
  destruct (drm_atomic_get_connector_state F dev s j) as [[r3 s3]|] eqn:Hc;
    [|discriminate]. cbn [mbind option_bind].
  apply get_connector_state_code in Hc.
  destruct (negb (r3 =? 0)); [now intros [= <- _]|].
  destruct (drm_atomic_set_crtc_for_connector F dev s3 j None)
    as [[r4 s4]|] eqn:Hs; [|discriminate]. cbn [mbind option_bind].
  apply set_crtc_for_connector_code in Hs.
  destruct (negb (r4 =? 0)); [now intros [= <- _]|].
  destruct (connector_state_of s4 j); [|discriminate].
  intros [= <- _]. now left.
Qed.

Lemma update_connector_routing_code st j ret st' :
  update_connector_routing F dev st j = Some (ret, st') -> ok_or_error ret.
Proof.
  unfold update_connector_routing.
  destruct (connector_states st !! j) as [[c|]|]; cbn [mbind option_bind];
    [| |discriminate].
  2:{ intros [= <- _]. now left. }
  destruct (connector_list dev !! j) as [live|]; [|discriminate].
  cbn [mbind option_bind].
  match goal with
  | |- context [mbind _ ?x] => destruct x as [s1|]; [|discriminate]
  end.
  cbn [mbind option_bind].
  destruct (crtc c); [|intros [= <- _]; now left].
  destruct (connector_best_encoder F j) as [new_encoder|];
    [|intros [= <- _]; right; now left].
  destruct (decide _); [intros [= <- _]; now left|].
  match goal with
  | |- context [mbind _ ?x] =>
      assert (Hst : forall r s, x = Some (r, s) -> ok_or_error r);
        [|destruct x as [[r s2]|]; [|discriminate]]
  end.
  { destruct (get_current_crtc_for_encoder dev new_encoder).
    - intros r s. apply steal_encoder_code.
    - intros r s [= <- _]. now left. }
  cbn [mbind option_bind]. specialize (Hst _ _ eq_refl).
  destruct (negb (r =? 0)); [now intros [= <- _]|].
  destruct (connector_state_of s2 j) as [c2|]; [|discriminate].
  cbn [mbind option_bind].
  destruct (crtc c2); [|discriminate]. cbn [mbind option_bind].
  destruct (mark_mode_changed _ _); [|discriminate].
  intros [= <- _]. now left.
Qed.

Lemma add_affected_connectors_code st i ret st' :
  drm_atomic_add_affected_connectors F dev st i = Some (ret, st') ->
  ok_or_error ret.
Proof.
  unfold drm_atomic_add_affected_connectors.
  apply for_each_ret_code; [now left|].
  intros j s r s'.
  destruct (connector_list dev !! j) as [c|]; [|discriminate].
  cbn [mbind option_bind].
  destruct (decide _); [apply get_connector_state_code|].
  intros [= <- _]. now left.
Qed.

Lemma check_full_modeset_code st i ret st' :
  check_full_modeset F dev st i = Some (ret, st') -> ok_or_error ret.
Proof.
  unfold check_full_modeset.
  destruct (crtc_states st !! i) as [[cs|]|]; cbn [mbind option_bind];
    [| |discriminate].
  2:{ intros [= <- _]. now left. }
  destruct (negb (mode_changed cs)); [intros [= <- _]; now left|].
  destruct (drm_atomic_add_affected_connectors F dev st i)
    as [[r s1]|] eqn:Hadd; [|discriminate]. cbn [mbind option_bind].
  apply add_affected_connectors_code in Hadd.
  destruct (negb (r =? 0)); [now intros [= <- _]|].
  destruct (negb _); intros [= <- _]; [right|]; now left.
Qed.

Lemma run_mode_fixup_code (st : drm_atomic_state M) idx hook ret st' :
  run_mode_fixup st idx hook = Some (ret, st') -> ok_or_error ret.
Proof.
  unfold run_mode_fixup.
  destruct (crtc_state_of st idx) as [cs|]; [|discriminate].
  cbn [mbind option_bind].
  destruct (hook (mode cs) (adjusted_mode cs)) as [[] adjusted];
    intros [= <- _]; [|right]; now left.
Qed.

Lemma mode_fixup_code st ret st' :
  mode_fixup F dev st = Some (ret, st') -> ok_or_error ret.
Proof.
  unfold mode_fixup. cbv zeta.
  destruct (for_each_ret _ _ st) as [[r1 s1]|]; [|discriminate].
  cbn [mbind option_bind].
  destruct (for_each_ret _ _ s1) as [[r2 s2]|] eqn:H2; [|discriminate].
  cbn [mbind option_bind].
  assert (Hr2 : ok_or_error r2).
  { revert H2. apply for_each_ret_code; [now left|].
    intros i s r s'.
    destruct (connector_states s !! i) as [[[[idx|] [encoder|]]|]|];
      cbn [mbind option_bind]; try discriminate;
      try (intros [= <- _]; now left).
    match goal with
    | |- context [mbind _ ?x] =>
        assert (Hb : forall r s, x = Some (r, s) -> ok_or_error r);
          [|destruct x as [[r3 s3]|]; [|discriminate]]
    end.
    { destruct (bridge_mode_fixup F encoder).
      - intros r0 s0. apply run_mode_fixup_code.
      - intros r0 s0 [= <- _]. now left. }
    cbn [mbind option_bind]. specialize (Hb _ _ eq_refl).
    destruct (negb (r3 =? 0)); [now intros [= <- _]|].
    apply run_mode_fixup_code. }
  destruct (negb (r2 =? 0)); [now intros [= <- _]|].
  apply for_each_ret_code; [now left|].
  intros i s r s'.
  destruct (crtc_states s !! i) as [[cs|]|]; cbn [mbind option_bind];
    [| |discriminate].
  - destruct (mode_changed cs); [apply run_mode_fixup_code|].
    intros [= <- _]. now left.
  - intros [= <- _]. now left.
Qed.

(** Whatever [drm_atomic_helper_check_prepare] returns other than 0 is
    [-EINVAL] or the code of a failed acquisition. *)
Lemma check_prepare_code st ret st' :
  drm_atomic_helper_check_prepare F dev st = Some (ret, st') ->
  ret = 0 \/ check_error F ret.
Proof.
  unfold drm_atomic_helper_check_prepare. cbv zeta.
  destruct (for_each _ _ st) as [s1|]; [|discriminate].
  cbn [mbind option_bind].
  destruct (for_each_ret _ _ s1) as [[r2 s2]|] eqn:H2; [|discriminate].
  cbn [mbind option_bind].
  assert (Hr2 : ok_or_error r2).
  { revert H2. apply for_each_ret_code; [now left|].
    intros i s r s'. apply update_connector_routing_code. }
  destruct (negb (r2 =? 0)); [now intros [= <- _]|].
  destruct (for_each_ret _ _ s2) as [[r3 s3]|] eqn:H3; [|discriminate].
  cbn [mbind option_bind].
  assert (Hr3 : ok_or_error r3).
  { revert H3. apply for_each_ret_code; [now left|].
    intros i s r s'. apply check_full_modeset_code. }
  destruct (negb (r3 =? 0)); [now intros [= <- _]|].
  apply mode_fixup_code.
Qed.

(** The last loop of [drm_atomic_helper_check_prepare] at a CRTC that needs
    a full modeset, once its connectors are in the transaction. *)
Lemma check_full_modeset_mismatch st i cs st1 :
  crtc_states st !! i = Some (Some cs) -> mode_changed cs = true ->
  drm_atomic_add_affected_connectors F dev st i = Some (0, st1) ->
  check_full_modeset F dev st i
  = Some (if eqb (enable cs)
               (negb (Nat.eqb (drm_atomic_connectors_for_crtc st1 i) 0))
          then 0 else - EINVAL, st1).
Proof.
  intros Hslot Hmc Hadd. unfold check_full_modeset.
  rewrite Hslot. cbn [mbind option_bind]. rewrite Hmc. cbn [negb].
  rewrite Hadd. cbn [mbind option_bind Z.eqb negb].
  now destruct (eqb _ _).
Qed.

(** A check that fails in [drm_atomic_helper_check_prepare] ends there: no
    plane or CRTC hook is consulted. *)
Lemma check_stops_at_prepare st ret st' :
  drm_atomic_helper_check_prepare F dev st = Some (ret, st') -> ret <> 0 ->
  drm_atomic_helper_check F dev st = Some (ret, st').
Proof.
  intros Hrun Hne. unfold drm_atomic_helper_check. cbv zeta.
  rewrite Hrun. cbn [mbind option_bind].
  destruct (Z.eqb_spec ret 0); [contradiction|reflexivity].
Qed.

End check_codes.

(** *** Why a CRTC needs a full modeset *)

(** A loop that came through: what each step set up and the later steps
    kept holds at the end. *)
Lemma for_each_post {Ix S : Type} (I : S -> Prop) (Q : Ix -> S -> Prop)
    (ixs : list Ix) (body : Ix -> S -> option S) s s' :
  (forall i s s', body i s = Some s' -> I s ->
     I s' /\ Q i s' /\ forall j, Q j s -> Q j s') ->
  for_each ixs body s = Some s' -> I s ->
  I s' /\ (forall j, Q j s -> Q j s') /\ forall i, i ∈ ixs -> Q i s'.
Proof.
  intros Hbody. revert s. induction ixs as [|i ixs IH]; intros s; simpl.
  - intros [= <-] Hs. split; [exact Hs|]. split; [auto|].
    intros i Hi. inversion Hi.
  - destruct (body i s) as [s1|] eqn:Hb; [|discriminate].
    cbn [mbind option_bind]. intros Hrun Hs.
    destruct (Hbody _ _ _ Hb Hs) as (Hs1 & Hq & Hstable).
    destruct (IH _ Hrun Hs1) as (Hs' & Hstable' & Hall).
    split; [exact Hs'|]. split; [auto|].
    intros j Hj. apply elem_of_cons in Hj as [->|Hj]; auto.
Qed.

Section check_marks.
Context {M : Type} (F : drm_funcs M) (dev : drm_device M).

Lemma check_progress_refl (st : drm_atomic_state M) : check_progress st st.
Proof. split; eauto 8. Qed.

Lemma check_progress_trans (a b c : drm_atomic_state M) :
  check_progress a b -> check_progress b c -> check_progress a c.
Proof.
  intros [H1 H2] [H3 H4]. split.
  - intros i cs Hcs. destruct (H1 i cs Hcs) as (cs1 & Hcs1 & He & Hm & Hc).
    destruct (H3 i cs1 Hcs1) as (cs2 & Hcs2 & He2 & Hm2 & Hc2).
    exists cs2. split; [exact Hcs2|]. split; [congruence|].
    split; [congruence|auto].
  - intros j x Hx. destruct (H2 j x Hx) as (x1 & Hx1 & Hor).
    destruct (H4 j x1 Hx1) as (x2 & Hx2 & Hor2).
    exists x2. split; [exact Hx2|].
    destruct Hor2 as [Heq|Hn]; [|now right]. rewrite Heq. exact Hor.
Qed.

Lemma needs_full_modeset_progress (st st' : drm_atomic_state M) i :
  check_progress st st' -> needs_full_modeset st i ->
  needs_full_modeset st' i.
Proof.
  intros [H _] (cs & Hcs & Hm).
  destruct (H i cs Hcs) as (cs' & Hcs' & _ & _ & Hc). exists cs'. auto.
Qed.

(** Writing slot [i] of the CRTC states. *)
Lemma check_progress_set_crtc (st : drm_atomic_state M) i cs' :
  (forall cs, crtc_state_of st i = Some cs ->
     enable cs' = enable cs /\ mode cs' = mode cs /\
     (mode_changed cs = true -> mode_changed cs' = true)) ->
  check_progress st
    (set_crtc_states st (<[i := Some cs']> (crtc_states st))).
Proof.
  intros Hi. split; [|intros j c Hc; exists c; auto].
  intros k cs Hcs. unfold crtc_state_of in *.
  cbn [crtc_states set_crtc_states].
  destruct (decide (k = i)) as [->|Hne].
  - destruct (crtc_states st !! i) as [slot|] eqn:Hslot; [|discriminate].
    rewrite list_lookup_insert_eq by (now apply lookup_lt_Some in Hslot).
    exists cs'. split; [reflexivity|]. apply Hi.
    exact Hcs.
  - rewrite list_lookup_insert_ne by congruence. exists cs. auto.
Qed.

Lemma check_progress_put_connector (st : drm_atomic_state M) j c' :
  (forall c, connector_state_of st j = Some c ->
     crtc c' = crtc c \/ crtc c' = None) ->
  check_progress st (put_connector_state st j c').
Proof.
  intros Hj. split; [intros i cs Hcs; exists cs; auto|].
  intros k c Hc. unfold connector_state_of, put_connector_state in *.
  cbn [connector_states set_connector_states].
  destruct (decide (k = j)) as [->|Hne].
  - destruct (connector_states st !! j) as [slot|] eqn:Hslot; [|discriminate].
    rewrite list_lookup_insert_eq by (now apply lookup_lt_Some in Hslot).
    exists c'. split; [reflexivity|]. apply Hj. exact Hc.
  - rewrite list_lookup_insert_ne by congruence. exists c. auto.
Qed.

Lemma mark_mode_changed_progress (st : drm_atomic_state M) k st' :
  mark_mode_changed st k = Some st' ->
  check_progress st st' /\ needs_full_modeset st' k.
Proof.
  intros Hmark. split; [|exact (mark_mode_changed_flag _ _ _ Hmark)].
  unfold mark_mode_changed in Hmark.
  destruct (crtc_state_of st k) as [cs|] eqn:Hcs;
    cbn [mbind option_bind] in Hmark; [|discriminate].
  injection Hmark as <-. apply check_progress_set_crtc.
  intros cs0 Hcs0. rewrite Hcs in Hcs0. injection Hcs0 as <-.
  cbn [crtc_state_set_mode_changed enable mode mode_changed]. auto.
Qed.

Lemma get_crtc_state_progress (st : drm_atomic_state M) k ret st' :
  drm_atomic_get_crtc_state F dev st k = Some (ret, st') ->
  check_progress st st'.
Proof.
  unfold drm_atomic_get_crtc_state.
  destruct (crtc_states st !! k) as [[cs|]|] eqn:Hslot;
    cbn [mbind option_bind]; try discriminate.
  - intros [= _ <-]. apply check_progress_refl.
  - destruct (negb (crtc_acquire F k =? 0));
      [intros [= _ <-]; apply check_progress_refl|].
    destruct (crtc_list dev !! k) as [cs|]; cbn [mbind option_bind];
      [|discriminate].
    intros [= _ <-]. apply check_progress_set_crtc.
    intros cs0 Hcs0. unfold crtc_state_of in Hcs0.
    rewrite Hslot in Hcs0. discriminate.
Qed.

Lemma get_connector_state_progress (st : drm_atomic_state M) j ret st' :
  drm_atomic_get_connector_state F dev st j = Some (ret, st') ->
  check_progress st st'.
Proof.
  unfold drm_atomic_get_connector_state.
  destruct (connector_states st !! j) as [[c|]|] eqn:Hslot;
    cbn [mbind option_bind]; try discriminate.
  - intros [= _ <-]. apply check_progress_refl.
  - destruct (negb (connector_acquire F j =? 0));
      [intros [= _ <-]; apply check_progress_refl|].
    destruct (connector_list dev !! j) as [c|]; cbn [mbind option_bind];
      [|discriminate].
    assert (Hput : check_progress st (put_connector_state st j c)).
    { apply check_progress_put_connector. intros c0 Hc0.
      unfold connector_state_of in Hc0. rewrite Hslot in Hc0. discriminate. }
    destruct (crtc c) as [k|].
    + intros Hget. apply get_crtc_state_progress in Hget.
      exact (check_progress_trans _ _ _ Hput Hget).
    + now intros [= _ <-].
Qed.

Lemma steal_encoder_progress (st : drm_atomic_state M) encoder k ret st' :
  steal_encoder F dev st encoder k = Some (ret, st') ->
  check_progress st st'.
Proof.
  unfold steal_encoder. intros Hrun.
  destruct (drm_atomic_get_crtc_state F dev st k) as [[r st1]|] eqn:Hget;
    cbn [mbind option_bind] in Hrun; [|discriminate].
  apply get_crtc_state_progress in Hget.
  destruct (negb (r =? 0)); [now injection Hrun as _ <-|].
  destruct (mark_mode_changed st1 k) as [st2|] eqn:Hmark;
    cbn [mbind option_bind] in Hrun; [|discriminate].
  apply mark_mode_changed_progress in Hmark as [Hmark _].
  pose proof (check_progress_trans _ _ _ Hget Hmark) as H2.
  revert Hrun H2. apply for_each_ret_inv.
  clear. intros j s r s' Hbody Hs.
  apply (check_progress_trans _ _ _ Hs).
  destruct (connector_list dev !! j) as [c|];
    cbn [mbind option_bind] in Hbody; [|discriminate].
  destruct (decide (best_encoder c = Some encoder));
    [|injection Hbody as _ <-; apply check_progress_refl].
  destruct (drm_atomic_get_connector_state F dev s j) as [[r1 s1]|] eqn:Hg;
    cbn [mbind option_bind] in Hbody; [|discriminate].
  apply get_connector_state_progress in Hg.
  destruct (negb (r1 =? 0)); [now injection Hbody as _ <-|].
  apply (check_progress_trans _ _ _ Hg).
  unfold drm_atomic_set_crtc_for_connector in Hbody.
  cbn [mbind option_bind negb Z.eqb] in Hbody.
  destruct (connector_state_of s1 j) as [c1|];
    cbn [mbind option_bind negb Z.eqb] in Hbody; [|discriminate].
  set (s2 := put_connector_state s1 j _) in Hbody.
  assert (Hs2 : check_progress s1 s2)
    by (apply check_progress_put_connector; auto).
  apply (check_progress_trans _ _ _ Hs2).
  destruct (connector_state_of s2 j) as [c2|] eqn:Hc2;
    cbn [mbind option_bind] in Hbody; [|discriminate].
  injection Hbody as _ <-.
  apply check_progress_put_connector. intros c3 Hc3. left.
  cbn [crtc]. congruence.
Qed.


(** [update_connector_routing] on connector [j] whose state in the
    transaction is on another CRTC than its current state: both CRTCs need
    a full modeset. *)
Lemma update_connector_routing_marks (st : drm_atomic_state M) j ret st' :
  update_connector_routing F dev st j = Some (ret, st') ->
  check_progress st st' /\
  forall c live,
    connector_state_of st j = Some c -> connector_list dev !! j = Some live ->
    crtc live <> crtc c ->
    (forall x, crtc live = Some x -> needs_full_modeset st' x) /\
    (forall y, crtc c = Some y -> needs_full_modeset st' y).
Proof.
  unfold update_connector_routing.
  destruct (connector_states st !! j) as [[c0|]|] eqn:Hslot;
    cbn [mbind option_bind]; try discriminate.
  2:{ intros [= _ <-]. split; [apply check_progress_refl|].
      intros c live Hc. unfold connector_state_of in Hc.
      rewrite Hslot in Hc. discriminate. }
  assert (Hc0 : connector_state_of st j = Some c0)
    by (unfold connector_state_of; now rewrite Hslot).
  destruct (connector_list dev !! j) as [live0|]; cbn [mbind option_bind];
    [|discriminate].
  match goal with
  | |- context [mbind _ ?first] =>
      destruct first as [st1|] eqn:Hfirst; cbn [mbind option_bind];
        [|discriminate]
  end.
  assert (H1 : check_progress st st1 /\
               (crtc live0 <> crtc c0 ->
                (forall x, crtc live0 = Some x -> needs_full_modeset st1 x) /\
                (forall y, crtc c0 = Some y -> needs_full_modeset st1 y))).
  { destruct (decide (crtc live0 = crtc c0)) as [Heq|Hne].
    { injection Hfirst as <-. split; [apply check_progress_refl|].
      intros Hne. contradiction. }
    destruct (match crtc live0 with
              | Some idx => mark_mode_changed st idx
              | None => Some st
              end) as [sta|] eqn:Ha; cbn [mbind option_bind] in Hfirst;
      [|discriminate].
    assert (Hsta : check_progress st sta /\
                   forall x, crtc live0 = Some x -> needs_full_modeset sta x).
    { destruct (crtc live0) as [x0|].
      - apply mark_mode_changed_progress in Ha as [Hp Hm].
        split; [exact Hp|]. now intros x [= <-].
      - injection Ha as <-. split; [apply check_progress_refl|].
        intros x. discriminate. }
    destruct Hsta as [Hpa Hma].
    destruct (crtc c0) as [y0|].
    - apply mark_mode_changed_progress in Hfirst as [Hp Hm].
      split; [exact (check_progress_trans _ _ _ Hpa Hp)|]. intros _. split.
      + intros x Hx. exact (needs_full_modeset_progress _ _ _ Hp (Hma x Hx)).
      + now intros y [= <-].
    - injection Hfirst as <-. split; [exact Hpa|]. intros _.
      split; [exact Hma|]. intros y. discriminate. }
  destruct H1 as [Hp1 Hm1].
  assert (Hend : forall st2, check_progress st1 st2 ->
            check_progress st st2 /\
            forall c live,
              Some c0 = Some c -> Some live0 = Some live ->
              crtc live <> crtc c ->
              (forall x, crtc live = Some x -> needs_full_modeset st2 x) /\
              (forall y, crtc c = Some y -> needs_full_modeset st2 y)).
  { intros st2 Hp2. split; [exact (check_progress_trans _ _ _ Hp1 Hp2)|].
    intros c live [= <-] [= <-] Hne. destruct (Hm1 Hne) as [Hx Hy].
    split; intros z Hz;
      apply (needs_full_modeset_progress _ _ _ Hp2); auto. }
  rewrite Hc0.
  destruct (crtc c0) as [k0|] eqn:Hcrtc.
  2:{ intros [= _ <-]. apply Hend.
      apply check_progress_put_connector. intros c Hc. now right. }
  destruct (connector_best_encoder F j) as [new_encoder|];
    [|intros [= _ <-]; apply Hend, check_progress_refl].
  destruct (decide (Some new_encoder = best_encoder c0));
    [intros [= _ <-]; apply Hend, check_progress_refl|].
  match goal with
  | |- context [mbind _ ?steal] =>
      destruct steal as [[r st2]|] eqn:Hsteal; cbn [mbind option_bind];
        [|discriminate]
  end.
  assert (Hp2 : check_progress st1 st2).
  { destruct (get_current_crtc_for_encoder dev new_encoder) as [ec|].
    - exact (steal_encoder_progress _ _ _ _ _ Hsteal).
    - injection Hsteal as _ <-. apply check_progress_refl. }
  destruct (negb (r =? 0)); [intros [= _ <-]; now apply Hend|].
  destruct (connector_state_of st2 j) as [c2|] eqn:Hc2;
    cbn [mbind option_bind]; [|discriminate].
  destruct (crtc c2) as [idx|] eqn:Hidx; cbn [mbind option_bind];
    [|discriminate].
  destruct (mark_mode_changed _ idx) as [st3|] eqn:Hmark;
    cbn [mbind option_bind]; [|discriminate].
  intros [= _ <-]. apply Hend.
  apply mark_mode_changed_progress in Hmark as [Hp3 _].
  apply (check_progress_trans _ _ _ Hp2).
  refine (check_progress_trans _ _ _ _ Hp3).
  apply check_progress_put_connector. intros c Hc. left.
  cbn [crtc]. congruence.
Qed.


(** The first loop of [drm_atomic_helper_check_prepare]. *)
Lemma check_prepare_mode_marks (st s1 : drm_atomic_state M) :
  for_each (seq 0 (length (crtc_list dev)))
    (fun i st =>
       slot ← crtc_states st !! i;
       match slot with
       | None => Some st
       | Some cs =>
         live ← crtc_list dev !! i;
         let cs := if negb (drm_mode_equal F (mode live) (mode cs))
                   then crtc_state_set_mode_changed cs else cs in
         let cs := if negb (eqb (enable live) (enable cs))
                   then crtc_state_set_mode_changed cs else cs in
         Some (set_crtc_states st (<[i := Some cs]> (crtc_states st)))
       end) st = Some s1 ->
  check_progress st s1 /\
  forall i cs0 live,
    crtc_state_of st i = Some cs0 -> crtc_list dev !! i = Some live ->
    drm_mode_equal F (mode live) (mode cs0) = false \/
    enable live <> enable cs0 ->
    needs_full_modeset s1 i.
Proof.
  intros Hrun.
  apply (for_each_post (check_progress st)
           (fun i s => forall cs0 live,
              crtc_state_of st i = Some cs0 ->
              crtc_list dev !! i = Some live ->
              drm_mode_equal F (mode live) (mode cs0) = false \/
              enable live <> enable cs0 ->
              needs_full_modeset s i))
    in Hrun as (Hp & _ & Hall); [| |apply check_progress_refl].
  - split; [exact Hp|]. intros i cs0 live Hcs0 Hlive.
    apply (Hall i); [|exact Hcs0|exact Hlive].
    apply elem_of_seq. apply lookup_lt_Some in Hlive. lia.
  - clear. intros i s s' Hb Hs.
    destruct (crtc_states s !! i) as [[cs|]|] eqn:Hslot;
      cbn [mbind option_bind] in Hb; try discriminate.
    2:{ injection Hb as <-. split; [exact Hs|]. split; [|auto].
        intros cs0 live Hcs0 _ _. destruct Hs as [Hs _].
        destruct (Hs i cs0 Hcs0) as (cs' & Hcs' & _).
        unfold crtc_state_of in Hcs'. rewrite Hslot in Hcs'. discriminate. }
    destruct (crtc_list dev !! i) as [live|] eqn:Hlive;
      cbn [mbind option_bind] in Hb; [|discriminate].
    cbv zeta in Hb. injection Hb as <-.
    assert (Hcs : crtc_state_of s i = Some cs)
      by (unfold crtc_state_of; now rewrite Hslot).
    match goal with
    | |- context [<[i := Some ?x]> _] => set (cs2 := x)
    end.
    assert (Hflags : enable cs2 = enable cs /\ mode cs2 = mode cs /\
                     (mode_changed cs = true -> mode_changed cs2 = true) /\
                     (drm_mode_equal F (mode live) (mode cs) = false \/
                      enable live <> enable cs -> mode_changed cs2 = true)).
    { subst cs2.
      destruct (drm_mode_equal F (mode live) (mode cs)) eqn:Hm; cbn [negb];
        cbn [crtc_state_set_mode_changed enable mode mode_changed];
        destruct (eqb (enable live) (enable cs)) eqn:He; cbn [negb];
        cbn [crtc_state_set_mode_changed enable mode mode_changed];
        repeat split; auto.
      intros [Hf|Hne]; [discriminate|]. apply eqb_prop in He. contradiction. }
    destruct Hflags as (He & Hm & Hmc & Hcause).
    assert (Hstep : check_progress s
                      (set_crtc_states s (<[i := Some cs2]> (crtc_states s)))).
    { apply check_progress_set_crtc. intros cs1 Hcs1.
      rewrite Hcs in Hcs1. injection Hcs1 as <-. auto. }
    split; [exact (check_progress_trans _ _ _ Hs Hstep)|]. split.
    + intros cs0 live0 Hcs0 Hl0 Hc0. injection Hl0 as <-.
      destruct Hs as [Hs _].
      destruct (Hs i cs0 Hcs0) as (cs' & Hcs' & He' & Hm' & _).
      rewrite Hcs in Hcs'. injection Hcs' as <-.
      exists cs2. split.
      * unfold crtc_state_of. cbn [crtc_states set_crtc_states].
        rewrite list_lookup_insert_eq
          by (now apply lookup_lt_Some in Hslot). reflexivity.
      * apply Hcause. rewrite He', Hm'. exact Hc0.
    + intros j Hj cs0 live0 Hcs0 Hl0 Hc0.
      exact (needs_full_modeset_progress _ _ _ Hstep (Hj cs0 live0 Hcs0 Hl0 Hc0)).
Qed.

(** The routing loop of [drm_atomic_helper_check_prepare]. *)
Lemma check_prepare_routing_marks (s1 s2 : drm_atomic_state M) :
  for_each_ret (seq 0 (length (connector_list dev)))
    (fun i st => update_connector_routing F dev st i) s1 = Some (0, s2) ->
  check_progress s1 s2 /\
  forall j c live,
    connector_state_of s1 j = Some c -> connector_list dev !! j = Some live ->
    (forall x, crtc live = Some x -> crtc c <> Some x ->
       needs_full_modeset s2 x) /\
    (forall c' y, connector_state_of s2 j = Some c' -> crtc c' = Some y ->
       crtc live <> Some y -> needs_full_modeset s2 y).
Proof.
  intros Hrun.
  apply (for_each_ret_post (check_progress s1)
           (fun j s => forall c live,
              connector_state_of s1 j = Some c ->
              connector_list dev !! j = Some live ->
              (forall x, crtc live = Some x -> crtc c <> Some x ->
                 needs_full_modeset s x) /\
              (forall c' y, connector_state_of s j = Some c' ->
                 crtc c' = Some y -> crtc live <> Some y ->
                 needs_full_modeset s y)))
    in Hrun as (Hp & _ & Hall); [| |apply check_progress_refl].
  - split; [exact Hp|]. intros j c live Hc Hlive.
    apply (Hall j); [|exact Hc|exact Hlive].
    apply elem_of_seq. apply lookup_lt_Some in Hlive. lia.
  - clear. intros i s s' Hb Hs.
    apply update_connector_routing_marks in Hb as [Hstep Hmarks].
    split; [exact (check_progress_trans _ _ _ Hs Hstep)|]. split.
    + intros c live Hc Hlive.
      destruct (proj2 Hs i c Hc) as (ci & Hci & Hor).
      split.
      * intros x Hx Hne.
        assert (Hdiff : crtc live <> crtc ci)
          by (rewrite Hx; destruct Hor as [->| ->]; congruence).
        exact (proj1 (Hmarks ci live Hci Hlive Hdiff) x Hx).
      * intros c' y Hc' Hy Hne.
        destruct (proj2 Hstep i ci Hci) as (c'' & Hc'' & Hor').
        rewrite Hc' in Hc''. injection Hc'' as <-.
        assert (Hciy : crtc ci = Some y)
          by (destruct Hor' as [<-|Hn]; congruence).
        assert (Hdiff : crtc live <> crtc ci) by congruence.
        exact (proj2 (Hmarks ci live Hci Hlive Hdiff) y Hciy).
    + intros j Hj c live Hc Hlive.
      destruct (Hj c live Hc Hlive) as [Hold Hnew]. split.
      * intros x Hx Hne.
        exact (needs_full_modeset_progress _ _ _ Hstep (Hold x Hx Hne)).
      * intros c' y Hc' Hy Hne.
        destruct (proj2 Hs j c Hc) as (cj & Hcj & _).
        destruct (proj2 Hstep j cj Hcj) as (c'' & Hc'' & Hor').
        rewrite Hc' in Hc''. injection Hc'' as <-.
        assert (Hcjy : crtc cj = Some y)
          by (destruct Hor' as [<-|Hn]; congruence).
        exact (needs_full_modeset_progress _ _ _ Hstep
                 (Hnew cj y Hcj Hcjy Hne)).
Qed.

(** The last loop of [drm_atomic_helper_check_prepare] leaves the CRTC
    states and the connector states that are in the transaction alone. *)
Lemma check_full_modeset_loop_keeps n (s2 s3 : drm_atomic_state M) ret :
  for_each_ret (seq 0 n) (fun i st => check_full_modeset F dev st i) s2
  = Some (ret, s3) ->
  crtc_states s3 = crtc_states s2 /\
  forall j c, connector_state_of s2 j = Some c ->
    connector_state_of s3 j = Some c.
Proof.
  intros Hrun.
  apply (for_each_ret_inv
           (fun s => crtc_states s = crtc_states s2 /\
                     forall j c, connector_state_of s2 j = Some c ->
                       connector_state_of s j = Some c)) in Hrun;
    [exact Hrun| |split; auto].
  clear. intros i s ret s' Hb [Hc Hk].
  apply check_full_modeset_spec in Hb as [(Hcr & _ & Hslots) _].
  split; [congruence|]. intros j c Hj. specialize (Hk j c Hj).
  unfold connector_state_of in *.
  destruct (Hslots j) as [->|(Hnone & _)]; [exact Hk|].
  rewrite Hnone in Hk. discriminate.
Qed.

(** Why a CRTC needs a full modeset after a successful
    [drm_atomic_helper_check_prepare]. *)
Lemma check_prepare_marks (st st' : drm_atomic_state M) :
  drm_atomic_helper_check_prepare F dev st = Some (0, st') ->
  (forall i cs0 live,
     crtc_state_of st i = Some cs0 -> crtc_list dev !! i = Some live ->
     drm_mode_equal F (mode live) (mode cs0) = false \/
     enable live <> enable cs0 ->
     exists cs, crtc_state_of st' i = Some cs /\ mode_changed cs = true /\
                enable cs = enable cs0) /\
  (forall j c live,
     connector_state_of st j = Some c -> connector_list dev !! j = Some live ->
     (forall x, crtc live = Some x -> crtc c <> Some x ->
        needs_full_modeset st' x) /\
     (forall c' y, connector_state_of st' j = Some c' -> crtc c' = Some y ->
        crtc live <> Some y -> needs_full_modeset st' y)).
Proof.
  unfold drm_atomic_helper_check_prepare. cbv zeta.
  destruct (for_each _ _ st) as [s1|] eqn:H1; [|discriminate].
  cbn [mbind option_bind].
  destruct (for_each_ret _ _ s1) as [[r2 s2]|] eqn:H2; [|discriminate].
  cbn [mbind option_bind].
  destruct (Z.eqb_spec r2 0) as [->|Hne]; cbn [negb];
    [|intros [= -> _]; contradiction].
  destruct (for_each_ret _ _ s2) as [[r3 s3]|] eqn:H3; [|discriminate].
  cbn [mbind option_bind].
  destruct (Z.eqb_spec r3 0) as [->|Hne]; cbn [negb];
    [|intros [= -> _]; contradiction].
  intros Hfix. apply mode_fixup_routing in Hfix.
  apply check_prepare_mode_marks in H1 as [Hp1 Hmode].
  apply check_prepare_routing_marks in H2 as [Hp2 Hroute].
  apply check_full_modeset_loop_keeps in H3 as [Hcr3 Hconn3].
  assert (Hconn : forall j, connector_state_of st' j = connector_state_of s3 j)
    by (intros j; unfold connector_state_of; now rewrite (proj1 Hfix)).
  assert (Hfwd : forall i cs, crtc_state_of s2 i = Some cs ->
            exists cs', crtc_state_of st' i = Some cs' /\
                        enable cs' = enable cs /\
                        mode_changed cs' = mode_changed cs).
  { intros i cs Hcs.
    assert (Hsym : same_routing st' s3)
      by (destruct Hfix as [Ha Hb]; split; congruence).
    apply (same_routing_crtc_state _ _ i cs Hsym).
    unfold crtc_state_of in *. now rewrite Hcr3. }
  assert (Hnfm : forall i, needs_full_modeset s2 i ->
                           needs_full_modeset st' i).
  { intros i (cs & Hcs & Hm). destruct (Hfwd i cs Hcs) as (cs' & Hcs' & _ & Hm').
    exists cs'. split; [exact Hcs'|congruence]. }
  split.
  - intros i cs0 live Hcs0 Hlive Hcause.
    destruct (Hmode i cs0 live Hcs0 Hlive Hcause) as (cs1 & Hcs1 & Hm1).
    destruct (proj1 Hp1 i cs0 Hcs0) as (cs1' & Hcs1' & He1 & _).
    rewrite Hcs1 in Hcs1'. injection Hcs1' as <-.
    destruct (proj1 Hp2 i cs1 Hcs1) as (cs2 & Hcs2 & He2 & _ & Hm2).
    destruct (Hfwd i cs2 Hcs2) as (cs' & Hcs' & He' & Hm').
    exists cs'. split; [exact Hcs'|]. split; [|congruence].
    rewrite Hm'. auto.
  - intros j c live Hc Hlive.
    destruct (proj2 Hp1 j c Hc) as (c1 & Hc1 & Hor1).
    destruct (Hroute j c1 live Hc1 Hlive) as [Hold Hnew]. split.
    + intros x Hx Hne. apply Hnfm, (Hold x Hx).
      destruct Hor1 as [->| ->]; congruence.
    + intros c' y Hc' Hy Hne. apply Hnfm.
      destruct (proj2 Hp2 j c1 Hc1) as (c2 & Hc2 & _).
      rewrite Hconn, (Hconn3 j c2 Hc2) in Hc'. injection Hc' as <-.
      exact (Hnew c2 y Hc2 Hy Hne).
Qed.

End check_marks.

(** *** Swapping states *)

Section swap_facts.
Context {A B : Type} (get : A -> B) (set : A -> B -> A).

Lemma swap_slot_absent k (live : list A) (staged : list (option B)) :
  staged !! k = Some None ->
  swap_slot get set k (live, staged) = Some (live, staged).
Proof. intros H. unfold swap_slot. cbn [fst snd]. now rewrite H. Qed.

Lemma swap_slot_present k (live : list A) (staged : list (option B)) new o :
  staged !! k = Some (Some new) -> live !! k = Some o ->
  swap_slot get set k (live, staged)
  = Some (<[k := set o new]> live, <[k := Some (get o)]> staged).
Proof.
  intros H1 H2. unfold swap_slot. cbn [fst snd]. now rewrite H1, H2.
Qed.

(** What the swap loop over the objects [k], ..., [k + m - 1] leaves in the
    object table and in the transaction's array. *)
Lemma swap_loop_spec m : forall k (live : list A) (staged : list (option B)),
  (k + m <= length live)%nat -> (k + m <= length staged)%nat ->
  exists live' staged',
    for_each (seq k m) (swap_slot get set) (live, staged)
    = Some (live', staged') /\
    length live' = length live /\ length staged' = length staged /\
    forall i,
      live' !! i
      = (if decide (k <= i < k + m)%nat
         then match staged !! i with
              | Some (Some new) => (fun o => set o new) <$> live !! i
              | _ => live !! i
              end
         else live !! i) /\
      staged' !! i
      = (if decide (k <= i < k + m)%nat
         then match staged !! i with
              | Some (Some _) => (fun o => Some (get o)) <$> live !! i
              | o => o
              end
         else staged !! i).
Proof.
  induction m as [|m IH]; intros k live staged Hl Hs.
  - exists live, staged. split; [reflexivity|]. split; [reflexivity|].
    split; [reflexivity|]. intros i.
    destruct (decide _) as [?|_]; [lia|]. auto.
  - cbn [seq for_each].
    destruct (lookup_lt_is_Some_2 staged k ltac:(lia)) as [slot Hslot].
    destruct slot as [new|].
    + destruct (lookup_lt_is_Some_2 live k ltac:(lia)) as [o Ho].
      rewrite (swap_slot_present _ _ _ _ _ Hslot Ho).
      cbn [mbind option_bind].
      destruct (IH (S k) (<[k := set o new]> live)
                  (<[k := Some (get o)]> staged))
        as (live' & staged' & Hrun & Hl' & Hs' & Hall);
        [rewrite length_insert; lia..|].
      rewrite length_insert in Hl'. rewrite length_insert in Hs'.
      exists live', staged'. split; [exact Hrun|]. split; [exact Hl'|].
      split; [exact Hs'|]. intros i. destruct (Hall i) as [Hli Hsi].
      rewrite Hli, Hsi. clear Hall Hli Hsi.
      destruct (decide (i = k)) as [->|Hne].
      * destruct (decide (S k <= k < S k + m)%nat) as [?|_]; [lia|].
        destruct (decide (k <= k < k + S m)%nat) as [_|?]; [|lia].
        rewrite !list_lookup_insert_eq by lia. rewrite Hslot, Ho. auto.
      * rewrite !list_lookup_insert_ne by congruence.
        destruct (decide (S k <= i < S k + m)%nat);
          destruct (decide (k <= i < k + S m)%nat); auto; lia.
    + rewrite (swap_slot_absent _ _ _ Hslot). cbn [mbind option_bind].
      destruct (IH (S k) live staged) as
        (live' & staged' & Hrun & Hl' & Hs' & Hall); [lia..|].
      exists live', staged'. split; [exact Hrun|]. split; [exact Hl'|].
      split; [exact Hs'|]. intros i. destruct (Hall i) as [Hli Hsi].
      rewrite Hli, Hsi. clear Hall Hli Hsi.
      destruct (decide (i = k)) as [->|Hne].
      * destruct (decide (S k <= k < S k + m)%nat) as [?|_]; [lia|].
        destruct (decide (k <= k < k + S m)%nat) as [_|?]; [|lia].
        rewrite Hslot. auto.
      * destruct (decide (S k <= i < S k + m)%nat);
          destruct (decide (k <= i < k + S m)%nat); auto; lia.
Qed.

Hypothesis get_set : forall o x, get (set o x) = x.
Hypothesis set_get : forall o x, set (set o x) (get o) = o.

(** Swapping every object of the table twice gives back the table and the
    array. *)
Lemma swap_loop_twice (live : list A) (staged : list (option B)) :
  length staged = length live ->
  exists live' staged',
    for_each (seq 0 (length live)) (swap_slot get set) (live, staged)
    = Some (live', staged') /\
    length live' = length live /\ length staged' = length live /\
    for_each (seq 0 (length live)) (swap_slot get set) (live', staged')
    = Some (live, staged) /\
    forall i,
      live' !! i
      = match staged !! i with
        | Some (Some new) => (fun o => set o new) <$> live !! i
        | _ => live !! i
        end /\
      staged' !! i
      = match staged !! i with
        | Some (Some _) => (fun o => Some (get o)) <$> live !! i
        | o => o
        end.
Proof.
  intros Hlen.
  destruct (swap_loop_spec (length live) 0 live staged)
    as (live' & staged' & Hrun & Hl' & Hs' & Hall); [lia..|].
  assert (Hpt : forall i,
    live' !! i
    = match staged !! i with
      | Some (Some new) => (fun o => set o new) <$> live !! i
      | _ => live !! i
      end /\
    staged' !! i
    = match staged !! i with
      | Some (Some _) => (fun o => Some (get o)) <$> live !! i
      | o => o
      end).
  { intros i. destruct (Hall i) as [Hli Hsi]. rewrite Hli, Hsi.
    destruct (decide _) as [|Hout]; [auto|].
    rewrite (lookup_ge_None_2 staged i), (lookup_ge_None_2 live i) by lia.
    auto. }
  exists live', staged'. split; [exact Hrun|]. split; [exact Hl'|].
  split; [lia|]. split; [|exact Hpt].
  destruct (swap_loop_spec (length live) 0 live' staged')
    as (live2 & staged2 & Hrun2 & Hl2 & Hs2 & Hall2); [lia..|].
  rewrite Hrun2. f_equal. f_equal.
  - apply list_eq. intros i. destruct (Hall2 i) as [-> _].
    destruct (Hpt i) as [Hli Hsi]. rewrite Hli, Hsi.
    destruct (decide _) as [|Hout].
    + destruct (staged !! i) as [[new|]|]; [|reflexivity..].
      destruct (live !! i) as [o|]; [|reflexivity]. simpl.
      now rewrite set_get.
    + destruct (staged !! i) as [[new|]|]; [|reflexivity..].
      rewrite (lookup_ge_None_2 live i) by lia. reflexivity.
  - apply list_eq. intros i. destruct (Hall2 i) as [_ ->].
    destruct (Hpt i) as [Hli Hsi]. rewrite Hli, Hsi.
    destruct (decide _) as [Hin|Hout].
    + destruct (staged !! i) as [[new|]|] eqn:Hst; [|reflexivity..].
      destruct (live !! i) as [o|] eqn:Ho; simpl.
      * now rewrite get_set.
      * apply lookup_ge_None_1 in Ho. lia.
    + destruct (staged !! i) as [[new|]|] eqn:Hst; [|reflexivity..].
      apply lookup_lt_Some in Hst. lia.
Qed.

End swap_facts.

(** *** Preparing planes *)

Section prepare_facts.
Context {M : Type} (F : drm_funcs M).

(** The closed form of the loop of [drm_atomic_helper_prepare_planes]: it
    either goes through all planes, or stops at the first plane [i] whose
    [prepare_fb] fails and then cleans up the planes gone through before,
    last first. *)
Lemma prepare_planes_loop_spec (st : drm_atomic_state M) ixs :
  forall done tr ret tr',
  prepare_planes_loop F st ixs done tr = Some (ret, tr') ->
  (ret = 0 /\
   exists evs, tr' = tr ++ evs /\
     forall e, e ∈ evs -> exists j g, e = PrepareFb j g /\ j ∈ ixs) \/
  (ret <> 0 /\
   exists ixs1 i ixs2 ps f funcs hook pre undo,
     ixs = ixs1 ++ i :: ixs2 /\
     plane_states st !! i = Some (Some ps) /\ fb ps = Some f /\
     plane_helper_private F i = Some funcs /\
     prepare_fb funcs = Some hook /\ hook f = ret /\
     mapM (cleanup_plane F st) (reverse ixs1 ++ done) = Some undo /\
     tr' = tr ++ pre ++ [PrepareFb i f] ++ concat undo /\
     forall e, e ∈ pre -> exists j g, e = PrepareFb j g /\ j ∈ ixs1).
Proof.
  induction ixs as [|i ixs IH]; intros done tr ret tr'; simpl.
  - intros [= <- <-]. left. split; [reflexivity|]. exists [].
    split; [now rewrite app_nil_r|]. intros e He. inversion He.
  - destruct (prepare_plane F st i) as [[r ev]|] eqn:Hprep; [|discriminate].
    cbn [mbind option_bind].
    assert (Hev : forall e, e ∈ ev -> exists g, e = PrepareFb i g).
    { unfold prepare_plane in Hprep.
      destruct (plane_states st !! i) as [[ps|]|];
        cbn [mbind option_bind] in Hprep; try discriminate.
      - destruct (fb ps) as [f|].
        + destruct (plane_helper_private F i) as [funcs|];
            cbn [mbind option_bind] in Hprep; [|discriminate].
          destruct (prepare_fb funcs); injection Hprep as _ <-;
            intros e He; [|inversion He].
          apply list_elem_of_singleton in He. eauto.
        + injection Hprep as _ <-. intros e He. inversion He.
      - injection Hprep as _ <-. intros e He. inversion He. }
    destruct (Z.eqb_spec r 0) as [->|Hne]; cbn [negb].
    + intros Hrun. apply IH in Hrun as [(-> & evs & -> & Hevs)|Hfail].
      * left. split; [reflexivity|]. exists (ev ++ evs).
        split; [now rewrite app_assoc|].
        intros e He. apply elem_of_app in He as [He|He].
        -- destruct (Hev e He) as [g ->]. exists i, g. split; [auto|now left].
        -- destruct (Hevs e He) as (j & g & -> & Hj).
           exists j, g. split; [auto|now right].
      * right. destruct Hfail as
          (Hret & ixs1 & k & ixs2 & ps & f & funcs & hook & pre & undo &
           -> & Hps & Hfb & Hpriv & Hhook & Hf & Hundo & -> & Hpre).
        split; [exact Hret|].
        exists (i :: ixs1), k, ixs2, ps, f, funcs, hook, (ev ++ pre), undo.
        split; [reflexivity|]. do 5 (split; [assumption|]).
        split; [rewrite reverse_cons, <- app_assoc; exact Hundo|].
        split; [now rewrite <- !app_assoc|].
        intros e He. apply elem_of_app in He as [He|He].
        -- destruct (Hev e He) as [g ->]. exists i, g. split; [auto|now left].
        -- destruct (Hpre e He) as (j & g & -> & Hj).
           exists j, g. split; [auto|now right].
    + destruct (mapM (cleanup_plane F st) done) as [undo|] eqn:Hundo;
        [|discriminate].
      cbn [mbind option_bind]. intros [= <- <-]. right. split; [exact Hne|].
      unfold prepare_plane in Hprep.
      destruct (plane_states st !! i) as [[ps|]|] eqn:Hps;
        cbn [mbind option_bind] in Hprep; try discriminate.
      2:{ injection Hprep as <- _. congruence. }
      destruct (fb ps) as [f|] eqn:Hfb.
      2:{ injection Hprep as <- _. congruence. }
      destruct (plane_helper_private F i) as [funcs|] eqn:Hpriv;
        cbn [mbind option_bind] in Hprep; [|discriminate].
      destruct (prepare_fb funcs) as [hook|] eqn:Hhook.
      2:{ injection Hprep as <- _. congruence. }
      injection Hprep as <- <-.
      exists [], i, ixs, ps, f, funcs, hook, [], undo.
      split; [reflexivity|]. do 5 (split; [auto|]). split; [exact Hundo|].
      split; [reflexivity|]. intros e He. inversion He.
Qed.

End prepare_facts.

Lemma seq_split_at n (ixs1 ixs2 : list nat) i :
  seq 0 n = ixs1 ++ i :: ixs2 -> ixs1 = seq 0 i /\ (i < n)%nat.
Proof.
  intros Heq.
  assert (Hi : seq 0 n !! length ixs1 = Some i).
  { rewrite Heq. now rewrite list_lookup_middle. }
  apply lookup_seq in Hi as [Hi Hlt]. simpl in Hi. subst i.
  split; [|exact Hlt].
  apply list_eq. intros j.
  destruct (decide (j < length ixs1)%nat) as [Hj|Hj].
  - rewrite (lookup_seq_lt _ _ _ Hj).
    assert (Hs : seq 0 n !! j = Some j)
      by (rewrite lookup_seq_lt; [reflexivity|lia]).
    rewrite Heq, lookup_app_l in Hs by exact Hj. exact Hs.
  - rewrite lookup_seq_ge by lia. apply lookup_ge_None_2. lia.
Qed.

(** *** The framebuffers a commit touches *)

Section commit_facts.
Context {M : Type} (F : drm_funcs M).

Lemma prepare_plane_events (st : drm_atomic_state M) i r ev :
  prepare_plane F st i = Some (r, ev) ->
  forall e, e ∈ ev ->
    exists f ps, e = PrepareFb i f /\
      plane_states st !! i = Some (Some ps) /\ fb ps = Some f.
Proof.
  unfold prepare_plane.
  destruct (plane_states st !! i) as [[ps|]|];
    cbn [mbind option_bind]; try discriminate.
  - destruct (fb ps) as [f|] eqn:Hfb.
    + destruct (plane_helper_private F i) as [funcs|];
        cbn [mbind option_bind]; [|discriminate].
      destruct (prepare_fb funcs); intros [= _ <-] e He; [|inversion He].
      apply list_elem_of_singleton in He. eauto.
    + intros [= _ <-] e He. inversion He.
  - intros [= _ <-] e He. inversion He.
Qed.

Lemma prepare_planes_loop_events (st : drm_atomic_state M) ixs :
  forall done tr tr',
  prepare_planes_loop F st ixs done tr = Some (0, tr') ->
  exists evs, tr' = tr ++ evs /\
    forall e, e ∈ evs ->
      exists i f ps, e = PrepareFb i f /\
        plane_states st !! i = Some (Some ps) /\ fb ps = Some f.
Proof.
  induction ixs as [|i ixs IH]; intros done tr tr'; simpl.
  - intros [= <-]. exists []. split; [now rewrite app_nil_r|].
    intros e He. inversion He.
  - destruct (prepare_plane F st i) as [[r ev]|] eqn:Hprep; [|discriminate].
    cbn [mbind option_bind].
    destruct (Z.eqb_spec r 0) as [->|Hne]; cbn [negb].
    + intros Hrun. apply IH in Hrun as (evs & -> & Hevs).
      exists (ev ++ evs). split; [now rewrite app_assoc|].
      intros e He. apply elem_of_app in He as [He|He]; [|auto].
      destruct (prepare_plane_events _ _ _ _ Hprep e He) as (f & ps & ?).
      eauto.
    + destruct (mapM (cleanup_plane F st) done); [|discriminate].
      cbn [mbind option_bind]. intros [= Hz _]. contradiction.
Qed.

Lemma cleanup_planes_events (st : drm_atomic_state M) ixs undo :
  mapM (cleanup_plane F st) ixs = Some undo ->
  forall e, e ∈ concat undo ->
    exists i f ps, e = CleanupFb i f /\
      plane_states st !! i = Some (Some ps) /\ fb ps = Some f.
Proof.
  intros Hrun. apply mapM_Some in Hrun.
  induction Hrun as [|i ev ixs undo Hi _ IH]; intros e He; [inversion He|].
  cbn [concat] in He. apply elem_of_app in He as [He|He]; [|auto].
  unfold cleanup_plane in Hi.
  destruct (plane_states st !! i) as [[ps|]|] eqn:Hps;
    cbn [mbind option_bind] in Hi; try discriminate.
  - destruct (fb ps) as [f|] eqn:Hfb.
    + destruct (plane_helper_private F i) as [funcs|];
        cbn [mbind option_bind] in Hi; [|discriminate].
      destruct (cleanup_fb funcs); injection Hi as <-; [|inversion He].
      apply list_elem_of_singleton in He. eauto 6.
    + injection Hi as <-. inversion He.
  - injection Hi as <-. inversion He.
Qed.

End commit_facts.


(** ** The global GTT *)

Lemma u32_shiftr_page x :
  0 <= x < 2 ^ 44 -> u32 (Z.shiftr x PAGE_SHIFT) = x / PAGE_SIZE.
Proof.
  intros Hx. rewrite shiftr_page. apply u32_small.
  change PAGE_SIZE with (2 ^ 12). split.
  - apply Z.div_pos; lia.
  - apply Z.div_lt_upper_bound; [lia|].
    change (2 ^ 12 * 2 ^ 32) with (2 ^ 44). lia.
Qed.

(** [clear_range] of the global GTT, for a start inside the table: the
    entries it writes, and the clamp. *)
Lemma ggtt_clear_entries_spec g start length v :
  ggtt_ok g -> 0 <= start -> start / PAGE_SIZE < gtt_total_entries g ->
  0 <= length < 2 ^ 44 ->
  exists entries,
    ggtt_clear_entries g start length v
    = Some (gtt_set_gsm g entries,
            bool_decide (gtt_total_entries g
                         < start / PAGE_SIZE + length / PAGE_SIZE)) /\
    List.length entries = List.length (gsm g) /\
    forall k, 0 <= k < gtt_total_entries g ->
      entries !! Z.to_nat k
      = if decide (start / PAGE_SIZE <= k
                   < Z.min (start / PAGE_SIZE + length / PAGE_SIZE)
                       (gtt_total_entries g))
        then Some v else gsm g !! Z.to_nat k.
Proof.
  intros [Htot Hlen] Hs Hin Hl. unfold ggtt_clear_entries.
  assert (Hte : gtt_total_entries g = gtt_total g / PAGE_SIZE)
    by apply shiftr_page.
  assert (Hs44 : start < 2 ^ 44).
  { rewrite Hte in Hin. change PAGE_SIZE with (2 ^ 12) in Hin.
    pose proof (Z.div_le_mono (gtt_total g) start (2 ^ 12) ltac:(lia)).
    lia. }
  rewrite !u32_shiftr_page by lia.
  assert (Hf : 0 <= start / PAGE_SIZE)
    by (apply Z.div_pos; [lia|reflexivity]).
  assert (Hn : 0 <= length / PAGE_SIZE)
    by (apply Z.div_pos; [lia|reflexivity]).
  assert (Hte32 : gtt_total_entries g < 2 ^ 32).
  { rewrite Hte. change PAGE_SIZE with (2 ^ 12).
    apply Z.div_lt_upper_bound; [lia|].
    change (2 ^ 12 * 2 ^ 32) with (2 ^ 44). lia. }
  rewrite (u32_small (gtt_total_entries g - start / PAGE_SIZE)) by lia.
  set (first := start / PAGE_SIZE) in *.
  set (num := length / PAGE_SIZE) in *.
  set (max := gtt_total_entries g - first).
  cbv zeta.
  assert (Hread : forall n,
            is_Some (fill_page (gsm g) first (first + n) v
                       !! Z.to_nat first)).
  { intros n. apply lookup_lt_is_Some_2. rewrite fill_page_length. lia. }
  destruct (Z.gtb_spec num max) as [Hgt|Hle].
  - assert (Hfit : (first + max <=? Z.of_nat (List.length (gsm g))) = true)
      by (apply Z.leb_le; lia).
    rewrite Hfit. destruct (Hread max) as [x ->].
    cbn [mbind option_bind]. eexists. split; [|split].
    + f_equal. f_equal. symmetry. apply bool_decide_eq_true. lia.
    + apply fill_page_length.
    + intros k Hk. rewrite fill_page_lookup by lia.
      repeat destruct (decide _); try reflexivity; lia.
  - assert (Hfit : (first + num <=? Z.of_nat (List.length (gsm g))) = true)
      by (apply Z.leb_le; lia).
    rewrite Hfit. destruct (Hread num) as [x ->].
    cbn [mbind option_bind]. eexists. split; [|split].
    + f_equal. f_equal. symmetry. apply bool_decide_eq_false. lia.
    + apply fill_page_length.
    + intros k Hk. rewrite fill_page_lookup by lia.
      repeat destruct (decide _); try reflexivity; lia.
Qed.

(** From the end of the table on there is no entry for the posting read
    (or for the writes): a fault. *)
Lemma ggtt_clear_entries_past_end g start length v :
  ggtt_ok g -> 0 <= start < 2 ^ 44 ->
  gtt_total_entries g <= start / PAGE_SIZE ->
  ggtt_clear_entries g start length v = None.
Proof.
  intros [Htot Hlen] Hs Hout. unfold ggtt_clear_entries.
  rewrite (u32_shiftr_page start) by lia.
  assert (Hte : gtt_total_entries g = gtt_total g / PAGE_SIZE)
    by apply shiftr_page.
  assert (Hte0 : 0 <= gtt_total_entries g)
    by (rewrite Hte; apply Z.div_pos; [lia|reflexivity]).
  assert (Hf32 : start / PAGE_SIZE < 2 ^ 32).
  { change PAGE_SIZE with (2 ^ 12).
    apply Z.div_lt_upper_bound; [lia|].
    change (2 ^ 12 * 2 ^ 32) with (2 ^ 44). lia. }
  set (first := start / PAGE_SIZE) in *.
  set (num := u32 (Z.shiftr length PAGE_SHIFT)).
  assert (Hnum : 0 <= num) by (apply Z.mod_pos_bound; lia).
  set (max := u32 (gtt_total_entries g - first)).
  assert (Hmax : 0 <= max) by (apply Z.mod_pos_bound; lia).
  cbv zeta.
  set (n := if num >? max then max else num).
  assert (Hn0 : 0 <= n) by (unfold n; destruct (num >? max); lia).
  destruct (Z.leb_spec (first + n) (Z.of_nat (List.length (gsm g))))
    as [Hfit|]; [|reflexivity].
  rewrite (proj2 (lookup_ge_None _ _)); [reflexivity|].
  rewrite fill_page_length. lia.
Qed.

Lemma ggtt_insert_loop_spec encode first pages :
  forall entries i a w,
  0 <= first -> 0 <= i ->
  first + i + Z.of_nat (List.length pages) <= Z.of_nat (List.length entries) ->
  exists entries',
    ggtt_insert_loop encode first pages (entries, i, a, w)
    = Some (entries', i + Z.of_nat (List.length pages),
            default a (list.last pages),
            w || existsb (fun addr => snd (encode addr)) pages) /\
    List.length entries' = List.length entries /\
    forall k, 0 <= k ->
      entries' !! Z.to_nat k
      = if decide (first + i <= k
                   < first + i + Z.of_nat (List.length pages))
        then ((fun addr => fst (encode addr)) <$> pages)
               !! Z.to_nat (k - (first + i))
        else entries !! Z.to_nat k.
Proof.
  induction pages as [|addr pages IH]; intros entries i a w Hf Hi Hfit.
  - exists entries. cbn [ggtt_insert_loop List.length existsb list.last default].
    rewrite Z.add_0_r, orb_false_r. split; [reflexivity|].
    split; [reflexivity|].
    intros k Hk. destruct (decide _); [lia|reflexivity].
  - cbn [ggtt_insert_loop List.length existsb] in *.
    destruct (encode addr) as [pte w1] eqn:Henc. unfold store_at.
    rewrite bool_decide_eq_true_2 by lia. cbn [mbind option_bind].
    destruct (IH (<[Z.to_nat (first + i) := pte]> entries) (i + 1) addr
                (w || w1) Hf ltac:(lia)) as (entries' & -> & Hlen & Hk).
    { rewrite length_insert. lia. }
    rewrite length_insert in Hlen.
    exists entries'. split.
    { f_equal. f_equal; [f_equal; [f_equal; lia|]|].
      - rewrite last_cons. now destruct (list.last pages).
      - cbn [snd]. now rewrite orb_assoc. }
    split; [exact Hlen|].
    intros k Hk0. rewrite (Hk k Hk0).
    destruct (decide (first + (i + 1) <= k
                      < first + (i + 1) + Z.of_nat (List.length pages))).
    + destruct (decide _); [|lia].
      replace (Z.to_nat (k - (first + i)))
        with (S (Z.to_nat (k - (first + (i + 1))))) by lia.
      reflexivity.
    + destruct (decide (k = first + i)) as [->|Hne].
      * destruct (decide _); [|lia].
        rewrite list_lookup_insert_eq by lia.
        replace (first + i - (first + i)) with 0 by lia.
        cbn. now rewrite Henc.
      * destruct (decide _); [lia|].
        apply list_lookup_insert_ne. lia.
Qed.

(** [insert_entries] of the global GTT for pages that fit in the table: the
    entries written, and the posting read finds what was written. *)
Lemma ggtt_insert_pages_spec encode g pages start :
  0 <= start < 2 ^ 44 ->
  start / PAGE_SIZE + Z.of_nat (List.length pages)
  <= Z.of_nat (List.length (gsm g)) ->
  exists entries,
    ggtt_insert_pages encode g pages start
    = Some (gtt_set_gsm g entries,
            existsb (fun addr => snd (encode addr)) pages) /\
    List.length entries = List.length (gsm g) /\
    forall k, 0 <= k ->
      entries !! Z.to_nat k
      = if decide (start / PAGE_SIZE <= k
                   < start / PAGE_SIZE + Z.of_nat (List.length pages))
        then ((fun addr => fst (encode addr)) <$> pages)
               !! Z.to_nat (k - start / PAGE_SIZE)
        else gsm g !! Z.to_nat k.
Proof.
  intros Hs Hfit. unfold ggtt_insert_pages.
  rewrite u32_shiftr_page by exact Hs.
  assert (Hf : 0 <= start / PAGE_SIZE)
    by (apply Z.div_pos; [lia|reflexivity]).
  set (first := start / PAGE_SIZE) in *.
  destruct (ggtt_insert_loop_spec encode first pages (gsm g) 0 0 false
              Hf ltac:(lia) ltac:(lia)) as (entries & -> & Hlen & Hk).
  cbn [mbind option_bind orb]. rewrite Z.add_0_l.
  exists entries.
  assert (Hk' : forall k, 0 <= k ->
            entries !! Z.to_nat k
            = if decide (first <= k < first + Z.of_nat (List.length pages))
              then ((fun addr => fst (encode addr)) <$> pages)
                     !! Z.to_nat (k - first)
              else gsm g !! Z.to_nat k).
  { intros k Hk0. rewrite (Hk k Hk0), Z.add_0_r. reflexivity. }
  split; [|split; [exact Hlen|exact Hk']].
  destruct pages as [|addr pages]; [reflexivity|].
  set (l := addr :: pages) in *.
  assert (Hn : 0 < Z.of_nat (List.length l)) by (unfold l; simpl; lia).
  destruct (Z.eqb_spec (Z.of_nat (List.length l)) 0) as [|_]; [lia|].
  cbn [negb].
  rewrite (Hk' (first + Z.of_nat (List.length l) - 1)) by lia.
  destruct (decide _) as [_|]; [|lia].
  replace (Z.to_nat (first + Z.of_nat (List.length l) - 1 - first))
    with (pred (List.length l)) by lia.
  rewrite list_lookup_fmap, <- last_lookup.
  destruct (list.last l) as [a|] eqn:Hlast; [|now apply last_None in Hlast].
  cbn [fmap option_fmap option_map mbind option_bind default].
  change (id a) with a.
  destruct (encode a) as [pte w] eqn:Henc. cbn [fst mbind option_bind].
  rewrite Z.eqb_refl. cbn [negb]. rewrite orb_false_r.
  f_equal. f_equal.
  assert (Hin : a ∈ l).
  { apply last_Some in Hlast as [l' ->]. apply elem_of_app. right. now left. }
  destruct w; [|now rewrite orb_false_r].
  rewrite orb_true_r. symmetry. apply existsb_exists.
  exists a. split; [now apply list_elem_of_In|now rewrite Henc].
Qed.

Lemma existsb_false {A} (l : list A) : existsb (fun _ => false) l = false.
Proof. induction l; auto. Qed.

Lemma ggtt_insert_entries_spec hw g pages start level flags :
  0 <= start < 2 ^ 44 ->
  start / PAGE_SIZE + Z.of_nat (List.length pages)
  <= Z.of_nat (List.length (gsm g)) ->
  exists entries,
    ggtt_insert_entries hw g pages start level flags
    = Some (gtt_set_gsm g entries,
            match ggtt_gen_of g with
            | GGTT_GEN6 =>
              existsb (fun addr => snd (gtt_pte_encode g addr level true flags))
                pages
            | GGTT_GEN8 => false
            end) /\
    List.length entries = List.length (gsm g) /\
    forall k, 0 <= k ->
      entries !! Z.to_nat k
      = if decide (start / PAGE_SIZE <= k
                   < start / PAGE_SIZE + Z.of_nat (List.length pages))
        then (ggtt_page_pte hw g level flags <$> pages)
               !! Z.to_nat (k - start / PAGE_SIZE)
        else gsm g !! Z.to_nat k.
Proof.
  intros Hs Hfit.
  unfold ggtt_insert_entries, ggtt_page_pte, gen6_ggtt_insert_entries,
    gen8_ggtt_insert_entries.
  destruct (ggtt_gen_of g).
  - apply (ggtt_insert_pages_spec _ g pages start Hs Hfit).
  - destruct (ggtt_insert_pages_spec
                (fun addr => (gen8_pte_encode hw addr level true, false))
                g pages start Hs Hfit) as (entries & Hrun & Hlen & Hk).
    cbn [snd] in Hrun. rewrite existsb_false in Hrun. eauto.
Qed.

Lemma ggtt_clear_range_spec hw g start length use_scratch :
  ggtt_ok g -> 0 <= start -> start / PAGE_SIZE < gtt_total_entries g ->
  0 <= length < 2 ^ 44 ->
  exists entries,
    ggtt_clear_range hw g start length use_scratch
    = Some (gtt_set_gsm g entries,
            bool_decide (gtt_total_entries g
                         < start / PAGE_SIZE + length / PAGE_SIZE)) /\
    List.length entries = List.length (gsm g) /\
    forall k, 0 <= k < gtt_total_entries g ->
      entries !! Z.to_nat k
      = if decide (start / PAGE_SIZE <= k
                   < start / PAGE_SIZE + length / PAGE_SIZE)
        then Some (ggtt_scratch_pte hw g use_scratch)
        else gsm g !! Z.to_nat k.
Proof.
  intros Hok Hs Hin Hl.
  unfold ggtt_clear_range, ggtt_scratch_pte, gen6_ggtt_clear_range,
    gen8_ggtt_clear_range.
  destruct (ggtt_gen_of g);
    (edestruct (ggtt_clear_entries_spec g start length) as (entries & -> & Hlen & Hk);
     [exact Hok|exact Hs|exact Hin|exact Hl|];
     exists entries; split; [reflexivity|]; split; [exact Hlen|];
     intros k Hk0; rewrite (Hk k Hk0);
     repeat destruct (decide _); try reflexivity; lia).
Qed.

Lemma ggtt_clear_range_past_end hw g start length use_scratch :
  ggtt_ok g -> 0 <= start < 2 ^ 44 ->
  gtt_total_entries g <= start / PAGE_SIZE ->
  ggtt_clear_range hw g start length use_scratch = None.
Proof.
  intros Hok Hs Hout.
  unfold ggtt_clear_range, gen6_ggtt_clear_range, gen8_ggtt_clear_range.
  destruct (ggtt_gen_of g); now apply ggtt_clear_entries_past_end.
Qed.

Lemma ggtt_ok_set_gsm g entries :
  ggtt_ok g -> List.length entries = List.length (gsm g) ->
  ggtt_ok (gtt_set_gsm g entries).
Proof.
  intros [Htot Hlen] Hl. split; [exact Htot|].
  cbn [gsm gtt_set_gsm]. rewrite Hl. exact Hlen.
Qed.

Lemma vma_in_ggtt_bounds g vma :
  ggtt_ok g -> vma_in_ggtt g vma ->
  0 <= node_start vma < 2 ^ 44 /\ 0 <= obj_size (obj vma) < 2 ^ 44 /\
  node_start vma / PAGE_SIZE + obj_size (obj vma) / PAGE_SIZE
  <= gtt_total_entries g.
Proof.
  intros [Htot _] (Hs & Hz & Hin). split; [lia|]. split; [lia|].
  unfold gtt_total_entries. rewrite shiftr_page.
  change PAGE_SIZE with 4096 in *.
  apply Z.div_le_lower_bound; [lia|].
  pose proof (Z.mul_div_le (node_start vma) 4096 ltac:(lia)).
  pose proof (Z.mul_div_le (obj_size (obj vma)) 4096 ltac:(lia)). lia.
Qed.

Lemma vm_insert_then_clear hw vm pages start level flags :
  vm_ok vm -> 0 <= start -> 0 < Z.of_nat (List.length pages) ->
  start + Z.of_nat (List.length pages) * PAGE_SIZE <= vm_total vm ->
  exists vm1 tr1 vm2 tr2,
    vm_insert_entries hw vm pages start level flags = Some (vm1, tr1) /\
    vm_clear_range hw vm1 start (Z.of_nat (List.length pages) * PAGE_SIZE) true
    = Some (vm2, tr2) /\
    forall k, vm_pte_at vm2 k
              = if decide (start / PAGE_SIZE <= k
                           < start / PAGE_SIZE
                             + Z.of_nat (List.length pages))
                then Some (vm_scratch_pte hw vm) else vm_pte_at vm k.
Proof.
  intros Hok Hs Hn Hin. destruct vm as [p|p]; cbn in Hok, Hin.
  - destruct (gen6_insert_then_clear p pages start level flags Hok Hs Hin)
      as (p1 & tr1 & p2 & tr2 & H1 & H2 & Hk & _).
    exists (Gen6Vm p1), tr1, (Gen6Vm p2), tr2.
    cbn [vm_insert_entries vm_clear_range]. rewrite H1. cbn [mbind option_bind].
    rewrite H2. auto.
  - pose proof (gen8_total_bound p Hok) as Hb.
    assert (Hs' : 0 <= start < 2 ^ 32)
      by (change PAGE_SIZE with 4096 in *; lia).
    destruct (gen8_insert_then_clear hw p pages start level flags Hok Hs' Hin)
      as (p1 & tr1 & p2 & tr2 & H1 & H2 & Hk & _).
    exists (Gen8Vm p1), tr1, (Gen8Vm p2), tr2.
    cbn [vm_insert_entries vm_clear_range]. rewrite H1. cbn [mbind option_bind].
    rewrite H2. auto.
Qed.

Lemma demo_ggtt_ok : ggtt_ok demo_ggtt.
Proof. split; [vm_compute; split; congruence|reflexivity]. Qed.


(** ** Unbinding from the global GTT *)

(** With both mapping flags clear [ggtt_unbind_vma] touches no table. *)
Lemma ggtt_unbind_vma_unbound hw dev vma :
  has_global_gtt_mapping (obj vma) = false ->
  has_aliasing_ppgtt_mapping (obj vma) = false ->
  ggtt_unbind_vma hw dev vma = Some (dev, vma).
Proof.
  destruct dev, vma as [start [size pages ro glob alias]]. simpl.
  intros -> ->. reflexivity.
Qed.

Lemma ggtt_unbind_vma_spec hw dev vma :
  ggtt_ok (gtt dev) -> vma_in_ggtt (gtt dev) vma ->
  PAGE_SIZE <= obj_size (obj vma) ->
  (has_aliasing_ppgtt_mapping (obj vma) = true ->
   exists a, aliasing_ppgtt dev = Some a /\ vm_ok a /\ vma_in_vm a vma) ->
  exists dev1 vma1,
    ggtt_unbind_vma hw dev vma = Some (dev1, vma1) /\
    node_start vma1 = node_start vma /\
    obj vma1 = obj_set_mappings (obj vma) false false /\
    ggtt_ok (gtt dev1) /\
    (forall k, 0 <= k < gtt_total_entries (gtt dev) ->
       gsm (gtt dev1) !! Z.to_nat k
       = if decide (has_global_gtt_mapping (obj vma) = true /\
                    node_start vma / PAGE_SIZE <= k
                    < node_start vma / PAGE_SIZE
                      + obj_size (obj vma) / PAGE_SIZE)
         then Some (ggtt_scratch_pte hw (gtt dev) true)
         else gsm (gtt dev) !! Z.to_nat k) /\
    if has_aliasing_ppgtt_mapping (obj vma) then
      exists a a1,
        aliasing_ppgtt dev = Some a /\ aliasing_ppgtt dev1 = Some a1 /\
        vm_ok a1 /\
        forall k,
          vm_pte_at a1 k
          = if decide (node_start vma / PAGE_SIZE <= k
                       < node_start vma / PAGE_SIZE
                         + obj_size (obj vma) / PAGE_SIZE)
            then Some (vm_scratch_pte hw a) else vm_pte_at a k
    else aliasing_ppgtt dev1 = aliasing_ppgtt dev.
Proof.
  intros Hok Hin Hpage Hal.
  destruct (vma_in_ggtt_bounds _ _ Hok Hin) as (Hs44 & Hz44 & Hfit).
  assert (Hone : 1 <= obj_size (obj vma) / PAGE_SIZE).
  { apply Z.div_le_lower_bound; [reflexivity|lia]. }
  destruct dev as [g al].
  destruct vma as [start [size pages ro glob alias]].
  cbn [obj node_start obj_size has_global_gtt_mapping
       has_aliasing_ppgtt_mapping gtt aliasing_ppgtt] in *.
  unfold ggtt_unbind_vma.
  cbn [obj node_start obj_size obj_pages gt_ro has_global_gtt_mapping
       has_aliasing_ppgtt_mapping obj_set_mappings gtt aliasing_ppgtt].
  (* the global GTT *)
  assert (Hg : exists g1,
             (if glob then
                '(g0, _) ← ggtt_clear_range hw g start size true;
                Some (g0, obj_set_mappings
                            {| obj_size := size; obj_pages := pages;
                               gt_ro := ro; has_global_gtt_mapping := glob;
                               has_aliasing_ppgtt_mapping := alias |}
                            false alias)
              else Some (g, {| obj_size := size; obj_pages := pages;
                               gt_ro := ro; has_global_gtt_mapping := glob;
                               has_aliasing_ppgtt_mapping := alias |}))
             = Some (g1, {| obj_size := size; obj_pages := pages;
                            gt_ro := ro; has_global_gtt_mapping := false;
                            has_aliasing_ppgtt_mapping := alias |}) /\
             ggtt_ok g1 /\
             forall k, 0 <= k < gtt_total_entries g ->
               gsm g1 !! Z.to_nat k
               = if decide (glob = true /\
                            start / PAGE_SIZE <= k
                            < start / PAGE_SIZE + size / PAGE_SIZE)
                 then Some (ggtt_scratch_pte hw g true)
                 else gsm g !! Z.to_nat k).
  { destruct glob.
    - destruct (ggtt_clear_range_spec hw g start size true Hok)
        as (e & -> & Hlen & Hk); [lia|lia|exact Hz44|].
      cbn [mbind option_bind obj_set_mappings obj_size obj_pages gt_ro].
      eexists. split; [reflexivity|]. split; [now apply ggtt_ok_set_gsm|].
      intros k Hk0. cbn [gsm gtt_set_gsm]. rewrite (Hk k Hk0).
      repeat destruct (decide _); try reflexivity; intuition lia.
    - exists g. split; [reflexivity|]. split; [exact Hok|].
      intros k _. destruct (decide _) as [[? _]|_];
        [discriminate|reflexivity]. }
  destruct Hg as (g1 & -> & Hok1 & Hk1).
  cbn [mbind option_bind has_aliasing_ppgtt_mapping has_global_gtt_mapping
       obj_size obj_set_mappings obj_pages gt_ro].
  destruct alias.
  - destruct (Hal eq_refl) as (a & -> & Hoka & Hina).
    destruct (ppgtt_unbind_vma_twice hw a _ Hoka Hina)
      as (a1 & tr1 & _ & Hrun & _ & Hoka1 & Hpte).
    unfold ppgtt_unbind_vma in Hrun. cbn [node_start obj obj_size] in Hrun, Hpte.
    cbn [mbind option_bind]. rewrite Hrun. cbn [mbind option_bind].
    eexists _, _. split; [reflexivity|].
    cbn [node_start obj gtt aliasing_ppgtt].
    split; [reflexivity|]. split; [reflexivity|]. split; [exact Hok1|].
    split; [exact Hk1|]. eauto 10.
  - eexists _, _. split; [reflexivity|].
    cbn [node_start obj gtt aliasing_ppgtt].
    split; [reflexivity|]. split; [reflexivity|]. split; [exact Hok1|].
    split; [exact Hk1|reflexivity].
Qed.

(** C6: unbinding a VMA twice leaves the address space as unbinding it once,
    and neither call faults.

    On the PPGTT path ([ppgtt_unbind_vma], gen6 or gen8), for a VMA that lies
    inside the address space: after the first call the entries the VMA
    covers hold the valid scratch encoding and every other entry is as it
    was; the second call succeeds and returns the very address space the
    first call returned.

    On the GGTT path ([ggtt_unbind_vma]), for a VMA of at least one page that
    lies inside the global GTT, the aliasing PPGTT being there and holding
    the VMA if the aliasing flag is set: the first call returns, with both
    mapping flags clear; in each table whose flag was set the entries of the
    VMA hold the valid scratch encoding and the others are as they were, a
    table whose flag was clear is as it was; the second call returns the
    device state and the VMA unchanged, and in fact with the flags clear the
    call leaves any device state alone. *)
Theorem unbind_vma_twice_is_once :
  (forall hw vm vma,
     vm_ok vm -> vma_in_vm vm vma ->
     exists vm1 tr1 tr2,
       ppgtt_unbind_vma hw vm vma = Some (vm1, tr1) /\
       ppgtt_unbind_vma hw vm1 vma = Some (vm1, tr2) /\
       vm_ok vm1 /\
       forall k,
         vm_pte_at vm1 k
         = if decide (node_start vma / PAGE_SIZE <= k
                      < node_start vma / PAGE_SIZE
                        + obj_size (obj vma) / PAGE_SIZE)
           then Some (vm_scratch_pte hw vm) else vm_pte_at vm k) /\
  (forall hw dev vma,
     ggtt_ok (gtt dev) -> vma_in_ggtt (gtt dev) vma ->
     PAGE_SIZE <= obj_size (obj vma) ->
     (has_aliasing_ppgtt_mapping (obj vma) = true ->
      exists a, aliasing_ppgtt dev = Some a /\ vm_ok a /\ vma_in_vm a vma) ->
     exists dev1 vma1,
       ggtt_unbind_vma hw dev vma = Some (dev1, vma1) /\
       has_global_gtt_mapping (obj vma1) = false /\
       has_aliasing_ppgtt_mapping (obj vma1) = false /\
       ggtt_unbind_vma hw dev1 vma1 = Some (dev1, vma1) /\
       (forall dev', ggtt_unbind_vma hw dev' vma1 = Some (dev', vma1)) /\
       ggtt_ok (gtt dev1) /\
       (forall k, 0 <= k < gtt_total_entries (gtt dev) ->
          gsm (gtt dev1) !! Z.to_nat k
          = if decide (has_global_gtt_mapping (obj vma) = true /\
                       node_start vma / PAGE_SIZE <= k
                       < node_start vma / PAGE_SIZE
                         + obj_size (obj vma) / PAGE_SIZE)
            then Some (ggtt_scratch_pte hw (gtt dev) true)
            else gsm (gtt dev) !! Z.to_nat k) /\
       if has_aliasing_ppgtt_mapping (obj vma) then
         exists a a1,
           aliasing_ppgtt dev = Some a /\ aliasing_ppgtt dev1 = Some a1 /\
           vm_ok a1 /\
           forall k,
             vm_pte_at a1 k
             = if decide (node_start vma / PAGE_SIZE <= k
                          < node_start vma / PAGE_SIZE
                            + obj_size (obj vma) / PAGE_SIZE)
               then Some (vm_scratch_pte hw a) else vm_pte_at a k
       else aliasing_ppgtt dev1 = aliasing_ppgtt dev).
Proof.
  split.
  - apply ppgtt_unbind_vma_twice.
  - intros hw dev vma Hok Hin Hpage Hal.
    destruct (ggtt_unbind_vma_spec hw dev vma Hok Hin Hpage Hal)
      as (dev1 & vma1 & Hrun & Hstart & Hobj & Hok1 & Hk & Ha).
    assert (Hg0 : has_global_gtt_mapping (obj vma1) = false)
      by now rewrite Hobj.
    assert (Ha0 : has_aliasing_ppgtt_mapping (obj vma1) = false)
      by now rewrite Hobj.
    exists dev1, vma1. split; [exact Hrun|].
    split; [exact Hg0|]. split; [exact Ha0|].
    split; [now apply ggtt_unbind_vma_unbound|].
    split; [intros dev'; now apply ggtt_unbind_vma_unbound|].
    split; [exact Hok1|]. split; [exact Hk|exact Ha].
Qed.

Lemma unbind_vma_twice_is_once_witness :
  (exists vm1 tr1 tr2,
     ppgtt_unbind_vma i915_hw (Gen6Vm demo_gen6) demo_vma = Some (vm1, tr1) /\
     ppgtt_unbind_vma i915_hw vm1 demo_vma = Some (vm1, tr2) /\
     vm_pte_at vm1 1023 = Some 28677) /\
  (exists dev1 vma1,
     ggtt_unbind_vma i915_hw demo_ggtt_dev demo_ggtt_vma_bound
     = Some (dev1, vma1) /\
     ggtt_unbind_vma i915_hw dev1 vma1 = Some (dev1, vma1) /\
     gsm (gtt dev1) !! 6%nat = Some 28677 /\
     exists a1, aliasing_ppgtt dev1 = Some a1 /\
                vm_pte_at a1 6 = Some 28677).
Proof.
  destruct unbind_vma_twice_is_once as [Hp Hg]. split.
  - destruct (Hp i915_hw (Gen6Vm demo_gen6) demo_vma demo_gen6_ok
                demo_vma_in_vm) as (vm1 & tr1 & tr2 & H1 & H2 & _ & Hk).
    exists vm1, tr1, tr2. split; [exact H1|]. split; [exact H2|].
    exact (Hk 1023).
  - destruct (Hg i915_hw demo_ggtt_dev demo_ggtt_vma_bound demo_ggtt_ok)
      as (dev1 & vma1 & H1 & _ & _ & H2 & _ & _ & Hk & Ha).
    + repeat split; vm_compute; congruence.
    + vm_compute. congruence.
    + intros _. exists (Gen6Vm demo_gen6). split; [reflexivity|].
      split; [exact demo_gen6_ok|]. repeat split; vm_compute; congruence.
    + exists dev1, vma1. split; [exact H1|]. split; [exact H2|].
      split; [exact (Hk 6 ltac:(vm_compute; split; congruence))|].
      cbn [demo_ggtt_vma_bound obj has_aliasing_ppgtt_mapping] in Ha.
      destruct Ha as (a & a1 & Hsome & Ha1 & _ & Hpte).
      injection Hsome as <-. exists a1. split; [exact Ha1|].
      exact (Hpte 6).
Defined.

(** ** Sizing the global GTT *)

Lemma u16_small x : 0 <= x < 2 ^ 16 -> u16 x = x.
Proof. intros H. now apply Z.mod_small. Qed.

Lemma s32_small x : - 2 ^ 31 <= x < 2 ^ 31 -> s32 x = x.
Proof. intros H. unfold s32. rewrite Z.mod_small; lia. Qed.

(** A two-bit field of the control word. *)
Lemma gmch_field_2 ctl shift :
  0 <= ctl < 2 ^ 16 -> 0 <= shift ->
  exists v, 0 <= v <= 3 /\ u16 (Z.land (u16 (Z.shiftr ctl shift)) 3) = v.
Proof.
  intros Hc Hs. eexists. split; [|reflexivity].
  rewrite land_ones_2.
  pose proof (Z.mod_pos_bound (u16 (Z.shiftr ctl shift)) 4 ltac:(lia)).
  rewrite u16_small; lia.
Qed.

Lemma gen8_total_gtt_size_cases h x32 ctl :
  BDW_GMCH_GGMS_MASK h = 3 -> 0 <= BDW_GMCH_GGMS_SHIFT h ->
  0 <= ctl < 2 ^ 16 ->
  exists v, 0 <= v <= 3 /\
    gen8_get_total_gtt_size h x32 ctl
    = match v with
      | 0 => 0
      | 1 => 2 * 2 ^ 20
      | 2 => 4 * 2 ^ 20
      | _ => if x32 then 4 * 2 ^ 20 else 8 * 2 ^ 20
      end.
Proof.
  intros Hm Hs Hc. unfold gen8_get_total_gtt_size. rewrite Hm.
  destruct (gmch_field_2 ctl _ Hc Hs) as (v & Hv & ->).
  exists v. split; [exact Hv|].
  assert (v = 0 \/ v = 1 \/ v = 2 \/ v = 3) as [-> | [-> | [-> | ->]]] by lia;
    destruct x32; reflexivity.
Qed.

Lemma u64_small x : 0 <= x < 2 ^ 64 -> u64 x = x.
Proof. intros H. now apply Z.mod_small. Qed.

Lemma size_t_small x32 x : 0 <= x < 2 ^ 32 -> size_t x32 x = x.
Proof.
  intros H. unfold size_t. destruct x32; [now apply u32_small|].
  apply u64_small. change (2 ^ 64) with (2 ^ 32 * 2 ^ 32). lia.
Qed.

Lemma land_ones_5 x : Z.land x 31 = x mod 32.
Proof. change 31 with (Z.ones 5). now rewrite Z.land_ones. Qed.


(** ** Loading the page directories *)

Section pdp_facts.
Context (rh : ring_hw) (ring_begin : Z -> Z) (ppgtt : gen8_ppgtt).

Lemma split_64 a :
  0 <= a < 2 ^ 64 -> Z.lor (Z.shiftl (u32 (Z.shiftr a 32)) 32) (u32 a) = a.
Proof.
  intros Ha. unfold u32. rewrite Z.shiftr_div_pow2 by lia.
  rewrite (Z.mod_small (a / 2 ^ 32)).
  2:{ split; [apply Z.div_pos; lia|].
      apply Z.div_lt_upper_bound; [lia|].
      change (2 ^ 32 * 2 ^ 32) with (2 ^ 64). lia. }
  rewrite <- Z.shiftr_div_pow2 by lia.
  rewrite <- Z.land_ones by lia.
  rewrite <- Z.ldiff_ones_r by lia.
  apply Z.bits_inj'. intros k Hk.
  rewrite Z.lor_spec, Z.ldiff_spec, Z.land_spec.
  destruct (Z.testbit a k); [|reflexivity].
  now destruct (Z.testbit (Z.ones 32) k).
Qed.

Lemma gen8_write_pdp_ok i a (ring : list Z) :
  0 <= i < 4 ->
  gen8_write_pdp rh 0 i a ring = Some (0, ring ++ pdp_words rh i a).
Proof.
  intros Hi. unfold gen8_write_pdp. now destruct (Z.leb_spec 4 i); [lia|].
Qed.

Lemma gen8_write_pdp_busy ret i a (ring : list Z) :
  0 <= i < 4 -> ret <> 0 ->
  gen8_write_pdp rh ret i a ring = Some (ret, ring).
Proof.
  intros Hi Hret. unfold gen8_write_pdp. destruct (Z.leb_spec 4 i); [lia|].
  now destruct (Z.eqb_spec ret 0).
Qed.

Lemma pdp_loop_ok ixs : forall ring,
  (forall i, i ∈ ixs ->
     0 <= i < 4 /\ is_Some (pd_dma_addr ppgtt !! Z.to_nat i) /\
     ring_begin i = 0) ->
  for_each_ret ixs
    (fun i ring =>
       addr ← pd_dma_addr ppgtt !! Z.to_nat i;
       gen8_write_pdp rh (ring_begin i) i addr ring) ring
  = Some (0, ring ++ flat_map
                       (fun i => pdp_words rh i
                                   (default 0
                                      (pd_dma_addr ppgtt !! Z.to_nat i)))
                       ixs).
Proof.
  induction ixs as [|i ixs IH]; intros ring Hall.
  - cbn. now rewrite app_nil_r.
  - destruct (Hall i ltac:(now left)) as (Hi & [a Ha] & Hb).
    cbn [for_each_ret flat_map]. rewrite Ha. cbn [mbind option_bind default].
    rewrite Hb, gen8_write_pdp_ok by exact Hi.
    cbn [mbind option_bind Z.eqb negb].
    rewrite IH by (intros j Hj; apply Hall; now right).
    now rewrite <- app_assoc.
Qed.

Lemma pdp_loop_fails ixs1 k ixs2 ring :
  (forall i, i ∈ ixs1 ->
     0 <= i < 4 /\ is_Some (pd_dma_addr ppgtt !! Z.to_nat i) /\
     ring_begin i = 0) ->
  0 <= k < 4 -> is_Some (pd_dma_addr ppgtt !! Z.to_nat k) ->
  ring_begin k <> 0 ->
  for_each_ret (ixs1 ++ k :: ixs2)
    (fun i ring =>
       addr ← pd_dma_addr ppgtt !! Z.to_nat i;
       gen8_write_pdp rh (ring_begin i) i addr ring) ring
  = Some (ring_begin k,
          ring ++ flat_map
                    (fun i => pdp_words rh i
                                (default 0
                                   (pd_dma_addr ppgtt !! Z.to_nat i)))
                    ixs1).
Proof.
  revert ring. induction ixs1 as [|i ixs1 IH]; intros ring Hall Hk [a Ha] Hb.
  - cbn [app for_each_ret flat_map]. rewrite Ha. cbn [mbind option_bind].
    rewrite gen8_write_pdp_busy by assumption. cbn [mbind option_bind].
    destruct (Z.eqb_spec (ring_begin k) 0); [contradiction|]. cbn [negb].
    now rewrite app_nil_r.
  - destruct (Hall i ltac:(now left)) as (Hi & [ai Hai] & Hbi).
    cbn [app for_each_ret flat_map]. rewrite Hai.
    cbn [mbind option_bind default].
    rewrite Hbi, gen8_write_pdp_ok by exact Hi.
    cbn [mbind option_bind Z.eqb negb].
    rewrite IH; [|intros j Hj; apply Hall; now right|assumption|eauto
                 |assumption].
    now rewrite <- app_assoc.
Qed.

End pdp_facts.


(** ** Further properties of the page-table walkers *)

(** X2.  [insert_entries] of either layout, for pages that fit in the
    address space (for gen8, from an offset below 4GB): it goes through,
    writes into the entries from [start / PAGE_SIZE] on the valid encodings
    of the pages in their order, with the cache level asked for, leaves
    every other entry as it was, keeps the tables whole, and maps one table
    page at a time, each one unmapped before the next is mapped. *)
Theorem ppgtt_insert_entries_writes_pages :
  (forall ppgtt pages start cache_level flags,
     gen6_ppgtt_ok ppgtt -> 0 <= start ->
     start + Z.of_nat (length pages) * PAGE_SIZE <= total ppgtt ->
     exists p tr,
       gen6_ppgtt_insert_entries ppgtt pages start cache_level flags
       = Some (p, tr) /\
       gen6_ppgtt_ok p /\ kmap_one_at_a_time false tr = true /\
       forall k,
         gen6_pte_at p k
         = if decide (start / PAGE_SIZE <= k
                      < start / PAGE_SIZE + Z.of_nat (length pages))
           then (fun addr =>
                   fst (pte_encode ppgtt addr cache_level true flags))
                  <$> pages !! Z.to_nat (k - start / PAGE_SIZE)
           else gen6_pte_at ppgtt k) /\
  (forall hw ppgtt pages start cache_level unused,
     gen8_ppgtt_ok ppgtt -> 0 <= start < 2 ^ 32 ->
     start + Z.of_nat (length pages) * PAGE_SIZE <= g8_total ppgtt ->
     exists p tr,
       gen8_ppgtt_insert_entries hw ppgtt pages start cache_level unused
       = Some (p, tr) /\
       gen8_ppgtt_ok p /\ kmap_one_at_a_time false tr = true /\
       forall k,
         gen8_pte_at p k
         = if decide (start / PAGE_SIZE <= k
                      < start / PAGE_SIZE + Z.of_nat (length pages))
           then (fun addr => gen8_pte_encode hw addr cache_level true)
                  <$> pages !! Z.to_nat (k - start / PAGE_SIZE)
           else gen8_pte_at ppgtt k).
Proof.
  split.
  - intros ppgtt pages start cache_level flags Hok Hs Hin.
    destruct (gen6_insert_entries_spec ppgtt pages start cache_level flags
                Hok Hs Hin) as (pt & tr & Hrun & Hok' & Htr & Hpte).
    eexists _, tr. split; [exact Hrun|]. split; [exact Hok'|].
    split; [exact Htr|]. intros k. rewrite Hpte.
    destruct (decide _); [|reflexivity]. now rewrite list_lookup_fmap.
  - intros hw ppgtt pages start cache_level unused Hok Hs Hin.
    destruct (gen8_insert_entries_spec hw ppgtt pages start cache_level
                unused Hok Hs Hin) as (pt & tr & Hrun & Hok' & Htr & Hpte).
    eexists _, tr. split; [exact Hrun|]. split; [exact Hok'|].
    split; [exact Htr|]. intros k. rewrite Hpte.
    destruct (decide _); [|reflexivity]. now rewrite list_lookup_fmap.
Qed.

Lemma ppgtt_insert_entries_writes_pages_witness :
  gen6_ppgtt_ok demo_gen6 /\ 0 <= 4186112 /\
  4186112 + Z.of_nat (length demo_pages) * PAGE_SIZE <= total demo_gen6 /\
  exists p tr,
    gen6_ppgtt_insert_entries demo_gen6 demo_pages 4186112 I915_CACHE_LLC 0
    = Some (p, tr) /\
    gen6_pte_at p 1021 = gen6_pte_at demo_gen6 1021 /\
    gen6_pte_at p 1024 = Some 131077.
Proof.
  assert (H1 : 0 <= 4186112) by lia.
  assert (H2 : 4186112 + Z.of_nat (length demo_pages) * PAGE_SIZE
               <= total demo_gen6) by (vm_compute; discriminate).
  split; [exact demo_gen6_ok|]. split; [exact H1|]. split; [exact H2|].
  destruct (proj1 ppgtt_insert_entries_writes_pages demo_gen6 demo_pages
              4186112 I915_CACHE_LLC 0 demo_gen6_ok H1 H2)
    as (p & tr & Hrun & _ & _ & Hpte).
  exists p, tr. split; [exact Hrun|]. rewrite !Hpte. split; reflexivity.
Defined.

(** X3.  [clear_range] of either layout over a range inside the address
    space (for gen8, from an offset below 4GB): it goes through, leaves the
    entries outside [start / PAGE_SIZE, start / PAGE_SIZE +
    length / PAGE_SIZE) as they were, keeps the tables whole, and maps one
    table page at a time.  The gen6 walker writes the valid encoding of the
    scratch page whatever [use_scratch] says; the gen8 walker writes the
    scratch encoding that is valid exactly when [use_scratch] is set. *)
Theorem ppgtt_clear_range_writes_scratch_encoding :
  (forall ppgtt start length use_scratch,
     gen6_ppgtt_ok ppgtt -> 0 <= start -> 0 <= length ->
     start + length <= total ppgtt ->
     exists p tr,
       gen6_ppgtt_clear_range ppgtt start length use_scratch = Some (p, tr) /\
       gen6_ppgtt_ok p /\ kmap_one_at_a_time false tr = true /\
       forall k,
         gen6_pte_at p k
         = if decide (start / PAGE_SIZE <= k
                      < start / PAGE_SIZE + length / PAGE_SIZE)
           then Some (fst (pte_encode ppgtt (scratch_addr ppgtt)
                             I915_CACHE_LLC true 0))
           else gen6_pte_at ppgtt k) /\
  (forall hw ppgtt start length use_scratch,
     gen8_ppgtt_ok ppgtt -> 0 <= start < 2 ^ 32 -> 0 <= length ->
     start + length <= g8_total ppgtt ->
     exists p tr,
       gen8_ppgtt_clear_range hw ppgtt start length use_scratch
       = Some (p, tr) /\
       gen8_ppgtt_ok p /\ kmap_one_at_a_time false tr = true /\
       forall k,
         gen8_pte_at p k
         = if decide (start / PAGE_SIZE <= k
                      < start / PAGE_SIZE + length / PAGE_SIZE)
           then Some (gen8_pte_encode hw (g8_scratch_addr ppgtt)
                        I915_CACHE_LLC use_scratch)
           else gen8_pte_at ppgtt k).
Proof.
  split.
  - intros ppgtt start length b Hok Hs Hl Hin.
    destruct (gen6_clear_range_spec ppgtt start length b Hok Hs Hl Hin)
      as (pt & tr & Hrun & Hok' & Htr & Hpte).
    eexists _, tr. split; [exact Hrun|]. split; [exact Hok'|].
    split; [exact Htr|]. exact Hpte.
  - intros hw ppgtt start length b Hok Hs Hl Hin.
    destruct (gen8_clear_range_spec hw ppgtt start length b Hok Hs Hl Hin)
      as (pt & tr & Hrun & Hok' & Htr & Hpte).
    eexists _, tr. split; [exact Hrun|]. split; [exact Hok'|].
    split; [exact Htr|]. exact Hpte.
Qed.

Lemma ppgtt_clear_range_writes_scratch_encoding_witness :
  gen8_ppgtt_ok demo_gen8 /\ 0 <= 2093056 < 2 ^ 32 /\ 0 <= 16384 /\
  2093056 + 16384 <= g8_total demo_gen8 /\
  exists p tr,
    gen8_ppgtt_clear_range i915_hw demo_gen8 2093056 16384 false
    = Some (p, tr) /\
    gen8_pte_at p 512 = Some 28800 /\
    gen8_pte_at p 515 = gen8_pte_at demo_gen8 515.
Proof.
  assert (H1 : 0 <= 2093056 < 2 ^ 32) by (vm_compute; split; congruence).
  assert (H2 : 0 <= 16384) by lia.
  assert (H3 : 2093056 + 16384 <= g8_total demo_gen8)
    by (vm_compute; discriminate).
  split; [exact demo_gen8_ok|]. split; [exact H1|]. split; [exact H2|].
  split; [exact H3|].
  destruct (proj2 ppgtt_clear_range_writes_scratch_encoding i915_hw
              demo_gen8 2093056 16384 false demo_gen8_ok H1 H2 H3)
    as (p & tr & Hrun & _ & _ & Hpte).
  exists p, tr. split; [exact Hrun|]. rewrite !Hpte. split; reflexivity.
Defined.

(** X7.  What a successful [gen6_ppgtt_init] holds when it returns is one
    node of [GEN6_PD_SIZE] bytes in the global GTT's allocator, 512 table
    pages, the two arrays, and one DMA mapping for each address in
    [pt_dma_addr]; nothing was unmapped that was not mapped.
    [gen6_ppgtt_cleanup] of that address space runs without a fault and
    gives all of it back: the node, the pages, the arrays and the mappings
    are as they were before the initialisation, and only the page-directory
    entries written to the global GTT remain. *)
Theorem gen6_init_then_cleanup_restores (hw : pte_hw) (env : kenv)
    dev scratch encode r ppgtt r' :
  gen6_ppgtt_init hw env dev scratch encode r = Some (0, Some ppgtt, r') ->
  (mm_nodes r' = node ppgtt :: mm_nodes r /\
   (node ppgtt).2 = GEN6_PD_SIZE /\
   pages_live r' = pages_live r + GEN6_PPGTT_PD_ENTRIES /\
   kmem_live r' = kmem_live r + 2 /\
   dma_live r' = reverse (pt_dma_addr ppgtt) ++ dma_live r /\
   dma_stray r' = dma_stray r) /\
  exists r'',
    gen6_ppgtt_cleanup ppgtt r' = Some r'' /\
    res_same r r'' /\ gsm_writes r'' = gsm_writes r'.
Proof.
  intros Hinit.
  destruct (gen6_ppgtt_init_res hw env _ _ _ _ _ _ Hinit)
    as (start & ws & _ & Hnode & Hn & Hpages & Hdma & _ & _ & ->).
  split.
  - rewrite Hnode. cbn [mm_nodes pages_live kmem_live dma_live dma_stray
                          res_set_gsm res_take snd app].
    repeat split; reflexivity.
  - rewrite <- Hnode, <- Hn.
    rewrite gen6_ppgtt_cleanup_res by congruence.
    eexists. split; [reflexivity|].
    split; [|reflexivity]. repeat split; reflexivity.
Qed.

Lemma gen6_init_then_cleanup_restores_witness :
  exists ppgtt r' r'',
    gen6_ppgtt_init i915_hw env_all_ok DEV_GEN6 28672
      (snb_pte_encode i915_hw) res_empty
    = Some (0, Some ppgtt, r') /\
    pages_live r' = 512 /\ kmem_live r' = 2 /\
    gen6_ppgtt_cleanup ppgtt r' = Some r'' /\
    res_same res_empty r''.
Proof.
  destruct (gen6_ppgtt_init_total i915_hw env_all_ok DEV_GEN6 28672
              (snb_pte_encode i915_hw) res_empty env_all_ok_grants_all)
    as (ppgtt & r' & Hinit); [discriminate|].
  destruct (gen6_init_then_cleanup_restores _ _ _ _ _ _ _ _ Hinit)
    as ((_ & _ & Hp & Hk & _) & r'' & Hclean & Hsame & _).
  exists ppgtt, r', r''. split; [exact Hinit|].
  split; [exact Hp|]. split; [exact Hk|]. split; [exact Hclean|exact Hsame].
Defined.

(** X8.  When the allocations of [gen6_ppgtt_init] succeed and the DMA
    mapping of one of the 512 table pages fails, the initialisation returns
    [-EIO] without an address space.  The table pages and the two arrays are
    freed again, but the node of the page directory stays reserved in the
    global GTT's allocator ([gen6_ppgtt_setup_page_tables] and the error
    path of [gen6_ppgtt_init] do not remove it), and [pci_unmap_page] is
    called on all 512 slots of [pt_dma_addr], more times than pages were
    mapped. *)
Theorem gen6_init_mapping_failure_keeps_node (hw : pte_hw) (env : kenv)
    dev scratch encode r k :
  dev <> DEV_OTHER ->
  (drm_mm_insert_node env false).1 = 0 ->
  (forall site, alloc_ok env site = true) ->
  0 <= k < GEN6_PPGTT_PD_ENTRIES ->
  pci_map_page env (MAP_PT 0 k) = None ->
  exists start r',
    gen6_ppgtt_init hw env dev scratch encode r = Some (- EIO, None, r') /\
    mm_nodes r' = (start, GEN6_PD_SIZE) :: mm_nodes r /\
    pages_live r' = pages_live r /\ kmem_live r' = kmem_live r /\
    gsm_writes r' = gsm_writes r /\
    dma_balance r' < dma_balance r.
Proof.
  intros Hdev Hnode Halloc Hk Hfail. unfold gen6_ppgtt_init.
  assert (Hsw : exists sw,
             match dev with
             | DEV_GEN6 => Some gen6_mm_switch
             | DEV_HASWELL => Some hsw_mm_switch
             | DEV_GEN7 => Some gen7_mm_switch
             | DEV_OTHER => None
             end = Some sw) by (destruct dev; eauto; contradiction).
  destruct Hsw as [sw ->]. cbn [mbind option_bind].
  destruct (gen6_ppgtt_alloc_total env gen6_raw_zero r Hnode Halloc)
    as (p1 & r1 & Ha).
  rewrite Ha. cbn [mbind option_bind Z.eqb negb].
  destruct (gen6_ppgtt_alloc_ok _ _ _ _ _ Ha)
    as (Hn1 & Hdma1 & pages & Hpages & Hlen & _).
  destruct (gen6_ppgtt_alloc_res _ _ _ _ Ha) as (start & _ & _ & ->).
  unfold gen6_ppgtt_setup_page_tables. rewrite Hdma1.
  cbn [mbind option_bind].
  match goal with
  | |- context [gen6_map_pages_loop env ?ixs ?addrs ?r1] =>
      destruct (gen6_map_pages_loop_fails env ixs addrs r1 k)
        as (addrs' & live & -> & Hlen' & Hlive);
        [apply elem_of_seqZ; lia|exact Hfail|]
  end.
  rewrite length_replicate, length_seqZ, Hn1 in *.
  match goal with
  | |- context [gen6_ppgtt_unmap_pages ?p ?r1] =>
      destruct (gen6_unmap_pages_frame p r1 addrs' eq_refl)
        as (live2 & stray2 & -> & Hbal);
        [cbn [raw_num_pd_entries]; rewrite Hlen'; reflexivity|]
  end.
  cbn [raw_num_pd_entries] in Hbal.
  cbn [mbind option_bind].
  change (negb (- EIO =? 0)) with true. cbv iota.
  rewrite (gen6_ppgtt_free_res _ _ pages)
    by (cbn [raw_pt_pages raw_num_pd_entries]; congruence).
  cbn [mbind option_bind raw_pt_pages raw_pt_dma_addr raw_num_pd_entries].
  rewrite Hpages.
  eexists start, _. split; [reflexivity|].
  cbn [kfree mm_nodes pages_live kmem_live gsm_writes dma_live dma_stray
       res_set_kmem res_set_pages res_set_dma res_take app].
  split; [reflexivity|]. split; [lia|]. split; [lia|].
  split; [reflexivity|].
  revert Hbal Hlive. unfold dma_balance.
  cbn [kfree mm_nodes pages_live kmem_live gsm_writes dma_live dma_stray
       res_set_kmem res_set_pages res_set_dma res_take app].
  change GEN6_PPGTT_PD_ENTRIES with 512.
  change (Z.to_nat 512) with 512%nat. lia.
Qed.

Lemma gen6_init_mapping_failure_keeps_node_witness :
  exists start r',
    gen6_ppgtt_init i915_hw (env_dma_fails_at 3) DEV_GEN6 28672
      (snb_pte_encode i915_hw) res_empty
    = Some (- EIO, None, r') /\
    mm_nodes r' = [(start, GEN6_PD_SIZE)] /\
    pages_live r' = 0 /\ kmem_live r' = 0.
Proof.
  destruct (gen6_init_mapping_failure_keeps_node i915_hw (env_dma_fails_at 3)
              DEV_GEN6 28672 (snb_pte_encode i915_hw) res_empty 3)
    as (start & r' & Hinit & Hnodes & Hp & Hk & _).
  - discriminate.
  - reflexivity.
  - reflexivity.
  - vm_compute. split; congruence.
  - reflexivity.
  - exists start, r'. auto.
Defined.

(** X12.  Where [gen6_ppgtt_init] puts the page directory.  If the node the
    range allocator handed out starts below 4GB at a multiple of
    [GEN6_PD_ALIGN], then a successful initialisation has written one entry
    for each of the 512 tables, the valid encoding of the table's DMA
    address, to the entries [node.start / PAGE_SIZE + i] of the global GTT,
    which are the entries the node reserves, and [get_pd_offset] passes its
    check and returns the start of the node. *)
Theorem gen6_init_page_directory_in_node (hw : pte_hw) (env : kenv)
    dev scratch encode r ppgtt r' :
  gen6_ppgtt_init hw env dev scratch encode r = Some (0, Some ppgtt, r') ->
  0 <= (node ppgtt).1 < 2 ^ 32 ->
  (node ppgtt).1 mod GEN6_PD_ALIGN = 0 ->
  gsm_writes r'
  = gsm_writes r
    ++ imap (fun i a =>
               ((node ppgtt).1 / PAGE_SIZE + Z.of_nat i,
                u32 (Z.lor (u32 (GEN6_PDE_ADDR_ENCODE hw a))
                       (GEN6_PDE_VALID hw))))
         (pt_dma_addr ppgtt) /\
  Z.of_nat (length (pt_dma_addr ppgtt)) * PAGE_SIZE = (node ppgtt).2 /\
  get_pd_offset ppgtt = Some (node ppgtt).1.
Proof.
  intros Hinit Hlow Halign.
  destruct (gen6_ppgtt_init_res hw env _ _ _ _ _ _ Hinit)
    as (start & ws & _ & Hnode & _ & _ & Hdma & Hpo & Hws & ->).
  rewrite Hnode in *. cbn [fst snd] in *.
  change GEN6_PD_ALIGN with 65536 in Halign.
  change PAGE_SIZE with 4096 in *.
  assert (Hpo' : pd_offset ppgtt = start / 4096 * 4).
  { rewrite Hpo. apply u32_small.
    pose proof (Z.div_lt_upper_bound start 4096 (2 ^ 20)).
    pose proof (Z.div_pos start 4096). lia. }
  assert (Hk : start = 65536 * (start / 65536))
    by (apply Z.div_exact; lia).
  set (k := start / 65536) in *.
  assert (Hq : start / 4096 = 16 * k).
  { rewrite Hk. replace (65536 * k) with (16 * k * 4096) by lia.
    apply Z.div_mul. discriminate. }
  split; [|split].
  - cbn [gsm_writes res_set_gsm]. rewrite Hws. f_equal.
    apply imap_ext. intros i a _. cbn. f_equal. f_equal.
    rewrite Hpo', Z.div_mul by discriminate. reflexivity.
  - rewrite Hdma. reflexivity.
  - unfold get_pd_offset. rewrite Hpo', Hq.
    replace (16 * k * 4) with (k * 64) by lia.
    change 63 with (Z.ones 6). rewrite Z.land_ones by lia.
    change (2 ^ 6) with 64.
    rewrite Z.mod_mul by discriminate. cbn [Z.eqb negb].
    rewrite Z.div_mul by discriminate.
    rewrite Z.shiftl_mul_pow2 by lia. change (2 ^ 16) with 65536.
    f_equal. rewrite u32_small by lia. lia.
Qed.

Lemma gen6_init_page_directory_in_node_witness :
  exists ppgtt r',
    gen6_ppgtt_init i915_hw env_all_ok DEV_GEN6 28672
      (snb_pte_encode i915_hw) res_empty
    = Some (0, Some ppgtt, r') /\
    length (gsm_writes r') = 512%nat /\
    get_pd_offset ppgtt = Some 2145386496.
Proof.
  destruct (gen6_ppgtt_init_total i915_hw env_all_ok DEV_GEN6 28672
              (snb_pte_encode i915_hw) res_empty env_all_ok_grants_all)
    as (ppgtt & r' & Hinit); [discriminate|].
  destruct (gen6_ppgtt_init_res i915_hw env_all_ok _ _ _ _ _ _ Hinit)
    as (start & ws & [retried Hstart] & Hnode & _).
  cbn in Hstart. subst start.
  destruct (gen6_init_page_directory_in_node _ _ _ _ _ _ _ _ Hinit)
    as (Hws & Hlen & Hpd).
  - rewrite Hnode. vm_compute. split; congruence.
  - rewrite Hnode. reflexivity.
  - exists ppgtt, r'. split; [exact Hinit|].
    rewrite Hnode in Hlen, Hpd. cbn [fst snd] in Hlen, Hpd.
    split; [|exact Hpd].
    rewrite Hws, length_app, length_imap. cbn [gsm_writes res_empty length].
    apply Nat2Z.inj. rewrite Nat2Z.inj_add, Nat2Z.inj_0, Z.add_0_l.
    apply (Z.mul_cancel_r _ _ PAGE_SIZE); [discriminate|].
    rewrite Hlen. reflexivity.
Defined.

(** ** The end of PPGTT initialisation, and a mapping that fails *)

(** C2.  For both page-table allocator variants a successful initialisation
    ([gen6_ppgtt_init], or [gen8_ppgtt_init] for a size below 2^60 bytes)
    returns an address space that uses the scratch page and the encoder it
    was given, whose tables are all there, and in which every entry of
    [0, total) is the valid encoding of that scratch page, the one
    [clear_range] writes: the clear of the whole span is the last thing
    initialisation does to the tables.  Where every request to the kernel is
    granted the initialisation does succeed. *)
Theorem ppgtt_init_ends_with_scratch_everywhere (hw : pte_hw) (env : kenv) :
  (forall dev scratch encode r ppgtt r',
     gen6_ppgtt_init hw env dev scratch encode r = Some (0, Some ppgtt, r') ->
     gen6_ppgtt_ok ppgtt /\
     scratch_addr ppgtt = scratch /\ pte_encode ppgtt = encode /\
     total ppgtt = GEN6_PPGTT_PD_ENTRIES * I915_PPGTT_PT_ENTRIES * PAGE_SIZE /\
     forall k, 0 <= k < total ppgtt / PAGE_SIZE ->
       gen6_pte_at ppgtt k = Some (gen6_scratch_pte ppgtt)) /\
  (forall has_llc scratch size r ppgtt r',
     0 <= size < 2 ^ 60 ->
     gen8_ppgtt_init hw env has_llc scratch size r
     = Some (0, Some ppgtt, r') ->
     gen8_ppgtt_ok ppgtt /\
     g8_scratch_addr ppgtt = scratch /\
     g8_total ppgtt = (size + (2 ^ 30 - 1)) / 2 ^ 30 * 2 ^ 30 /\
     forall k, 0 <= k < g8_total ppgtt / PAGE_SIZE ->
       gen8_pte_at ppgtt k = Some (gen8_scratch_pte hw ppgtt)) /\
  (env_grants_all env ->
   (forall dev scratch encode r,
      dev <> DEV_OTHER ->
      exists ppgtt r',
        gen6_ppgtt_init hw env dev scratch encode r
        = Some (0, Some ppgtt, r')) /\
   (forall has_llc scratch size r,
      0 <= size <= GEN8_LEGACY_PDPS * 2 ^ 30 ->
      (size + (2 ^ 30 - 1)) / 2 ^ 30
      <= gen8_pd_block env ((size + (2 ^ 30 - 1)) / 2 ^ 30)
      <= GEN8_LEGACY_PDPS ->
      exists ppgtt r',
        gen8_ppgtt_init hw env has_llc scratch size r
        = Some (0, Some ppgtt, r'))).
Proof.
  split; [|split].
  - intros dev scratch encode r ppgtt r' Hinit.
    destruct (gen6_ppgtt_init_scratch hw env _ _ _ _ _ _ Hinit)
      as (Hok & Hs & He & _ & Htot & Hpte).
    split; [exact Hok|]. split; [exact Hs|]. split; [exact He|].
    split; [exact Htot|]. intros k Hk. unfold gen6_scratch_pte.
    rewrite Hs, He. exact (Hpte k Hk).
  - intros has_llc scratch size r ppgtt r' Hsize Hinit.
    destruct (gen8_ppgtt_init_scratch hw env _ _ _ _ _ _ Hsize Hinit)
      as (Hok & Hs & Htot & Hpte).
    split; [exact Hok|]. split; [exact Hs|]. split; [exact Htot|].
    intros k Hk. unfold gen8_scratch_pte. rewrite Hs. exact (Hpte k Hk).
  - intros Hall. split.
    + intros dev scratch encode r Hdev.
      exact (gen6_ppgtt_init_total hw env dev scratch encode r Hall Hdev).
    + intros has_llc scratch size r Hsize Hblock.
      exact (gen8_ppgtt_init_total hw env has_llc scratch size r Hall Hsize
               Hblock).
Qed.

Lemma ppgtt_init_ends_with_scratch_everywhere_witness :
  (exists ppgtt r',
     gen6_ppgtt_init i915_hw env_all_ok DEV_HASWELL 28672
       (hsw_pte_encode i915_hw) res_empty
     = Some (0, Some ppgtt, r') /\
     scratch_addr ppgtt = 28672 /\
     gen6_pte_at ppgtt 1024 = Some (gen6_scratch_pte ppgtt)) /\
  (exists ppgtt r',
     gen8_ppgtt_init i915_hw env_all_ok false 28672 (3 * 2 ^ 30) res_empty
     = Some (0, Some ppgtt, r') /\
     g8_total ppgtt = 3 * 2 ^ 30 /\
     gen8_pte_at ppgtt 786431 = Some (gen8_scratch_pte i915_hw ppgtt)).
Proof.
  destruct (ppgtt_init_ends_with_scratch_everywhere i915_hw env_all_ok)
    as (H6 & H8 & Htotal).
  destruct (Htotal env_all_ok_grants_all) as [T6 T8]. split.
  - destruct (T6 DEV_HASWELL 28672 (hsw_pte_encode i915_hw) res_empty
                ltac:(discriminate)) as (ppgtt & r' & Hinit).
    exists ppgtt, r'. split; [exact Hinit|].
    destruct (H6 _ _ _ _ _ _ Hinit) as (_ & Hs & _ & Htot & Hpte).
    split; [exact Hs|]. apply Hpte. rewrite Htot.
    vm_compute. split; congruence.
  - assert (Hsize : 0 <= 3 * 2 ^ 30 < 2 ^ 60)
      by (vm_compute; split; congruence).
    destruct (T8 false 28672 (3 * 2 ^ 30) res_empty
                ltac:(vm_compute; split; congruence)
                ltac:(vm_compute; split; congruence))
      as (ppgtt & r' & Hinit).
    exists ppgtt, r'. split; [exact Hinit|].
    destruct (H8 _ _ _ _ _ _ Hsize Hinit) as (_ & _ & Htot & Hpte).
    split; [rewrite Htot; reflexivity|]. apply Hpte. rewrite Htot.
    vm_compute. split; congruence.
Defined.

(** *** A DMA mapping that fails in [gen6_ppgtt_init] *)

Section gen6_mapping_failure.
Context (env : kenv).



End gen6_mapping_failure.




(** *** The resources of the gen8 initialisation *)

Lemma env_all_ok_dma_nonzero : env_dma_nonzero env_all_ok.
Proof.
  intros [pd|pd i] a Hv; cbn [pci_map_page env_all_ok]; intros [= <-];
    cbn [map_site_valid] in Hv; change PAGE_SIZE with 4096; lia.
Qed.

Lemma env_dma_fails_at_nonzero bad : env_dma_nonzero (env_dma_fails_at bad).
Proof.
  intros [pd|pd i] a Hv; cbn [pci_map_page env_dma_fails_at].
  - intros [= <-]. cbn [map_site_valid] in Hv. change PAGE_SIZE with 4096. lia.
  - destruct ((pd =? 0) && (i =? bad)); [discriminate|]. intros [= <-].
    cbn [map_site_valid] in Hv. change PAGE_SIZE with 4096. lia.
Qed.

(** X20.  What a successful [gen8_ppgtt_init] for [m] directories holds when
    it returns, where the page-directory block has [n = 1 << order] pages
    with [m <= n <= 4], [get_order] gives the same order for [n] pages, a
    DMA mapping never hands out the address 0 and [pci_dma_mapping_error]
    reports a failed mapping: the [n] pages of the block and 512 table
    pages for each directory, one array of page pointers for each directory
    and one array of DMA addresses for each page of the block, and one DMA
    mapping for each directory and each of its tables, at the addresses
    recorded in [pd_dma_addr] and [gen8_pt_dma_addr]; nothing was unmapped
    that was not mapped and nothing was reserved in the global GTT.
    [gen8_ppgtt_cleanup] of that address space runs without a fault and
    gives all of it back: the resources are those from before the
    initialisation. *)
Theorem gen8_init_then_cleanup_restores (hw : pte_hw) (env : kenv)
    has_llc scratch size (m : Z) r ppgtt r' :
  env_dma_nonzero env -> pci_dma_mapping_error env <> 0 ->
  0 <= size < 2 ^ 60 -> m = (size + (2 ^ 30 - 1)) / 2 ^ 30 ->
  m <= gen8_pd_block env m <= GEN8_LEGACY_PDPS ->
  gen8_pd_block env (gen8_pd_block env m) = gen8_pd_block env m ->
  gen8_ppgtt_init hw env has_llc scratch size r = Some (0, Some ppgtt, r') ->
  (g8_num_pd_pages ppgtt = gen8_pd_block env m /\
   mm_nodes r' = mm_nodes r /\
   pages_live r'
   = pages_live r + gen8_pd_block env m + GEN8_PDES_PER_PAGE * m /\
   kmem_live r' = kmem_live r + m + gen8_pd_block env m /\
   dma_live r'
   = reverse
       (concat
          (zip_with cons (take (Z.to_nat m) (pd_dma_addr ppgtt))
             (take (Z.to_nat m) (gen8_pt_dma_addr ppgtt))))
     ++ dma_live r /\
   Z.of_nat (length (dma_live r'))
   = Z.of_nat (length (dma_live r)) + (GEN8_PDES_PER_PAGE + 1) * m /\
   dma_stray r' = dma_stray r /\ gsm_writes r' = gsm_writes r) /\
  gen8_ppgtt_cleanup env ppgtt r' = Some r.
Proof.
  intros Hnz Herr Hsize -> Hblock Hidem Hinit.
  destruct (gen8_ppgtt_init_res hw env Hnz Herr _ _ _ _ _ _ _
              Hsize Hblock Hidem Hinit)
    as [(Hne & _)|(_ & ppgtt' & L & [= <-] & -> & HL & _ & HLeq & Hn & Hclean)];
    [contradiction|].
  split; [|exact Hclean].
  cbn [res_take mm_nodes pages_live kmem_live dma_live dma_stray gsm_writes
       app].
  split; [exact Hn|]. split; [reflexivity|]. split; [lia|]. split; [lia|].
  split; [now rewrite HLeq|]. split; [|split; reflexivity].
  rewrite length_app, Nat2Z.inj_add, HL. lia.
Qed.

Lemma gen8_init_then_cleanup_restores_witness :
  exists ppgtt r',
    gen8_ppgtt_init i915_hw env_all_ok false 28672 (3 * 2 ^ 30) res_empty
    = Some (0, Some ppgtt, r') /\
    g8_num_pd_pages ppgtt = 4 /\
    pages_live r' = 1540 /\ kmem_live r' = 7 /\
    length (dma_live r') = 1539%nat /\
    gen8_ppgtt_cleanup env_all_ok ppgtt r' = Some res_empty.
Proof.
  destruct (gen8_ppgtt_init_total i915_hw env_all_ok false 28672 (3 * 2 ^ 30)
              res_empty env_all_ok_grants_all)
    as (ppgtt & r' & Hinit);
    [vm_compute; split; congruence|vm_compute; split; congruence|].
  destruct (gen8_init_then_cleanup_restores i915_hw env_all_ok false 28672
              (3 * 2 ^ 30) 3 res_empty ppgtt r' env_all_ok_dma_nonzero)
    as ((Hn & _ & Hp & Hk & _ & Hd & _) & Hclean).
  - discriminate.
  - vm_compute. split; congruence.
  - reflexivity.
  - vm_compute. split; congruence.
  - reflexivity.
  - exact Hinit.
  - exists ppgtt, r'. split; [exact Hinit|].
    split; [exact Hn|]. split; [exact Hp|]. split; [exact Hk|].
    split; [|exact Hclean].
    apply Nat2Z.inj. rewrite Hd. reflexivity.
Defined.

(** X21.  [gen8_ppgtt_init] always returns, under the same assumptions on
    [get_order] and on the DMA mappings, whichever allocation or mapping the
    kernel refuses; and when it returns an error there is no address space
    and nothing is left behind: what was allocated is freed, what was mapped
    is unmapped and nothing else is, so the resources are exactly those
    from before the call. *)
Theorem gen8_init_failure_unwinds (hw : pte_hw) (env : kenv)
    has_llc scratch size (m : Z) r :
  env_dma_nonzero env -> pci_dma_mapping_error env <> 0 ->
  0 <= size < 2 ^ 60 -> m = (size + (2 ^ 30 - 1)) / 2 ^ 30 ->
  m <= gen8_pd_block env m <= GEN8_LEGACY_PDPS ->
  gen8_pd_block env (gen8_pd_block env m) = gen8_pd_block env m ->
  exists ret o r',
    gen8_ppgtt_init hw env has_llc scratch size r = Some (ret, o, r') /\
    (ret <> 0 -> o = None /\ r' = r) /\
    (ret = 0 -> is_Some o).
Proof.
  intros Hnz Herr Hsize -> Hblock Hidem.
  destruct (gen8_ppgtt_init_returns hw env Hnz Herr has_llc scratch size r
              Hsize Hblock Hidem) as (ret & o & r' & Hinit).
  exists ret, o, r'. split; [exact Hinit|].
  destruct (gen8_ppgtt_init_res hw env Hnz Herr _ _ _ _ _ _ _
              Hsize Hblock Hidem Hinit)
    as [(Hne & -> & ->)|(-> & ppgtt & L & -> & _)].
  - split; [auto|]. intros H0. contradiction.
  - split; [intros Hne; contradiction|]. eauto.
Qed.

Lemma gen8_init_failure_unwinds_witness :
  gen8_ppgtt_init i915_hw (env_dma_fails_at 3) false 28672 (3 * 2 ^ 30)
    res_empty = Some (1, None, res_empty).
Proof.
  destruct (gen8_init_failure_unwinds i915_hw (env_dma_fails_at 3) false
              28672 (3 * 2 ^ 30) 3 res_empty (env_dma_fails_at_nonzero 3))
    as (ret & o & r' & Hinit & Hfail & _).
  - discriminate.
  - vm_compute. split; congruence.
  - reflexivity.
  - vm_compute. split; congruence.
  - reflexivity.
  - assert (Hret : ret = 1).
    { assert (Hc : gen8_ppgtt_init i915_hw (env_dma_fails_at 3) false 28672
                     (3 * 2 ^ 30) res_empty = Some (1, None, res_empty))
        by (vm_compute; reflexivity).
      rewrite Hc in Hinit. now injection Hinit as <- _ _. }
    subst ret. destruct (Hfail ltac:(discriminate)) as [-> ->].
    exact Hinit.
Defined.

(** ** Further properties of the atomic helpers *)

(** X4.  [drm_atomic_helper_swap_state] on a transaction whose arrays have
    the sizes of the device's tables always goes through; an object
    (connector, CRTC or plane) that is in the transaction gets the
    transaction's state while the transaction gets the state the object
    had, an object that is not in it keeps its state; and swapping a second
    time gives back the device and the transaction as they were. *)
Theorem swap_state_twice_restores {M : Type} (dev : drm_device M)
    (st : drm_atomic_state M) :
  state_fits dev st ->
  exists dev' st',
    drm_atomic_helper_swap_state dev st = Some (dev', st') /\
    state_fits dev' st' /\
    drm_atomic_helper_swap_state dev' st' = Some (dev, st) /\
    (forall i c, connector_state_of st i = Some c ->
       connector_list dev' !! i = Some c /\
       connector_state_of st' i = connector_list dev !! i) /\
    (forall i, connector_state_of st i = None ->
       connector_list dev' !! i = connector_list dev !! i) /\
    (forall i cs, crtc_state_of st i = Some cs ->
       crtc_list dev' !! i = Some cs /\
       crtc_state_of st' i = crtc_list dev !! i) /\
    (forall i, crtc_state_of st i = None ->
       crtc_list dev' !! i = crtc_list dev !! i) /\
    (forall i ps, plane_states st !! i = Some (Some ps) ->
       exists plane,
         plane_list dev !! i = Some plane /\
         plane_list dev' !! i = Some (plane_set_state plane ps) /\
         plane_states st' !! i = Some (Some (plane_current_state plane))) /\
    (forall i, plane_states st !! i = Some None ->
       plane_list dev' !! i = plane_list dev !! i /\
       plane_states st' !! i = Some None).
Proof.
  intros (Hc & Hk & Hp).
  destruct (swap_loop_twice id (fun (_ : drm_connector_state) new => new)
              ltac:(reflexivity) ltac:(reflexivity)
              (connector_list dev) (connector_states st) Hc)
    as (c1 & cs1 & Hrc & Hlc & Hlcs & Hrc2 & Hcpt).
  destruct (swap_loop_twice id (fun (_ : drm_crtc_state M) new => new)
              ltac:(reflexivity) ltac:(reflexivity)
              (crtc_list dev) (crtc_states st) Hk)
    as (k1 & ks1 & Hrk & Hlk & Hlks & Hrk2 & Hkpt).
  destruct (swap_loop_twice plane_current_state plane_set_state
              ltac:(reflexivity) ltac:(now intros [])
              (plane_list dev) (plane_states st) Hp)
    as (p1 & ps1 & Hrp & Hlp & Hlps & Hrp2 & Hppt).
  eexists _, _. split.
  { unfold drm_atomic_helper_swap_state. rewrite Hrc. cbn [mbind option_bind].
    rewrite Hrk. cbn [mbind option_bind]. rewrite Hrp. reflexivity. }
  split; [repeat split; cbn; congruence|].
  split.
  { unfold drm_atomic_helper_swap_state.
    cbn [connector_list crtc_list plane_list connector_states crtc_states
         plane_states].
    rewrite Hlc, Hrc2. cbn [mbind option_bind].
    rewrite Hlk, Hrk2. cbn [mbind option_bind].
    rewrite Hlp, Hrp2. cbn [mbind option_bind].
    now destruct dev, st. }
  cbn [connector_list crtc_list plane_list connector_states crtc_states
       plane_states].
  unfold connector_state_of, crtc_state_of.
  cbn [connector_states crtc_states].
  split; [|split; [|split; [|split; [|split]]]].
  - intros i c Hi. destruct (Hcpt i) as [-> ->].
    destruct (connector_states st !! i) as [[c'|]|] eqn:Hs; try discriminate.
    injection Hi as ->.
    destruct (lookup_lt_is_Some_2 (connector_list dev) i) as [o ->];
      [apply lookup_lt_Some in Hs; lia|]. auto.
  - intros i Hi. destruct (Hcpt i) as [-> _].
    destruct (connector_states st !! i) as [[c'|]|]; try discriminate; auto.
  - intros i c Hi. destruct (Hkpt i) as [-> ->].
    destruct (crtc_states st !! i) as [[c'|]|] eqn:Hs; try discriminate.
    injection Hi as ->.
    destruct (lookup_lt_is_Some_2 (crtc_list dev) i) as [o ->];
      [apply lookup_lt_Some in Hs; lia|]. auto.
  - intros i Hi. destruct (Hkpt i) as [-> _].
    destruct (crtc_states st !! i) as [[c'|]|]; try discriminate; auto.
  - intros i ps Hi. destruct (Hppt i) as [-> ->]. rewrite Hi.
    destruct (lookup_lt_is_Some_2 (plane_list dev) i) as [plane ->];
      [apply lookup_lt_Some in Hi; lia|].
    exists plane. auto.
  - intros i Hi. destruct (Hppt i) as [-> ->]. rewrite Hi. auto.
Qed.

Lemma swap_state_twice_restores_witness :
  (state_fits routed_device mode_request /\
   exists dev' st',
     drm_atomic_helper_swap_state routed_device mode_request
     = Some (dev', st') /\
     crtc_list dev' !! 0%nat = Some (crtc_on 6) /\
     crtc_state_of st' 0 = Some (crtc_on 5) /\
     drm_atomic_helper_swap_state dev' st'
     = Some (routed_device, mode_request)) /\
  (state_fits two_plane_showing two_plane_request /\
   exists dev' st',
     drm_atomic_helper_swap_state two_plane_showing two_plane_request
     = Some (dev', st') /\
     (plane_current_state <$> plane_list dev' !! 1%nat)
     = Some {| plane_state_crtc := Some 0%nat; fb := Some 8%nat |} /\
     plane_states st' !! 1%nat
     = Some (Some {| plane_state_crtc := Some 0%nat; fb := Some 4%nat |})).
Proof.
  split.
  - assert (Hfits : state_fits routed_device mode_request)
      by (repeat split; reflexivity).
    split; [exact Hfits|].
    destruct (swap_state_twice_restores routed_device mode_request Hfits)
      as (dev' & st' & Hswap & _ & Hback & _ & _ & Hcrtc & _).
    exists dev', st'. split; [exact Hswap|].
    destruct (Hcrtc 0%nat (crtc_on 6) eq_refl) as [Hlive Hold].
    split; [exact Hlive|]. split; [exact Hold|exact Hback].
  - assert (Hfits : state_fits two_plane_showing two_plane_request)
      by (repeat split; reflexivity).
    split; [exact Hfits|].
    destruct (swap_state_twice_restores two_plane_showing two_plane_request
                Hfits)
      as (dev' & st' & Hswap & _ & _ & _ & _ & _ & _ & Hplane & _).
    exists dev', st'. split; [exact Hswap|].
    destruct (Hplane 1%nat _ eq_refl) as (plane & Hp & Hlive & Hold).
    injection Hp as <-. rewrite Hlive, Hold. split; reflexivity.
Defined.

(** X5.  After a successful [drm_atomic_helper_check_prepare], every CRTC
    of the device whose state in the transaction has [mode_changed] set has
    all the connectors that are currently on it in the transaction, and its
    [enable] flag says whether some connector state of the transaction is on
    it. *)
Theorem check_prepare_full_modeset_consistent {M : Type} (F : drm_funcs M)
    (dev : drm_device M) (st st' : drm_atomic_state M) (i : nat)
    (cs : drm_crtc_state M) :
  drm_atomic_helper_check_prepare F dev st = Some (0, st') ->
  (i < length (crtc_list dev))%nat ->
  crtc_state_of st' i = Some cs -> mode_changed cs = true ->
  (forall j c, connector_list dev !! j = Some c -> crtc c = Some i ->
     is_Some (connector_state_of st' j)) /\
  enable cs = negb (Nat.eqb (drm_atomic_connectors_for_crtc st' i) 0).
Proof.
  intros Hrun Hi Hcs Hmc.
  exact (check_prepare_consistent F dev st st' Hrun i cs Hi Hcs Hmc).
Qed.

Lemma check_prepare_full_modeset_consistent_witness :
  drm_atomic_helper_check_prepare shared_encoder_funcs routed_device
    mode_request = Some (0, mode_request_checked) /\
  (0 < length (crtc_list routed_device))%nat /\
  crtc_state_of mode_request_checked 0
  = Some (crtc_state_set_mode_changed (crtc_on 6)) /\
  is_Some (connector_state_of mode_request_checked 0) /\
  drm_atomic_connectors_for_crtc mode_request_checked 0 = 1%nat.
Proof.
  assert (H1 : drm_atomic_helper_check_prepare shared_encoder_funcs
                 routed_device mode_request
               = Some (0, mode_request_checked)) by reflexivity.
  assert (H2 : (0 < length (crtc_list routed_device))%nat) by (simpl; lia).
  assert (H3 : crtc_state_of mode_request_checked 0
               = Some (crtc_state_set_mode_changed (crtc_on 6)))
    by reflexivity.
  destruct (check_prepare_full_modeset_consistent shared_encoder_funcs
              routed_device mode_request mode_request_checked 0%nat
              (crtc_state_set_mode_changed (crtc_on 6)) H1 H2 H3 eq_refl)
    as [Hin Hen].
  split; [exact H1|]. split; [exact H2|]. split; [exact H3|].
  split; [exact (Hin 0%nat _ eq_refl eq_refl)|reflexivity].
Defined.

(** X6.  A [drm_atomic_helper_commit] that returns an error has changed
    neither the device nor the transaction.  With [async] it is [-EBUSY]
    and no hook was called; otherwise the error is that of the
    [prepare_fb] hook of some plane [i] of the transaction, no plane after
    [i] was touched, and [cleanup_fb] was called on the planes before [i],
    highest first. *)
Theorem commit_failure_unwinds {M : Type} (F : drm_funcs M)
    (dev dev' : drm_device M) (st : drm_atomic_state M) (async : bool)
    (ret : Z) (st' : option (drm_atomic_state M)) (tr : list commit_event) :
  drm_atomic_helper_commit F dev st async = Some (ret, dev', st', tr) ->
  ret <> 0 ->
  dev' = dev /\ st' = Some st /\
  if async then ret = - EBUSY /\ tr = []
  else exists i ps f funcs hook pre undo,
    (i < length (plane_list dev))%nat /\
    plane_states st !! i = Some (Some ps) /\ fb ps = Some f /\
    plane_helper_private F i = Some funcs /\
    prepare_fb funcs = Some hook /\ hook f = ret /\
    mapM (cleanup_plane F st) (reverse (seq 0 i)) = Some undo /\
    tr = pre ++ [PrepareFb i f] ++ concat undo /\
    forall e, e ∈ pre -> exists j g, e = PrepareFb j g /\ (j < i)%nat.
Proof.
  unfold drm_atomic_helper_commit. destruct async.
  { intros [= <- <- <- <-] _. auto. }
  destruct (drm_atomic_helper_prepare_planes F dev st) as [[r tr0]|] eqn:Hprep;
    [|discriminate]. cbn [mbind option_bind].
  destruct (Z.eqb_spec r 0) as [->|Hne]; cbn [negb].
  { destruct (drm_atomic_helper_swap_state dev st) as [[d s]|];
      [|discriminate]. cbn [mbind option_bind].
    destruct (drm_atomic_helper_cleanup_planes F d s); [|discriminate].
    intros [= <- _ _ _] Hz. contradiction. }
  intros [= <- <- <- <-] _. split; [reflexivity|]. split; [reflexivity|].
  unfold drm_atomic_helper_prepare_planes in Hprep.
  apply prepare_planes_loop_spec in Hprep as [[Hz _]|Hfail];
    [contradiction|].
  destruct Hfail as (_ & ixs1 & i & ixs2 & ps & f & funcs & hook & pre &
                     undo & Hsplit & Hps & Hfb & Hpriv & Hhook & Hf & Hundo &
                     Htr & Hpre).
  apply seq_split_at in Hsplit as [-> Hi].
  rewrite app_nil_r in Hundo.
  exists i, ps, f, funcs, hook, pre, undo.
  do 7 (split; [assumption|]). split; [exact Htr|].
  intros e He. destruct (Hpre e He) as (j & g & -> & Hj).
  exists j, g. split; [reflexivity|]. apply elem_of_seq in Hj. lia.
Qed.

Lemma commit_failure_unwinds_witness :
  drm_atomic_helper_commit pin_fails_funcs two_plane_device
    two_plane_request false
  = Some (- ENOMEM, two_plane_device, Some two_plane_request,
          [PrepareFb 0 7; PrepareFb 1 8; CleanupFb 0 7]) /\
  - ENOMEM <> 0 /\
  exists i f pre undo,
    (i < 2)%nat /\
    mapM (cleanup_plane pin_fails_funcs two_plane_request)
      (reverse (seq 0 i)) = Some undo /\
    [PrepareFb 0 7; PrepareFb 1 8; CleanupFb 0 7]
    = pre ++ [PrepareFb i f] ++ concat undo.
Proof.
  assert (H : drm_atomic_helper_commit pin_fails_funcs two_plane_device
                two_plane_request false
              = Some (- ENOMEM, two_plane_device, Some two_plane_request,
                      [PrepareFb 0 7; PrepareFb 1 8; CleanupFb 0 7]))
    by reflexivity.
  assert (Hne : - ENOMEM <> 0) by discriminate.
  split; [exact H|]. split; [exact Hne|].
  destruct (commit_failure_unwinds _ _ _ _ _ _ _ _ H Hne)
    as (_ & _ & i & ps & f & funcs & hook & pre & undo & Hi & _ & _ & _ & _
        & _ & Hundo & Htr & _).
  exists i, f, pre, undo. auto.
Defined.

(** X16.  A [drm_atomic_helper_commit] that succeeds on a transaction sized
    like the device has swapped the states and freed the transaction.
    Before the swap it called [prepare_fb] only on framebuffers of the new
    plane states; after the hardware steps, which come in the order fences,
    pre-planes, planes, post-planes, vblanks, it called [cleanup_fb] only on
    framebuffers the planes of the transaction were showing before the
    commit. *)
Theorem commit_prepares_new_cleans_old {M : Type} (F : drm_funcs M)
    (dev dev' : drm_device M) (st : drm_atomic_state M)
    (st' : option (drm_atomic_state M)) (tr : list commit_event) :
  state_fits dev st ->
  drm_atomic_helper_commit F dev st false = Some (0, dev', st', tr) ->
  st' = None /\
  (exists old, drm_atomic_helper_swap_state dev st = Some (dev', old)) /\
  exists pre post,
    tr = pre ++ [WaitForFences; CommitPrePlanes; CommitPlanes;
                 CommitPostPlanes; WaitForVblanks] ++ post ++ [StateFree] /\
    (forall e, e ∈ pre ->
       exists i f ps, e = PrepareFb i f /\
         plane_states st !! i = Some (Some ps) /\ fb ps = Some f) /\
    (forall e, e ∈ post ->
       exists i f plane, e = CleanupFb i f /\
         is_Some (plane_states st !! i ≫= id) /\
         plane_list dev !! i = Some plane /\
         fb (plane_current_state plane) = Some f).
Proof.
  intros (Hc & Hk & Hp). unfold drm_atomic_helper_commit.
  destruct (drm_atomic_helper_prepare_planes F dev st) as [[r tr0]|] eqn:Hprep;
    [|discriminate]. cbn [mbind option_bind].
  destruct (Z.eqb_spec r 0) as [->|Hne]; cbn [negb].
  2:{ intros [= Hz _ _ _]. contradiction. }
  destruct (drm_atomic_helper_swap_state dev st) as [[d old]|] eqn:Hswap;
    [|discriminate]. cbn [mbind option_bind].
  destruct (drm_atomic_helper_cleanup_planes F d old) as [undo|] eqn:Hclean;
    [|discriminate]. cbn [mbind option_bind].
  intros [= <- <- <-]. split; [reflexivity|]. split; [eauto|].
  unfold drm_atomic_helper_prepare_planes in Hprep.
  apply prepare_planes_loop_events in Hprep as (pre & -> & Hpre).
  exists pre, undo. split; [reflexivity|]. split; [exact Hpre|].
  (* what the swap left in the transaction's plane array *)
  unfold drm_atomic_helper_swap_state in Hswap.
  destruct (for_each _ _ (connector_list dev, _)) as [[c1 cs1]|];
    [|discriminate]. cbn [mbind option_bind] in Hswap.
  destruct (for_each _ _ (crtc_list dev, _)) as [[k1 ks1]|];
    [|discriminate]. cbn [mbind option_bind] in Hswap.
  destruct (swap_loop_twice plane_current_state plane_set_state
              ltac:(reflexivity) ltac:(now intros [])
              (plane_list dev) (plane_states st) Hp)
    as (p1 & ps1 & Hrp & _ & _ & _ & Hppt).
  rewrite Hrp in Hswap. cbn [mbind option_bind] in Hswap.
  injection Hswap as <- <-.
  unfold drm_atomic_helper_cleanup_planes in Hclean.
  destruct (mapM _ _) as [evs|] eqn:Hm; [|discriminate].
  cbn [mbind option_bind] in Hclean. injection Hclean as <-.
  intros e He.
  destruct (cleanup_planes_events F _ _ _ Hm e He) as (i & f & ps & -> & Hi & Hf).
  cbn [plane_states] in Hi. destruct (Hppt i) as [_ Hst]. rewrite Hst in Hi.
  destruct (plane_states st !! i) as [[new|]|] eqn:Hnew; try discriminate.
  destruct (plane_list dev !! i) as [plane|] eqn:Hplane; [|discriminate].
  injection Hi as <-.
  exists i, f, plane. split; [reflexivity|].
  split; [exists new; now rewrite Hnew|]. split; [exact Hplane|exact Hf].
Qed.

Lemma commit_prepares_new_cleans_old_witness :
  state_fits two_plane_showing two_plane_request /\
  exists dev',
    drm_atomic_helper_commit pin_ok_funcs two_plane_showing
      two_plane_request false
    = Some (0, dev', None,
            [PrepareFb 0 7; PrepareFb 1 8; WaitForFences; CommitPrePlanes;
             CommitPlanes; CommitPostPlanes; WaitForVblanks;
             CleanupFb 0 3; CleanupFb 1 4; StateFree]) /\
    exists old,
      drm_atomic_helper_swap_state two_plane_showing two_plane_request
      = Some (dev', old).
Proof.
  assert (Hfits : state_fits two_plane_showing two_plane_request)
    by (repeat split).
  split; [exact Hfits|].
  eexists. split; [reflexivity|].
  destruct (commit_prepares_new_cleans_old pin_ok_funcs two_plane_showing _
              two_plane_request _ _ Hfits eq_refl) as (_ & Hswap & _).
  exact Hswap.
Defined.

(** X17.  What [update_connector_routing] leaves for a connector that is in
    the transaction when it returns 0: the connector state still points at
    the CRTC that was asked for, and its [best_encoder] is the encoder the
    connector's [best_encoder] hook picks if there is a CRTC, NULL if there
    is none, so that [best_encoder] is set exactly when [crtc] is.  If the
    encoder had to be changed, the state of the CRTC has [mode_changed]
    set. *)
Theorem update_connector_routing_sets_encoder {M : Type} (F : drm_funcs M)
    (dev : drm_device M) (st st' : drm_atomic_state M) (i : nat)
    (c0 : drm_connector_state) :
  connector_states st !! i = Some (Some c0) ->
  update_connector_routing F dev st i = Some (0, st') ->
  exists c',
    connector_states st' !! i = Some (Some c') /\
    crtc c' = crtc c0 /\
    best_encoder c'
    = match crtc c0 with
      | Some _ => connector_best_encoder F i
      | None => None
      end /\
    (is_Some (best_encoder c') <-> is_Some (crtc c')) /\
    forall k, crtc c0 = Some k ->
      connector_best_encoder F i <> best_encoder c0 ->
      exists cs, crtc_state_of st' k = Some cs /\ mode_changed cs = true.
Proof.
  intros Hslot. unfold update_connector_routing. rewrite Hslot.
  cbn [mbind option_bind].
  destruct (connector_list dev !! i) as [live|]; cbn [mbind option_bind];
    [|discriminate].
  (* the flags set for a changed CRTC leave the connector states alone *)
  match goal with
  | |- context [mbind _ ?first] =>
      destruct first as [st1|] eqn:Hfirst; cbn [mbind option_bind];
        [|discriminate]
  end.
  assert (H1 : connector_states st1 = connector_states st).
  { destruct (decide (crtc live = crtc c0)); [now injection Hfirst as <-|].
    destruct (match crtc live with
              | Some idx => mark_mode_changed st idx
              | None => Some st
              end) as [sta|] eqn:Ha; cbn [mbind option_bind] in Hfirst;
      [|discriminate].
    assert (connector_states sta = connector_states st).
    { destruct (crtc live); [|now injection Ha as <-].
      now apply mark_mode_changed_connectors in Ha. }
    destruct (crtc c0); [|injection Hfirst as <-; assumption].
    apply mark_mode_changed_connectors in Hfirst. congruence. }
  destruct (crtc c0) as [k0|] eqn:Hcrtc.
  2:{ intros [= <-]. eexists. unfold put_connector_state.
      cbn [connector_states set_connector_states].
      rewrite list_lookup_insert_eq
        by (rewrite H1; now apply lookup_lt_Some in Hslot).
      split; [reflexivity|]. cbn [crtc best_encoder].
      split; [reflexivity|]. split; [reflexivity|].
      split; [split; intros [? ?]; discriminate|]. intros k. discriminate. }
  destruct (connector_best_encoder F i) as [new_encoder|] eqn:Hbest;
    [|discriminate].
  destruct (decide (Some new_encoder = best_encoder c0)) as [Hkeep|Hchange].
  { intros [= <-]. exists c0. rewrite H1.
    split; [exact Hslot|]. split; [exact Hcrtc|].
    split; [now symmetry|]. rewrite <- Hkeep, Hcrtc.
    split; [split; eauto|]. intros k _ Hne. contradiction. }
  match goal with
  | |- context [mbind _ ?steal] =>
      destruct steal as [[r st2]|] eqn:Hsteal; cbn [mbind option_bind];
        [|discriminate]
  end.
  destruct (Z.eqb_spec r 0) as [->|Hne]; cbn [negb];
    [|intros [= Hz _]; contradiction].
  assert (H2 : kept_or_detached i c0 st2).
  { assert (Hk1 : kept_or_detached i c0 st1)
      by (exists c0; rewrite H1; auto).
    destruct (get_current_crtc_for_encoder dev new_encoder) as [ec|].
    - exact (steal_encoder_kept F dev _ _ _ _ _ _ _ Hsteal Hk1).
    - now injection Hsteal as <-. }
  destruct H2 as (c & Hc & Hor). unfold connector_state_of.
  rewrite Hc. cbn [mbind option_bind].
  destruct (crtc c) as [idx|] eqn:Hidx; cbn [mbind option_bind];
    [|discriminate].
  destruct Hor as [-> | Hnone]; [|congruence].
  destruct (mark_mode_changed _ idx) as [st3|] eqn:Hmark;
    cbn [mbind option_bind]; [|discriminate].
  intros [= <-].
  assert (idx = k0) as -> by congruence.
  pose proof (mark_mode_changed_connectors _ _ _ Hmark) as H3.
  pose proof (mark_mode_changed_flag _ _ _ Hmark) as Hflag.
  eexists. rewrite H3. unfold put_connector_state.
  cbn [connector_states set_connector_states].
  rewrite list_lookup_insert_eq by (now apply lookup_lt_Some in Hc).
  split; [reflexivity|]. cbn [crtc best_encoder].
  split; [reflexivity|]. split; [reflexivity|].
  split; [split; eauto|].
  intros k Hk _. injection Hk as <-. exact Hflag.
Qed.

Lemma update_connector_routing_sets_encoder_witness :
  exists st',
    update_connector_routing shared_encoder_funcs routed_device
      steal_request 1
    = Some (0, st') /\
    connector_states st' !! 1%nat
    = Some (Some {| crtc := Some 1%nat; best_encoder := Some 0%nat |}) /\
    connector_states st' !! 0%nat
    = Some (Some {| crtc := None; best_encoder := None |}).
Proof.
  eexists. split; [reflexivity|].
  destruct (update_connector_routing_sets_encoder shared_encoder_funcs
              routed_device steal_request _ 1%nat _ eq_refl eq_refl)
    as (c' & Hc' & Hcrtc & Hbest & _).
  split; [|reflexivity].
  rewrite Hc'. destruct c' as [k e]. cbn in Hcrtc, Hbest. now subst.
Defined.

(** X18.  A [drm_atomic_helper_check] that returns 0 means that the
    transaction went through [drm_atomic_helper_check_prepare] with 0 and
    that every driver check accepted what it was shown: for every plane of
    the transaction whose helper has an [atomic_check] hook the hook returned
    0 on the plane's new state, and for every CRTC state in the transaction
    whose CRTC has an [atomic_check] hook the hook returned 0 on the state
    the transaction ends with.  The plane and connector states are those the
    prepare step left. *)
Theorem check_success_all_hooks_accept {M : Type} (F : drm_funcs M)
    (dev : drm_device M) (st st' : drm_atomic_state M) :
  drm_atomic_helper_check F dev st = Some (0, st') ->
  (exists st1,
     drm_atomic_helper_check_prepare F dev st = Some (0, st1) /\
     plane_states st' = plane_states st1 /\
     connector_states st' = connector_states st1) /\
  (forall i ps funcs check,
     (i < length (plane_list dev))%nat ->
     plane_states st' !! i = Some (Some ps) ->
     plane_helper_private F i = Some funcs ->
     plane_atomic_check funcs = Some check -> check ps = 0) /\
  (forall i cs check,
     (i < length (crtc_list dev))%nat ->
     crtc_states st' !! i = Some (Some cs) ->
     crtc_atomic_check F i = Some check -> check cs = 0).
Proof.
  unfold drm_atomic_helper_check.
  destruct (drm_atomic_helper_check_prepare F dev st) as [[r st1]|] eqn:Hprep;
    cbn [mbind option_bind]; [|discriminate].
  destruct (Z.eqb_spec r 0) as [->|Hne]; cbn [negb];
    [|intros [= Hz _]; contradiction].
  match goal with
  | |- context [mbind _ ?planes] =>
      destruct planes as [[r2 st2]|] eqn:Hplanes; cbn [mbind option_bind];
        [|discriminate]
  end.
  destruct (Z.eqb_spec r2 0) as [->|Hne]; cbn [negb];
    [|intros [= Hz _]; contradiction].
  intros Hcrtcs.
  apply (for_each_ret_post
           (fun s => plane_states s = plane_states st1 /\
                     connector_states s = connector_states st1)
           (fun i s => forall ps funcs check,
                plane_states s !! i = Some (Some ps) ->
                plane_helper_private F i = Some funcs ->
                plane_atomic_check funcs = Some check -> check ps = 0))
    in Hplanes as ([Hp2 Hc2] & _ & Hhooks); [| |auto].
  2:{ intros i s s' Hbody [Hps Hcs].
      destruct (plane_states s !! i) as [[ps|]|] eqn:Hi;
        cbn [mbind option_bind] in Hbody; try discriminate.
      2:{ injection Hbody as <-. split; [auto|]. split; [|auto].
          intros ps funcs check Hps'. congruence. }
      destruct (plane_list dev !! i) as [plane|];
        cbn [mbind option_bind] in Hbody; [|discriminate].
      destruct (drm_atomic_helper_plane_changed s ps plane) as [s1|] eqn:Hch;
        cbn [mbind option_bind] in Hbody; [|discriminate].
      destruct (plane_changed_frame _ _ _ _ Hch) as (Hp1 & Hc1 & _).
      assert (Hs' : s' = s1 /\
                forall funcs check, plane_helper_private F i = Some funcs ->
                  plane_atomic_check funcs = Some check -> check ps = 0).
      { destruct (plane_helper_private F i) as [[[check|] pf cf]|].
        - injection Hbody as Hz <-. split; [reflexivity|].
          intros funcs check' [= <-] [= <-]. exact Hz.
        - injection Hbody as <-. split; [reflexivity|].
          intros funcs check' [= <-]. discriminate.
        - injection Hbody as <-. split; [reflexivity|]. discriminate. }
      destruct Hs' as [-> Hcheck].
      split; [split; congruence|]. split.
      - intros ps' funcs check Hps'. rewrite Hp1, Hi in Hps'.
        injection Hps' as <-. apply Hcheck.
      - intros j Hq ps' funcs check. rewrite Hp1. apply Hq. }
  apply (for_each_ret_post
           (fun s => s = st2)
           (fun i s => forall cs check,
                crtc_states s !! i = Some (Some cs) ->
                crtc_atomic_check F i = Some check -> check cs = 0))
    in Hcrtcs as (-> & _ & Hchecks); [| |reflexivity].
  2:{ intros i s s' Hbody ->.
      destruct (crtc_states st2 !! i) as [[cs|]|] eqn:Hi;
        cbn [mbind option_bind] in Hbody; try discriminate.
      - destruct (crtc_atomic_check F i) as [check|].
        + injection Hbody as Hz <-. split; [reflexivity|]. split; [|auto].
          intros cs' check' Hcs' [= <-]. congruence.
        + injection Hbody as <-. split; [reflexivity|]. split; [|auto].
          discriminate.
      - injection Hbody as <-. split; [reflexivity|]. split; [|auto].
        intros cs' check' Hcs'. congruence. }
  split; [eauto|]. split.
  - intros i ps funcs check Hi. apply Hhooks. apply elem_of_seq. lia.
  - intros i cs check Hi. apply Hchecks. apply elem_of_seq. lia.
Qed.

Lemma check_success_all_hooks_accept_witness :
  exists st',
    drm_atomic_helper_check checking_funcs two_plane_showing
      two_plane_request = Some (0, st') /\
    plane_states st' = plane_states two_plane_request /\
    forall ps, plane_states st' !! 1%nat = Some (Some ps) ->
      match fb ps with Some _ => 0 | None => - EINVAL end = 0.
Proof.
  eexists. split; [reflexivity|].
  destruct (check_success_all_hooks_accept checking_funcs two_plane_showing
              two_plane_request _ eq_refl) as (_ & Hplanes & _).
  split; [reflexivity|].
  intros ps Hps.
  exact (Hplanes 1%nat ps _ _ ltac:(simpl; lia) Hps eq_refl eq_refl).
Defined.

(** ** The check and the asynchronous commit of the atomic helpers *)

(** C1 (code at the failing input).  One CRTC that is off and two connectors
    that are not routed, both served by encoder 0.  The transaction turns the
    CRTC on with both connectors on it.  [update_connector_routing] looks for
    the encoder in the current states only ([get_current_crtc_for_encoder]),
    finds it free both times, and gives it to both connectors:
    [drm_atomic_helper_check] returns 0 and the two connector states of the
    transaction hold the same encoder. *)
Theorem check_accepts_shared_encoder :
  exists st',
    drm_atomic_helper_check shared_encoder_funcs idle_device clone_request
    = Some (0, st') /\
    connector_state_of st' 0
    = Some {| crtc := Some 0%nat; best_encoder := Some 0%nat |} /\
    connector_state_of st' 1
    = Some {| crtc := Some 0%nat; best_encoder := Some 0%nat |}.
Proof. eexists. repeat split. Qed.

(** C7.  [drm_atomic_helper_check_prepare] and the CRTCs that need a full
    modeset, which are those whose state in the transaction has
    [mode_changed] set.

    Why a CRTC needs one.  If the function returns 0, a CRTC of the
    transaction whose requested mode is not the current one
    ([drm_mode_equal]), or whose [enable] is not the current one, needs a
    full modeset, and its [enable] is the requested one.  So does the CRTC
    that a connector of the transaction is currently on, if the connector
    was asked onto another CRTC or off; and the CRTC that a connector of the
    transaction is on in the end, if that is not the one it is currently on.

    What is done for one.  If the function returns 0, then for every CRTC of
    the device that needs a full modeset all the connectors currently on
    that CRTC are in the transaction, and the CRTC's [enable] flag says
    whether some connector state of the transaction is on it.

    Where the last loop reaches such a CRTC, the connectors currently on it
    are taken into the transaction, and the loop returns [-EINVAL] if the
    flag and the count disagree.  Whatever
    [drm_atomic_helper_check_prepare] returns other than 0 is [-EINVAL] or
    the code of a failed acquisition, and [drm_atomic_helper_check] returns
    it as it is, without consulting any plane or CRTC hook.  The device's
    current states are only read: the result is a code and the
    transaction. *)
Theorem check_prepare_full_modeset_or_error {M : Type} (F : drm_funcs M)
    (dev : drm_device M) (st : drm_atomic_state M) :
  (forall st',
     drm_atomic_helper_check_prepare F dev st = Some (0, st') ->
     (forall i cs0 live,
        crtc_state_of st i = Some cs0 -> crtc_list dev !! i = Some live ->
        drm_mode_equal F (mode live) (mode cs0) = false \/
        enable live <> enable cs0 ->
        exists cs, crtc_state_of st' i = Some cs /\ mode_changed cs = true /\
                   enable cs = enable cs0) /\
     (forall j c live,
        connector_state_of st j = Some c ->
        connector_list dev !! j = Some live ->
        (forall x, crtc live = Some x -> crtc c <> Some x ->
           needs_full_modeset st' x) /\
        (forall c' y, connector_state_of st' j = Some c' ->
           crtc c' = Some y -> crtc live <> Some y ->
           needs_full_modeset st' y))) /\
  (forall st',
     drm_atomic_helper_check_prepare F dev st = Some (0, st') ->
     forall i cs, (i < length (crtc_list dev))%nat ->
       crtc_state_of st' i = Some cs -> mode_changed cs = true ->
       (forall j c, connector_list dev !! j = Some c -> crtc c = Some i ->
          is_Some (connector_state_of st' j)) /\
       enable cs = negb (Nat.eqb (drm_atomic_connectors_for_crtc st' i) 0)) /\
  (forall i cs st1,
     crtc_states st !! i = Some (Some cs) -> mode_changed cs = true ->
     drm_atomic_add_affected_connectors F dev st i = Some (0, st1) ->
     (forall j c, connector_list dev !! j = Some c -> crtc c = Some i ->
        is_Some (connector_state_of st1 j)) /\
     (enable cs <> negb (Nat.eqb (drm_atomic_connectors_for_crtc st1 i) 0) ->
      check_full_modeset F dev st i = Some (- EINVAL, st1))) /\
  (forall ret st',
     drm_atomic_helper_check_prepare F dev st = Some (ret, st') ->
     ret <> 0 ->
     check_error F ret /\
     drm_atomic_helper_check F dev st = Some (ret, st')).
Proof.
  split; [|split; [|split]].
  - intros st' Hrun. exact (check_prepare_marks F dev st st' Hrun).
  - intros st' Hrun i cs Hi Hcs Hmc.
    exact (check_prepare_consistent F dev st st' Hrun i cs Hi Hcs Hmc).
  - intros i cs st1 Hslot Hmc Hadd. split.
    + apply (add_affected_connectors_pulled F dev st i 0 st1);
        [|exact Hadd|reflexivity].
      unfold crtc_state_of. rewrite Hslot. simpl. eauto.
    + intros Hne.
      rewrite (check_full_modeset_mismatch F dev st i cs st1 Hslot Hmc Hadd).
      destruct (eqb _ _) eqn:He; [|reflexivity].
      apply eqb_prop in He. contradiction.
  - intros ret st' Hrun Hne. split.
    + destruct (check_prepare_code F dev st ret st' Hrun) as [H0|He];
        [contradiction|exact He].
    + now apply check_stops_at_prepare.
Qed.

Lemma check_prepare_full_modeset_or_error_witness :
  (drm_atomic_helper_check_prepare shared_encoder_funcs routed_device
     mode_request = Some (0, mode_request_checked) /\
   needs_full_modeset mode_request_checked 0 /\
   is_Some (connector_state_of mode_request_checked 0) /\
   drm_atomic_connectors_for_crtc mode_request_checked 0 = 1%nat) /\
  (exists st',
     drm_atomic_helper_check_prepare shared_encoder_funcs idle_device
       clone_request = Some (0, st') /\
     needs_full_modeset st' 0) /\
  (drm_atomic_add_affected_connectors shared_encoder_funcs routed_device
     disable_request_marked 0 = Some (0, disable_request_pulled) /\
   is_Some (connector_state_of disable_request_pulled 0) /\
   check_full_modeset shared_encoder_funcs routed_device
     disable_request_marked 0 = Some (- EINVAL, disable_request_pulled)) /\
  (drm_atomic_helper_check_prepare shared_encoder_funcs routed_device
     disable_request = Some (- EINVAL, disable_request_pulled) /\
   check_error shared_encoder_funcs (- EINVAL) /\
   drm_atomic_helper_check shared_encoder_funcs routed_device disable_request
   = Some (- EINVAL, disable_request_pulled)).
Proof.
  split; [|split; [|split]].
  - assert (H1 : drm_atomic_helper_check_prepare shared_encoder_funcs
                   routed_device mode_request
                 = Some (0, mode_request_checked)) by reflexivity.
    destruct (check_prepare_full_modeset_or_error shared_encoder_funcs
                routed_device mode_request) as (Hwhy & Hdone & _).
    destruct (Hwhy mode_request_checked H1) as [Hmode _].
    destruct (Hmode 0%nat (crtc_on 6) (crtc_on 5) eq_refl eq_refl
                ltac:(left; reflexivity)) as (cs & Hcs & Hmc & _).
    destruct (Hdone mode_request_checked H1 0%nat cs
                ltac:(simpl; lia) Hcs Hmc) as [Hin _].
    split; [exact H1|]. split; [exists cs; auto|].
    split; [exact (Hin 0%nat _ eq_refl eq_refl)|reflexivity].
  - eexists.
    assert (H1 : drm_atomic_helper_check_prepare shared_encoder_funcs
                   idle_device clone_request = Some (0, _)) by reflexivity.
    split; [exact H1|].
    destruct (check_prepare_full_modeset_or_error shared_encoder_funcs
                idle_device clone_request) as (Hwhy & _).
    destruct (Hwhy _ H1) as [_ Hroute].
    destruct (Hroute 0%nat {| crtc := Some 0%nat; best_encoder := None |}
                unrouted eq_refl eq_refl) as [_ Hnew].
    apply (Hnew {| crtc := Some 0%nat; best_encoder := Some 0%nat |} 0%nat);
      [reflexivity|reflexivity|discriminate].
  - assert (H1 : drm_atomic_add_affected_connectors shared_encoder_funcs
                   routed_device disable_request_marked 0
                 = Some (0, disable_request_pulled)) by reflexivity.
    destruct (check_prepare_full_modeset_or_error shared_encoder_funcs
                routed_device disable_request_marked) as (_ & _ & Hloop & _).
    destruct (Hloop 0%nat (crtc_state_set_mode_changed (crtc_off 5))
                disable_request_pulled eq_refl eq_refl H1) as [Hin Hfail].
    split; [exact H1|].
    split; [exact (Hin 0%nat _ eq_refl eq_refl)|].
    apply Hfail. discriminate.
  - assert (H1 : drm_atomic_helper_check_prepare shared_encoder_funcs
                   routed_device disable_request
                 = Some (- EINVAL, disable_request_pulled)) by reflexivity.
    destruct (check_prepare_full_modeset_or_error shared_encoder_funcs
                routed_device disable_request) as (_ & _ & _ & Herrs).
    destruct (Herrs (- EINVAL) disable_request_pulled H1 ltac:(discriminate))
      as [Herr Hcheck].
    split; [exact H1|]. split; [exact Herr|exact Hcheck].
Defined.

(** C9.  [drm_atomic_helper_commit] with [async] set returns [-EBUSY] at
    once, for every driver, device and transaction: the device and the
    transaction come back as they were given and no hook has run, neither
    [prepare_fb] on a plane nor anything after it. *)
Theorem commit_async_is_busy {M : Type} (F : drm_funcs M)
    (dev : drm_device M) (st : drm_atomic_state M) :
  drm_atomic_helper_commit F dev st true = Some (- EBUSY, dev, Some st, []) /\
  - EBUSY <> 0.
Proof. split; [reflexivity|discriminate]. Qed.

(** X9.  [clear_range] of the global GTT ([gen6_ggtt_clear_range] or
    [gen8_ggtt_clear_range]) on a table that has an entry for every page of
    [total].  If the first entry of the range is in the table, it runs
    without a fault, writes the scratch encoding (valid exactly when
    [use_scratch] is set) to the entries of the range that exist and to
    nothing else, and warns exactly when the range runs past the end of the
    table, in which case it stops at the last entry.  If the range starts at
    the end of the table or past it, the call is a fault whatever the
    length: there is no entry for the posting read that closes it. *)
Theorem ggtt_clear_range_stays_in_table (hw : pte_hw) (g : i915_gtt)
    (start length : Z) (use_scratch : bool) :
  ggtt_ok g -> 0 <= start < 2 ^ 44 -> 0 <= length < 2 ^ 44 ->
  if decide (start / PAGE_SIZE < gtt_total_entries g) then
    exists g',
      ggtt_clear_range hw g start length use_scratch
      = Some (g', bool_decide (gtt_total_entries g
                               < start / PAGE_SIZE + length / PAGE_SIZE)) /\
      ggtt_ok g' /\ gtt_total g' = gtt_total g /\
      forall k, 0 <= k < gtt_total_entries g ->
        gsm g' !! Z.to_nat k
        = if decide (start / PAGE_SIZE <= k
                     < start / PAGE_SIZE + length / PAGE_SIZE)
          then Some (ggtt_scratch_pte hw g use_scratch)
          else gsm g !! Z.to_nat k
  else ggtt_clear_range hw g start length use_scratch = None.
Proof.
  intros Hok Hs Hl. destruct (decide _) as [Hin|Hout].
  - destruct (ggtt_clear_range_spec hw g start length use_scratch Hok
                ltac:(lia) Hin Hl) as (entries & Hrun & Hlen & Hk).
    exists (gtt_set_gsm g entries). split; [exact Hrun|].
    split; [now apply ggtt_ok_set_gsm|]. split; [reflexivity|exact Hk].
  - apply ggtt_clear_range_past_end; [exact Hok|exact Hs|lia].
Qed.

Lemma ggtt_clear_range_stays_in_table_witness :
  (exists g',
     ggtt_clear_range i915_hw demo_ggtt (14 * PAGE_SIZE) (4 * PAGE_SIZE) false
     = Some (g', true) /\
     gsm g' !! 13%nat = Some 28677 /\ gsm g' !! 14%nat = Some 28676 /\
     gsm g' !! 15%nat = Some 28676 /\ gsm g' !! 16%nat = None) /\
  ggtt_clear_range i915_hw demo_ggtt (16 * PAGE_SIZE) 0 true = None.
Proof.
  split.
  - pose proof (ggtt_clear_range_stays_in_table i915_hw demo_ggtt
                  (14 * PAGE_SIZE) (4 * PAGE_SIZE) false demo_ggtt_ok
                  ltac:(vm_compute; split; congruence)
                  ltac:(vm_compute; split; congruence)) as H.
    destruct (decide _) as [_|Hout] in H;
      [|exfalso; apply Hout; vm_compute; reflexivity].
    destruct H as (g' & Hrun & [_ Hlen] & Htot & Hk).
    exists g'. split; [exact Hrun|].
    split; [exact (Hk 13 ltac:(vm_compute; split; congruence))|].
    split; [exact (Hk 14 ltac:(vm_compute; split; congruence))|].
    split; [exact (Hk 15 ltac:(vm_compute; split; congruence))|].
    apply lookup_ge_None. unfold gtt_total_entries in Hlen.
    rewrite Htot in Hlen.
    apply Nat2Z.inj_le. rewrite Hlen. vm_compute. congruence.
  - pose proof (ggtt_clear_range_stays_in_table i915_hw demo_ggtt
                  (16 * PAGE_SIZE) 0 true demo_ggtt_ok
                  ltac:(vm_compute; split; congruence)
                  ltac:(vm_compute; split; congruence)) as H.
    destruct (decide _) as [Hin|_] in H; [|exact H].
    exfalso. revert Hin. vm_compute. discriminate.
Defined.

(** X10.  [insert_entries] of the global GTT ([gen6_ggtt_insert_entries] or
    [gen8_ggtt_insert_entries]) for pages that fit in the table: it runs
    without a fault and writes the valid encodings of the pages, in order,
    to the entries from [start >> PAGE_SHIFT] on, leaving every other entry
    as it was.  The posting read of the last entry finds the value written,
    so the only warning there can be is one raised by the gen6 encoder. *)
Theorem ggtt_insert_entries_writes_pages (hw : pte_hw) (g : i915_gtt)
    (pages : list Z) (start : Z) (level : i915_cache_level) (flags : Z) :
  0 <= start < 2 ^ 44 ->
  start / PAGE_SIZE + Z.of_nat (List.length pages)
  <= Z.of_nat (List.length (gsm g)) ->
  exists g',
    ggtt_insert_entries hw g pages start level flags
    = Some (g',
            match ggtt_gen_of g with
            | GGTT_GEN6 =>
              existsb (fun addr => snd (gtt_pte_encode g addr level true flags))
                pages
            | GGTT_GEN8 => false
            end) /\
    List.length (gsm g') = List.length (gsm g) /\
    forall k, 0 <= k ->
      gsm g' !! Z.to_nat k
      = if decide (start / PAGE_SIZE <= k
                   < start / PAGE_SIZE + Z.of_nat (List.length pages))
        then (ggtt_page_pte hw g level flags <$> pages)
               !! Z.to_nat (k - start / PAGE_SIZE)
        else gsm g !! Z.to_nat k.
Proof.
  intros Hs Hfit.
  destruct (ggtt_insert_entries_spec hw g pages start level flags Hs Hfit)
    as (entries & Hrun & Hlen & Hk).
  exists (gtt_set_gsm g entries). auto.
Qed.

Lemma ggtt_insert_entries_writes_pages_witness :
  exists g',
    ggtt_insert_entries i915_hw demo_ggtt demo_pages (6 * PAGE_SIZE)
      I915_CACHE_NONE 0
    = Some (g', false) /\
    gsm g' !! 5%nat = Some 28677 /\ gsm g' !! 6%nat = Some 65539 /\
    gsm g' !! 9%nat = Some 2162691 /\ gsm g' !! 10%nat = Some 28677.
Proof.
  destruct (ggtt_insert_entries_writes_pages i915_hw demo_ggtt demo_pages
              (6 * PAGE_SIZE) I915_CACHE_NONE 0)
    as (g' & Hrun & _ & Hk).
  - vm_compute. split; congruence.
  - vm_compute. congruence.
  - exists g'. split; [exact Hrun|].
    split; [exact (Hk 5 ltac:(lia))|].
    split; [exact (Hk 6 ltac:(lia))|].
    split; [exact (Hk 9 ltac:(lia))|exact (Hk 10 ltac:(lia))].
Defined.

Ltac vma_step :=
  cbn [mbind option_bind obj node_start obj_size obj_pages gt_ro
       has_global_gtt_mapping has_aliasing_ppgtt_mapping obj_set_mappings
       gtt aliasing_ppgtt negb orb gsm gtt_set_gsm].

(** X11.  Binding an object that is not bound yet with [ggtt_bind_vma] and
    unbinding it with [ggtt_unbind_vma] is a round trip.  The bind sets the
    global mapping flag exactly when there is no aliasing PPGTT or
    [GLOBAL_BIND] is among the flags, and the aliasing mapping flag exactly
    when there is an aliasing PPGTT.  After the unbind both flags are clear
    again, the entries of the VMA in each table that was written hold that
    table's valid scratch encoding, and every other entry of the global GTT
    and of the aliasing PPGTT is as it was before the bind. *)
Theorem ggtt_bind_then_unbind (hw : pte_hw) (GLOBAL_BIND : Z)
    (dev : ggtt_dev) (vma : i915_vma)
    (obj_cache_level cache_level : i915_cache_level) (flags : Z) :
  ggtt_ok (gtt dev) -> vma_in_ggtt (gtt dev) vma ->
  0 < Z.of_nat (List.length (obj_pages (obj vma))) ->
  obj_size (obj vma)
  = Z.of_nat (List.length (obj_pages (obj vma))) * PAGE_SIZE ->
  (forall a, aliasing_ppgtt dev = Some a -> vm_ok a /\ vma_in_vm a vma) ->
  has_global_gtt_mapping (obj vma) = false ->
  has_aliasing_ppgtt_mapping (obj vma) = false ->
  exists dev1 vma1 dev2,
    ggtt_bind_vma hw GLOBAL_BIND dev vma obj_cache_level cache_level flags
    = Some (dev1, vma1) /\
    has_global_gtt_mapping (obj vma1)
    = negb (bool_decide (is_Some (aliasing_ppgtt dev)))
      || negb (Z.land (if gt_ro (obj vma)
                       then Z.lor flags (PTE_READ_ONLY hw) else flags)
                 GLOBAL_BIND =? 0) /\
    has_aliasing_ppgtt_mapping (obj vma1)
    = bool_decide (is_Some (aliasing_ppgtt dev)) /\
    ggtt_unbind_vma hw dev1 vma1 = Some (dev2, vma) /\
    (forall k, 0 <= k < gtt_total_entries (gtt dev) ->
       gsm (gtt dev2) !! Z.to_nat k
       = if decide (has_global_gtt_mapping (obj vma1) = true /\
                    node_start vma / PAGE_SIZE <= k
                    < node_start vma / PAGE_SIZE
                      + Z.of_nat (List.length (obj_pages (obj vma))))
         then Some (ggtt_scratch_pte hw (gtt dev) true)
         else gsm (gtt dev) !! Z.to_nat k) /\
    match aliasing_ppgtt dev with
    | Some a =>
      exists a2,
        aliasing_ppgtt dev2 = Some a2 /\
        forall k,
          vm_pte_at a2 k
          = if decide (node_start vma / PAGE_SIZE <= k
                       < node_start vma / PAGE_SIZE
                         + Z.of_nat (List.length (obj_pages (obj vma))))
            then Some (vm_scratch_pte hw a) else vm_pte_at a k
    | None => aliasing_ppgtt dev2 = None
    end.
Proof.
  intros Hok Hin Hpos Hsz Hal Hg Ha.
  destruct (vma_in_ggtt_bounds _ _ Hok Hin) as (Hs44 & Hz44 & Hfit).
  destruct vma as [start [size pages ro glob alias]].
  cbn [obj node_start obj_size obj_pages gt_ro has_global_gtt_mapping
       has_aliasing_ppgtt_mapping] in *.
  subst glob alias size.
  rewrite Z.div_mul in Hfit by discriminate.
  set (n := Z.of_nat (List.length pages)) in *.
  set (flags' := if ro then Z.lor flags (PTE_READ_ONLY hw) else flags).
  (* the two table operations on the global GTT *)
  destruct (ggtt_insert_entries_spec hw (gtt dev) pages start cache_level
              flags' Hs44) as (e1 & Hins & Hlen1 & Hk1).
  { rewrite (proj2 Hok). exact Hfit. }
  pose proof (ggtt_ok_set_gsm _ e1 Hok Hlen1) as Hok1.
  destruct (ggtt_clear_range_spec hw (gtt_set_gsm (gtt dev) e1) start
              (n * PAGE_SIZE) true Hok1) as (e2 & Hclr & Hlen2 & Hk2).
  { lia. }
  { change (gtt_total_entries (gtt_set_gsm (gtt dev) e1))
      with (gtt_total_entries (gtt dev)). lia. }
  { exact Hz44. }
  rewrite Z.div_mul in Hclr, Hk2 by discriminate.
  change (gtt_total_entries (gtt_set_gsm (gtt dev) e1))
    with (gtt_total_entries (gtt dev)) in Hclr, Hk2.
  change (ggtt_scratch_pte hw (gtt_set_gsm (gtt dev) e1) true)
    with (ggtt_scratch_pte hw (gtt dev) true) in Hk2.
  change (gtt_set_gsm (gtt_set_gsm (gtt dev) e1) e2)
    with (gtt_set_gsm (gtt dev) e2) in Hclr.
  assert (Hglobal : forall k, 0 <= k < gtt_total_entries (gtt dev) ->
            e2 !! Z.to_nat k
            = if decide (start / PAGE_SIZE <= k < start / PAGE_SIZE + n)
              then Some (ggtt_scratch_pte hw (gtt dev) true)
              else gsm (gtt dev) !! Z.to_nat k).
  { intros k Hk. rewrite (Hk2 k Hk). destruct (decide _); [reflexivity|].
    cbn [gsm gtt_set_gsm]. rewrite (Hk1 k) by lia.
    destruct (decide _); [lia|reflexivity]. }
  unfold ggtt_bind_vma. vma_step. fold flags'.
  destruct (aliasing_ppgtt dev) as [a|] eqn:Halias.
  - destruct (Hal a eq_refl) as [Hoka (Hsa & _ & Hina)].
    cbn [obj node_start obj_size] in Hsa, Hina.
    destruct (vm_insert_then_clear hw a pages start cache_level flags' Hoka
                Hsa Hpos Hina) as (a1 & tr1 & a2 & tr2 & Hia & Hca & Hka).
    fold n in Hca, Hka.
    rewrite (bool_decide_eq_true_2 (is_Some (Some a)))
      by (eexists; reflexivity).
    destruct (Z.land flags' GLOBAL_BIND =? 0).
    + vma_step. rewrite Hia. vma_step.
      eexists _, _, _. split; [reflexivity|].
      unfold ggtt_unbind_vma. vma_step.
      rewrite Hca. vma_step.
      split; [reflexivity|]. split; [reflexivity|]. split; [reflexivity|].
      split; [|vma_step; eauto].
      intros k Hk. vma_step.
      destruct (decide _) as [[? _]|_]; [discriminate|reflexivity].
    + vma_step. rewrite Hins. vma_step. rewrite Hia. vma_step.
      eexists _, _, _. split; [reflexivity|].
      unfold ggtt_unbind_vma. vma_step.
      rewrite Hclr. vma_step. rewrite Hca. vma_step.
      split; [reflexivity|]. split; [reflexivity|]. split; [reflexivity|].
      split; [|vma_step; eauto].
      intros k Hk. vma_step. rewrite (Hglobal k Hk).
      repeat destruct (decide _); try reflexivity; intuition lia.
  - rewrite (bool_decide_eq_false_2 (is_Some (@None ppgtt_vm)))
      by (intros [? ?]; discriminate).
    vma_step. rewrite Hins. vma_step.
    eexists _, _, _. split; [reflexivity|].
      unfold ggtt_unbind_vma. vma_step.
    rewrite Hclr. vma_step.
    split; [reflexivity|]. split; [reflexivity|]. split; [reflexivity|].
    split; [|reflexivity].
    intros k Hk. vma_step. rewrite (Hglobal k Hk).
    repeat destruct (decide _); try reflexivity; intuition lia.
Qed.

Lemma ggtt_bind_then_unbind_witness :
  exists dev1 vma1 dev2,
    ggtt_bind_vma i915_hw 1 demo_ggtt_dev demo_ggtt_vma I915_CACHE_NONE
      I915_CACHE_LLC 1
    = Some (dev1, vma1) /\
    has_global_gtt_mapping (obj vma1) = true /\
    has_aliasing_ppgtt_mapping (obj vma1) = true /\
    ggtt_unbind_vma i915_hw dev1 vma1 = Some (dev2, demo_ggtt_vma) /\
    gsm (gtt dev2) !! 6%nat = Some 28677.
Proof.
  destruct (ggtt_bind_then_unbind i915_hw 1 demo_ggtt_dev demo_ggtt_vma
              I915_CACHE_NONE I915_CACHE_LLC 1 demo_ggtt_ok)
    as (dev1 & vma1 & dev2 & Hbind & Hg & Ha & Hunbind & Hk & _).
  - repeat split; vm_compute; congruence.
  - reflexivity.
  - reflexivity.
  - intros a [= <-]. split; [exact demo_gen6_ok|].
    repeat split; vm_compute; congruence.
  - reflexivity.
  - reflexivity.
  - exists dev1, vma1, dev2. split; [exact Hbind|].
    split; [exact Hg|]. split; [exact Ha|]. split; [exact Hunbind|].
    specialize (Hk 6 ltac:(vm_compute; split; congruence)).
    rewrite Hg in Hk. exact Hk.
Defined.

(** X13.  On gen8 and gen9 (Cherryview apart) the size of the global GTT
    that [gen8_gmch_probe] decodes from the control word, whatever the word
    is, is 0, 1GB, 2GB or 4GB, and with a 32-bit [size_t] at most 2GB, so the
    computation never wraps.  [__hw_ppgtt_init] passes that size to
    [gen8_ppgtt_init], which then needs at most the four page directories
    of the hardware: when the environment grants every request, it succeeds
    and the PPGTT it builds spans exactly the range of the global GTT. *)
Theorem gen8_probe_total_fits_ppgtt (h : gmch_hw) (CONFIG_X86_32 : bool)
    (hw : pte_hw) (env : kenv) (dev : intel_device) (g : i915_gtt)
    (snb_gmch_ctl : Z) (r : kres) :
  BDW_GMCH_GGMS_MASK h = 3 -> 0 <= BDW_GMCH_GGMS_SHIFT h ->
  0 <= snb_gmch_ctl < 2 ^ 16 ->
  8 <= info_gen dev -> IS_GEN8 dev || IS_GEN9 dev = true ->
  9 <= info_gen dev \/ IS_CHERRYVIEW dev = false ->
  gtt_total g = (gen8_gmch_probe_sizes h CONFIG_X86_32 dev snb_gmch_ctl).1 ->
  env_grants_all env ->
  (forall n, 0 <= n <= GEN8_LEGACY_PDPS ->
     n <= gen8_pd_block env n <= GEN8_LEGACY_PDPS) ->
  (gtt_total g = 0 \/ gtt_total g = 2 ^ 30 \/ gtt_total g = 2 ^ 31 \/
   (CONFIG_X86_32 = false /\ gtt_total g = 2 ^ 32)) /\
  exists ppgtt r',
    __hw_ppgtt_init hw env dev g r = Some (0, Some (Gen8Vm ppgtt), r') /\
    gen8_ppgtt_ok ppgtt /\ g8_total ppgtt = gtt_total g.
Proof.
  intros Hm Hs Hc Hgen H89 Hchv Htot Henv Hblock.
  assert (Hsize : exists v, 0 <= v <= 3 /\
            gtt_total g
            = match v with
              | 0 => 0
              | 1 => 2 ^ 30
              | 2 => 2 ^ 31
              | _ => if CONFIG_X86_32 then 2 ^ 31 else 2 ^ 32
              end).
  { destruct (gen8_total_gtt_size_cases h CONFIG_X86_32 snb_gmch_ctl Hm Hs Hc)
      as (v & Hv & Hsz).
    exists v. split; [exact Hv|]. rewrite Htot.
    unfold gen8_gmch_probe_sizes.
    assert (Hpick : (if 9 <=? info_gen dev
                     then (gen9_get_stolen_size h CONFIG_X86_32 snb_gmch_ctl,
                           gen8_get_total_gtt_size h CONFIG_X86_32 snb_gmch_ctl)
                     else if IS_CHERRYVIEW dev
                          then (chv_get_stolen_size h CONFIG_X86_32 snb_gmch_ctl,
                                chv_get_total_gtt_size h snb_gmch_ctl)
                          else (gen8_get_stolen_size h CONFIG_X86_32 snb_gmch_ctl,
                                gen8_get_total_gtt_size h CONFIG_X86_32
                                  snb_gmch_ctl)).2
                    = gen8_get_total_gtt_size h CONFIG_X86_32 snb_gmch_ctl).
    { destruct (Z.leb_spec 9 (info_gen dev)); [reflexivity|].
      destruct Hchv as [?| ->]; [lia|reflexivity]. }
    destruct (if 9 <=? info_gen dev then _ else _) as [stolen gtt_size].
    cbn [snd] in Hpick. subst gtt_size. cbn [fst]. rewrite Hsz.
    assert (v = 0 \/ v = 1 \/ v = 2 \/ v = 3) as [-> | [-> | [-> | ->]]]
      by lia; destruct CONFIG_X86_32; reflexivity. }
  destruct Hsize as (v & Hv & Hsz).
  assert (Hle : 0 <= gtt_total g <= GEN8_LEGACY_PDPS * 2 ^ 30 /\
                (gtt_total g + (2 ^ 30 - 1)) / 2 ^ 30 * 2 ^ 30 = gtt_total g /\
                0 <= (gtt_total g + (2 ^ 30 - 1)) / 2 ^ 30 <= GEN8_LEGACY_PDPS).
  { rewrite Hsz.
    assert (v = 0 \/ v = 1 \/ v = 2 \/ v = 3) as [-> | [-> | [-> | ->]]]
      by lia; try destruct CONFIG_X86_32; vm_compute; repeat split; congruence. }
  destruct Hle as (Hrange & Hround & Hpdp).
  split.
  { rewrite Hsz.
    assert (v = 0 \/ v = 1 \/ v = 2 \/ v = 3) as [-> | [-> | [-> | ->]]]
      by lia; try destruct CONFIG_X86_32; auto. }
  destruct (gen8_ppgtt_init_total hw env (HAS_LLC dev) (gtt_scratch_addr g)
              (gtt_total g) r Henv Hrange (Hblock _ Hpdp))
    as (ppgtt & r' & Hinit).
  assert (H60 : 0 <= gtt_total g < 2 ^ 60).
  { change GEN8_LEGACY_PDPS with 4 in Hrange.
    change (2 ^ 30) with 1073741824 in Hrange.
    change (2 ^ 60) with 1152921504606846976. lia. }
  destruct (gen8_ppgtt_init_scratch hw env _ _ _ _ _ _ H60 Hinit)
    as (Hok & _ & Htotal & _).
  exists ppgtt, r'. unfold __hw_ppgtt_init.
  destruct (Z.ltb_spec (info_gen dev) 8); [lia|].
  rewrite H89, Hinit. split; [reflexivity|]. split; [exact Hok|].
  now rewrite Htotal.
Qed.

Lemma env_all_ok_pd_block n :
  0 <= n <= GEN8_LEGACY_PDPS ->
  n <= gen8_pd_block env_all_ok n <= GEN8_LEGACY_PDPS.
Proof.
  intros Hn. change GEN8_LEGACY_PDPS with 4 in *.
  assert (n = 0 \/ n = 1 \/ n = 2 \/ n = 3 \/ n = 4)
    as [-> | [-> | [-> | [-> | ->]]]] by lia;
    vm_compute; split; congruence.
Qed.

Lemma gen8_probe_total_fits_ppgtt_witness :
  (gen8_gmch_probe_sizes i915_gmch false demo_bdw 128).1 = 2 ^ 31 /\
  exists ppgtt r',
    __hw_ppgtt_init i915_hw env_all_ok demo_bdw
      demo_bdw_ggtt res_empty
    = Some (0, Some (Gen8Vm ppgtt), r') /\
    g8_total ppgtt = 2 ^ 31.
Proof.
  split; [reflexivity|].
  destruct (gen8_probe_total_fits_ppgtt i915_gmch false i915_hw env_all_ok
              demo_bdw
              demo_bdw_ggtt 128 res_empty)
    as (_ & ppgtt & r' & Hinit & _ & Htot).
  - reflexivity.
  - discriminate.
  - vm_compute. split; congruence.
  - discriminate.
  - reflexivity.
  - right. reflexivity.
  - reflexivity.
  - exact env_all_ok_grants_all.
  - exact env_all_ok_pd_block.
  - exists ppgtt, r'. split; [exact Hinit|exact Htot].
Defined.

(** X14.  [sanitize_enable_ppgtt] returns 0, 1 or 2.  It returns 2 (full
    PPGTT) exactly when 2 was asked for on a device of generation 7 or later
    that is not gen8; it returns 0 whenever 0 was asked for or the device is
    older than gen6; and an explicit request for 1 on gen6 or later is
    granted as it is, before the VT-d and early-Valleyview checks are
    reached. *)
Theorem sanitize_enable_ppgtt_modes (CONFIG_INTEL_IOMMU : bool)
    (dev : intel_device) (enable_ppgtt : Z) :
  let mode := sanitize_enable_ppgtt CONFIG_INTEL_IOMMU dev enable_ppgtt in
  (mode = 0 \/ mode = 1 \/ mode = 2) /\
  (mode = 2 <->
   enable_ppgtt = 2 /\ 7 <= info_gen dev /\ IS_GEN8 dev = false) /\
  (enable_ppgtt = 0 \/ info_gen dev < 6 -> mode = 0) /\
  (enable_ppgtt = 1 -> 6 <= info_gen dev -> mode = 1).
Proof.
  unfold sanitize_enable_ppgtt. cbv zeta.
  destruct (Z.eqb_spec enable_ppgtt 0) as [->|H0];
    destruct (Z.leb_spec 6 (info_gen dev)) as [H6|H6]; cbn [orb negb].
  1,2,4: (split; [auto|]; split; [split; [discriminate|lia]|];
          split; [auto|]; intros; lia).
  destruct (Z.eqb_spec enable_ppgtt 1) as [->|H1].
  { split; [auto|]. split; [split; [discriminate|lia]|].
    split; [intros [?|?]; lia|auto]. }
  destruct (Z.eqb_spec enable_ppgtt 2) as [->|H2];
    destruct (Z.leb_spec 7 (info_gen dev)) as [H7|H7];
    destruct (IS_GEN8 dev); cbn [andb];
    try (split; [auto|]; split; [split; [auto|intros _; reflexivity]|];
         split; [intros [?|?]; lia|intros; lia]);
    (destruct (CONFIG_INTEL_IOMMU && (info_gen dev =? 6)
               && intel_iommu_gfx_mapped dev);
     [|destruct (IS_VALLEYVIEW dev && negb (IS_CHERRYVIEW dev)
                 && (pdev_revision dev <? 11))];
     (split; [auto|]; split;
      [split; [discriminate|intros (? & ? & ?); first [lia|discriminate]]|];
      split; [intros [?|?]; lia|intros; lia])).
Qed.

Lemma sanitize_enable_ppgtt_modes_witness :
  sanitize_enable_ppgtt true demo_bdw 1 = 1 /\
  sanitize_enable_ppgtt true demo_bdw 2 <> 2.
Proof.
  pose proof (sanitize_enable_ppgtt_modes true demo_bdw 1) as (_ & _ & _ & H1).
  pose proof (sanitize_enable_ppgtt_modes true demo_bdw 2) as (_ & H2 & _).
  split.
  - apply H1; [reflexivity|vm_compute; congruence].
  - intros Heq. apply H2 in Heq as (_ & _ & Hgen8). discriminate.
Defined.

(** X15.  [gen6_gmch_probe] refuses an aperture smaller than 64MB or larger
    than 512MB with [-ENXIO].  Otherwise, for the two-bit GGMS and five-bit
    GMS fields of the control word, the size of the global GTT it stores is
    the GGMS field in gigabytes and the stolen size the GMS field in units of
    32MB; neither computation wraps, also when [size_t] has 32 bits. *)
Theorem gen6_gmch_probe_sizes_decoded (h : gmch_hw) (CONFIG_X86_32 : bool)
    (mappable_end snb_gmch_ctl : Z) :
  SNB_GMCH_GGMS_MASK h = 3 -> 0 <= SNB_GMCH_GGMS_SHIFT h ->
  SNB_GMCH_GMS_MASK h = 31 -> 0 <= SNB_GMCH_GMS_SHIFT h ->
  0 <= snb_gmch_ctl < 2 ^ 16 ->
  match gen6_gmch_probe_sizes h CONFIG_X86_32 mappable_end snb_gmch_ctl with
  | inl ret =>
    ret = - ENXIO /\
    (mappable_end < 64 * 2 ^ 20 \/ 512 * 2 ^ 20 < mappable_end)
  | inr (gtt_total, stolen) =>
    64 * 2 ^ 20 <= mappable_end <= 512 * 2 ^ 20 /\
    gtt_total
    = Z.shiftr snb_gmch_ctl (SNB_GMCH_GGMS_SHIFT h) mod 4 * 2 ^ 30 /\
    stolen
    = Z.shiftr snb_gmch_ctl (SNB_GMCH_GMS_SHIFT h) mod 32 * 2 ^ 25
  end.
Proof.
  intros Hgm Hgs Hsm Hss Hc. unfold gen6_gmch_probe_sizes.
  change (Z.shiftl 64 20) with (64 * 2 ^ 20).
  change (Z.shiftl 512 20) with (512 * 2 ^ 20).
  destruct (Z.ltb_spec mappable_end (64 * 2 ^ 20)) as [Hlo|Hlo];
    [split; [reflexivity|now left]|].
  destruct (Z.gtb_spec mappable_end (512 * 2 ^ 20)) as [Hhi|Hhi];
    [split; [reflexivity|right; lia]|].
  cbn [orb]. split; [lia|].
  assert (Hsh : forall s, 0 <= s ->
            u16 (Z.shiftr snb_gmch_ctl s) = Z.shiftr snb_gmch_ctl s).
  { intros s Hs0. apply u16_small. rewrite Z.shiftr_div_pow2 by exact Hs0.
    split; [apply Z.div_pos; lia|].
    apply Z.div_lt_upper_bound; [lia|].
    assert (1 <= 2 ^ s) by (apply (Z.pow_le_mono_r 2 0 s); lia). nia. }
  unfold gen6_get_total_gtt_size, gen6_get_stolen_size.
  rewrite Hgm, Hsm, !Hsh, land_ones_2, land_ones_5 by assumption.
  set (ggms := Z.shiftr snb_gmch_ctl (SNB_GMCH_GGMS_SHIFT h) mod 4).
  set (gms := Z.shiftr snb_gmch_ctl (SNB_GMCH_GMS_SHIFT h) mod 32).
  assert (Hggms : 0 <= ggms < 4) by (apply Z.mod_pos_bound; lia).
  assert (Hgms : 0 <= gms < 32) by (apply Z.mod_pos_bound; lia).
  rewrite !u16_small by lia. unfold PAGE_SHIFT.
  rewrite !Z.shiftl_mul_pow2 by lia.
  change (2 ^ 20) with 1048576. change (2 ^ 25) with 33554432.
  change (2 ^ 30) with 1073741824.
  rewrite !s32_small by lia.
  rewrite (u32_small (ggms * 1048576)) by lia.
  replace (ggms * 1048576) with (ggms * 262144 * 4) by lia.
  rewrite Z.div_mul by discriminate.
  change (2 ^ 12) with 4096.
  rewrite !size_t_small by lia. split; lia.
Qed.

Lemma gen6_gmch_probe_sizes_decoded_witness :
  gen6_gmch_probe_sizes i915_gmch true (256 * 2 ^ 20) 592
  = inr (2 * 2 ^ 30, 10 * 2 ^ 25).
Proof.
  pose proof (gen6_gmch_probe_sizes_decoded i915_gmch true (256 * 2 ^ 20) 592
                eq_refl ltac:(discriminate) eq_refl ltac:(discriminate)
                ltac:(vm_compute; split; congruence)) as Hspec.
  destruct (gen6_gmch_probe_sizes i915_gmch true (256 * 2 ^ 20) 592)
    as [ret|[total stolen]] eqn:Hrun.
  - destruct Hspec as [_ [Hlo|Hhi]]; vm_compute in *; congruence.
  - destruct Hspec as (_ & -> & ->). reflexivity.
Defined.

(** X19.  [gen8_mm_switch] on an initialised gen8 PPGTT writes the page
    directory pointers from the highest directory in use down to 0, six
    words for each: the upper and the lower half of the directory's DMA
    address, which together are the address, each behind its load-register
    command and register.  If [intel_ring_begin] fails for an entry, the
    switch returns that error at once, having written only the entries above
    it. *)
Theorem gen8_mm_switch_loads_directories (rh : ring_hw)
    (ring_begin : Z -> Z) (ppgtt : gen8_ppgtt) (ring : list Z) :
  gen8_ppgtt_ok ppgtt ->
  (length (gen8_pt_pages ppgtt) <= length (pd_dma_addr ppgtt))%nat ->
  (forall a, a ∈ pd_dma_addr ppgtt -> 0 <= a < 2 ^ 64) ->
  let n := Z.of_nat (length (gen8_pt_pages ppgtt)) in
  let words i :=
    pdp_words rh i (default 0 (pd_dma_addr ppgtt !! Z.to_nat i)) in
  ((forall i, 0 <= i < n -> ring_begin i = 0) ->
   Ring.gen8_mm_switch rh ring_begin ppgtt ring
   = Some (0, ring ++ flat_map words (reverse (seqZ 0 n)))) /\
  (forall k, 0 <= k < n -> ring_begin k <> 0 ->
     (forall i, k < i < n -> ring_begin i = 0) ->
     Ring.gen8_mm_switch rh ring_begin ppgtt ring
     = Some (ring_begin k,
             ring ++ flat_map words (reverse (seqZ (k + 1) (n - k - 1))))) /\
  (forall a, a ∈ pd_dma_addr ppgtt ->
     Z.lor (Z.shiftl (u32 (Z.shiftr a 32)) 32) (u32 a) = a).
Proof.
  intros (_ & Hlen & Hle & _) Hdma Hrange n words.
  change GEN8_LEGACY_PDPS with 4 in Hle.
  change GEN8_PDES_PER_PAGE with 512 in Hlen.
  assert (Hused : s32 (u32 (g8_num_pd_entries ppgtt) / GEN8_PDES_PER_PAGE) = n).
  { rewrite <- Hlen. change GEN8_PDES_PER_PAGE with 512.
    fold n. fold n in Hle.
    rewrite u32_small by lia. rewrite Z.div_mul by discriminate.
    apply s32_small. lia. }
  assert (Hslot : forall i, 0 <= i < n ->
            0 <= i < 4 /\ is_Some (pd_dma_addr ppgtt !! Z.to_nat i)).
  { intros i Hi. fold n in Hle. split; [lia|].
    apply lookup_lt_is_Some_2. unfold n in Hi. lia. }
  unfold Ring.gen8_mm_switch. rewrite Hused.
  split; [|split].
  - intros Hok. apply pdp_loop_ok. intros i Hi.
    apply elem_of_reverse, elem_of_seqZ in Hi.
    destruct (Hslot i ltac:(lia)). auto using Hok with lia.
  - intros k Hk Hbad Hok.
    replace n with (k + (1 + (n - k - 1))) at 1 by lia.
    rewrite seqZ_app by lia. rewrite (seqZ_app _ 1) by lia.
    rewrite !reverse_app. change (reverse (seqZ (0 + k) 1)) with [0 + k].
    rewrite Z.add_0_l, <- app_assoc. cbn [app].
    destruct (Hslot k Hk) as [Hk4 Hks].
    apply pdp_loop_fails; auto.
    intros i Hi. apply elem_of_reverse, elem_of_seqZ in Hi.
    destruct (Hslot i ltac:(lia)). auto using Hok with lia.
  - intros a Ha. apply split_64. auto.
Qed.

Lemma gen8_mm_switch_loads_directories_witness :
  Ring.gen8_mm_switch demo_ring (fun _ => 0) demo_gen8 [7]
  = Some (0, [7; 285212673; 8820; 0; 285212673; 8816; 2097152]) /\
  Ring.gen8_mm_switch demo_ring (fun _ => - ENOSPC) demo_gen8 [7]
  = Some (- ENOSPC, [7]).
Proof.
  destruct (gen8_mm_switch_loads_directories demo_ring (fun _ => 0)
              demo_gen8 [7] demo_gen8_ok)
    as (Hok & _ & _).
  { simpl. lia. }
  { intros a Ha. apply list_elem_of_singleton in Ha as ->.
    vm_compute. split; congruence. }
  destruct (gen8_mm_switch_loads_directories demo_ring (fun _ => - ENOSPC)
              demo_gen8 [7] demo_gen8_ok)
    as (_ & Hfail & _).
  { simpl. lia. }
  { intros a Ha. apply list_elem_of_singleton in Ha as ->.
    vm_compute. split; congruence. }
  split.
  - rewrite Hok by reflexivity. reflexivity.
  - rewrite (Hfail 0); [reflexivity| | |].
    + vm_compute. split; congruence.
    + discriminate.
    + intros i Hi. simpl in Hi. lia.
Defined.
